(* ===== verification/_CoqProject ===== *)
-Q . S2P
Prelude.v
Zend.v
Numeric.v
ZendClass.v
Url.v
UrlCode.v
Query.v
QueryBounds.v
PostData.v
Regex.v
IniScanner.v
IniParser.v
IniText.v
Server.v
Date.v
Output.v
Capture.v
Engine.v
Request.v
QueryText.v
Multipart.v
MultipartText.v
Route.v
RouteStatic.v
RouteSimple.v
RouteMap.v
RouteRewrite.v
Router.v
Response.v
Wire.v
Cookie.v
View.v
Store.v
Registry.v
ZendHash.v
Config.v
Ini.v
IniFile.v
Superglobals.v
World.v
Loader.v
Controller.v
Dispatcher.v
Application.v
Serve.v
Classes.v
