(* ===== verification/Prelude.v ===== *)
(** * Verification of the Yaf framework

    Yaf is a web framework that is a C extension of PHP 7.1: the application's
    controllers, plugins and templates are PHP, everything between the request and
    them is C.  This library models the C of [src/*.c], [src/requests],
    [src/routes], [src/responses], [src/views] and [src/configs], and as much of the
    vendored [src/php-7.1.3] as Yaf computes with, and proves what makes its parts
    correct, or what keeps them from it.

    ** How a request runs

    Before Yaf sees it, PHP has made arrays of the query string, the cookies, the posted
    form and what the server passes on.  [Yaf_Application] reads the configuration, usually
    an ini file, into the module globals and makes the request, the dispatcher with its router, and the loader.  [run] hands the request
    to [yaf_dispatcher_dispatch]: plugin hooks, the router's scan over the routes,
    which fill in module, controller, action and parameters, then the loop that
    finds and loads the controller's class, runs the action, renders its template
    through the view into the response, and repeats while the action forwards.  An
    exception that is pending at a checkpoint goes to the error controller or to the
    caller.  What a template prints is caught in a buffer of PHP's output layer; what the
    response sends goes through that layer to the server, behind the headers.

    ** Files

    - [Prelude]: byte strings, record update, the monad [St] of state with undefined
      behaviour, list lemmas, the databases [yaf] and [st] and the tactic [st_run].
    - [Zend]: PHP values, the ordered hash tables of [zend_hash.c], C strings and
      tokens, numeric strings ([zend_operators.c], [main/reentrancy.c],
      [ext/standard/string.c]), and [Runtime], what is left to libraries.
    - [Numeric]: printing of numbers into a buffer, [php_implode]; [Url] and [UrlCode]:
      [ext/standard/url.c], its parser and its encoders; [ZendHash]: the representation of the hash tables of
      [zend_hash.c], of which the tables of [Zend] are proved to be the specification;
      [ZendClass]: classes, their slots, inheritance and [instanceof]
      ([zend_API.c], [zend_inheritance.c]).
    - [Query]: query strings, cookies and forms as arrays and back
      ([main/php_variables.c], [ext/standard/http.c]); [QueryBounds]: what they become is
      bounded; [PostData]: forms that arrive in pieces; [QueryText]: the round trip of an
      array through a query string, up to the request that reads it; [Multipart]: the
      reader of bodies of several parts with files ([main/rfc1867.c]), through its buffer;
      [MultipartText]: the forms that a client writes so; [Superglobals]: the
      arrays [_GET] to [_REQUEST], built at the start of a request or when code that names
      them is compiled.
    - [Regex]: the rules of a scanner and the longest match; [IniScanner], [IniParser]:
      [zend_ini_scanner.l] and [zend_ini_parser.y]; [IniText]: sections and entries that
      are written as text are reported as they were.
    - [Server]: the headers and the code of a response ([main/SAPI.c], the functions of
      [ext/standard/head.c]) and the head that [sapi/cgi/cgi_main.c] writes, over a state
      [srv] that ends in the bytes on the wire; [Output]: the stack of buffers of
      [main/output.c] and its functions; [Capture]: scripts that print, and the buffer in
      which [views/yaf_view_simple.c] catches a template; [Date]: dates of time stamps
      ([ext/date]), as the headers of cookies need them.
    - [Engine]: the globals [YAF_G] of [php_yaf.h] and [yaf.c], superglobals,
      pending exceptions, [yaf_exception.c], the application's record.
    - [Request]: [yaf_request.c] and [requests/].
    - [Route]: the six kinds of routes and how they are made
      ([routes/yaf_route_interface.c] and the constructors), and
      [yaf_router_parse_parameters]; [RouteStatic] (static and supervar routes),
      [RouteSimple], [RouteMap], [RouteRewrite] (rewrite and regex routes): the
      route and the assemble function of each; [Router]: [yaf_router.c].
    - [Response]: [yaf_response.c] and [responses/], over any server ([ResponseServer]);
      [Wire]: over the server of [Server] and [Output]; [Cookie]: the cookies of
      [ext/standard/head.c], set in one response and read in the next request.
    - [View]: the variables of [views/yaf_view_simple.c].
    - [Store]: arrays with an internal pointer, and [MapStore], the interface of a
      store of named values; [Registry]: [yaf_registry.c] and [yaf_session.c] behind
      it; [Config]: [configs/yaf_config_simple.c] and the methods of
      [configs/yaf_config_ini.c]; [Ini]: the callbacks of the ini parser in the same
      file, on a heap of arrays, since sections share nested arrays, the inheritance
      of sections, and [yaf_config_instance], which makes an application's
      configuration; [IniFile]: what these callbacks compute, as a function on values,
      and the way from the text of a file to the configuration.
    - [World]: classes, objects by handle, and the class [UserCode].
    - [Loader]: [yaf_loader.c]; [Controller]: [yaf_controller.c] and the rendering
      half of the view; [Dispatcher]: [yaf_dispatcher.c], the hooks and the
      exception macros; [Application]: [yaf_application.c] and the bootstrap.
    - [Classes]: the startup functions of all files, which register the classes, and
      [PHP_MINIT_FUNCTION] of [yaf.c]; [Serve]: the parts together, from the address of
      a request to its page.

    ** Conventions

    A C function is a definition of the same name where the name is free; a PHP
    method that shares its name with others carries its class in front
    ([session_get], [simple_get], [controller_forward]).  A function that neither
    fails nor leaves its arguments is a plain function.  The others are computations
    [M A = St engine A] over the engine, [W A = St world A] over the world of
    shared objects, or [O A = St srv A] over the server and its output; [None] of [St] is undefined behaviour of the C code: an access
    outside a buffer, a null dereference, a value read at a type that it does not
    have.  A theorem with a result [Some] therefore also says that the code is
    defined there.  Objects that one component works on alone are passed and
    returned; [World] keeps the shared ones by handle.  [zend_string]s are counted
    and may hold NUL; where the code goes through [char *] the model takes [cstr].
    [ZendHash] uses [outcome], which tells undefined behaviour from a fatal error of the
    engine.  Sizes are natural numbers, since no string reaches [SIZE_MAX]; subtractions that
    wrap are undefined in the model where the code goes on to read at the result.
    The counter of the dispatch loop is kept at its 32 bits, [zend_long] keys at 64.
    Reference counts are not modelled, and neither is memory exhaustion.

    Loops over the tokens of a string, and over the list of namespaces, take fuel:
    one more than the length of the string, which every round shortens, as the
    lemmas on them show ([strtok_spec], [ns_search_ok]).  Reading and copying a heap
    of arrays takes fuel for the depth of nesting; [inherit_spec] shows any fuel above
    the depth to be enough.  Printing a number takes one more than its bits, a
    search along a chain of buckets the number of used buckets ([hash_table_refines]
    shows it to be enough), [instanceof] the number of classes.  [yaf_dispatcher_handle]
    takes as fuel the number of times that an [init] method may forward, which the
    code does not bound ([init_forward_unbounded]).  The scanner and the parser of ini
    files take the length of the text and the number of tokens, which every step shortens
    ([scan_text_total], [ini_parser_grammar]); a variable of a query string is taken apart
    with the length of its name, a query string with its own; the loops over a body of
    several parts take the number of bytes that are still to come ([upload_accounted] shows
    that they end); [dispatch_loop] takes a number of rounds, and
    [dispatch_loop_spec] proves the forward limit to be enough.  The functions that end or
    discard every buffer take the height of the stack, as the code counts it first; the
    search for the year of a date takes the years of a period or the periods there are
    ([timestamp_roundtrip] shows both to be enough).

    ** What is a parameter

    [Runtime] (PCRE, the formatting of doubles, [strtof], conversion of
    objects to strings, [instanceof] of the application's classes), [UserRoutes] (routes that
    the application implements) and [UserCode] (methods of the application's
    objects, callables, scripts, templates, code in strings, sending a header,
    [strerror]).  [Server] and [Output] take the module of the server, the header callback,
    the output handlers of the application and of other extensions, and their tables of
    conflicts; [Cookie] takes the time; [Multipart] takes the calls of the system that make
    and write a temporary file.  They are arbitrary
    functions and may change the whole state they are given; theorems that need more
    say so.

    ** What the theorems show

    - End to end ([request_served]): a request for an address is routed, its actions
      forward and the page of the last one is sent, if there are fewer forwards than the
      limit, which is reported otherwise.
    - Dispatching: the loop makes at most [forward_limit] passes and stops for one of
      three reasons; a response is only returned with nothing pending, and it has been
      sent unless it was asked for; the error controller runs at most once; unusable requests are refused before any code of
      the application runs; names do not depend on the case of letters; the
      arguments of actions; one pass of the loop makes as many forwards of [init] methods
      as there are ([init_forward_unbounded]).
    - Routing: each route function is proved equal to a specification on path
      segments, assembling followed by routing gives the names back, the pattern of
      a rewrite route is the regular expression it should be, and the router takes
      the last registered route that accepts, without calling a route of the application
      once an exception is pending.
    - Requests: superglobal lookup, base URI, preferred language, both constructors.
    - Responses, views, stores: refinement of an ordered list of segments, of a
      symbol table, of a finite map.
    - The server: no header holds a line break, so that a client reads back the lines that
      were set, as long as the line of the status fits its buffer ([head_read_back]); the head
      is made of the headers that were set before the first byte left the buffers, and the bytes
      of the body are those of a plain stack of buffers ([request_output]); a response and a
      redirection reach the client as they were made ([response_on_wire], [redirect_on_wire]);
      a template that leaves alone the buffer which is opened for it gives what it prints
      ([capture_spec]).
    - Cookies: the buffer is large enough ([cookie_fits]); what is set is what the next
      request reads ([cookie_roundtrip]).  Dates: every time stamp is its date of the
      calendar and back ([timestamp_roundtrip]).
    - Loading: the file of a class, local namespaces.
    - Input: an array that is written as a query string is read back, and the request finds
      it; whatever is sent, the arrays stay within the configured depth and number; a form
      does not depend on the pieces in which it arrives; no client chooses the proxy
      variable; the arrays do not depend on when they are built.
    - Uploads: the reader ends on every body, and every file it leaves on the disk is recorded
      and within the limit ([upload_accounted]); a form of several parts arrives as it was
      written, fields and files ([multipart_roundtrip]).
    - Configuration: the scanner ends on every text with tokens that cover it, the parser
      accepts the grammar and nothing else, a file that is written in the plain form is
      read back; sections, dotted names and inheritance as a function on values.
    - Application: the modules of a configuration, the order of bootstrap methods.
    - The engine: the hash tables refine association lists with a cursor, under any
      sequence of calls; copies and duplicates; the slots of classes refine tables of
      defaults, through declarations and inheritance; a string is a numeric key exactly
      when it is what the integer prints as; buffers are filled exactly; a URL that is
      put together is parsed back.
    - Classes: the startup registers what the other files take for granted: the initial
      values of objects and the relation [instanceof].
    - Error paths: [trigger_error_spec], and the inputs on which the code is
      undefined, which are stated as such.

    ** What is not modelled

    Of ini files: the typed mode of the scanner, which Yaf does not ask for, and the text
    of the warning for a file that does not parse.  Of input: filters other than the
    default one, extensions that watch uploads, encodings of [mbstring];
    objects that are written as query strings.  Of the server: the reading of posted data, FastCGI,
    modules other than CGI, the compression of output and the rewriter of addresses, and
    what follows a fatal error in an output handler.  Of dates: time zones, parsing,
    relative times and intervals.  Of the hash tables: external
    iterators, indirect values, reference counts and sorting.  Of classes: the tables of methods with their
    arguments, and private properties.  The INI entries of the module, its version
    constants and its information page are declarations.  With namespaces switched on,
    the registered names are modelled, not their use in messages and look-ups. *)

From Stdlib Require Export ZArith Lia Ascii.
From stdpp Require Export base strings gmap option list.

(** ** Byte strings

    A [zend_string] is a counted sequence of bytes; the NUL byte may occur
    inside it, and C code that receives [ZSTR_VAL] stops at the first one. *)

Declare Scope zs_scope.
Delimit Scope zs_scope with zs.

Abbreviation zstr := (list ascii).

Definition zs_of_bytes (l : list Byte.byte) : zstr := map ascii_of_byte l.
Definition zs_to_bytes (l : zstr) : option (list Byte.byte) := Some (map byte_of_ascii l).
String Notation zstr zs_of_bytes zs_to_bytes : zs_scope.

(** ** Record update

    [r <| f := v |>] is [r] with the field [f] set to [v].  A record type
    takes part once it has a [Rebuild] instance, which spells its constructor
    applied to its projections. *)

Class Rebuild (R : Type) := rebuild : R → R.

Class Update {R T : Type} (f : R → T) := upd : (T → T) → R → R.

Ltac solve_update :=
  lazymatch goal with
  | |- @Update ?R ?T ?f =>
      let e := eval cbv [rebuild] in (@rebuild R _) in
      let e := eval hnf in e in
      lazymatch eval pattern f in e with
      | ?h _ => let u := constr:(λ (g : T → T) (r : R), h (λ r', g (f r')) r) in
                let u := eval cbv beta in u in
                exact u
      end
  end.

#[export] Hint Extern 1 (Update _) => solve_update : typeclass_instances.

Notation "r <| f := v |>" := (upd (f := f) (λ _, v) r)
  (at level 1, left associativity, f constr, v at level 200,
   format "r  <| f  :=  v |>").

(** ** State with undefined behaviour

    [St S A] is a computation that reads and changes a state [S].  The value
    [None] is C undefined behaviour: an access outside a buffer, a null
    dereference, or a value read at a type it does not have. *)

Definition St (S A : Type) : Type := S → option (A * S).

#[export] Instance St_ret S : MRet (St S) := λ A a s, Some (a, s).
#[export] Instance St_bind S : MBind (St S) := λ A B k m s,
  match m s with
  | Some (a, s') => k a s'
  | None => None
  end.

Definition undefined {S A} : St S A := λ _, None.
Definition gets {S A} (f : S → A) : St S A := λ s, Some (f s, s).
Definition modify {S} (f : S → S) : St S unit := λ s, Some (tt, f s).
(** A pure computation that may be undefined. *)
Definition lift {S A} (o : option A) : St S A := λ s, (λ a, (a, s)) <$> o.

(** [safe m s]: running [m] from [s] has no undefined behaviour. *)
Definition safe {S A} (m : St S A) (s : S) : Prop := is_Some (m s).

(** [runs m s a s']: [m] run from [s] returns [a] in state [s']. *)
Definition runs {S A} (m : St S A) (s : S) (a : A) (s' : S) : Prop := m s = Some (a, s').

Section St_lemmas.
Context {S : Type}.

Lemma bind_runs {A B} (m : St S A) (k : A → St S B) s a s' :
  m s = Some (a, s') → (m ≫= k) s = k a s'.
Proof. intros H. unfold mbind, St_bind. by rewrite H. Qed.

Lemma bind_ret {A B} (a : A) (k : A → St S B) s : (mret a ≫= k) s = k a s.
Proof. done. Qed.

Lemma bind_gets {A B} (f : S → A) (k : A → St S B) s : (gets f ≫= k) s = k (f s) s.
Proof. done. Qed.

Lemma bind_modify {B} (f : S → S) (k : unit → St S B) s : (modify f ≫= k) s = k tt (f s).
Proof. done. Qed.

Lemma bind_lift {A B} (o : option A) (k : A → St S B) s a :
  o = Some a → (lift o ≫= k) s = k a s.
Proof. by intros ->. Qed.

Lemma bind_lift_Some {A B} (a : A) (k : A → St S B) s : (lift (Some a) ≫= k) s = k a s.
Proof. done. Qed.

Lemma bind_assoc {A B C} (m : St S A) (k : A → St S B) (h : B → St S C) s :
  ((m ≫= k) ≫= h) s = (m ≫= λ a, k a ≫= h) s.
Proof. unfold mbind, St_bind. by destruct (m s) as [[a s']|]. Qed.

Lemma bind_inv {A B} (m : St S A) (k : A → St S B) s b s'' :
  (m ≫= k) s = Some (b, s'') → ∃ a s', m s = Some (a, s') ∧ k a s' = Some (b, s'').
Proof. unfold mbind, St_bind. destruct (m s) as [[a s']|]; naive_solver. Qed.

(** Invariants of computations: a Hoare triple on the state alone. *)
Definition preserves {A} (I : S → Prop) (m : St S A) : Prop :=
  ∀ s a s', I s → m s = Some (a, s') → I s'.

Lemma preserves_ret {A} I (a : A) : preserves I (mret a).
Proof. by intros s b s' HI [= <- <-]. Qed.

Lemma preserves_bind {A B} I (m : St S A) (k : A → St S B) :
  preserves I m → (∀ a, preserves I (k a)) → preserves I (m ≫= k).
Proof.
  intros Hm Hk s b s' HI (a & s1 & H1 & H2)%bind_inv.
  eapply Hk; [|exact H2]. by eapply Hm.
Qed.

Lemma preserves_gets {A} I (f : S → A) : preserves I (gets f).
Proof. by intros s b s' HI [= <- <-]. Qed.

Lemma preserves_modify I (f : S → S) : (∀ s, I s → I (f s)) → preserves I (modify f).
Proof. intros Hf s b s' HI [= <- <-]. auto. Qed.

Lemma preserves_undefined {A} I : preserves I (undefined (A := A)).
Proof. by intros s b s' HI H. Qed.

Lemma preserves_lift {A} I (o : option A) : preserves I (lift o).
Proof. destruct o; [by intros s b s' HI [= <- <-] | done]. Qed.
End St_lemmas.

Create HintDb yaf.
#[export] Hint Resolve preserves_ret preserves_bind preserves_gets preserves_undefined
  preserves_lift : yaf.

(** Run the monadic code of a goal as far as it computes.  Components register
    the equations of their own computations in the database [st]. *)
Create Rewrite HintDb st.
#[export] Hint Rewrite @bind_ret @bind_gets @bind_modify @bind_lift_Some @bind_assoc : st.
(** Equations with side conditions, extended by the components. *)
Ltac st_conditional := erewrite bind_lift by eassumption.
Ltac st_run :=
  repeat (first [ progress autorewrite with st | st_conditional ]; cbn beta iota).

(** Close a goal that is decidable and true of concrete data. *)
Ltac decided := apply (bool_decide_unpack _); vm_compute; exact I.

(** ** Lists *)

(** A left fold that may be undefined. *)
Fixpoint foldM {A B} (f : A → B → option A) (a : A) (l : list B) : option A :=
  match l with
  | [] => Some a
  | b :: l' => match f a b with Some a' => foldM f a' l' | None => None end
  end.

Lemma foldM_app {A B} (f : A → B → option A) a l1 l2 :
  foldM f a (l1 ++ l2) = foldM f a l1 ≫= λ a', foldM f a' l2.
Proof. revert a. induction l1 as [|b l1 IH]; intros a; [done|]. simpl. by destruct (f a b). Qed.

Section lists.
Context {A : Type} `{EqDecision A}.

(** [break p l] splits [l] before its first element that satisfies [p]. *)
Fixpoint break (p : A → bool) (l : list A) : list A * list A :=
  match l with
  | [] => ([], [])
  | x :: l' => if p x then ([], l)
               else let '(a, b) := break p l' in (x :: a, b)
  end.

Fixpoint drop_while (p : A → bool) (l : list A) : list A :=
  match l with
  | [] => []
  | x :: l' => if p x then drop_while p l' else l
  end.

Lemma break_app p l : (break p l).1 ++ (break p l).2 = l.
Proof.
  induction l as [|x l IH]; simpl; [done|].
  destruct (p x); [done|]. destruct (break p l) as [a b]; simpl in *. by rewrite IH.
Qed.

Lemma break_none p l : Forall (λ x, p x = false) l → break p l = (l, []).
Proof. induction 1 as [|x l Hx _ IH]; simpl; [done|]. by rewrite Hx, IH. Qed.

Lemma break_at p a x b :
  Forall (λ x, p x = false) a → p x = true → break p (a ++ x :: b) = (a, x :: b).
Proof.
  intros Ha Hx. induction Ha as [|y a Hy _ IH]; simpl; [by rewrite Hx|].
  by rewrite Hy, IH.
Qed.

Lemma break_fst_Forall p l : Forall (λ x, p x = false) (break p l).1.
Proof.
  induction l as [|x l IH]; simpl; [done|].
  destruct (p x) eqn:E; simpl; [done|]. destruct (break p l); simpl in *. by constructor.
Qed.

Lemma break_snd_head p l x b : (break p l).2 = x :: b → p x = true.
Proof.
  induction l as [|y l IH]; simpl; [done|].
  destruct (p y) eqn:E; simpl; [by intros [= -> _]|]. destruct (break p l); simpl in *. auto.
Qed.

Lemma drop_while_head p l x b : drop_while p l = x :: b → p x = false.
Proof.
  induction l as [|y l IH]; simpl; [done|].
  destruct (p y) eqn:E; simpl; [auto|]. by intros [= -> ->].
Qed.

Lemma drop_while_length p l : length (drop_while p l) ≤ length l.
Proof. induction l as [|y l IH]; simpl; [done|]. destruct (p y); simpl; lia. Qed.

Lemma drop_while_idem p l : drop_while p (drop_while p l) = drop_while p l.
Proof.
  induction l as [|y l IH]; simpl; [done|]. destruct (p y) eqn:E; simpl; [done|]. by rewrite E.
Qed.

Lemma drop_while_false p x l : p x = false → drop_while p (x :: l) = x :: l.
Proof. simpl. by intros ->. Qed.

Lemma drop_while_all p a b : Forall (λ x, p x = true) a → drop_while p (a ++ b) = drop_while p b.
Proof. induction 1 as [|x a Hx _ IH]; simpl; [done|]. by rewrite Hx. Qed.

Lemma break_length p l : length (break p l).1 + length (break p l).2 = length l.
Proof. rewrite <-length_app. by rewrite break_app. Qed.
End lists.
