(* ===== verification/Zend.v ===== *)
(** * The part of the PHP runtime that Yaf computes with

    C strings ([strstr], [strncasecmp], [php_strtok_r], [php_basename],
    [php_dirname], [php_str_to_str]), PHP values and the ordered hash tables of
    [zend_hash.c].  The definitions follow the sources under
    [src/php-7.1.3/]; what they leave to libraries is in [Runtime]. *)

From S2P Require Import Prelude.
From Stdlib Require String DecimalString.

Open Scope zs_scope.

(** ** Characters *)

Definition NUL : ascii := zero.
Definition SLASH : ascii := "/"%char.

Definition tolower (c : ascii) : ascii :=
  let n := N_of_ascii c in
  if (65 <=? n)%N && (n <=? 90)%N then ascii_of_N (n + 32) else c.

Definition toupper (c : ascii) : ascii :=
  let n := N_of_ascii c in
  if (97 <=? n)%N && (n <=? 122)%N then ascii_of_N (n - 32) else c.

(** [zend_str_tolower], [zend_string_tolower], [zend_str_tolower_dup] *)
Definition zend_str_tolower (s : zstr) : zstr := map tolower s.

Definition ceq (c d : ascii) : bool := bool_decide (c = d).

(** ** C strings *)

(** The C string that starts at the first byte of a [zend_string]. *)
Fixpoint cstr (s : zstr) : zstr :=
  match s with
  | [] => []
  | c :: s' => if ceq c NUL then [] else c :: cstr s'
  end.

Definition no_nul (s : zstr) : Prop := Forall (λ c, c ≠ NUL) s.
#[export] Instance no_nul_dec s : Decision (no_nul s).
Proof. unfold no_nul. apply _. Defined.

(** [strncasecmp(a, b, n) == 0] and [strncmp(a, b, n) == 0] *)
Definition strncasecmp0 (a b : zstr) (n : nat) : bool :=
  bool_decide (zend_str_tolower (take n (cstr a)) = zend_str_tolower (take n (cstr b))).
Definition strncmp0 (a b : zstr) (n : nat) : bool :=
  bool_decide (take n (cstr a) = take n (cstr b)).
(** [zend_string_equals_ci] compares counted strings. *)
Definition zend_string_equals_ci (a b : zstr) : bool :=
  bool_decide (zend_str_tolower a = zend_str_tolower b).

Fixpoint is_prefix (n h : zstr) : bool :=
  match n, h with
  | [], _ => true
  | c :: n', d :: h' => ceq c d && is_prefix n' h'
  | _, [] => false
  end.

(** Index of the first occurrence of [n] in [h]. *)
Fixpoint find_sub (n h : zstr) : option nat :=
  if is_prefix n h then Some 0
  else match h with
       | [] => None
       | _ :: h' => S <$> find_sub n h'
       end.

(** [strstr(h, n)] as an offset from [h]. *)
Definition strstr (h n : zstr) : option nat := find_sub (cstr n) (cstr h).

(** [php_strtok_r]: the token and the new value of [*last].  The delimiter
    strings Yaf passes hold one character; the argument is that character. *)
Definition php_strtok_r (s : option zstr) (delim : ascii) : option zstr * option zstr :=
  match s with
  | None => (None, None)
  | Some s =>
      match drop_while (ceq delim) s with
      | [] => (None, None)
      | s' =>
          match break (ceq delim) s' with
          | (tok, []) => (Some tok, None)
          | (tok, _ :: rest) => (Some tok, Some rest)
          end
      end
  end.

(** [php_basename] in a single-byte locale (every [php_mblen] is 1). *)
Definition php_basename_go (s : zstr) : nat * nat :=
  let fix go (s : zstr) (i : nat) (state : bool) (comp cend : nat) : nat * nat :=
    match s with
    | [] => (comp, if state then i else cend)
    | c :: s' =>
        if ceq c SLASH then
          if state then go s' (S i) false comp i else go s' (S i) state comp cend
        else
          if state then go s' (S i) state comp cend else go s' (S i) true i cend
    end
  in go s 0 false 0 0.

Definition php_basename (s : zstr) (suffix : option zstr) : zstr :=
  let '(comp, cend) := php_basename_go s in
  let base := take (cend - comp) (drop comp s) in
  match suffix with
  | Some suf =>
      if bool_decide (length suf < length base) &&
         bool_decide (drop (length base - length suf) base = suf)
      then take (length base - length suf) base else base
  | None => base
  end.

(** [zend_dirname]; the result is the path cut to the returned length. *)
Definition drop_end (p : ascii → bool) (s : zstr) : zstr := rev (drop_while p (rev s)).

Definition php_dirname (path : zstr) : zstr :=
  match path with
  | [] => []
  | _ =>
      match drop_end (ceq SLASH) path with
      | [] => "/"
      | p1 =>
          match drop_end (λ c, negb (ceq SLASH c)) p1 with
          | [] => "."
          | p2 =>
              match drop_end (ceq SLASH) p2 with
              | [] => "/"
              | p3 => p3
              end
          end
      end
  end.

Lemma is_prefix_app n h : is_prefix n (n ++ h) = true.
Proof. induction n as [|c n IH]; simpl; [done|]. unfold ceq. by rewrite bool_decide_true, IH. Qed.

(** The first occurrence, when the first byte of [n] does not occur before it. *)
Lemma find_sub_at x n pre post :
  x ∉ pre → find_sub (x :: n) (pre ++ (x :: n) ++ post) = Some (length pre).
Proof.
  induction pre as [|c pre IH]; intros Hx.
  - change ([] ++ (x :: n) ++ post) with ((x :: n) ++ post).
    assert (Hp := is_prefix_app (x :: n) post). revert Hp.
    destruct ((x :: n) ++ post) as [|y l] eqn:E; [done|]. intros Hp.
    unfold find_sub. by rewrite Hp.
  - apply not_elem_of_cons in Hx as [Hne Hx].
    change ((c :: pre) ++ (x :: n) ++ post) with (c :: (pre ++ (x :: n) ++ post)).
    cbn [find_sub is_prefix]. unfold ceq. rewrite bool_decide_false by done. cbn [andb].
    by rewrite IH.
Qed.

Lemma drop_end_app p s : ∃ t, s = drop_end p s ++ t ∧ Forall (λ c, p c = true) t.
Proof.
  cut (∀ r, ∃ t, rev r = rev (drop_while p r) ++ t ∧ Forall (λ c, p c = true) t).
  { intros Hr. specialize (Hr (rev s)). by rewrite rev_involutive in Hr. }
  induction r as [|c r (t & IH & Ht)]; [by exists []|]. simpl. destruct (p c) eqn:E.
  - exists (t ++ [c]). split; [by rewrite IH, app_assoc|].
    apply Forall_app. split; [done|]. by constructor.
  - exists []. by rewrite app_nil_r.
Qed.

(** [php_str_to_str]: replace every occurrence, scanning left to right. *)
Fixpoint replace_fuel (fuel : nat) (h n r : zstr) : zstr :=
  match fuel with
  | 0 => h
  | S fuel' =>
      match find_sub n h with
      | None => h
      | Some i => take i h ++ r ++ replace_fuel fuel' (drop (i + length n) h) n r
      end
  end.

Definition php_str_to_str (h n r : zstr) : zstr :=
  if bool_decide (length n < length h) then replace_fuel (length h) h n r
  else if bool_decide (length h < length n) || negb (bool_decide (h = n)) then h
  else r.

(** ** Values *)

Inductive hkey :=
| KStr (s : zstr)
| KIdx (h : Z).

#[export] Instance hkey_eq_dec : EqDecision hkey.
Proof. solve_decision. Defined.

Inductive zval :=
| ZNull
| ZBool (b : bool)
| ZLong (n : Z)
| ZDouble (bits : Z)
| ZStr (s : zstr)
| ZArr (ht : list (hkey * zval))
| ZObj (cls : zstr) (handle : Z).

(** [HashTable]: the live buckets in insertion order. *)
Abbreviation htab A := (list (hkey * A)).

(** What PHP computes and Yaf only calls: the formatting of doubles
    ([%.*G]), the string conversion of objects ([cast_object], which may run
    [__toString]), class membership, and the bundled PCRE.  The last maps a
    delimited pattern and a subject to [None] when the pattern does not compile
    and else to the array of subpatterns, empty when there is no match.
    [rt_strtof s] is [(float) strtod(s, NULL)] in units of 2^-149, the spacing
    that makes every finite single-precision value an integer; an infinity is
    any larger integer of its sign and a NaN any negative one. *)
Class Runtime := {
  rt_double_to_str : Z → zstr;
  rt_object_to_str : zstr → Z → zstr;
  rt_instanceof : zstr → zstr → bool;
  rt_pcre_match : zstr → zstr → option (htab zval);
  rt_strtof : zstr → Z;
}.

(** A runtime that never matches and never parses, for the examples. *)
Definition plain_runtime : Runtime :=
  {| rt_double_to_str := λ _, "0"; rt_object_to_str := λ _ _, "";
     rt_instanceof := λ c d, bool_decide (c = d); rt_pcre_match := λ _ _, Some [];
     rt_strtof := λ _, 0%Z |}.

(** [zend_print_ulong_to_buf] and [zend_print_long_to_buf]: digits are put in front of
    what is there, from the lowest on.  A number has no more digits than bits. *)
Definition digit_char (d : Z) : ascii := ascii_of_N (Z.to_N (d + 48)).
Fixpoint print_digits (fuel : nat) (num : Z) (buf : zstr) : zstr :=
  match fuel with
  | 0 => buf
  | S fuel' =>
      let buf := digit_char (num mod 10) :: buf in
      if (num / 10 =? 0)%Z then buf else print_digits fuel' (num / 10) buf
  end.
Definition dec_of_ulong (num : Z) : zstr := print_digits (S (Z.to_nat (Z.log2 num))) num [].
Definition dec_of_Z (num : Z) : zstr :=
  if (num <? 0)%Z then "-" ++ dec_of_ulong (- num) else dec_of_ulong num.

Section values.
Context `{Runtime}.

(** [zval_get_string] *)
Definition zval_get_string (v : zval) : zstr :=
  match v with
  | ZNull => ""
  | ZBool b => if b then "1" else ""
  | ZLong n => dec_of_Z n
  | ZDouble d => rt_double_to_str d
  | ZStr s => s
  | ZArr _ => "Array"
  | ZObj c h => rt_object_to_str c h
  end.
End values.

(** [zend_is_true]; a double is its IEEE bits, so that the zeros are the bit
    patterns 0 and 2^63. *)
Definition zend_is_true (v : zval) : bool :=
  match v with
  | ZNull => false
  | ZBool b => b
  | ZLong n => negb (n =? 0)%Z
  | ZDouble d => negb (d =? 0)%Z && negb (d =? 2 ^ 63)%Z
  | ZStr s => match s with
              | [] => false
              | [c] => negb (ceq c "0"%char)
              | _ => true
              end
  | ZArr ht => match ht with [] => false | _ => true end
  | ZObj _ _ => true
  end.

(** [Z_STRVAL_P], [Z_STR_P] and [Z_ARRVAL_P]: undefined at another type. *)
Definition Z_STR (v : zval) : option zstr := match v with ZStr s => Some s | _ => None end.
Definition Z_ARR (v : zval) : option (htab zval) := match v with ZArr ht => Some ht | _ => None end.

Lemma bind_Z_STR {S B} (s : zstr) (k : zstr → St S B) st : (lift (Z_STR (ZStr s)) ≫= k) st = k s st.
Proof. done. Qed.
Lemma bind_Z_ARR {S B} (ht : htab zval) (k : htab zval → St S B) st :
  (lift (Z_ARR (ZArr ht)) ≫= k) st = k ht st.
Proof. done. Qed.
#[export] Hint Rewrite @bind_Z_STR @bind_Z_ARR : st.

Definition is_string (v : zval) : bool := match v with ZStr _ => true | _ => false end.
Definition is_array (v : zval) : bool := match v with ZArr _ => true | _ => false end.

(** ** Hash tables *)

Section htab.
Context {A : Type}.
Implicit Types (ht dst src : htab A) (k : hkey) (v : A).

(** [zend_hash_find], [zend_hash_index_find] *)
Fixpoint hfind k ht : option A :=
  match ht with
  | [] => None
  | (k', v) :: ht' => if bool_decide (k = k') then Some v else hfind k ht'
  end.

(** [zend_hash_update]: overwrite in place, or append a new bucket. *)
Fixpoint hupdate k v ht : htab A :=
  match ht with
  | [] => [(k, v)]
  | (k', v') :: ht' => if bool_decide (k = k') then (k', v) :: ht' else (k', v') :: hupdate k v ht'
  end.

(** [zend_hash_del] *)
Fixpoint hdel k ht : htab A :=
  match ht with
  | [] => []
  | (k', v) :: ht' => if bool_decide (k = k') then ht' else (k', v) :: hdel k ht'
  end.

(** [zend_hash_copy]: update the target with every bucket of the source. *)
Definition hcopy (dst src : htab A) : htab A :=
  foldl (λ d kv, hupdate kv.1 kv.2 d) dst src.

Definition hkeys ht : list hkey := ht.*1.
Definition hwf ht : Prop := NoDup (hkeys ht).
#[export] Instance hwf_dec ht : Decision (hwf ht).
Proof. unfold hwf. apply _. Defined.

(** The buckets with a string key, as [ZEND_HASH_FOREACH_STR_KEY_VAL] with
    its [if (key)] visits them. *)
Definition str_entries ht : list (zstr * A) :=
  omap (λ kv, match kv.1 with KStr s => Some (s, kv.2) | KIdx _ => None end) ht.

(** [zend_hash_next_index_insert] on a table no bucket was deleted from. *)
Definition next_index ht : Z :=
  foldr (λ kv m, match kv.1 with
                 | KIdx h => Z.max m (h + 1)
                 | KStr _ => m
                 end) 0%Z ht.
Definition hpush v ht : htab A := hupdate (KIdx (next_index ht)) v ht.
End htab.

Abbreviation hfind_str s ht := (hfind (KStr s%zs) ht).

(** ** Numeric string keys *)

Definition is_digit (c : ascii) : bool :=
  let n := N_of_ascii c in (48 <=? n)%N && (n <=? 57)%N.
Definition digit_value (c : ascii) : Z := Z.of_N (N_of_ascii c) - 48.
Definition digits_value (ds : zstr) : Z := foldl (λ v c, 10 * v + digit_value c)%Z 0%Z ds.

Definition MAX_LENGTH_OF_LONG : nat := 20.
Definition ZEND_LONG_MAX : Z := 2 ^ 63 - 1.
Definition MINUS : ascii := "-"%char.
Definition PLUS : ascii := "+"%char.

(** [ZEND_HANDLE_NUMERIC_STR]: the integer that a string key stands for.  At
    most 19 digits are read, so the accumulator does not wrap; [-0] and a digit
    after a leading zero are refused. *)
Definition zend_handle_numeric_str (key : zstr) : option Z :=
  let '(neg, ds) := match key with
                    | c :: ds => if ceq c MINUS then (true, ds) else (false, key)
                    | [] => (false, [])
                    end in
  match ds with
  | [] => None
  | d :: _ =>
      if negb (forallb is_digit ds) then None
      else if ceq d "0"%char && bool_decide (1 < length key) then None
      else if bool_decide (MAX_LENGTH_OF_LONG - 1 < length ds) then None
      else
        let idx := digits_value ds in
        if neg : bool then if (ZEND_LONG_MAX <? idx - 1)%Z then None else Some (- idx)%Z
        else if (ZEND_LONG_MAX <? idx)%Z then None else Some idx
  end.

(** The key under which the [zend_symtable] functions store a string. *)
Definition symtable_key (key : zstr) : hkey :=
  match zend_handle_numeric_str key with Some n => KIdx n | None => KStr key end.

Definition is_space (c : ascii) : bool :=
  let n := N_of_ascii c in (n =? 32)%N || ((9 <=? n)%N && (n <=? 13)%N).

(** [is_numeric_string(s, len, &lval, &dval, 0) == IS_LONG], and the value: blanks,
    a sign, digits up to the end.  At most 19 digits count after the leading
    zeros, and 2^63 is allowed after a minus sign only. *)
Definition is_numeric_long (s : zstr) : option Z :=
  let s := drop_while is_space s in
  let '(neg, ds) := match s with
                    | c :: ds => if ceq c MINUS then (true, ds)
                                 else if ceq c PLUS then (false, ds) else (false, s)
                    | [] => (false, [])
                    end in
  match ds with
  | [] => None
  | _ =>
      if negb (forallb is_digit ds) then None
      else
        let sig := drop_while (ceq "0"%char) ds in
        let v := digits_value sig in
        if bool_decide (MAX_LENGTH_OF_LONG - 1 < length sig) then None
        else if (v <? 2 ^ 63)%Z || (neg && (v =? 2 ^ 63)%Z)
        then Some (if neg : bool then (- v)%Z else v)
        else None
  end.

(** ** Tokens

    The sequence of tokens that repeated [php_strtok_r] calls produce is the
    sequence of non-empty pieces between delimiters. *)

Fixpoint split_on (d : ascii) (s : zstr) : list zstr :=
  match s with
  | [] => [[]]
  | c :: s' =>
      if ceq d c then [] :: split_on d s'
      else match split_on d s' with
           | [] => [[c]]
           | w :: ws => (c :: w) :: ws
           end
  end.

Definition nonempty (s : zstr) : Prop := s ≠ [].
#[export] Instance nonempty_dec s : Decision (nonempty s).
Proof. unfold nonempty. apply _. Defined.

Definition tokens (d : ascii) (s : zstr) : list zstr := filter nonempty (split_on d s).
Definition otokens (d : ascii) (s : option zstr) : list zstr := from_option (tokens d) [] s.
(** The bytes a tokenizer has left: what decreases at every call. *)
Definition olen (s : option zstr) : nat := from_option (λ s, S (length s)) 0 s.

(** [join d ws] is [w1 d w2 d ... d wn]. *)
Fixpoint join (d : ascii) (ws : list zstr) : zstr :=
  match ws with
  | [] => []
  | [w] => w
  | w :: ws' => w ++ d :: join d ws'
  end.

Definition free_of (d : ascii) (s : zstr) : Prop := Forall (λ c, ceq d c = false) s.
#[export] Instance free_of_dec d s : Decision (free_of d s).
Proof. unfold free_of. apply _. Defined.

Lemma ceq_true c d : ceq c d = true ↔ c = d.
Proof. apply bool_decide_eq_true. Qed.
Lemma ceq_refl c : ceq c c = true.
Proof. by apply ceq_true. Qed.
Lemma ceq_false c d : ceq c d = false ↔ c ≠ d.
Proof. apply bool_decide_eq_false. Qed.

Section tokens.
Context (d : ascii).

Lemma split_on_break s :
  split_on d s = (break (ceq d) s).1 ::
    match (break (ceq d) s).2 with [] => [] | _ :: r => split_on d r end.
Proof.
  induction s as [|c s IH]; simpl; [done|].
  destruct (ceq d c); [done|].
  rewrite IH. destruct (break (ceq d) s) as [a b]. done.
Qed.

Lemma tokens_nil : tokens d [] = [].
Proof. done. Qed.

Lemma tokens_delim s : tokens d (d :: s) = tokens d s.
Proof. unfold tokens; simpl. by rewrite ceq_refl. Qed.

Lemma tokens_drop_delims s : tokens d (drop_while (ceq d) s) = tokens d s.
Proof.
  induction s as [|c s IH]; simpl; [done|].
  destruct (ceq d c) eqn:E; [|done].
  apply ceq_true in E as <-. by rewrite IH, tokens_delim.
Qed.

Lemma tokens_break w r :
  w ≠ [] → free_of d w → tokens d (w ++ d :: r) = w :: tokens d r.
Proof.
  intros Hw Hf. unfold tokens at 1. rewrite split_on_break, break_at by (done || apply ceq_refl).
  simpl. by rewrite filter_cons_True.
Qed.

Lemma tokens_single w : w ≠ [] → free_of d w → tokens d w = [w].
Proof.
  intros Hw Hf. unfold tokens. rewrite split_on_break, break_none by done.
  simpl. by rewrite filter_cons_True.
Qed.

Lemma tokens_join ws :
  Forall nonempty ws → Forall (free_of d) ws → tokens d (join d ws) = ws.
Proof.
  induction ws as [|w ws IH]; intros Hne Hfr; [done|].
  apply Forall_cons in Hne as [Hw Hne]. apply Forall_cons in Hfr as [Hf Hfr].
  destruct ws as [|w' ws]; [by apply tokens_single|].
  change (join d (w :: w' :: ws)) with (w ++ d :: join d (w' :: ws)).
  rewrite tokens_break by done. by rewrite IH.
Qed.

Lemma split_on_snoc s : split_on d (s ++ [d]) = split_on d s ++ [[]].
Proof.
  induction s as [|c s IH]; simpl; [by rewrite ceq_refl|].
  rewrite IH. destruct (ceq d c); [done|]. by rewrite split_on_break.
Qed.

(** Trailing delimiters carry no token. *)
Lemma tokens_app_delims s t : Forall (λ c, c = d) t → tokens d (s ++ t) = tokens d s.
Proof.
  intros Ht. revert s. induction Ht as [|c t -> _ IH]; intros s; [by rewrite app_nil_r|].
  rewrite cons_middle, app_assoc, IH. unfold tokens. rewrite split_on_snoc, filter_app.
  by rewrite app_nil_r.
Qed.

Lemma tokens_forall s : Forall (λ w, w ≠ [] ∧ free_of d w) (tokens d s).
Proof.
  unfold tokens. apply Forall_forall. intros w [Hw Hin]%list_elem_of_filter.
  split; [done|]. revert w Hw Hin. induction s as [|c s IH]; simpl; intros w Hw Hin.
  - apply list_elem_of_singleton in Hin. by subst.
  - destruct (ceq d c) eqn:E.
    + apply elem_of_cons in Hin as [->|Hin]; [by destruct Hw|]. by apply IH.
    + rewrite split_on_break in Hin. apply elem_of_cons in Hin as [->|Hin].
      * constructor; [done|]. apply break_fst_Forall.
      * apply IH; [done|]. rewrite split_on_break. by right.
Qed.

Lemma otokens_forall o : Forall (λ w, w ≠ [] ∧ free_of d w) (otokens d o).
Proof. destruct o; [apply tokens_forall | constructor]. Qed.

Lemma strtok_end s : tokens d s = [] → php_strtok_r (Some s) d = (None, None).
Proof.
  rewrite <-tokens_drop_delims. simpl. intros H.
  destruct (drop_while (ceq d) s) as [|c s'] eqn:E; [done|]. exfalso.
  assert (Hc := drop_while_head _ _ _ _ E).
  revert H. unfold tokens. rewrite split_on_break. simpl. rewrite Hc.
  destruct (break (ceq d) s') as [a b]; simpl. by rewrite filter_cons_True.
Qed.

Lemma strtok_next s t ts :
  tokens d s = t :: ts →
  ∃ l, php_strtok_r (Some s) d = (Some t, l) ∧ otokens d l = ts ∧ olen l < olen (Some s).
Proof.
  rewrite <-tokens_drop_delims. simpl. intros H.
  assert (Hlen := drop_while_length (ceq d) s).
  destruct (drop_while (ceq d) s) as [|c s'] eqn:E; [done|].
  assert (Hc := drop_while_head _ _ _ _ E). clear E.
  revert H. unfold tokens. rewrite split_on_break.
  assert (Hb := break_length (ceq d) (c :: s')). revert Hb.
  simpl. rewrite Hc. destruct (break (ceq d) s') as [a b]; simpl; intros Hb.
  rewrite filter_cons_True by done. intros [= <- <-].
  destruct b as [|x r]; simpl in *; eexists; repeat split; simpl; lia.
Qed.

(** One step of a tokenizer, whatever is left. *)
Lemma strtok_spec o :
  match otokens d o with
  | [] => php_strtok_r o d = (None, None)
  | t :: ts => ∃ l, php_strtok_r o d = (Some t, l) ∧ otokens d l = ts ∧ olen l < olen o
  end.
Proof.
  destruct o as [s|]; [|done]. simpl. destruct (tokens d s) as [|t ts] eqn:E.
  - by apply strtok_end.
  - by apply strtok_next.
Qed.
End tokens.

Lemma cstr_length s : length (cstr s) ≤ length s.
Proof. induction s as [|c s IH]; simpl; [done|]. destruct (ceq c NUL); simpl; lia. Qed.

Lemma cstr_no_nul s : no_nul s → cstr s = s.
Proof.
  induction 1 as [|c s Hc _ IH]; simpl; [done|].
  apply ceq_false in Hc as ->. by rewrite IH.
Qed.

(** ** Laws of hash tables *)

Section htab_laws.
Context {A : Type}.
Implicit Types (ht dst src : htab A) (k : hkey) (v : A).

Lemma hfind_hupdate_eq k v ht : hfind k (hupdate k v ht) = Some v.
Proof.
  induction ht as [|[k' v'] ht IH]; simpl.
  - by rewrite bool_decide_true.
  - destruct (bool_decide (k = k')) eqn:E; simpl; by rewrite E.
Qed.

Lemma hfind_hupdate_ne k k' v ht : k' ≠ k → hfind k' (hupdate k v ht) = hfind k' ht.
Proof.
  intros Hne. induction ht as [|[k2 v2] ht IH]; simpl.
  - by rewrite bool_decide_false.
  - repeat case_bool_decide; simpl; repeat case_bool_decide; naive_solver.
Qed.

Lemma hfind_hupdate k k' v ht :
  hfind k' (hupdate k v ht) = if bool_decide (k' = k) then Some v else hfind k' ht.
Proof.
  case_bool_decide as H; [subst; apply hfind_hupdate_eq | by apply hfind_hupdate_ne].
Qed.

Lemma hfind_None k ht : hfind k ht = None ↔ k ∉ hkeys ht.
Proof.
  unfold hkeys. induction ht as [|[k' v'] ht IH]; csimpl; [set_solver|].
  case_bool_decide as E; [subst; set_solver|]. rewrite IH, not_elem_of_cons. tauto.
Qed.

Lemma hkeys_hupdate k v ht :
  hkeys (hupdate k v ht) = if bool_decide (k ∈ hkeys ht) then hkeys ht else hkeys ht ++ [k].
Proof.
  unfold hkeys. induction ht as [|[k' v'] ht IH]; csimpl; [done|].
  destruct (bool_decide (k = k')) eqn:E; csimpl.
  - apply bool_decide_eq_true in E as ->. rewrite bool_decide_true; [done | set_solver].
  - apply bool_decide_eq_false in E. rewrite IH.
    repeat case_bool_decide; set_solver.
Qed.

Lemma hwf_hupdate k v ht : hwf ht → hwf (hupdate k v ht).
Proof.
  unfold hwf. rewrite hkeys_hupdate. intros H. case_bool_decide as E; [done|].
  apply NoDup_app. split; [done|]. split; [|apply NoDup_singleton]. set_solver.
Qed.

Lemma hfind_hdel k k' ht :
  hwf ht → hfind k' (hdel k ht) = if bool_decide (k' = k) then None else hfind k' ht.
Proof.
  unfold hwf. induction ht as [|[k2 v2] ht IH]; csimpl; intros Hwf.
  - by case_bool_decide.
  - apply NoDup_cons in Hwf as [Hni Hwf]. specialize (IH Hwf).
    destruct (bool_decide (k = k2)) eqn:E1.
    + apply bool_decide_eq_true in E1 as <-. case_bool_decide; [|done].
      subst. by apply hfind_None.
    + apply bool_decide_eq_false in E1. csimpl. rewrite IH.
      repeat case_bool_decide; naive_solver.
Qed.

Lemma hwf_hdel k ht : hwf ht → hwf (hdel k ht).
Proof.
  unfold hwf, hkeys. intros H. eapply sublist_NoDup; [exact H|].
  clear H. induction ht as [|[k2 v2] ht IH]; csimpl; [done|].
  case_bool_decide; csimpl; [by apply sublist_cons | by apply sublist_skip].
Qed.

Lemma hfind_hcopy k dst src :
  hwf src →
  hfind k (hcopy dst src) = match hfind k src with Some v => Some v | None => hfind k dst end.
Proof.
  unfold hwf, hcopy. revert dst. induction src as [|[k' v'] src IH]; csimpl; intros dst Hwf; [done|].
  apply NoDup_cons in Hwf as [Hni Hwf]. rewrite IH by done. rewrite hfind_hupdate.
  case_bool_decide as E; [|done]. subst. by apply hfind_None in Hni as ->.
Qed.

(** Copying appends the buckets whose key is new. *)
Lemma hupdate_new k v ht : k ∉ hkeys ht → hupdate k v ht = ht ++ [(k, v)].
Proof.
  unfold hkeys. induction ht as [|[k' v'] ht IH]; csimpl; [done|].
  intros [Hne Hni]%not_elem_of_cons. rewrite bool_decide_false by done. by rewrite IH.
Qed.

Lemma hcopy_disjoint dst src : hwf (dst ++ src) → hcopy dst src = dst ++ src.
Proof.
  unfold hwf, hcopy. revert dst. induction src as [|[k v] src IH]; csimpl; intros dst Hwf.
  - by rewrite app_nil_r.
  - rewrite hupdate_new.
    + rewrite IH, <-app_assoc; [done|]. by rewrite <-app_assoc.
    + unfold hkeys in *. rewrite fmap_app in Hwf. apply NoDup_app in Hwf as (_ & Hd & _).
      intros Hin. apply (Hd k Hin). by left.
Qed.

Lemma hcopy_nil src : hwf src → hcopy [] src = src.
Proof. apply (hcopy_disjoint []). Qed.

Lemma hwf_hcopy dst src : hwf dst → hwf (hcopy dst src).
Proof.
  unfold hcopy. revert dst. induction src as [|[k v] src IH]; csimpl; [done|].
  intros dst H. by apply IH, hwf_hupdate.
Qed.
End htab_laws.

#[export] Hint Resolve hwf_hupdate hwf_hdel hwf_hcopy : yaf.

(** ** Laws of string comparison *)

Lemma no_nul_app a b : no_nul (a ++ b) ↔ no_nul a ∧ no_nul b.
Proof. apply Forall_app. Qed.

Lemma cstr_app a b : no_nul a → cstr (a ++ b) = a ++ cstr b.
Proof.
  induction 1 as [|c a Hc _ IH]; simpl; [done|]. apply ceq_false in Hc as ->. by rewrite IH.
Qed.

Lemma cstr_no_nul_cstr s : no_nul (cstr s).
Proof.
  induction s as [|c s IH]; simpl; [constructor|].
  destruct (ceq c NUL) eqn:E; [constructor|]. constructor; [by apply ceq_false|done].
Qed.

Lemma strncmp0_app b u : no_nul b → strncmp0 (b ++ u) b (length b) = true.
Proof.
  intros Hb. unfold strncmp0. apply bool_decide_eq_true.
  rewrite cstr_app, (cstr_no_nul b) by done. by rewrite take_app_length, take_ge.
Qed.

Lemma strncasecmp0_app b u : no_nul b → strncasecmp0 (b ++ u) b (length b) = true.
Proof.
  intros Hb. unfold strncasecmp0. apply bool_decide_eq_true.
  rewrite cstr_app, (cstr_no_nul b) by done. by rewrite take_app_length, take_ge.
Qed.

(** A successful comparison over the length of a C string bounds the other one. *)
Lemma strncasecmp0_length a b : no_nul b → strncasecmp0 a b (length b) = true → length b ≤ length a.
Proof.
  intros Hb Hc. unfold strncasecmp0 in Hc. apply bool_decide_eq_true in Hc.
  apply (f_equal length) in Hc. unfold zend_str_tolower in Hc. rewrite !length_map in Hc.
  rewrite (cstr_no_nul b), (take_ge b) in Hc by done. rewrite length_take in Hc.
  assert (Hl := cstr_length a). lia.
Qed.

Lemma strncmp0_prefix a b :
  no_nul b → strncmp0 a b (length b) = true → ∃ u, a = b ++ u.
Proof.
  intros Hb Hc. unfold strncmp0 in Hc. apply bool_decide_eq_true in Hc.
  rewrite (cstr_no_nul b), (take_ge b) in Hc by done.
  assert (Ha : ∃ t, a = cstr a ++ t).
  { clear. induction a as [|c a (t & IH)]; simpl; [by exists []|].
    destruct (ceq c NUL); [by exists (c :: a)|]. exists t. simpl. by rewrite <-IH. }
  destruct Ha as (t & Ha). exists (drop (length b) (cstr a) ++ t).
  assert (Hd := take_drop (length b) (cstr a)). rewrite Hc in Hd.
  by rewrite app_assoc, Hd.
Qed.

(** ** Laws of [php_str_to_str] *)

Lemma find_sub_skip x n pre h :
  x ∉ pre → find_sub (x :: n) (pre ++ h) = (λ i, length pre + i) <$> find_sub (x :: n) h.
Proof.
  induction pre as [|c pre IH]; intros Hx.
  - simpl. by destruct (find_sub (x :: n) h).
  - apply not_elem_of_cons in Hx as [Hne Hx].
    change ((c :: pre) ++ h) with (c :: (pre ++ h)).
    cbn [find_sub is_prefix]. unfold ceq. rewrite bool_decide_false by done. cbn [andb].
    rewrite IH by done. by destruct (find_sub (x :: n) h).
Qed.

Lemma replace_skip f x n r pre h :
  x ∉ pre → replace_fuel (S f) (pre ++ h) (x :: n) r = pre ++ replace_fuel (S f) h (x :: n) r.
Proof.
  intros Hx. cbn [replace_fuel]. rewrite find_sub_skip by done.
  destruct (find_sub (x :: n) h) as [i|]; [|done]. cbn [fmap option_fmap option_map].
  rewrite take_app_add, <-app_assoc. by rewrite <-Nat.add_assoc, drop_app_add.
Qed.

Lemma replace_match f x n r h :
  replace_fuel (S f) ((x :: n) ++ h) (x :: n) r = r ++ replace_fuel f h (x :: n) r.
Proof.
  cbn [replace_fuel].
  replace (find_sub (x :: n) ((x :: n) ++ h)) with (Some 0)
    by (symmetry; apply (find_sub_at x n [] h), not_elem_of_nil).
  by rewrite Nat.add_0_l, drop_app_length.
Qed.

(** No match at the head: the first byte is copied. *)
Lemma replace_head_ne f x n r c h :
  is_prefix (x :: n) (c :: h) = false →
  replace_fuel (S f) (c :: h) (x :: n) r = c :: replace_fuel (S f) h (x :: n) r.
Proof.
  intros Hp. cbn [replace_fuel]. cbn [find_sub]. rewrite Hp.
  by destruct (find_sub (x :: n) h) as [i|].
Qed.

Lemma is_prefix_spec n h : is_prefix n h = true ↔ ∃ t, h = n ++ t.
Proof.
  revert h. induction n as [|c n IH]; intros h; [split; [by exists h|done]|].
  destruct h as [|d h]; simpl; [split; [done|by intros [t ?]]|].
  rewrite andb_true_iff, ceq_true, IH. split.
  - intros [-> [t ->]]. by exists t.
  - intros [t [= -> ->]]. split; [done|]. by exists t.
Qed.

(** ** Paths *)

(** [/w1/w2/...] *)
Definition path_of (ws : list zstr) : zstr := mjoin (map (cons SLASH) ws).

Lemma path_of_join w ws : path_of (w :: ws) = SLASH :: join SLASH (w :: ws).
Proof.
  revert w. induction ws as [|w' ws IH]; intros w; [cbn; by rewrite app_nil_r|].
  change (path_of (w :: w' :: ws)) with ((SLASH :: w) ++ path_of (w' :: ws)).
  by rewrite IH.
Qed.

Lemma tokens_path_of ws :
  Forall (λ w, w ≠ [] ∧ free_of SLASH w) ws → tokens SLASH (path_of ws) = ws.
Proof.
  destruct ws as [|w ws]; intros Hws; [done|].
  rewrite path_of_join, tokens_delim. apply tokens_join.
  - eapply Forall_impl; [exact Hws|]. by intros ? [??].
  - eapply Forall_impl; [exact Hws|]. by intros ? [??].
Qed.

Lemma no_nul_path_of ws : Forall no_nul ws → no_nul (path_of ws).
Proof.
  induction 1 as [|w ws Hw _ IH]; [constructor|].
  change (path_of (w :: ws)) with (SLASH :: w ++ path_of ws).
  constructor; [done|]. by apply no_nul_app.
Qed.

