(* ===== verification/Numeric.v ===== *)
(** * Decimal numbers: printing, numeric keys, joining

    What [zend_print_long_to_buf] of [php-7.1.3/Zend/zend_operators.h] prints is what
    [_zend_handle_numeric_str_ex] of [php-7.1.3/Zend/zend_hash.c] takes for a number, and
    nothing else is.  [php_implode] of [php-7.1.3/ext/standard/string.c] prints numbers
    and strings backwards into one buffer, whose length it has counted before: the
    model keeps the buffer and the cursor, and an access outside is undefined. *)

From S2P Require Import Prelude Zend.

Open Scope zs_scope.

(** ** Joining *)

(** Bytes of a buffer are overwritten from an offset on. *)
Definition store (buf : zstr) (at_ : nat) (s : zstr) : option zstr :=
  if decide (at_ + length s ≤ length buf) then Some (take at_ buf ++ s ++ drop (at_ + length s) buf) else None.

Definition back (cptr n : nat) : option nat := if decide (n ≤ cptr) then Some (cptr - n) else None.

(** [zend_print_ulong_to_buf] with the buffer: the terminator comes first. *)
Fixpoint print_loop (fuel : nat) (num : Z) (buf : zstr) (cptr : nat) : option (zstr * nat) :=
  match fuel with
  | 0 => Some (buf, cptr)
  | S fuel' =>
      cptr ← back cptr 1;
      buf ← store buf cptr [digit_char (num mod 10)];
      if (num / 10 =? 0)%Z then Some (buf, cptr) else print_loop fuel' (num / 10) buf cptr
  end.
Definition zend_print_ulong_to_buf (num : Z) (buf : zstr) (cptr : nat) : option (zstr * nat) :=
  buf ← store buf cptr [NUL];
  print_loop (S (Z.to_nat (Z.log2 num))) num buf cptr.
Definition zend_print_long_to_buf (num : Z) (buf : zstr) (cptr : nat) : option (zstr * nat) :=
  if (num <? 0)%Z then
    '(buf, result) ← zend_print_ulong_to_buf (- num) buf cptr;
    result ← back result 1;
    buf ← store buf result "-";
    Some (buf, result)
  else zend_print_ulong_to_buf num buf cptr.

(** [zend_long_to_str] with what its array of characters holds before. *)
Definition zend_long_to_str (num : Z) (junk : nat → zstr) : option zstr :=
  let size := S MAX_LENGTH_OF_LONG in
  '(buf, res) ← zend_print_long_to_buf num (take size (junk size ++ replicate size NUL)) (size - 1);
  Some (drop res (take (size - 1) buf)).

(** The loop that counts the digits of a [zend_long], with the sign or the single 0. *)
Fixpoint count_loop (fuel : nat) (val : Z) : nat :=
  match fuel with
  | 0 => 0
  | S fuel' => if (val =? 0)%Z then 0 else S (count_loop fuel' (Z.quot val 10))
  end.
Definition long_length (val : Z) : nat :=
  (if (val <=? 0)%Z then 1 else 0) + count_loop (S (Z.to_nat (Z.log2 (Z.abs val)))) val.

Section implode.
Context `{Runtime}.

(** An element of [strings], or the number that is kept behind them. *)
Definition piece_of (v : zval) : zstr + Z :=
  match v with ZLong n => inr n | _ => inl (zval_get_string v) end.
Definition piece_length (p : zstr + Z) : nat := match p with inl s => length s | inr n => long_length n end.

(** A number overwrites the byte at its end with a terminator, which is put back. *)
Definition put_long (num : Z) (buf : zstr) (cptr : nat) : option (zstr * nat) :=
  oldVal ← buf !! cptr;
  '(buf, cptr') ← zend_print_long_to_buf num buf cptr;
  buf ← store buf cptr [oldVal];
  Some (buf, cptr').
Definition put_string (s : zstr) (buf : zstr) (cptr : nat) : option (zstr * nat) :=
  cptr ← back cptr (length s);
  buf ← store buf cptr s;
  Some (buf, cptr).

(** The pieces from the last to the first, which is put at the start of the buffer. *)
Fixpoint implode_loop (delim : zstr) (strptr : list (zstr + Z)) (buf : zstr) (cptr : nat) : option zstr :=
  match strptr with
  | [] => None
  | [inl s] => store buf 0 s
  | [inr n] => fst <$> put_long n buf cptr
  | p :: strptr' =>
      '(buf, cptr) ← match p with inl s => put_string s buf cptr | inr n => put_long n buf cptr end;
      '(buf, cptr) ← put_string delim buf cptr;
      implode_loop delim strptr' buf cptr
  end.

(** [junk] is what the new string holds before it is written. *)
Definition php_implode (delim : zstr) (arr : htab zval) (junk : nat → zstr) : option zstr :=
  match arr with
  | [] => Some []
  | [(_, v)] => Some (zval_get_string v)
  | _ =>
      let strings := piece_of <$> arr.*2 in
      let len := sum_list (piece_length <$> strings) in
      let size := (length arr - 1) * length delim + len in
      buf ← store (take (S size) (junk (S size) ++ replicate (S size) NUL)) size [NUL];
      buf ← implode_loop delim (reverse strings) buf size;
      Some (take size buf)
  end.
End implode.

(** ** Printed numbers *)

(** What a printed number is: digits, without a zero in front of others. *)
Definition canonical (ds : zstr) : Prop :=
  ds ≠ [] ∧ forallb is_digit ds = true ∧ (head ds = Some "0"%char → length ds = 1).

Lemma digit_char_digit d : (0 ≤ d < 10)%Z → is_digit (digit_char d) = true ∧ digit_value (digit_char d) = d.
Proof.
  intros Hd. assert (In d [0; 1; 2; 3; 4; 5; 6; 7; 8; 9]%Z) as Hin by (cbn; lia).
  cbn in Hin. by repeat destruct Hin as [<-|Hin].
Qed.

Lemma digit_char_value c : is_digit c = true → digit_char (digit_value c) = c ∧ (0 ≤ digit_value c < 10)%Z.
Proof.
  unfold is_digit, digit_value, digit_char. intros [H1 H2]%andb_true_iff. apply N.leb_le in H1, H2.
  split; [|lia]. replace (Z.to_N _) with (N_of_ascii c) by lia. apply ascii_N_embedding.
Qed.

Lemma digit_zero c : is_digit c = true → digit_value c = 0%Z → c = "0"%char.
Proof. intros Hc Hv. destruct (digit_char_value c Hc) as [<- _]. by rewrite Hv. Qed.

Lemma digits_value_snoc ds c : digits_value (ds ++ [c]) = (10 * digits_value ds + digit_value c)%Z.
Proof. unfold digits_value. by rewrite foldl_app. Qed.

Lemma digits_value_nonneg ds : forallb is_digit ds = true → (0 ≤ digits_value ds)%Z.
Proof.
  induction ds as [|c ds IH] using rev_ind; [done|]. rewrite forallb_app. intros [Hds Hc]%andb_true_iff. cbn in Hc.
  rewrite digits_value_snoc. apply andb_true_iff in Hc as [Hc _]. pose proof (digit_char_value c Hc). specialize (IH Hds). lia.
Qed.

Lemma canonical_snoc ds c : ds ≠ [] → canonical (ds ++ [c]) → canonical ds ∧ is_digit c = true ∧ head ds ≠ Some "0"%char.
Proof.
  intros Hne (_ & Hd & Hz). rewrite forallb_app in Hd. apply andb_true_iff in Hd as [Hd Hc]. cbn in Hc.
  rewrite andb_true_r in Hc. destruct ds as [|d ds]; [done|].
  assert (Hh : head (d :: ds) ≠ Some "0"%char).
  { intros Hh. apply Hz in Hh. rewrite length_app in Hh. cbn in Hh. lia. }
  split_and!; [split_and!; [done|done|intros ?; by destruct Hh]|done|done].
Qed.

(** The value of a number that does not start with 0 has as many digits. *)
Lemma canonical_lower ds : canonical ds → head ds ≠ Some "0"%char → (10 ^ (Z.of_nat (length ds) - 1) ≤ digits_value ds)%Z.
Proof.
  induction ds as [|c ds IH] using rev_ind; [by intros [? _]|]. intros Hcan Hh.
  destruct (decide (ds = [])) as [->|Hne].
  - destruct Hcan as (_ & Hc & _). cbn in Hc |- *. rewrite andb_true_r in Hc. pose proof (digit_char_value c Hc) as [E ?].
    assert (digit_value c ≠ 0%Z); [|lia]. intros Hz. apply Hh. cbn. f_equal. by apply digit_zero.
  - destruct (canonical_snoc ds c Hne Hcan) as (Hds & Hc & Hh'). specialize (IH Hds Hh').
    rewrite digits_value_snoc, length_app, Nat2Z.inj_add. cbn [length].
    pose proof (digit_char_value c Hc). destruct ds as [|d ds]; [done|]. cbn [length] in *.
    replace (Z.of_nat (S (length ds)) + Z.of_nat 1 - 1)%Z with (Z.of_nat (S (length ds)) - 1 + 1)%Z by lia.
    rewrite Z.pow_add_r, Z.pow_1_r by lia. lia.
Qed.

Lemma canonical_upper ds : forallb is_digit ds = true → (digits_value ds < 10 ^ Z.of_nat (length ds))%Z.
Proof.
  induction ds as [|c ds IH] using rev_ind; [done|]. rewrite forallb_app. intros [Hds Hc]%andb_true_iff. cbn in Hc.
  rewrite andb_true_r in Hc. rewrite digits_value_snoc, length_app, Nat2Z.inj_add, Z.pow_add_r by lia. cbn [length].
  pose proof (digit_char_value c Hc). specialize (IH Hds). change (10 ^ Z.of_nat 1)%Z with 10%Z. lia.
Qed.

Lemma print_canonical ds : canonical ds → ∀ fuel buf, (digits_value ds < 10 ^ Z.of_nat fuel)%Z → 0 < fuel →
  print_digits fuel (digits_value ds) buf = ds ++ buf.
Proof.
  induction ds as [|c ds IH] using rev_ind; [by intros [? _]|]. intros Hcan [|fuel] buf Hlt Hf; [lia|].
  rewrite digits_value_snoc in *. rewrite Nat2Z.inj_succ, Z.pow_succ_r in Hlt by lia. cbn [print_digits].
  assert (Hc : is_digit c = true).
  { destruct Hcan as (_ & Hd & _). rewrite forallb_app in Hd. apply andb_true_iff in Hd as [_ Hd]. cbn in Hd. by rewrite andb_true_r in Hd. }
  pose proof (digit_char_value c Hc) as [E Hv].
  replace ((10 * digits_value ds + digit_value c) mod 10)%Z with (digit_value c) by (symmetry; rewrite Z.add_comm, Z.mul_comm, Z_mod_plus_full; by apply Z.mod_small).
  replace ((10 * digits_value ds + digit_value c) / 10)%Z with (digits_value ds) by (rewrite Z.add_comm, Z.mul_comm, Z.div_add by lia; rewrite Z.div_small; lia).
  rewrite E. destruct (decide (ds = [])) as [->|Hne]; [done|].
  destruct (canonical_snoc ds c Hne Hcan) as (Hds & _ & Hh). pose proof (canonical_lower ds Hds Hh) as Hlo.
  assert (0 < 10 ^ (Z.of_nat (length ds) - 1))%Z by (apply Z.pow_pos_nonneg; [lia|destruct ds; [done|cbn; lia]]).
  rewrite (proj2 (Z.eqb_neq _ _)) by lia. rewrite IH; [by rewrite <-app_assoc|done|lia|].
  destruct fuel; [|lia]. cbn in Hlt. lia.
Qed.

Lemma print_exists fuel : ∀ n, (0 ≤ n < 10 ^ Z.of_nat fuel)%Z → 0 < fuel → ∃ ds, canonical ds ∧ digits_value ds = n.
Proof.
  induction fuel as [|fuel IH]; intros n Hn Hf; [lia|]. rewrite Nat2Z.inj_succ, Z.pow_succ_r in Hn by lia.
  pose proof (Z.mod_pos_bound n 10 ltac:(lia)) as Hm. destruct (digit_char_digit _ Hm) as [Hd Hv].
  destruct (decide (n < 10)%Z) as [Hlt|Hge].
  - exists [digit_char (n mod 10)]. split; [split_and!; [done|cbn; by rewrite Hd|done]|].
    unfold digits_value. cbn [foldl]. rewrite Hv, Z.mod_small; lia.
  - destruct (IH (n / 10)%Z) as (ds & Hds & E).
    + split; [apply Z.div_pos; lia|]. apply Z.div_lt_upper_bound; lia.
    + destruct fuel; [cbn in Hn; lia|lia].
    + exists (ds ++ [digit_char (n mod 10)]). split; [|rewrite digits_value_snoc, E, Hv; pose proof (Z.div_mod n 10); lia].
      pose proof Hds as (Hne & Hd' & Hz). split_and!; [by destruct ds|rewrite forallb_app, Hd'; cbn; by rewrite Hd|].
      intros Hh. destruct ds as [|d ds]; [done|]. cbn in Hh. pose proof (Hz Hh) as Hl. cbn in Hl.
      assert (n / 10 = 0)%Z; [|assert (1 ≤ n / 10)%Z by (apply Z.div_le_lower_bound; lia); lia].
      destruct ds; [|done]. injection Hh as ->. by rewrite <-E.
Qed.

Lemma log2_fuel n : (0 ≤ n)%Z → (n < 10 ^ Z.of_nat (S (Z.to_nat (Z.log2 n))))%Z.
Proof.
  intros Hn. destruct (decide (n = 0)%Z) as [->|]; [done|]. pose proof (Z.log2_spec n ltac:(lia)) as [_ H].
  pose proof (Z.log2_nonneg n). replace (Z.of_nat (S (Z.to_nat (Z.log2 n)))) with (Z.succ (Z.log2 n)) by lia.
  eapply Z.lt_le_trans; [exact H|]. apply Z.pow_le_mono_l. lia.
Qed.

Lemma canonical_dec ds : canonical ds → dec_of_ulong (digits_value ds) = ds.
Proof.
  intros Hds. unfold dec_of_ulong. rewrite print_canonical; [by rewrite app_nil_r|done| |lia].
  apply log2_fuel. apply digits_value_nonneg. apply Hds.
Qed.

(** A number is printed as the one canonical string of digits of its value. *)
Lemma dec_of_ulong_spec n : (0 ≤ n)%Z → canonical (dec_of_ulong n) ∧ digits_value (dec_of_ulong n) = n.
Proof.
  intros Hn. destruct (print_exists (S (Z.to_nat (Z.log2 n))) n) as (ds & Hds & <-); [split; [done|by apply log2_fuel]|lia|].
  by rewrite canonical_dec.
Qed.

(** ** Numeric keys *)

Lemma digit_not_minus d : is_digit d = true → ceq d MINUS = false.
Proof. intros Hd. apply ceq_false. by intros ->. Qed.

Lemma canonical_length ds k : canonical ds → (digits_value ds < 10 ^ Z.of_nat k)%Z → 0 < k → length ds ≤ k.
Proof.
  intros Hds Hn Hk. destruct (decide (head ds = Some "0"%char)) as [Hz|Hz]; [rewrite (proj2 (proj2 Hds) Hz); lia|].
  pose proof (canonical_lower ds Hds Hz) as Hlo. destruct (decide (length ds ≤ k)) as [|Hgt]; [done|].
  assert (10 ^ Z.of_nat k ≤ 10 ^ (Z.of_nat (length ds) - 1))%Z by (apply Z.pow_le_mono_r; lia). lia.
Qed.

Lemma canonical_positive ds : canonical ds → (0 < digits_value ds)%Z ↔ head ds ≠ Some "0"%char.
Proof.
  intros Hds. split.
  - intros Hv Hz. pose proof (proj2 (proj2 Hds) Hz) as Hl. destruct ds as [|d [|e ds]]; [done| |done].
    injection Hz as ->. by vm_compute in Hv.
  - intros Hz. pose proof (canonical_lower ds Hds Hz) as Hlo. destruct ds as [|d ds]; [by destruct Hds|]. cbn [length] in Hlo.
    assert (0 < 10 ^ (Z.of_nat (S (length ds)) - 1))%Z by (apply Z.pow_pos_nonneg; lia). lia.
Qed.

Lemma dec_chars n : Forall (λ c, is_digit c = true ∨ c = MINUS) (dec_of_Z n).
Proof.
  assert (Hd : ∀ n, (0 ≤ n)%Z → Forall (λ c, is_digit c = true ∨ c = MINUS) (dec_of_ulong n)).
  { intros m Hm. destruct (dec_of_ulong_spec m Hm) as [(_ & Hc & _) _]. rewrite forallb_forall in Hc.
    apply Forall_forall. intros c Hin. left. by apply Hc, list_elem_of_In. }
  unfold dec_of_Z. destruct (n <? 0)%Z eqn:E; [|apply Hd; apply Z.ltb_ge in E; lia].
  apply Forall_cons. split; [by right|]. apply Hd. apply Z.ltb_lt in E. lia.
Qed.

(** The longest of the 64-bit numbers fills [MAX_LENGTH_OF_LONG]. *)
Lemma dec_length n : (- 2 ^ 63 ≤ n < 2 ^ 63)%Z → length (dec_of_Z n) ≤ MAX_LENGTH_OF_LONG.
Proof.
  intros Hn. assert (Hu : ∀ m, (0 ≤ m ≤ 2 ^ 63)%Z → length (dec_of_ulong m) ≤ 19).
  { intros m Hm. destruct (dec_of_ulong_spec m) as [Hds Hv]; [lia|]. apply canonical_length; [done|rewrite Hv|lia]. lia. }
  unfold dec_of_Z, MAX_LENGTH_OF_LONG. destruct (n <? 0)%Z eqn:E.
  - specialize (Hu (- n)%Z ltac:(lia)). change (length (MINUS :: dec_of_ulong (- n)) ≤ 20). cbn [length]. lia.
  - specialize (Hu n ltac:(lia)). lia.
Qed.

Lemma numeric_sound s n : zend_handle_numeric_str s = Some n → (- 2 ^ 63 ≤ n < 2 ^ 63)%Z ∧ s = dec_of_Z n.
Proof.
  unfold zend_handle_numeric_str. destruct s as [|c s]; [done|]. destruct (ceq c MINUS) eqn:Ec.
  - apply ceq_true in Ec as ->. destruct s as [|d s]; [done|]. destruct (forallb is_digit (d :: s)) eqn:Hd; [|done].
    destruct (ceq d "0"%char) eqn:Ez; [by rewrite bool_decide_true by (cbn; lia)|]. cbn [negb andb].
    case_bool_decide; [done|]. unfold ZEND_LONG_MAX. case_match; [done|]. intros [= <-].
    assert (Hcan : canonical (d :: s)).
    { split_and!; [done|done|]. intros [= ->]. by rewrite ceq_refl in Ez. }
    assert (0 < digits_value (d :: s))%Z.
    { apply canonical_positive; [done|]. intros [= ->]. by rewrite ceq_refl in Ez. }
    split; [lia|]. unfold dec_of_Z. replace (- digits_value (d :: s) <? 0)%Z with true by lia.
    by rewrite Z.opp_involutive, canonical_dec.
  - destruct (forallb is_digit (c :: s)) eqn:Hd; [|done]. cbn [negb].
    destruct (ceq c "0"%char && bool_decide (1 < length (c :: s))) eqn:Ez; [done|].
    destruct (bool_decide (MAX_LENGTH_OF_LONG - 1 < _)); [done|]. unfold ZEND_LONG_MAX. destruct (_ <? _)%Z eqn:Hmax; [done|]. intros [= <-].
    assert (Hcan : canonical (c :: s)).
    { split_and!; [done|done|]. intros [= ->]. rewrite ceq_refl in Ez. cbn in Ez. apply bool_decide_eq_false in Ez. cbn. lia. }
    pose proof (digits_value_nonneg (c :: s) Hd). split; [lia|]. unfold dec_of_Z.
    replace (digits_value (c :: s) <? 0)%Z with false by lia. by rewrite canonical_dec.
Qed.

Lemma numeric_complete n : (- 2 ^ 63 ≤ n < 2 ^ 63)%Z → zend_handle_numeric_str (dec_of_Z n) = Some n.
Proof.
  intros Hn. unfold dec_of_Z, zend_handle_numeric_str. destruct (n <? 0)%Z eqn:En.
  - destruct (dec_of_ulong_spec (- n) ltac:(lia)) as [Hcan Hv]. pose proof (canonical_length _ 19 Hcan ltac:(lia) ltac:(lia)) as Hl.
    pose proof (proj1 (canonical_positive _ Hcan) ltac:(lia)) as Hh. destruct (dec_of_ulong (- n)) as [|d ds]; [by destruct Hcan|].
    cbn [app]. rewrite ceq_refl, (proj1 (proj2 Hcan)).
    replace (ceq d "0"%char) with false by (symmetry; apply ceq_false; by intros ->). cbn [negb andb].
    unfold MAX_LENGTH_OF_LONG. rewrite bool_decide_false by lia. rewrite Hv. unfold ZEND_LONG_MAX.
    replace (2 ^ 63 - 1 <? - n - 1)%Z with false by lia. by rewrite Z.opp_involutive.
  - destruct (dec_of_ulong_spec n ltac:(lia)) as [Hcan Hv]. pose proof (canonical_length _ 19 Hcan ltac:(lia) ltac:(lia)) as Hl.
    destruct (dec_of_ulong n) as [|d ds]; [by destruct Hcan|]. pose proof Hcan as (_ & Hd & Hz).
    rewrite digit_not_minus by (cbn in Hd; by apply andb_true_iff in Hd as [? _]). rewrite Hd. cbn [negb].
    replace (ceq d "0"%char && bool_decide (1 < length (d :: ds))) with false.
    + unfold MAX_LENGTH_OF_LONG. rewrite bool_decide_false by lia. rewrite Hv. unfold ZEND_LONG_MAX.
      by replace (2 ^ 63 - 1 <? n)%Z with false by lia.
    + symmetry. destruct (ceq d "0"%char) eqn:Ez; [|done]. apply ceq_true in Ez as ->. specialize (Hz eq_refl).
      apply bool_decide_eq_false. lia.
Qed.

(** ** The buffer of [php_implode] *)

Lemma store_at (a b c s : zstr) buf i : buf = a ++ b ++ c → i = length a → length b = length s →
  store buf i s = Some (a ++ s ++ c).
Proof.
  intros -> -> Hl. unfold store. rewrite decide_True by (rewrite !length_app; lia).
  rewrite take_app_length, <-Hl, drop_app_add', drop_app_length by done. done.
Qed.

Lemma back_le cptr n m : cptr = m + n → back cptr n = Some m.
Proof. intros ->. unfold back. rewrite decide_True by lia. f_equal. lia. Qed.

Lemma print_digits_app fuel n buf : print_digits fuel n buf = print_digits fuel n [] ++ buf.
Proof.
  revert n buf. induction fuel as [|fuel IH]; intros n buf; [done|]. cbn [print_digits]. case_match; [done|].
  by rewrite (IH _ [_]), IH, <-app_assoc.
Qed.

(** The gap in front of the cursor is what a number or a string fills. *)
Definition fills (f : zstr → nat → option (zstr * nat)) (s : zstr) : Prop :=
  ∀ (pre gap rest : zstr) cptr, cptr = length pre + length s → length gap = length s →
    f (pre ++ gap ++ rest) cptr = Some (pre ++ s ++ rest, length pre).

Lemma print_loop_ok fuel n : fills (print_loop fuel n) (print_digits fuel n []).
Proof.
  revert n. induction fuel as [|fuel IH]; intros n pre gap rest cptr; cbn [print_digits print_loop length].
  - intros -> ->%nil_length_inv. by rewrite Nat.add_0_r.
  - set (d := digit_char (n mod 10)). rewrite print_digits_app. intros -> Hl.
    destruct gap as [|g gap _] using rev_ind; [by destruct (n / 10 =? 0)%Z; rewrite ?length_app in Hl; cbn in Hl; lia|].
    rewrite (back_le _ 1 (length (pre ++ gap))) by (destruct (n / 10 =? 0)%Z; rewrite ?length_app in *; cbn in *; lia).
    cbn [mbind option_bind]. rewrite (store_at (pre ++ gap) [g] rest) by (done || by rewrite <-!app_assoc).
    cbn [mbind option_bind]. rewrite length_app in Hl. destruct (n / 10 =? 0)%Z; cbn in Hl.
    + assert (gap = []) as -> by (destruct gap; [done|cbn in Hl; lia]). by rewrite !app_nil_r.
    + rewrite length_app in Hl. cbn in Hl. rewrite <-app_assoc, IH by (rewrite ?length_app; lia). by rewrite <-app_assoc.
Qed.

Lemma print_ulong_ok n (pre gap rest : zstr) r cptr :
  cptr = length pre + length (dec_of_ulong n) → length gap = length (dec_of_ulong n) →
  zend_print_ulong_to_buf n (pre ++ gap ++ r :: rest) cptr = Some (pre ++ dec_of_ulong n ++ NUL :: rest, length pre).
Proof.
  intros Hc Hl. unfold zend_print_ulong_to_buf.
  rewrite (store_at (pre ++ gap) [r] rest) by (done || rewrite ?length_app, <-?app_assoc; done || lia).
  cbn [mbind option_bind]. rewrite <-app_assoc. by apply print_loop_ok.
Qed.

Lemma print_long_ok n (pre gap rest : zstr) r cptr :
  cptr = length pre + length (dec_of_Z n) → length gap = length (dec_of_Z n) →
  zend_print_long_to_buf n (pre ++ gap ++ r :: rest) cptr = Some (pre ++ dec_of_Z n ++ NUL :: rest, length pre).
Proof.
  unfold zend_print_long_to_buf, dec_of_Z. destruct (n <? 0)%Z; [|apply print_ulong_ok].
  intros -> Hl. destruct gap as [|g gap]; [done|]. cbn in Hl. injection Hl as Hl.
  replace (pre ++ (g :: gap) ++ r :: rest) with ((pre ++ [g]) ++ gap ++ r :: rest) by (by rewrite <-!app_assoc).
  rewrite print_ulong_ok by (rewrite ?length_app; cbn; lia). cbn [mbind option_bind].
  rewrite (back_le _ 1 (length pre)) by (by rewrite length_app). cbn [mbind option_bind].
  by rewrite (store_at pre [g] (dec_of_ulong (- n) ++ NUL :: rest)) by (done || by rewrite <-!app_assoc).
Qed.

(** A buffer with one byte behind the cursor. *)
Lemma junk_buffer (size : nat) (junk : nat → zstr) :
  ∃ gap c, take (S size) (junk (S size) ++ replicate (S size) NUL) = gap ++ [c] ∧ length gap = size.
Proof.
  set (buf := take _ _). assert (Hb : length buf = S size).
  { unfold buf. rewrite length_take, length_app, length_replicate. lia. }
  destruct buf as [|c gap _] using rev_ind; [done|]. exists gap, c. rewrite length_app in Hb. cbn in Hb. split; [done|lia].
Qed.

Lemma long_to_str_ok n junk : (- 2 ^ 63 ≤ n < 2 ^ 63)%Z → zend_long_to_str n junk = Some (dec_of_Z n).
Proof.
  intros Hn. pose proof (dec_length n Hn) as Hl. unfold zend_long_to_str.
  destruct (junk_buffer MAX_LENGTH_OF_LONG junk) as (gap & c & -> & Hg).
  set (k := MAX_LENGTH_OF_LONG - length (dec_of_Z n)). assert (Hk : length (take k gap) = k) by (rewrite length_take; lia).
  replace (gap ++ [c]) with (take k gap ++ drop k gap ++ [c]) by (by rewrite app_assoc, take_drop).
  rewrite print_long_ok by (rewrite ?Hk, ?length_drop; lia). cbn [mbind option_bind].
  rewrite app_assoc, take_app_length', Hk by (rewrite length_app; lia). by rewrite drop_app_length' by done.
Qed.

(** Every 64-bit number is printed into the array of characters that there is for
    it, without a byte outside, and a string stands for an integer as a key of an array
    exactly when it is what printing the integer gives; every other string is a key of
    its own. *)
Theorem numeric_key_spec :
  (∀ n junk, (- 2 ^ 63 ≤ n < 2 ^ 63)%Z → is_Some (zend_long_to_str n junk)) ∧
  ∀ s n junk, symtable_key s = KIdx n ↔ (- 2 ^ 63 ≤ n < 2 ^ 63)%Z ∧ zend_long_to_str n junk = Some s.
Proof.
  split; [intros n junk Hn; rewrite long_to_str_ok by done; by eexists|].
  intros s n junk. unfold symtable_key. split.
  - destruct (zend_handle_numeric_str s) as [m|] eqn:E; [|done]. intros [= ->].
    apply numeric_sound in E as [Hn ->]. by rewrite long_to_str_ok.
  - intros [Hn Hs]. rewrite long_to_str_ok in Hs by done. injection Hs as <-. by rewrite numeric_complete.
Qed.

Lemma numeric_key_spec_witness :
  is_Some (zend_long_to_str (- 2 ^ 63) (λ _, "junk")) ∧ symtable_key "-9223372036854775808" = KIdx (- 2 ^ 63).
Proof.
  split; [apply (proj1 numeric_key_spec); lia|].
  apply (proj2 numeric_key_spec _ _ (λ _, "junk")). split; [lia|reflexivity].
Defined.

Lemma put_long_ok n (pre gap rest : zstr) r cptr :
  cptr = length pre + length (dec_of_Z n) → length gap = length (dec_of_Z n) →
  put_long n (pre ++ gap ++ r :: rest) cptr = Some (pre ++ dec_of_Z n ++ r :: rest, length pre).
Proof.
  intros Hc Hl. unfold put_long. rewrite (app_assoc pre gap) at 1.
  rewrite list_lookup_middle by (rewrite length_app; lia). cbn [mbind option_bind].
  rewrite print_long_ok by done. cbn [mbind option_bind].
  rewrite (store_at (pre ++ dec_of_Z n) [NUL] rest) by (done || rewrite ?length_app, <-?app_assoc; done || lia).
  cbn [mbind option_bind]. by rewrite <-app_assoc.
Qed.

Lemma put_string_ok s : fills (put_string s) s.
Proof.
  intros pre gap rest cptr Hc Hl. unfold put_string. rewrite (back_le _ _ (length pre)) by lia. cbn [mbind option_bind].
  by rewrite (store_at pre gap rest).
Qed.

(** The digits that are counted are the digits that are printed. *)
Lemma count_loop_opp fuel n : count_loop fuel (- n) = count_loop fuel n.
Proof.
  revert n. induction fuel as [|fuel IH]; intros n; [done|]. cbn. rewrite Z.quot_opp_l, IH by done.
  by replace (- n =? 0)%Z with (n =? 0)%Z by lia.
Qed.

Lemma count_loop_ok fuel n : (0 < n)%Z → count_loop fuel n = length (print_digits fuel n []).
Proof.
  revert n. induction fuel as [|fuel IH]; intros n Hn; [done|]. cbn. rewrite (proj2 (Z.eqb_neq n 0)) by lia.
  rewrite Z.quot_div_nonneg by lia. destruct (n / 10 =? 0)%Z eqn:E.
  - apply Z.eqb_eq in E as ->. by destruct fuel.
  - rewrite print_digits_app, length_app, IH; [cbn; lia|]. pose proof (Z.div_pos n 10). lia.
Qed.

Lemma long_length_ok n : long_length n = length (dec_of_Z n).
Proof.
  unfold long_length, dec_of_Z, dec_of_ulong. destruct (Z.lt_trichotomy n 0) as [H|[->|H]]; [|done|].
  - replace (n <=? 0)%Z with true by lia. replace (n <? 0)%Z with true by lia. rewrite length_app. cbn [length Nat.add]. f_equal.
    replace (Z.abs n) with (- n)%Z by lia. rewrite <-count_loop_ok by lia. by rewrite count_loop_opp.
  - replace (n <=? 0)%Z with false by lia. replace (n <? 0)%Z with false by lia.
    replace (Z.abs n) with n by lia. by rewrite <-count_loop_ok.
Qed.

(** What joining means. *)
Fixpoint glue (delim : zstr) (ws : list zstr) : zstr :=
  match ws with
  | [] => []
  | [w] => w
  | w :: ws' => w ++ delim ++ glue delim ws'
  end.

Lemma glue_snoc delim ws w : ws ≠ [] → glue delim (ws ++ [w]) = glue delim ws ++ delim ++ w.
Proof.
  induction ws as [|v ws IH]; [done|]. intros _. destruct ws as [|v' ws]; [done|].
  cbn [app glue] in *. rewrite IH by done. by rewrite <-!app_assoc.
Qed.

Lemma glue_length delim ws : ws ≠ [] → length (glue delim ws) = (length ws - 1) * length delim + sum_list (length <$> ws).
Proof.
  induction ws as [|v ws IH]; [done|]. intros _. destruct ws as [|v' ws]; [cbn; lia|].
  change (glue delim (v :: v' :: ws)) with (v ++ delim ++ glue delim (v' :: ws)). rewrite !length_app, IH by done. cbn. lia.
Qed.

Section implode_ok.
Context `{Runtime}.

Definition text_of (p : zstr + Z) : zstr := match p with inl s => s | inr n => dec_of_Z n end.

Lemma text_of_piece v : text_of (piece_of v) = zval_get_string v.
Proof. by destruct v. Qed.

Lemma piece_length_ok p : piece_length p = length (text_of p).
Proof. destruct p; [done|]. apply long_length_ok. Qed.

Lemma put_piece_ok p (pre gap rest : zstr) r cptr :
  cptr = length pre + length (text_of p) → length gap = length (text_of p) →
  match p with inl s => put_string s (pre ++ gap ++ r :: rest) cptr | inr n => put_long n (pre ++ gap ++ r :: rest) cptr end =
  Some (pre ++ text_of p ++ r :: rest, length pre).
Proof. destruct p; [apply put_string_ok|apply put_long_ok]. Qed.

Lemma implode_loop_ok delim ps : ps ≠ [] → ∀ gap r rest, length gap = length (glue delim (text_of <$> ps)) →
  implode_loop delim (reverse ps) (gap ++ r :: rest) (length gap) = Some (glue delim (text_of <$> ps) ++ r :: rest).
Proof.
  induction ps as [|p ps IH] using rev_ind; [done|]. intros _ gap r rest Hl. rewrite fmap_app in *. cbn [fmap list_fmap] in *.
  rewrite reverse_snoc. destruct (decide (ps = [])) as [->|Hne].
  - cbn in Hl |- *. destruct p as [s|n]; cbn in Hl |- *; [by rewrite (store_at [] gap (r :: rest))|].
    pose proof (put_long_ok n [] gap rest r (length gap) Hl Hl) as Hput. cbn in Hput. by rewrite Hput.
  - rewrite glue_snoc in * by (by destruct ps). rewrite !length_app in Hl.
    rewrite <-(take_drop (length (glue delim (text_of <$> ps))) gap) at 1.
    set (gap1 := take (length (glue delim (text_of <$> ps))) gap). set (gap23 := drop _ gap).
    assert (H1 : length gap1 = length (glue delim (text_of <$> ps))) by (unfold gap1; rewrite length_take; lia).
    assert (H23 : length gap23 = length delim + length (text_of p)) by (unfold gap23; rewrite length_drop; lia).
    rewrite <-(take_drop (length delim) gap23). set (gap2 := take (length delim) gap23). set (gap3 := drop _ gap23).
    assert (H2 : length gap2 = length delim) by (unfold gap2; rewrite length_take; lia).
    assert (H3 : length gap3 = length (text_of p)) by (unfold gap3; rewrite length_drop; lia).
    assert (Hstep : ∀ q l, implode_loop delim (p :: q :: l) ((gap1 ++ gap2 ++ gap3) ++ r :: rest) (length gap) =
      implode_loop delim (q :: l) (gap1 ++ delim ++ text_of p ++ r :: rest) (length gap1)).
    { intros q l. cbn [implode_loop]. replace ((gap1 ++ gap2 ++ gap3) ++ r :: rest) with ((gap1 ++ gap2) ++ gap3 ++ r :: rest) by (by rewrite <-!app_assoc).
      rewrite put_piece_ok by (rewrite ?length_app; lia). cbn [mbind option_bind]. rewrite <-app_assoc.
      rewrite put_string_ok by (rewrite ?length_app; lia). by destruct p. }
    destruct (reverse ps) as [|q l] eqn:Er; [by apply (f_equal reverse) in Er; rewrite reverse_involutive in Er|].
    rewrite Hstep, <-app_assoc. destruct (delim ++ text_of p ++ r :: rest) as [|r' rest'] eqn:E.
    { by apply app_eq_nil in E as [_ [_ ?]%app_eq_nil]. }
    replace ((delim ++ text_of p) ++ r :: rest) with (r' :: rest') by (by rewrite <-E, <-app_assoc). by apply IH.
Qed.
End implode_ok.

Section implode_spec.
Context `{Runtime}.

(** Joined without a delimiter. *)
Lemma glue_nil ws : glue [] ws = mjoin ws.
Proof. induction ws as [|w [|w' ws] IH]; [done|by cbn; rewrite app_nil_r|]. cbn [glue mjoin app] in *. by rewrite IH. Qed.

Lemma implode_ok delim arr junk :
  php_implode delim arr junk = Some (glue delim (zval_get_string <$> arr.*2)).
Proof.
  unfold php_implode. destruct arr as [|[k1 v1] [|[k2 v2] arr]]; [done..|].
  set (kvs := (k1, v1) :: (k2, v2) :: arr). set (ps := piece_of <$> kvs.*2).
  assert (Et : text_of <$> ps = zval_get_string <$> kvs.*2).
  { unfold ps. rewrite <-list_fmap_compose. apply list_fmap_ext. intros i v _. apply text_of_piece. }
  assert (Es : (length kvs - 1) * length delim + sum_list (piece_length <$> ps) = length (glue delim (text_of <$> ps))).
  { rewrite glue_length by done. f_equal; [unfold ps; by rewrite !length_fmap|]. f_equal. rewrite <-list_fmap_compose.
    apply list_fmap_ext. intros i p _. apply piece_length_ok. }
  rewrite Es, <-Et. set (size := length (glue delim (text_of <$> ps))).
  destruct (junk_buffer size junk) as (gap & c & -> & Hg). rewrite <-Hg.
  rewrite (store_at gap [c] [] [NUL]) by done. cbn [mbind option_bind app].
  rewrite implode_loop_ok by done. cbn [mbind option_bind]. rewrite Hg. unfold size. by rewrite take_app_length.
Qed.

(** Joining the values of an array writes every byte of the buffer that it has
    measured and none outside, and the result is the printed values with the
    delimiter between them, whatever the buffer held before. *)
Theorem php_implode_spec delim arr junk :
  php_implode delim arr junk = Some (glue delim (zval_get_string <$> arr.*2)).
Proof. apply implode_ok. Qed.
End implode_spec.
