(* ===== verification/ZendClass.v ===== *)
(** * Classes of the engine

    The part of [zend_API.c], [zend_inheritance.c], [zend_object_handlers.c] and
    [zend_operators.c] of [src/php-7.1.3/Zend/] that a module uses to register its
    classes: the slots of the default properties and the table that names them,
    declaration, inheritance, interfaces, new objects and [instanceof].  A class entry is
    named by what it is called without namespaces, which stands for the C variable that
    points to it.  An error that ends the startup is [None].  Left aside: the tables of
    methods, private properties, traits, constants that are evaluated late, and the
    callbacks of an interface that is implemented. *)

From S2P Require Import Prelude Zend.

Open Scope zs_scope.

(** ** Class entries *)

Inductive class_flag := ZEND_ACC_FINAL | ZEND_ACC_INTERFACE | ZEND_ACC_EXPLICIT_ABSTRACT_CLASS
  | ZEND_ACC_IMPLICIT_ABSTRACT_CLASS.
#[export] Instance class_flag_eq_dec : EqDecision class_flag.
Proof. solve_decision. Defined.

Inductive access := ZEND_ACC_PUBLIC | ZEND_ACC_PROTECTED.
#[export] Instance access_eq_dec : EqDecision access.
Proof. solve_decision. Defined.

(** [zend_property_info]: [offset] counts slots. *)
Record prop_info := PropInfo {
  pi_offset : nat;
  pi_static : bool;
  pi_access : access;
  pi_ce : zstr;
}.
#[export] Instance prop_info_rebuild : Rebuild prop_info := λ i,
  PropInfo (pi_offset i) (pi_static i) (pi_access i) (pi_ce i).

(** [zend_class_entry]; a slot that is [IS_UNDEF] is [None], a constant has the class
    that declares it. *)
Record class := Class {
  cl_ce : zstr;
  cl_name : zstr;
  cl_flags : list class_flag;
  cl_parent : option zstr;
  cl_interfaces : list zstr;
  cl_default_properties : list (option zval);
  cl_default_statics : list (option zval);
  cl_properties_info : htab prop_info;
  cl_constants : htab (zstr * zval);
}.
#[export] Instance class_rebuild : Rebuild class := λ c,
  Class (cl_ce c) (cl_name c) (cl_flags c) (cl_parent c) (cl_interfaces c) (cl_default_properties c)
    (cl_default_statics c) (cl_properties_info c) (cl_constants c).

Definition has_flag (f : class_flag) (c : class) : bool := bool_decide (f ∈ cl_flags c).

(** [do_register_internal_class] before it puts the entry into the table. *)
Definition new_class (ce name : zstr) (flags : list class_flag) : class := Class ce name flags None [] [] [] [] [].

(** The entries that are registered; the last one comes last. *)
Definition class_table : Type := list class.
Definition lookup_class (t : class_table) (ce : zstr) : option class :=
  snd <$> list_find (λ c, cl_ce c = ce) t.

(** ** Declarations *)

(** The slot of a property: the one of a property of the same kind and name, which is
    taken out of the table of names, or a new one. *)
Definition declared_slot (static : bool) (name : zstr) (c : class) : nat * htab prop_info :=
  let table := if static then cl_default_statics c else cl_default_properties c in
  match hfind (KStr name) (cl_properties_info c) with
  | Some i => if Bool.eqb (pi_static i) static then (pi_offset i, hdel (KStr name) (cl_properties_info c))
              else (length table, cl_properties_info c)
  | None => (length table, cl_properties_info c)
  end.

(** The table with one more slot where [slot] is its length. *)
Definition put_slot (slot : nat) (v : option zval) (table : list (option zval)) : list (option zval) :=
  if bool_decide (slot = length table) then table ++ [v] else <[slot := v]> table.

(** [zend_declare_property_ex] of an internal class. *)
Definition zend_declare_property_ex (name : zstr) (v : zval) (static : bool) (acc : access) (c : class)
    : option class :=
  let '(slot, infos) := declared_slot static name c in
  let c :=
    if static then c <| cl_default_statics := put_slot slot (Some v) (cl_default_statics c) |>
    else c <| cl_default_properties := put_slot slot (Some v) (cl_default_properties c) |> in
  match v with
  | ZArr _ | ZObj _ _ => None
  | _ => Some (c <| cl_properties_info :=
                      hupdate (KStr name) (PropInfo slot static acc (cl_ce c)) infos |>)
  end.

(** [zend_declare_class_constant_ex] with public access. *)
Definition zend_declare_class_constant_ex (name : zstr) (v : zval) (c : class) : option class :=
  if zend_string_equals_ci name "class" then None
  else match hfind (KStr name) (cl_constants c) with
       | Some _ => None
       | None => Some (c <| cl_constants := hupdate (KStr name) (cl_ce c, v) (cl_constants c) |>)
       end.

(** ** Inheritance *)

(** [zend_do_inherit_interfaces]: the interfaces from the last to the first, each unless
    the class had it before; the test at the end is [do_implement_interface]. *)
Definition zend_do_inherit_interfaces (from : list zstr) (c : class) : option class :=
  let added := filter (λ i, i ∉ cl_interfaces c) (reverse from) in
  if bool_decide (cl_ce c ∈ added) then None
  else Some (c <| cl_interfaces := cl_interfaces c ++ added |>).

(** The access of a property of the child must not be stricter. *)
Definition stricter (child parent : access) : bool :=
  match child, parent with ZEND_ACC_PROTECTED, ZEND_ACC_PUBLIC => true | _, _ => false end.

(** [do_inherit_property]: a property that the child has too moves into the slot of the
    parent and leaves its own undefined. *)
Definition do_inherit_property (c : class) (entry : hkey * prop_info) : option class :=
  let '(name, parent_info) := entry in
  match hfind name (cl_properties_info c) with
  | None => Some (c <| cl_properties_info := cl_properties_info c ++ [(name, parent_info)] |>)
  | Some i =>
      if negb (Bool.eqb (pi_static parent_info) (pi_static i)) || stricter (pi_access i) (pi_access parent_info) then None
      else if pi_static i then Some c
      else
        let table := cl_default_properties c in
        Some (c <| cl_default_properties :=
                     <[pi_offset i := None]> (<[pi_offset parent_info := mjoin (table !! pi_offset i)]> table) |>
                <| cl_properties_info :=
                     hupdate name (i <| pi_offset := pi_offset parent_info |>) (cl_properties_info c) |>)
  end.

(** [do_inherit_class_constant] *)
Definition do_inherit_class_constant (c : class) (entry : hkey * (zstr * zval)) : class :=
  match hfind entry.1 (cl_constants c) with
  | Some _ => c
  | None => c <| cl_constants := cl_constants c ++ [entry] |>
  end.

(** The slots of the class's own properties move behind those of the parent. *)
Definition shift_info (c parent : class) (i : prop_info) : prop_info :=
  if bool_decide (pi_ce i = cl_ce c) then
    i <| pi_offset := pi_offset i + (if pi_static i then length (cl_default_statics parent)
                                     else length (cl_default_properties parent)) |>
  else i.

(** What a class may be derived from. *)
Definition derivable (c parent : class) : bool :=
  if has_flag ZEND_ACC_INTERFACE c then has_flag ZEND_ACC_INTERFACE parent
  else negb (has_flag ZEND_ACC_INTERFACE parent || has_flag ZEND_ACC_FINAL parent).

(** [zend_do_inheritance] of an internal class. *)
Definition zend_do_inheritance (c parent : class) : option class :=
  if derivable c parent then
    c ← zend_do_inherit_interfaces (cl_interfaces parent) (c <| cl_parent := Some (cl_ce parent) |>);
    let c :=
      c <| cl_default_properties := cl_default_properties parent ++ cl_default_properties c |>
        <| cl_default_statics := cl_default_statics parent ++ cl_default_statics c |>
        <| cl_properties_info := prod_map id (shift_info c parent) <$> cl_properties_info c |> in
    c ← foldM do_inherit_property c (cl_properties_info parent);
    let c := foldl do_inherit_class_constant c (cl_constants parent) in
    Some (if has_flag ZEND_ACC_IMPLICIT_ABSTRACT_CLASS c
          then c <| cl_flags := ZEND_ACC_EXPLICIT_ABSTRACT_CLASS :: cl_flags c |> else c)
  else None.

(** [do_inherit_constant_check]: the constant is new, or the same; [None] is the error. *)
Definition do_inherit_constant_check (constants : htab (zstr * zval)) (entry : hkey * (zstr * zval)) : option bool :=
  match hfind entry.1 constants with
  | Some (ce, _) => if bool_decide (ce = entry.2.1) then Some false else None
  | None => Some true
  end.

(** [do_inherit_iface_constant] *)
Definition do_inherit_iface_constant (c : class) (entry : hkey * (zstr * zval)) : option class :=
  new ← do_inherit_constant_check (cl_constants c) entry;
  Some (if new : bool then c <| cl_constants := hupdate entry.1 entry.2 (cl_constants c) |> else c).

(** [zend_do_implement_interface]; [parent_iface_num] is the number of interfaces that
    the class has from its parent: an interface among them is passed over, any other that
    it has already is an error. *)
Definition zend_do_implement_interface (parent_iface_num : nat) (iface c : class) : option class :=
  if bool_decide (cl_ce iface ∈ drop parent_iface_num (cl_interfaces c)) then None
  else if bool_decide (cl_ce iface ∈ cl_interfaces c) then
    mapM (do_inherit_constant_check (cl_constants iface)) (cl_constants c);; Some c
  else
    c ← foldM do_inherit_iface_constant (c <| cl_interfaces := cl_interfaces c ++ [cl_ce iface] |>) (cl_constants iface);
    if bool_decide (cl_ce c = cl_ce iface) then None
    else zend_do_inherit_interfaces (cl_interfaces iface) c.

(** ** Objects *)

(** [_object_and_properties_init] of a class without a function of its own for it. *)
Definition object_init_ex (c : class) : option (list (option zval)) :=
  if has_flag ZEND_ACC_INTERFACE c || has_flag ZEND_ACC_IMPLICIT_ABSTRACT_CLASS c ||
     has_flag ZEND_ACC_EXPLICIT_ABSTRACT_CLASS c
  then None
  else Some (cl_default_properties c).

(** [rebuild_object_properties]: the properties of an object by name; a slot that is
    undefined or not there is left out. *)
Definition rebuild_object_properties (c : class) (slots : list (option zval)) : htab zval :=
  omap (λ e : hkey * prop_info,
          if pi_static e.2 then None else pair e.1 <$> mjoin (slots !! pi_offset e.2)) (cl_properties_info c).

(** ** [instanceof] *)

Section instanceof.
Context (t : class_table).

(** [instanceof_class]; the fuel is the number of classes, which bounds a chain of
    parents. *)
Fixpoint instanceof_class (fuel : nat) (ce super : zstr) : bool :=
  bool_decide (ce = super) ||
  match fuel, lookup_class t ce ≫= cl_parent with
  | S fuel', Some p => instanceof_class fuel' p super
  | _, _ => false
  end.

(** [instanceof_interface] *)
Fixpoint instanceof_interface (fuel : nat) (ce super : zstr) : bool :=
  match fuel with
  | O => false
  | S fuel' =>
      existsb (λ i, instanceof_interface fuel' i super) (default [] (cl_interfaces <$> lookup_class t ce)) ||
      instanceof_class (length t) ce super
  end.

Definition instanceof_function (ce super : zstr) : bool :=
  match lookup_class t super with
  | Some s => if has_flag ZEND_ACC_INTERFACE s then instanceof_interface (S (length t)) ce super
              else instanceof_class (length t) ce super
  | None => false
  end.
End instanceof.

(** ** The slots implement a table of defaults *)

Definition slots (static : bool) (c : class) : list (option zval) :=
  if static then cl_default_statics c else cl_default_properties c.
(** A slot that is there and defined. *)
Definition slot_value (static : bool) (c : class) (slot : nat) : option zval := mjoin (slots static c !! slot).
(** The default of a property by its name, of a static or of an ordinary one. *)
Definition default_of (static : bool) (c : class) (k : hkey) : option zval :=
  i ← hfind k (cl_properties_info c);
  if Bool.eqb (pi_static i) static then slot_value static c (pi_offset i) else None.

(** Every name has a slot of its own, which is defined. *)
Record class_ok (c : class) : Prop := {
  ok_names : hwf (cl_properties_info c);
  ok_slot : ∀ k i, hfind k (cl_properties_info c) = Some i → is_Some (slot_value (pi_static i) c (pi_offset i));
  ok_distinct : ∀ k k' i i', hfind k (cl_properties_info c) = Some i → hfind k' (cl_properties_info c) = Some i' →
    pi_static i = pi_static i' → pi_offset i = pi_offset i' → k = k';
}.

(** No name of the class has the slot. *)
Definition unnamed (c : class) (static : bool) (slot : nat) : Prop :=
  ∀ k i, hfind k (cl_properties_info c) = Some i → pi_static i = static → pi_offset i ≠ slot.

Lemma new_class_ok ce name flags : class_ok (new_class ce name flags).
Proof. split; [apply NoDup_nil_2|done|done]. Qed.

Lemma slot_value_lt static c slot v : slot_value static c slot = Some v → slot < length (slots static c).
Proof. unfold slot_value. destruct (slots static c !! slot) eqn:E; [|done]. intros _. by eapply lookup_lt_Some. Qed.

Lemma put_slot_lookup slot v table j :
  slot ≤ length table → put_slot slot v table !! j = if bool_decide (j = slot) then Some v else table !! j.
Proof.
  intros Hle. unfold put_slot. destruct (decide (slot = length table)) as [->|Hne].
  - rewrite (bool_decide_true (length table = _)) by done. rewrite lookup_app.
    destruct (decide (j = length table)) as [->|Hj].
    + by rewrite lookup_ge_None_2, Nat.sub_diag, bool_decide_true by lia.
    + rewrite bool_decide_false by done. destruct (table !! j) eqn:E; [done|].
      apply lookup_ge_None_1 in E. by rewrite lookup_ge_None_2 by (simpl; lia).
  - rewrite (bool_decide_false (slot = _)) by done. destruct (decide (j = slot)) as [->|Hj].
    + by rewrite list_lookup_insert_eq, bool_decide_true by lia.
    + by rewrite list_lookup_insert_ne, bool_decide_false by done.
Qed.

(** The slot that a declaration takes is not the one of another name, and what is left of
    the table of names is the table without the name, up to the other kind. *)
Lemma declared_slot_spec static name c :
  class_ok c →
  let '(slot, infos) := declared_slot static name c in
  slot ≤ length (slots static c) ∧ hwf infos ∧
  (∀ k i, k ≠ KStr name → hfind k infos = Some i ↔ hfind k (cl_properties_info c) = Some i) ∧
  (∀ k i, k ≠ KStr name → hfind k infos = Some i → pi_static i = static → pi_offset i ≠ slot).
Proof.
  intros Hok. unfold declared_slot. fold (slots static c).
  assert (Hnew : ∀ k i, hfind k (cl_properties_info c) = Some i → pi_static i = static →
                   pi_offset i ≠ length (slots static c)).
  { intros k i Hk <-. destruct (ok_slot c Hok _ _ Hk) as [v Hv]. apply slot_value_lt in Hv. lia. }
  pose proof (ok_names c Hok) as Hwf.
  destruct (hfind (KStr name) (cl_properties_info c)) as [i|] eqn:Hi;
    [destruct (Bool.eqb (pi_static i) static) eqn:Hs|]; [|by eauto 10..].
  apply Bool.eqb_prop in Hs. destruct (ok_slot c Hok _ _ Hi) as [v Hv]. rewrite Hs in Hv.
  split; [apply slot_value_lt in Hv; lia|]. split; [auto with yaf|].
  assert (Hdel : ∀ k, k ≠ KStr name → hfind k (hdel (KStr name) (cl_properties_info c)) = hfind k (cl_properties_info c)).
  { intros k Hne. rewrite hfind_hdel by done. by rewrite bool_decide_false. }
  split; [intros k j Hne; by rewrite Hdel|].
  intros k j Hne. rewrite Hdel by done. intros Hk Hst Heq. apply Hne.
  eapply (ok_distinct c Hok); eauto.
Qed.

(** One name gets a slot that no other name has, and the slots of the others keep what
    they hold. *)
Lemma set_property c c2 k0 i0 v :
  class_ok c → hwf (cl_properties_info c2) →
  (∀ k, hfind k (cl_properties_info c2) = if bool_decide (k = k0) then Some i0 else hfind k (cl_properties_info c)) →
  slot_value (pi_static i0) c2 (pi_offset i0) = Some v →
  (∀ k i, k ≠ k0 → hfind k (cl_properties_info c) = Some i →
     (pi_static i = pi_static i0 → pi_offset i ≠ pi_offset i0) ∧
     slot_value (pi_static i) c2 (pi_offset i) = slot_value (pi_static i) c (pi_offset i)) →
  class_ok c2 ∧ ∀ s k, default_of s c2 k = if bool_decide (k = k0) then (if Bool.eqb (pi_static i0) s then Some v else None)
                                           else default_of s c k.
Proof.
  intros Hok Hwf Hinf Hv Hother.
  assert (Hinf' : ∀ k i, hfind k (cl_properties_info c2) = Some i →
                    (k = k0 ∧ i = i0) ∨ (k ≠ k0 ∧ hfind k (cl_properties_info c) = Some i)).
  { intros k i. rewrite Hinf. case_bool_decide; naive_solver. }
  split; [split; [done|..]|].
  - intros k i [[-> ->]|[Hne Hk]]%Hinf'; [by eauto|].
    destruct (Hother _ _ Hne Hk) as [_ ->]. by eapply (ok_slot c).
  - intros k k' i i' [[-> ->]|[Hne Hk]]%Hinf' [[-> ->]|[Hne' Hk']]%Hinf' Hs Ho; [done|..].
    + by destruct (Hother _ _ Hne' Hk') as [[] _].
    + by destruct (Hother _ _ Hne Hk) as [[] _].
    + by eapply (ok_distinct c).
  - intros s k. unfold default_of. rewrite Hinf. case_bool_decide as Hk; cbn.
    + destruct (Bool.eqb (pi_static i0) s) eqn:Hs; [|done]. apply Bool.eqb_prop in Hs as <-. done.
    + destruct (hfind k (cl_properties_info c)) as [i|] eqn:Hi; [|done]. cbn.
      destruct (Bool.eqb (pi_static i) s) eqn:Hs; [|done]. apply Bool.eqb_prop in Hs as <-. by apply (Hother k).
Qed.

Definition is_refused (v : zval) : bool := match v with ZArr _ | ZObj _ _ => true | _ => false end.

(** A declaration is refused for an array or an object, and otherwise gives the
    property of that name and kind the new default, which it shares with no other: every
    other name has the default it had, although a property that is declared again reuses
    its slot and the table may grow, and the slots stay well formed. *)
Theorem declare_property_spec name v static acc c :
  class_ok c →
  if is_refused v then zend_declare_property_ex name v static acc c = None
  else ∃ c', zend_declare_property_ex name v static acc c = Some c' ∧ class_ok c' ∧
       ∀ s k, default_of s c' k = if bool_decide (k = KStr name) then (if Bool.eqb s static then Some v else None)
                                  else default_of s c k.
Proof.
  intros Hok. pose proof (declared_slot_spec static name c Hok) as Hslot. unfold zend_declare_property_ex.
  destruct (declared_slot static name c) as [slot infos]. destruct Hslot as (Hle & Hwf & Hinfos & Hfree).
  set (c1 := if static then _ else _).
  destruct (is_refused v) eqn:Hv; [by destruct v|].
  exists (c1 <| cl_properties_info := hupdate (KStr name) (PropInfo slot static acc (cl_ce c1)) infos |>).
  split; [by destruct v|].
  set (c2 := c1 <| cl_properties_info := _ |>).
  assert (Hval : ∀ s j, slot_value s c2 j =
                   if Bool.eqb s static && bool_decide (j = slot) then Some v else slot_value s c j).
  { intros s j. unfold slot_value, c2, c1. clear c2 c1. unfold slots in Hle |- *.
    destruct s, static; cbn; [|done..|]; rewrite put_slot_lookup by done; by case_bool_decide. }
  assert (Hinf : ∀ k, hfind k (cl_properties_info c2) =
                   if bool_decide (k = KStr name) then Some (PropInfo slot static acc (cl_ce c1)) else hfind k (cl_properties_info c)).
  { intros k. cbn. rewrite hfind_hupdate. case_bool_decide as Hk; [done|].
    apply option_eq. intros i. by apply Hinfos. }
  assert (Hother : ∀ k i, k ≠ KStr name → hfind k (cl_properties_info c) = Some i → pi_static i = static → pi_offset i ≠ slot).
  { intros k i Hne Hk. apply (Hfree k); [done|]. by apply Hinfos. }
  destruct (set_property c c2 (KStr name) (PropInfo slot static acc (cl_ce c1)) v) as [Hok2 Hdef]; [done|..].
  - cbn. auto with yaf.
  - done.
  - cbn. by rewrite Hval, Bool.eqb_reflx, bool_decide_true.
  - intros k i Hne Hk. cbn. split; [by apply Hother with k|]. rewrite Hval.
    destruct (Bool.eqb _ _) eqn:Hs; [|done]. apply Bool.eqb_prop in Hs. by rewrite bool_decide_false by eauto.
  - split; [done|]. intros s k. rewrite Hdef. by destruct s, static.
Qed.

(** A property of the class moves into a slot that nobody names. *)
Lemma move_slot_spec c k i slot v w :
  class_ok c → hfind k (cl_properties_info c) = Some i → pi_static i = false →
  slot_value false c slot = Some v → unnamed c false slot → slot_value false c (pi_offset i) = Some w →
  let table := cl_default_properties c in
  let c' := c <| cl_default_properties := <[pi_offset i := None]> (<[slot := Some w]> table) |>
              <| cl_properties_info := hupdate k (i <| pi_offset := slot |>) (cl_properties_info c) |> in
  class_ok c' ∧ (∀ s k', default_of s c' k' = default_of s c k') ∧
  (∀ s j, unnamed c s j → (s = false → j ≠ slot) → unnamed c' s j ∧ slot_value s c' j = slot_value s c j).
Proof.
  intros Hok Hi Hst Hv Hfree Hw table c'. pose proof (Hfree _ _ Hi Hst) as Hne.
  pose proof (slot_value_lt _ _ _ _ Hv) as Hlt. pose proof (slot_value_lt _ _ _ _ Hw) as Hlt'. cbn in Hlt, Hlt'.
  assert (Hslot : ∀ s j, slot_value s c' j =
            if negb s && bool_decide (j = pi_offset i) then None
            else if negb s && bool_decide (j = slot) then Some w else slot_value s c j).
  { intros [] j; unfold slot_value, c'; cbn; [done|].
    destruct (decide (j = pi_offset i)) as [->|Hj].
    - by rewrite list_lookup_insert_eq, bool_decide_true by (rewrite ?length_insert; done).
    - rewrite list_lookup_insert_ne, (bool_decide_false (j = pi_offset i)) by done.
      destruct (decide (j = slot)) as [->|Hj'].
      + by rewrite list_lookup_insert_eq, bool_decide_true by done.
      + by rewrite list_lookup_insert_ne, (bool_decide_false (j = slot)) by done. }
  assert (Hinf : ∀ k', hfind k' (cl_properties_info c') =
            if bool_decide (k' = k) then Some (i <| pi_offset := slot |>) else hfind k' (cl_properties_info c)).
  { intros k'. apply hfind_hupdate. }
  assert (Hwf : hwf (cl_properties_info c')) by apply hwf_hupdate, (ok_names c Hok).
  clearbody c'. destruct (set_property c c' k (i <| pi_offset := slot |>) w Hok Hwf Hinf) as [Hok' Hdef].
  - cbn. rewrite Hslot, Hst. cbn. by rewrite bool_decide_false, bool_decide_true.
  - intros k' i' Hk Hi'. cbn. rewrite Hst. split; [intros Hs; by apply (Hfree k')|]. rewrite Hslot.
    destruct (pi_static i') eqn:Hst'; cbn; [done|]. rewrite !bool_decide_false; [done|by apply (Hfree k')|].
    intros Ho. apply Hk. eapply (ok_distinct c Hok); eauto.
  - split; [done|]. split.
    + intros s k'. rewrite Hdef. case_bool_decide as Hk; [subst k'|done].
      unfold default_of. rewrite Hi. cbn. rewrite Hst. destruct s; cbn; [done|by rewrite Hw].
    + intros s j Hj Hs. split.
      * intros k' i'. rewrite Hinf. case_bool_decide as Hk; [|by apply Hj].
        intros [= <-]. cbn. rewrite Hst. intros <-. by apply not_eq_sym, Hs.
      * rewrite Hslot. destruct s; cbn; [done|]. rewrite !bool_decide_false; [done|by apply Hs|].
        intros ->. by apply (Hj k i).
Qed.

(** One property of the parent: the class's own default of that name is kept, in the slot
    of the parent, and the slots that nobody names stay as they are. *)
Lemma do_inherit_property_spec c c' k pi v :
  class_ok c → slot_value (pi_static pi) c (pi_offset pi) = Some v → unnamed c (pi_static pi) (pi_offset pi) →
  do_inherit_property c (k, pi) = Some c' →
  class_ok c' ∧
  (∀ s k', default_of s c' k' =
     match default_of s c k' with
     | Some w => Some w
     | None => if bool_decide (k' = k) && Bool.eqb (pi_static pi) s then Some v else None
     end) ∧
  (∀ s j, unnamed c s j → (s = pi_static pi → j ≠ pi_offset pi) → unnamed c' s j ∧ slot_value s c' j = slot_value s c j).
Proof.
  intros Hok Hv Hfree. unfold do_inherit_property.
  destruct (hfind k (cl_properties_info c)) as [i|] eqn:Hi.
  - destruct (Bool.eqb (pi_static pi) (pi_static i)) eqn:Hs; [|done]. apply Bool.eqb_prop in Hs.
    destruct (stricter _ _); [done|]. cbn [negb orb].
    destruct (ok_slot c Hok _ _ Hi) as [w Hw].
    assert (Hkeep : ∀ s k', default_of s c k' =
              match default_of s c k' with
              | Some w => Some w
              | None => if bool_decide (k' = k) && Bool.eqb (pi_static pi) s then Some v else None
              end).
    { intros s k'. case_bool_decide as Hk; [subst k'|by destruct (default_of s c k')].
      unfold default_of. rewrite Hi, Hs. cbn. destruct (Bool.eqb (pi_static i) s) eqn:He; cbn; [|done].
      apply Bool.eqb_prop in He as <-. by rewrite Hw. }
    destruct (pi_static i) eqn:Hst; [by intros [= <-]|].
    rewrite Hs in Hv, Hfree. unfold slot_value in Hw. cbn in Hw. rewrite Hw. intros [= <-]. rewrite Hs.
    destruct (move_slot_spec c k i (pi_offset pi) v w) as (Hok' & Hdef & Hrest); [done..|].
    split; [done|]. split; [|done]. intros s k'. rewrite Hdef. rewrite Hs in Hkeep. apply Hkeep.
  - intros [= <-].
    assert (Hnew : cl_properties_info c ++ [(k, pi)] = hupdate k pi (cl_properties_info c)).
    { symmetry. by apply hupdate_new, hfind_None. }
    rewrite Hnew. set (c2 := c <| cl_properties_info := _ |>).
    assert (Hinf : ∀ k', hfind k' (cl_properties_info c2) =
              if bool_decide (k' = k) then Some pi else hfind k' (cl_properties_info c)).
    { intros k'. apply hfind_hupdate. }
    destruct (set_property c c2 k pi v Hok) as [Hok' Hdef]; [apply hwf_hupdate, (ok_names c Hok)|done|done|..].
    + intros k' i' Hne Hi'. split; [|done]. intros Hs. by apply (Hfree k').
    + split; [done|]. split.
      * intros s k'. rewrite Hdef. case_bool_decide as Hk; cbn.
        -- subst k'. unfold default_of. by rewrite Hi.
        -- by destruct (default_of s c k').
      * intros s j Hj Hs. split; [|done]. intros k' i'. rewrite Hinf.
        case_bool_decide; [|by apply Hj]. intros [= <-] <-. by apply not_eq_sym, Hs.
Qed.

(** All properties of the parent, whose slots nobody names before. *)
Lemma inherit_properties_spec infos c c' :
  class_ok c → hwf infos →
  (∀ k i, hfind k infos = Some i → is_Some (slot_value (pi_static i) c (pi_offset i)) ∧ unnamed c (pi_static i) (pi_offset i)) →
  (∀ k k' i i', hfind k infos = Some i → hfind k' infos = Some i' → pi_static i = pi_static i' →
     pi_offset i = pi_offset i' → k = k') →
  foldM do_inherit_property c infos = Some c' →
  class_ok c' ∧ ∀ s k, default_of s c' k =
    match default_of s c k with
    | Some w => Some w
    | None => i ← hfind k infos; if Bool.eqb (pi_static i) s then slot_value s c (pi_offset i) else None
    end.
Proof.
  revert c. induction infos as [|[k pi] infos IH]; intros c Hok Hwf Hslots Hdist Hfold.
  - injection Hfold as <-. split; [done|]. intros s k. by destruct (default_of s c k).
  - cbn [foldM] in Hfold. destruct (do_inherit_property c (k, pi)) as [c1|] eqn:Hstep; [|done].
    apply NoDup_cons in Hwf as [Hni%hfind_None Hwf]. cbn [fst] in Hni.
    assert (Hhd : hfind k ((k, pi) :: infos) = Some pi) by (cbn; by rewrite bool_decide_true).
    assert (Htl : ∀ k' i, hfind k' infos = Some i → k' ≠ k ∧ hfind k' ((k, pi) :: infos) = Some i).
    { intros k' i Hk. assert (k' ≠ k) as Hne by congruence.
      split; [done|]. cbn. by rewrite bool_decide_false. }
    destruct (Hslots _ _ Hhd) as [[v Hv] Hfree].
    destruct (do_inherit_property_spec c c1 k pi v) as (Hok1 & Hdef1 & Hrest); [done..|].
    assert (Hkeep : ∀ k' i, hfind k' infos = Some i →
              unnamed c1 (pi_static i) (pi_offset i) ∧ slot_value (pi_static i) c1 (pi_offset i) = slot_value (pi_static i) c (pi_offset i)).
    { intros k' i [Hne Hk]%Htl. apply Hrest; [by eapply Hslots|].
      intros Hs Ho. apply Hne. by eapply Hdist. }
    destruct (IH c1) as [Hok' Hdef]; [done|done| | |done|].
    + intros k' i Hk. destruct (Hkeep _ _ Hk) as [Hun ->]. split; [|done]. apply Htl in Hk as [_ Hk]. by eapply Hslots.
    + intros k1 k2 i1 i2 [_ H1]%Htl [_ H2]%Htl. by eapply Hdist.
    + split; [done|]. intros s k'. rewrite Hdef, Hdef1. destruct (default_of s c k') as [w|]; [done|]. cbn.
      case_bool_decide as Hk; cbn.
      * subst k'. destruct (Bool.eqb (pi_static pi) s) eqn:He.
        -- by apply Bool.eqb_prop in He as <-.
        -- by rewrite Hni.
      * destruct (hfind k' infos) as [i|] eqn:Hi; [|done]. cbn.
        destruct (Bool.eqb (pi_static i) s) eqn:He; [|done]. apply Bool.eqb_prop in He as <-. by apply (Hkeep k').
Qed.

Lemma inherit_interfaces_keeps from c c' :
  zend_do_inherit_interfaces from c = Some c' → ∃ l, c' = c <| cl_interfaces := l |>.
Proof. unfold zend_do_inherit_interfaces. case_bool_decide; [done|]. intros [= <-]. by eexists. Qed.

Lemma hfind_fmap {A} (f : A → A) k (ht : htab A) : hfind k (prod_map id f <$> ht) = f <$> hfind k ht.
Proof. induction ht as [|[k' v] ht IH]; csimpl; [done|]. by case_bool_decide. Qed.

Lemma hkeys_fmap {A} (f : A → A) (ht : htab A) : hkeys (prod_map id f <$> ht) = hkeys ht.
Proof. induction ht as [|[k v] ht IH]; [done|]. unfold hkeys in *. csimpl. by rewrite IH. Qed.

(** The class with the slots of its parent in front of its own. *)
Definition behind (parent c : class) : class :=
  c <| cl_default_properties := cl_default_properties parent ++ cl_default_properties c |>
    <| cl_default_statics := cl_default_statics parent ++ cl_default_statics c |>
    <| cl_properties_info := prod_map id (shift_info c parent) <$> cl_properties_info c |>.

Definition owns_all (c : class) : Prop := ∀ k i, hfind k (cl_properties_info c) = Some i → pi_ce i = cl_ce c.

Lemma behind_spec parent c :
  class_ok c → owns_all c →
  class_ok (behind parent c) ∧ (∀ s k, default_of s (behind parent c) k = default_of s c k) ∧
  ∀ s j v, slot_value s parent j = Some v → slot_value s (behind parent c) j = Some v ∧ unnamed (behind parent c) s j.
Proof.
  intros Hok Hown.
  set (sh (i : prop_info) := i <| pi_offset := pi_offset i + length (slots (pi_static i) parent) |>).
  assert (Hinf : ∀ k i, hfind k (cl_properties_info (behind parent c)) = Some i ↔
                   ∃ i', hfind k (cl_properties_info c) = Some i' ∧ i = sh i').
  { intros k i. cbn. rewrite hfind_fmap, fmap_Some. split; intros (i' & Hi' & ->); exists i'; (split; [done|]);
      unfold shift_info, sh, slots; rewrite bool_decide_true by (by eapply Hown); destruct i' as [o [] a ce]; done. }
  assert (Hslot : ∀ s j, slot_value s (behind parent c) (j + length (slots s parent)) = slot_value s c j).
  { intros s j. unfold slot_value. destruct s; cbn; by rewrite lookup_app_r, Nat.add_sub by lia. }
  split; [split|split].
  - change (NoDup (hkeys (prod_map id (shift_info c parent) <$> cl_properties_info c))).
    rewrite hkeys_fmap. apply (ok_names c Hok).
  - intros k i (i' & Hi' & ->)%Hinf. cbn. rewrite Hslot. by eapply (ok_slot c).
  - intros k k' i i' (i1 & H1 & ->)%Hinf (i2 & H2 & ->)%Hinf. cbn. intros Hs Ho.
    eapply (ok_distinct c); eauto. rewrite Hs in Ho. lia.
  - intros s k. unfold default_of.
    destruct (hfind k (cl_properties_info c)) as [i|] eqn:Hi.
    + rewrite (proj2 (Hinf k (sh i))) by eauto. cbn. destruct (Bool.eqb _ s) eqn:He; [|done].
      apply Bool.eqb_prop in He as <-. apply Hslot.
    + destruct (hfind k (cl_properties_info (behind parent c))) as [i|] eqn:Hi'; [|done].
      apply Hinf in Hi' as (i' & Hi' & _). congruence.
  - intros s j v Hv. pose proof (slot_value_lt _ _ _ _ Hv) as Hlt. split.
    + unfold slot_value in *. destruct s; cbn in *; by rewrite lookup_app_l.
    + intros k i (i' & Hi' & ->)%Hinf <-. cbn. cbn in Hlt. lia.
Qed.

Lemma foldl_constants_keep entries c :
  let c' := foldl do_inherit_class_constant c entries in
  cl_default_properties c' = cl_default_properties c ∧ cl_default_statics c' = cl_default_statics c ∧
  cl_properties_info c' = cl_properties_info c ∧ cl_parent c' = cl_parent c.
Proof.
  revert c. induction entries as [|e entries IH]; intros c; [done|]. cbn.
  destruct (IH (do_inherit_class_constant c e)) as (-> & -> & -> & ->).
  unfold do_inherit_class_constant. by destruct (hfind e.1 (cl_constants c)).
Qed.

Lemma inherit_properties_parent infos c c' : foldM do_inherit_property c infos = Some c' → cl_parent c' = cl_parent c.
Proof.
  revert c. induction infos as [|[k i] infos IH]; intros c; [by intros [= <-]|]. cbn [foldM].
  destruct (do_inherit_property c (k, i)) as [c1|] eqn:Hstep; [|done]. intros ->%IH. revert Hstep.
  unfold do_inherit_property. destruct (hfind k _) as [j|]; [|by intros [= <-]].
  destruct (_ || _); [done|]. by destruct (pi_static j); intros [= <-].
Qed.

(** What is said of the slots depends on nothing else of a class. *)
Lemma same_slots c c' :
  cl_default_properties c' = cl_default_properties c → cl_default_statics c' = cl_default_statics c →
  cl_properties_info c' = cl_properties_info c →
  (class_ok c → class_ok c') ∧ (∀ s k, default_of s c' k = default_of s c k).
Proof.
  destruct c, c'. cbn. intros -> -> ->. split; [|by intros [] k].
  intros [H1 H2 H3]. split; [done| |done]. intros k i Hi. specialize (H2 k i Hi). by destruct (pi_static i).
Qed.

(** C31: A class is refused a parent that is final or an interface.  Otherwise, when it
    inherits, every default that it declares itself is kept, wherever its slot has moved
    to, and every other name has the default of the parent; no two names share a slot
    and no name has a slot that is undefined, so that an object of the class starts with
    exactly these values. *)
Theorem inheritance_spec c parent :
  class_ok c → class_ok parent → owns_all c → has_flag ZEND_ACC_INTERFACE c = false →
  (has_flag ZEND_ACC_FINAL parent || has_flag ZEND_ACC_INTERFACE parent = true → zend_do_inheritance c parent = None) ∧
  ∀ c', zend_do_inheritance c parent = Some c' →
    cl_parent c' = Some (cl_ce parent) ∧ class_ok c' ∧
    ∀ s k, default_of s c' k = match default_of s c k with Some v => Some v | None => default_of s parent k end.
Proof.
  intros Hok Hokp Hown Hcls. unfold zend_do_inheritance, derivable. rewrite Hcls. split.
  { rewrite orb_comm. by intros ->. }
  intros c' Hc'. destruct (negb _); [|done].
  destruct (zend_do_inherit_interfaces _ _) as [c0|] eqn:Hi; [|done]. cbn [mbind option_bind] in Hc'.
  apply inherit_interfaces_keeps in Hi as [l ->].
  change (c <| cl_parent := Some (cl_ce parent) |> <| cl_interfaces := l |> <| cl_default_properties := _ |> <| cl_default_statics := _ |> <| cl_properties_info := _ |>)
    with (behind parent (c <| cl_parent := Some (cl_ce parent) |> <| cl_interfaces := l |>)) in Hc'.
  set (c1 := c <| cl_parent := _ |> <| cl_interfaces := l |>) in Hc'.
  destruct (same_slots c c1) as [Hok1 Hdef1]; [done..|].
  destruct (behind_spec parent c1) as (Hokb & Hdefb & Hfree); [by apply Hok1|done|].
  destruct (foldM _ _ _) as [c2|] eqn:Hfold; [|done]. injection Hc' as <-.
  edestruct (λ H H', inherit_properties_spec _ _ _ Hokb (ok_names _ Hokp) H H' Hfold) as [Hok2 Hdef2].
  { intros k i Hi. destruct (ok_slot _ Hokp _ _ Hi) as [v Hv]. destruct (Hfree _ _ _ Hv) as [Hv' ?]. by rewrite Hv'. }
  { apply (ok_distinct _ Hokp). }
  apply inherit_properties_parent in Hfold. destruct (foldl_constants_keep (cl_constants parent) c2) as (Hp & Hs & Hi & Hpar).
  set (c3 := foldl _ _ _) in *.
  match goal with |- context [if ?b then _ else _] => set (c4 := if b then _ else c3) end.
  destruct (same_slots c2 c4) as [Hok4 Hdef4]; [by unfold c4; destruct (has_flag _ c3)..|].
  split; [unfold c4; destruct (has_flag _ c3); cbn; by rewrite Hpar, Hfold|]. split; [by apply Hok4|].
  intros s k. rewrite Hdef4, Hdef2, Hdefb, Hdef1. destruct (default_of s c k) as [v|]; [done|].
  unfold default_of. destruct (hfind k (cl_properties_info parent)) as [i|] eqn:Hki; [|done]. cbn.
  destruct (Bool.eqb (pi_static i) s) eqn:He; [|done]. apply Bool.eqb_prop in He as <-.
  destruct (ok_slot _ Hokp _ _ Hki) as [v Hv]. destruct (Hfree _ _ _ Hv) as [Hv' _]. congruence.
Qed.

(** A parent with two properties, the first of which the child declares again. *)
Definition demo_parent : class :=
  Class "Base" "Base" [] None ["Countable" : zstr] [Some (ZBool true); Some ZNull] []
    [(KStr "_readonly", PropInfo 0 false ZEND_ACC_PROTECTED "Base"); (KStr "_config", PropInfo 1 false ZEND_ACC_PROTECTED "Base")] [].
Definition demo_child : class :=
  Class "Child" "Child" [] None [] [Some (ZLong 1); Some (ZBool false)] []
    [(KStr "_extra", PropInfo 0 false ZEND_ACC_PUBLIC "Child"); (KStr "_readonly", PropInfo 1 false ZEND_ACC_PUBLIC "Child")] [].

(** The slots of a class that is given as data. *)
Ltac concrete_class :=
  split; [decided|intros k i; cbn|intros k k' i i'; cbn]; repeat case_bool_decide; intros; simplify_eq/=; by eauto.

Lemma declare_property_spec_witness :
  class_ok demo_parent ∧
  (∃ c', zend_declare_property_ex "_config" (ZStr "x") false ZEND_ACC_PUBLIC demo_parent = Some c' ∧
     cl_default_properties c' = [Some (ZBool true); Some (ZStr "x")]) ∧
  if is_refused (ZStr "x") then zend_declare_property_ex "_config" (ZStr "x") false ZEND_ACC_PUBLIC demo_parent = None
  else ∃ c', zend_declare_property_ex "_config" (ZStr "x") false ZEND_ACC_PUBLIC demo_parent = Some c' ∧ class_ok c' ∧
       ∀ s k, default_of s c' k = if bool_decide (k = KStr "_config") then (if Bool.eqb s false then Some (ZStr "x") else None)
                                  else default_of s demo_parent k.
Proof.
  assert (Hok : class_ok demo_parent) by concrete_class.
  split; [done|]. split; [by eexists|]. by apply declare_property_spec.
Defined.

Lemma inheritance_spec_witness :
  ∃ c', zend_do_inheritance demo_child demo_parent = Some c' ∧
    rebuild_object_properties c' (cl_default_properties c') =
      [(KStr "_extra", ZLong 1); (KStr "_readonly", ZBool false); (KStr "_config", ZNull)] ∧
    cl_parent c' = Some (cl_ce demo_parent) ∧ class_ok c' ∧
    ∀ s k, default_of s c' k = match default_of s demo_child k with Some v => Some v | None => default_of s demo_parent k end.
Proof.
  eexists. split; [reflexivity|]. split; [reflexivity|].
  apply inheritance_spec; [concrete_class|concrete_class| |reflexivity|reflexivity].
  intros k i. cbn. repeat case_bool_decide; intros; by simplify_eq.
Defined.
