(* ===== verification/UrlCode.v ===== *)
(** * Percent encoding

    The encoders and decoders of [ext/standard/url.c]: of forms, where a blank is a plus,
    and of paths.  A decoder works in the buffer of its argument, behind which it never
    writes what it has not read; it is a function of the string here. *)

From S2P Require Import Prelude Zend.

Open Scope zs_scope.

Definition PERCENT : ascii := "%"%char.
Definition BLANK : ascii := " "%char.

(** ** Hexadecimal digits *)

Definition isxdigit (c : ascii) : bool :=
  let n := N_of_ascii c in
  ((48 <=? n) && (n <=? 57) || (65 <=? n) && (n <=? 70) || (97 <=? n) && (n <=? 102))%N.
Definition hexchars : zstr := "0123456789ABCDEF".
Definition hexchar (n : N) : ascii := default NUL (hexchars !! N.to_nat n).

(** [php_htoi] of the two bytes *)
Definition hex_value (c : ascii) : Z :=
  let n := Z.of_N (N_of_ascii (tolower c)) in
  if ((48 <=? n) && (n <=? 57))%Z then (n - 48)%Z else (n - 97 + 10)%Z.
Definition php_htoi (c d : ascii) : Z := (hex_value c * 16 + hex_value d)%Z.

(** Conversion to [char] *)
Definition char_of (n : Z) : ascii := ascii_of_N (Z.to_N (n mod 256)).
(** A [char] as it is compared, and an [unsigned char] *)
Definition unsigned (c : ascii) : Z := Z.of_N (N_of_ascii c).
Definition signed (c : ascii) : Z := if (unsigned c <? 128)%Z then unsigned c else (unsigned c - 256)%Z.

Definition escaped (c : ascii) : zstr :=
  [PERCENT; hexchar (N_of_ascii c / 16); hexchar (N_of_ascii c mod 16)].

(** ** Encoders *)

Definition url_special (c : ascii) : bool :=
  let n := unsigned c in
  ((n <? 48) && negb (n =? 45) && negb (n =? 46) || (n <? 65) && (57 <? n) ||
   (90 <? n) && (n <? 97) && negb (n =? 95) || (122 <? n))%Z.
Definition form_byte (c : ascii) : zstr :=
  if ceq c BLANK then ["+"%char] else if url_special c then escaped c else [c].
Definition php_url_encode (s : zstr) : zstr := mjoin (map form_byte s).

(** Here the byte is compared as a [char]. *)
Definition raw_special (c : ascii) : bool :=
  let n := signed c in
  ((n <? 48) && negb (n =? 45) && negb (n =? 46) || (n <? 65) && (57 <? n) ||
   (90 <? n) && (n <? 97) && negb (n =? 95) || (122 <? n) && negb (n =? 126))%Z.
Definition path_byte (c : ascii) : zstr := if raw_special c then escaped c else [c].
Definition php_raw_url_encode (s : zstr) : zstr := mjoin (map path_byte s).

(** ** Decoders *)

Fixpoint url_decode (plus : bool) (s : zstr) : zstr :=
  match s with
  | [] => []
  | c :: s' =>
      if plus && ceq c "+"%char then BLANK :: url_decode plus s'
      else if ceq c PERCENT then
        match s' with
        | d :: e :: s'' =>
            if isxdigit d && isxdigit e then char_of (php_htoi d e) :: url_decode plus s''
            else c :: url_decode plus s'
        | _ => c :: url_decode plus s'
        end
      else c :: url_decode plus s'
  end.
Definition php_url_decode (s : zstr) : zstr := url_decode true s.
Definition php_raw_url_decode (s : zstr) : zstr := url_decode false s.

Example form_encoded : php_url_encode "a b&c=d/e+f~" = "a+b%26c%3Dd%2Fe%2Bf%7E".
Proof. reflexivity. Qed.
Example path_encoded : php_raw_url_encode "a b~" = "a%20b~".
Proof. reflexivity. Qed.
Example half_decoded : php_url_decode "a%4gb%6" = "a%4gb%6" ∧ php_url_decode "%41+%zz" = "A %zz".
Proof. by split. Qed.

(** ** What an encoder writes *)

(** Nothing but letters, digits, [-], [.], [_], [~], [+] and [%]. *)
Definition url_char (c : ascii) : bool :=
  let n := N_of_ascii c in
  ((48 <=? n) && (n <=? 57) || (65 <=? n) && (n <=? 90) || (97 <=? n) && (n <=? 122))%N ||
  existsb (ceq c) ("-._~+%" : zstr).

(** A decoder takes a code at the front for its byte. *)
Lemma form_byte_decoded c t : url_decode true (form_byte c ++ t) = c :: url_decode true t.
Proof. by destruct c as [[] [] [] [] [] [] [] []]. Qed.
Lemma path_byte_decoded plus c t : url_decode plus (path_byte c ++ t) = c :: url_decode plus t.
Proof. by destruct plus, c as [[] [] [] [] [] [] [] []]. Qed.

Lemma form_decoded s t : php_url_decode (php_url_encode s ++ t) = s ++ php_url_decode t.
Proof.
  unfold php_url_encode, php_url_decode. induction s as [|c s IH]; [done|]. cbn [map].
  change (mjoin (form_byte c :: map form_byte s)) with (form_byte c ++ mjoin (map form_byte s)).
  rewrite <-(assoc_L (++)), form_byte_decoded, IH. done.
Qed.

Lemma raw_decoded plus s t : url_decode plus (php_raw_url_encode s ++ t) = s ++ url_decode plus t.
Proof.
  unfold php_raw_url_encode. induction s as [|c s IH]; [done|]. cbn [map].
  change (mjoin (path_byte c :: map path_byte s)) with (path_byte c ++ mjoin (map path_byte s)).
  rewrite <-(assoc_L (++)), path_byte_decoded, IH. done.
Qed.

Lemma byte_code c : forallb url_char (form_byte c) = true ∧ forallb url_char (path_byte c) = true ∧
  length (form_byte c) ≤ 3 ∧ length (path_byte c) ≤ 3.
Proof. destruct c as [[] [] [] [] [] [] [] []]; vm_compute; repeat split; lia. Qed.

Lemma codes_join (f : ascii → zstr) (p : ascii → bool) (n : nat) s :
  (∀ c, forallb p (f c) = true ∧ length (f c) ≤ n) → forallb p (mjoin (map f s)) = true ∧ length (mjoin (map f s)) ≤ n * length s.
Proof.
  intros Hf. induction s as [|c s [IH1 IH2]]; [cbn; lia|]. cbn [map].
  change (mjoin (f c :: map f s)) with (f c ++ mjoin (map f s)). rewrite forallb_app, IH1, length_app. cbn [length].
  destruct (Hf c) as [-> ?]. split; [done|lia].
Qed.

Lemma form_code_ok s : forallb url_char (php_url_encode s) = true ∧ length (php_url_encode s) ≤ 3 * length s.
Proof. apply (codes_join form_byte url_char). intros c. split; apply byte_code. Qed.
Lemma raw_code_ok s : forallb url_char (php_raw_url_encode s) = true ∧ length (php_raw_url_encode s) ≤ 3 * length s.
Proof. apply (codes_join path_byte url_char). intros c. split; apply byte_code. Qed.

Lemma url_chars s c : c ∈ php_url_encode s ∨ c ∈ php_raw_url_encode s → url_char c = true.
Proof.
  destruct (form_code_ok s) as [Hform _], (raw_code_ok s) as [Hpath _]. rewrite forallb_forall in Hform, Hpath.
  intros [Hc|Hc]; apply list_elem_of_In in Hc; [by apply Hform|by apply Hpath].
Qed.

(** C30: Encoding and decoding: whatever the bytes are, both decoders give back what their
    encoder was given, that of forms also what the encoder of paths was given; the code
    holds no other bytes than letters, digits and six signs, and no more bytes than the
    buffer, which has three for each. *)
Theorem url_code_roundtrip s :
  php_url_decode (php_url_encode s) = s ∧ php_raw_url_decode (php_raw_url_encode s) = s ∧
  php_url_decode (php_raw_url_encode s) = s ∧
  (∀ c, c ∈ php_url_encode s ∨ c ∈ php_raw_url_encode s → url_char c = true) ∧
  length (php_url_encode s) ≤ 3 * length s ∧ length (php_raw_url_encode s) ≤ 3 * length s.
Proof.
  pose proof (form_decoded s []) as H1. pose proof (raw_decoded false s []) as H2. pose proof (raw_decoded true s []) as H3.
  rewrite !app_nil_r in H1, H2, H3. split_and!; [done..|apply url_chars|apply form_code_ok|apply raw_code_ok].
Qed.
