(* ===== verification/Query.v ===== *)
(** * Query strings

    [main/php_variables.c]: how the variables of an address, of the cookies and of a posted
    form become arrays, and [php_url_encode_hash_ex] of [ext/standard/http.c], which writes
    an array as a query string.  The input filter is the default one, which accepts every
    variable as it is. *)

From S2P Require Import Prelude Zend Numeric UrlCode.

Open Scope zs_scope.

Definition AMPERSAND : ascii := "&"%char.
Definition EQUALS : ascii := "="%char.
Definition LBRACKET : ascii := "["%char.
Definition RBRACKET : ascii := "]"%char.

(** ** Settings and notices *)

(** [PG(max_input_nesting_level)], [PG(max_input_vars)], [PG(display_errors)] and
    [PG(arg_separator).input], which holds one character unless it is configured. *)
Record input_settings := InputSettings {
  max_input_nesting_level : Z;
  max_input_vars : Z;
  display_errors : bool;
  arg_separator : ascii;
}.

(** The table that is filled: [TRACK_VARS_COOKIE], [EG(symbol_table)], the symbol table of
    the script that is running. *)
Record track := Track { is_cookie : bool; is_globals : bool; is_scope : bool }.
Definition plain_track : track := Track false false false.

Inductive notice :=
| ReassignThis        (** the error that is thrown for [$this] *)
| NestingExceeded     (** the warning about [max_input_nesting_level] *)
| VarsExceeded.       (** the warning about [max_input_vars] *)

(** ** One variable *)

(** [zend_hash_next_index_insert] on a table from which nothing was deleted: the next index
    stops at the largest one. *)
Definition next_insert (v : zval) (ht : htab zval) : option (htab zval) :=
  let k := KIdx (Z.min (next_index ht) ZEND_LONG_MAX) in
  match hfind k ht with Some _ => None | None => Some (hupdate k v ht) end.

(** [plain_var]; [top] tells whether the table is the one that is tracked. *)
Definition plain_var (t : track) (top : bool) (index : option zstr) (val : zval) (ht : htab zval) : htab zval :=
  match index with
  | None => default ht (next_insert val ht)
  | Some i =>
      let exists_ := match hfind (symtable_key i) ht with Some _ => true | None => false end in
      if is_cookie t && top && exists_ then ht else hupdate (symtable_key i) val ht
  end.

(** The array under an index, which is made where there is none, changed by [f]. *)
Definition enter_index (index : option zstr) (f : htab zval → option (htab zval)) (ht : htab zval) : option (htab zval) :=
  match index with
  | None =>
      match next_insert (ZArr []) ht with
      | None => Some ht
      | Some _ => sub ← f []; Some (default ht (next_insert (ZArr sub) ht))
      end
  | Some i =>
      sub ← f (match hfind (symtable_key i) ht with Some (ZArr sub) => sub | _ => [] end);
      Some (hupdate (symtable_key i) (ZArr sub) ht)
  end.

(** What follows a bracket: the index in it, none where it is empty, and what is behind. *)
Definition next_bracket (s : zstr) : option (option zstr * zstr) :=
  let s' := match s with c :: s' => if is_space c then s' else s | [] => [] end in
  match s' with
  | c :: after => if ceq c RBRACKET then Some (None, after) else
      match break (ceq RBRACKET) s' with
      | (_, []) => None
      | (_, _ :: after) => Some (Some (break (ceq RBRACKET) s).1, after)
      end
  | [] => None
  end.

Section settings.
Context (settings : input_settings).

(** The loop over the brackets: [s] is what follows the bracket that opens.  [None] when
    there are too many.  Where the bracket is not closed, it and what follows become part
    of the name, but only of the first index does the terminator not hide them. *)
Fixpoint place (fuel : nat) (t : track) (nest_level : Z) (top : bool) (index : option zstr) (s : zstr) (val : zval)
    (ht : htab zval) : option (htab zval) :=
  match fuel with
  | 0 => None
  | S fuel' =>
      let nest_level := (nest_level + 1)%Z in
      if (max_input_nesting_level settings <? nest_level)%Z then None
      else match next_bracket s with
           | None =>
               let index := if top then (λ i, i ++ "_" ++ s) <$> index else index in
               Some (plain_var t top index val ht)
           | Some (index', after) =>
               enter_index index (λ sub,
                 match after with
                 | c :: s' => if ceq c LBRACKET then place fuel' t nest_level false index' s' val sub
                              else Some (plain_var t false index' val sub)
                 | [] => Some (plain_var t false index' val sub)
                 end) ht
           end
  end.

Definition php_register_variable_ex (t : track) (var_name : zstr) (val : zval) (ht : htab zval) : htab zval * list notice :=
  let '(name, brackets) := break (ceq LBRACKET) (drop_while (ceq " "%char) (cstr var_name)) in
  let var := map (λ c, if ceq c " "%char || ceq c "."%char then "_"%char else c) name in
  if bool_decide (var = []) then (ht, [])
  else if is_scope t && bool_decide (var = "this") then (ht, [ReassignThis])
  else if is_globals t && bool_decide (var = "GLOBALS") then (ht, [])
  else match brackets with
       | [] => (plain_var t true (Some var) val ht, [])
       | _ :: s =>
           match place (S (length s)) t 0 true (Some var) s val ht with
           | Some ht' => (ht', [])
           | None => (hdel (symtable_key var) ht, if display_errors settings then [] else [NestingExceeded])
           end
       end.

Definition php_register_variable_safe (t : track) (var strval : zstr) (ht : htab zval) : htab zval * list notice :=
  php_register_variable_ex t var (ZStr strval) ht.
Definition php_register_variable (t : track) (var strval : zstr) (ht : htab zval) : htab zval * list notice :=
  php_register_variable_safe t var (cstr strval) ht.

(** ** The variables of a string *)

Inductive parse_arg := PARSE_GET | PARSE_COOKIE | PARSE_STRING.

(** A token of the string: the name and, behind the first [=], the value. *)
Definition query_pair (var : zstr) : zstr * zstr :=
  match break (ceq EQUALS) var with
  | (var, []) => (php_url_decode var, [])
  | (var, _ :: val) => (php_url_decode var, php_url_decode val)
  end.

(** A cookie without the blanks in front of its name; none where the name is empty. *)
Definition cookie_name (var : zstr) : option zstr :=
  match drop_while is_space var with
  | [] => None
  | c :: s => if ceq c EQUALS then None else Some (c :: s)
  end.

Fixpoint treat_loop (fuel : nat) (arg : parse_arg) (t : track) (separator : ascii) (cur : option zstr * option zstr) (count : Z)
    (ht : htab zval) : htab zval * list notice :=
  match fuel, cur with
  | S fuel', (Some var, strtok_buf) =>
      let next := php_strtok_r strtok_buf separator in
      match (match arg with PARSE_COOKIE => cookie_name var | _ => Some var end) with
      | None => treat_loop fuel' arg t separator next count ht
      | Some var =>
          let count := (count + 1)%Z in
          if (max_input_vars settings <? count)%Z then (ht, [VarsExceeded])
          else
            let '(var, val) := query_pair var in
            let '(ht, ns) := php_register_variable_safe t var val ht in
            let '(ht, ns') := treat_loop fuel' arg t separator next count ht in
            (ht, ns ++ ns')
      end
  | _, _ => (ht, [])
  end.

(** [php_default_treat_data] of a string that is given: an address and cookies fill a new
    array. *)
Definition php_default_treat_data (arg : parse_arg) (t : track) (str : zstr) (destArray : htab zval) : htab zval * list notice :=
  let separator := match arg with PARSE_COOKIE => ";"%char | _ => arg_separator settings end in
  let array := match arg with PARSE_STRING => destArray | _ => [] end in
  let t := match arg with PARSE_GET => plain_track | PARSE_COOKIE => Track true false false | PARSE_STRING => t end in
  treat_loop (S (S (length str))) arg t separator (php_strtok_r (Some (cstr str)) separator) 0 array.

(** ** A posted form *)

(** What has been read and not yet been taken, from [ptr] to [end]. *)
Record post_var_data := PostVarData { pd_str : zstr; pd_cnt : Z; pd_already_scanned : nat }.

(** [add_post_var]: the table and the notices, where there was a variable. *)
Definition add_post_var (var : post_var_data) (eof : bool) (ht : htab zval) : post_var_data * option (htab zval * list notice) :=
  match pd_str var with
  | [] => (var, None)
  | s =>
      let add (pair rest : zstr) :=
        let '(name, val) := query_pair pair in
        (PostVarData rest (pd_cnt var) 0, Some (php_register_variable_safe plain_track name val ht)) in
      match break (ceq AMPERSAND) (drop (pd_already_scanned var) s) with
      | (tail, []) =>
          if eof then add s [] else (PostVarData s (pd_cnt var) (length s), None)
      | (tail, _ :: rest) => add (take (pd_already_scanned var) s ++ tail) rest
      end
  end.

(** [add_post_vars]; FAILURE where there are too many variables, after the one too many has
    been stored. *)
Fixpoint add_post_vars (fuel : nat) (vars : post_var_data) (eof : bool) (ht : htab zval)
    : post_var_data * bool * (htab zval * list notice) :=
  match fuel with
  | 0 => (vars, true, (ht, []))
  | S fuel' =>
      match add_post_var vars eof ht with
      | (vars, None) => (vars, true, (ht, []))
      | (vars, Some (ht, ns)) =>
          let vars := PostVarData (pd_str vars) (pd_cnt vars + 1) (pd_already_scanned vars) in
          if (max_input_vars settings <? pd_cnt vars)%Z then (vars, false, (ht, ns ++ [VarsExceeded]))
          else let '(vars, ok, (ht, ns')) := add_post_vars fuel' vars eof ht in (vars, ok, (ht, ns ++ ns'))
      end
  end.

(** [php_std_post_handler]: [reads] are the results of [php_stream_read]; one that does not
    fill the buffer of [bufsiz] bytes is the last. *)
Fixpoint post_loop (bufsiz : nat) (reads : list zstr) (post_data : post_var_data) (ht : htab zval)
    : option post_var_data * (htab zval * list notice) :=
  match reads with
  | [] => (Some post_data, (ht, []))
  | buf :: reads' =>
      let post_data := PostVarData (pd_str post_data ++ buf) (pd_cnt post_data) (pd_already_scanned post_data) in
      let '(post_data, ok, (ht, ns)) :=
        match buf with
        | [] => (post_data, true, (ht, []))
        | _ => add_post_vars (S (length (pd_str post_data))) post_data false ht
        end in
      if negb ok then (None, (ht, ns))
      else if bool_decide (length buf = bufsiz) then
        let '(res, (ht, ns')) := post_loop bufsiz reads' post_data ht in (res, (ht, ns ++ ns'))
      else (Some post_data, (ht, ns))
  end.
Definition php_std_post_handler (bufsiz : nat) (reads : list zstr) (ht : htab zval) : htab zval * list notice :=
  match post_loop bufsiz reads (PostVarData [] 0 0) ht with
  | (None, res) => res
  | (Some post_data, (ht, ns)) =>
      let '(_, _, (ht, ns')) := add_post_vars (S (length (pd_str post_data))) post_data true ht in (ht, ns ++ ns')
  end.
End settings.

(** ** Writing a query string *)

Inductive enc_type := PHP_QUERY_RFC1738 | PHP_QUERY_RFC3986.

Section build.
Context `{Runtime} (enc : enc_type) (arg_sep : zstr).

Definition encode (s : zstr) : zstr :=
  match enc with PHP_QUERY_RFC3986 => php_raw_url_encode s | PHP_QUERY_RFC1738 => php_url_encode s end.

Definition key_code (num_prefix : zstr) (k : hkey) : zstr :=
  match k with KStr s => encode s | KIdx n => num_prefix ++ dec_of_Z n end.

Definition value_code (v : zval) : zstr :=
  match v with
  | ZBool b => if b then "1" else "0"
  | ZLong _ | ZDouble _ => zval_get_string v
  | _ => encode (zval_get_string v)
  end.

(** [smart_str_appendl] *)
Definition append (formstr : option zstr) (s : zstr) : option zstr := Some (default [] formstr ++ s).

(** One bucket of [php_url_encode_hash_ex]: arrays go on with a longer prefix, NULL is
    skipped; objects, whose properties are not values of the model, are undefined. *)
Fixpoint encode_bucket (num_prefix key_prefix key_suffix : zstr) (k : hkey) (zdata : zval) (formstr : option zstr)
    : option (option zstr) :=
  match zdata with
  | ZArr sub =>
      let newprefix := key_prefix ++ key_code num_prefix k ++ key_suffix ++ "%5B" in
      (fix loop (ht : htab zval) (formstr : option zstr) : option (option zstr) :=
         match ht with
         | [] => Some formstr
         | (k, v) :: ht' =>
             match encode_bucket [] newprefix "%5D" k v formstr with Some f => loop ht' f | None => None end
         end) sub formstr
  | ZNull => Some formstr
  | ZObj _ _ => None
  | _ =>
      let formstr := match formstr with Some _ => append formstr arg_sep | None => None end in
      Some (append formstr (key_prefix ++ key_code num_prefix k ++ key_suffix ++ EQUALS :: value_code zdata))
  end.
Fixpoint php_url_encode_hash_ex (num_prefix key_prefix key_suffix : zstr) (ht : htab zval) (formstr : option zstr)
    : option (option zstr) :=
  match ht with
  | [] => Some formstr
  | (k, v) :: ht' =>
      match encode_bucket num_prefix key_prefix key_suffix k v formstr with
      | Some f => php_url_encode_hash_ex num_prefix key_prefix key_suffix ht' f
      | None => None
      end
  end.

(** [http_build_query] of an array *)
Definition http_build_query (formdata : htab zval) (prefix : zstr) : option zstr :=
  default [] <$> php_url_encode_hash_ex prefix [] [] formdata None.
End build.

Definition default_input : input_settings := InputSettings 64 1000 false AMPERSAND.

Example query_parsed :
  php_default_treat_data default_input PARSE_GET plain_track "a.b=1&c%5Bx%5D[]=u+v&c[x][]=w&&e&f[g=2&5=y" [] =
    ([ (KStr "a_b", ZStr "1");
       (KStr "c", ZArr [(KStr "x", ZArr [(KIdx 0, ZStr "u v"); (KIdx 1, ZStr "w")])]);
       (KStr "e", ZStr []); (KStr "f_g", ZStr "2"); (KIdx 5, ZStr "y") ], []).
Proof. by vm_compute. Qed.

Example cookies_parsed :
  php_default_treat_data default_input PARSE_COOKIE plain_track "id=1; id=2;  =3; t[a]=x; t[a]=y" [] =
    ([ (KStr "id", ZStr "1"); (KStr "t", ZArr [(KStr "a", ZStr "y")]) ], []).
Proof. by vm_compute. Qed.

Example too_deep :
  php_default_treat_data (InputSettings 2 1000 false AMPERSAND) PARSE_GET plain_track "a=1&b[x][y]=2&a[x][y][z]=3" [] =
    ([ (KStr "b", ZArr [(KStr "x", ZArr [(KStr "y", ZStr "2")])]) ], [NestingExceeded]).
Proof. by vm_compute. Qed.

(** A form may have one variable more than an address. *)
Example one_too_many :
  let s := InputSettings 64 2 false AMPERSAND in
  php_default_treat_data s PARSE_GET plain_track "a=1&b=2&c=3&d=4" [] =
    ([ (KStr "a", ZStr "1"); (KStr "b", ZStr "2") ], [VarsExceeded]) ∧
  php_std_post_handler s 8 [("a=1&b=2&" : zstr); ("c=3&d=4" : zstr)] [] =
    ([ (KStr "a", ZStr "1"); (KStr "b", ZStr "2"); (KStr "c", ZStr "3") ], [VarsExceeded]).
Proof. by vm_compute. Qed.

Example query_built :
  @http_build_query plain_runtime PHP_QUERY_RFC1738 "&"
    [ (KStr "a b", ZStr "1"); (KIdx 3, ZArr [(KStr "x", ZArr [(KIdx 0, ZStr "&")]); (KStr "n", ZNull)]); (KStr "t", ZBool true) ] "p" =
    Some "a+b=1&p3%5Bx%5D%5B0%5D=%26&t=1".
Proof. by vm_compute. Qed.
