(* ===== verification/QueryBounds.v ===== *)
(** * Query strings are bounded

    Whatever the bytes of an address, of the cookies or of a form are, what becomes of them
    is a table of strings, no deeper and no larger than the settings allow. *)

From S2P Require Import Prelude Zend Numeric UrlCode Query.

Open Scope zs_scope.

(** ** Tables of strings *)

(** Strings and arrays of them, nested at most [d] deep, without repeated keys. *)
Fixpoint strings_ok (d : nat) (v : zval) : Prop :=
  match v, d with
  | ZStr _, _ => True
  | ZArr ht, S d' => hwf ht ∧ Forall (λ kv, strings_ok d' kv.2) ht
  | _, _ => False
  end.
Definition table_ok (d : nat) (ht : htab zval) : Prop := hwf ht ∧ Forall (λ kv, strings_ok d kv.2) ht.

(** How many values there are that are no arrays. *)
Fixpoint leaves (v : zval) : nat :=
  match v with
  | ZArr ht => sum_list_with (λ kv, leaves kv.2) ht
  | _ => 1
  end.
Definition size (ht : htab zval) : nat := sum_list_with (λ kv, leaves kv.2) ht.

Lemma strings_ok_str d s : strings_ok d (ZStr s).
Proof. by destruct d. Qed.

Lemma table_ok_hfind d ht k v : table_ok d ht → hfind k ht = Some v → strings_ok d v.
Proof.
  intros [_ Hall]. induction Hall as [|[k' v'] ht Hv _ IH]; [done|]. cbn [hfind]. case_bool_decide; [by intros [= <-]|exact IH].
Qed.

Lemma table_ok_hupdate d ht k v : table_ok d ht → strings_ok d v → table_ok d (hupdate k v ht).
Proof.
  intros [Hwf Hall] Hv. split; [by apply hwf_hupdate|]. clear Hwf.
  induction Hall as [|[k' v'] ht Hv' Hall IH]; cbn [hupdate]; [by repeat constructor|]. case_bool_decide; by constructor.
Qed.

Lemma table_ok_hdel d ht k : table_ok d ht → table_ok d (hdel k ht).
Proof.
  intros [Hwf Hall]. split; [by apply hwf_hdel|]. clear Hwf.
  induction Hall as [|[k' v'] ht Hv' Hall IH]; cbn [hdel]; [constructor|]. case_bool_decide; [done|by constructor].
Qed.

Lemma size_hupdate k v ht : size (hupdate k v ht) + from_option leaves 0 (hfind k ht) = size ht + leaves v.
Proof.
  unfold size. induction ht as [|[k' v'] ht IH]; cbn [hupdate hfind]; [cbn; lia|]. case_bool_decide; csimpl in *; lia.
Qed.

Lemma size_hdel k ht : size (hdel k ht) ≤ size ht.
Proof. unfold size. induction ht as [|[k' v'] ht IH]; cbn [hdel]; [done|]. case_bool_decide; csimpl in *; lia. Qed.

(** ** One variable *)

Lemma next_insert_ok d v ht ht' : table_ok d ht → strings_ok d v → next_insert v ht = Some ht' →
  table_ok d ht' ∧ size ht' = size ht + leaves v.
Proof.
  intros Hht Hv. unfold next_insert. set (k := KIdx _). destruct (hfind k ht) eqn:E; [done|]. intros [= <-].
  split; [by apply table_ok_hupdate|]. pose proof (size_hupdate k v ht) as Hs. rewrite E in Hs. cbn in Hs. lia.
Qed.

Lemma plain_var_ok d t top index s ht : table_ok d ht →
  table_ok d (plain_var t top index (ZStr s) ht) ∧ size (plain_var t top index (ZStr s) ht) ≤ size ht + 1.
Proof.
  intros Hht. unfold plain_var. destruct index as [i|].
  - destruct (is_cookie t && top && _); [split; [done|lia]|].
    split; [apply table_ok_hupdate; [done|apply strings_ok_str]|]. pose proof (size_hupdate (symtable_key i) (ZStr s) ht). cbn in *. lia.
  - destruct (next_insert (ZStr s) ht) as [ht'|] eqn:E; cbn [default from_option]; unfold id; [|split; [done|lia]].
    destruct (next_insert_ok d _ _ _ Hht (strings_ok_str d s) E) as [H1 H2]. cbn in H2. split; [done|lia].
Qed.

(** Going down one level with something that adds at most one value there. *)
Lemma enter_index_ok d index f ht ht' : table_ok (S d) ht →
  (∀ sub sub', table_ok d sub → f sub = Some sub' → table_ok d sub' ∧ size sub' ≤ size sub + 1) →
  enter_index index f ht = Some ht' → table_ok (S d) ht' ∧ size ht' ≤ size ht + 1.
Proof.
  intros Hht Hf. assert (Hnil : table_ok d []) by (split; [apply NoDup_nil_2|constructor]).
  destruct index as [i|]; cbn [enter_index].
  - set (k := symtable_key i). set (sub := match hfind k ht with Some (ZArr sub) => sub | _ => [] end).
    assert (Hsub : table_ok d sub ∧ size sub ≤ from_option leaves 0 (hfind k ht)).
    { subst sub. destruct (hfind k ht) as [v|] eqn:E; [|split; [done|cbn; lia]].
      pose proof (table_ok_hfind _ _ _ _ Hht E) as Hv. destruct v; (split; [done|]); [cbn; lia..|exact (Nat.le_refl _)|cbn; lia]. }
    destruct (f sub) as [sub'|] eqn:E; [|done]. intros [= <-]. destruct (Hf _ _ (proj1 Hsub) E) as [H1 H2].
    split; [by apply table_ok_hupdate|]. pose proof (size_hupdate k (ZArr sub') ht) as Hs.
    change (leaves (ZArr sub')) with (size sub') in Hs. lia.
  - destruct (next_insert (ZArr []) ht); [|intros [= <-]; split; [done|lia]].
    destruct (f []) as [sub'|] eqn:E; [|done]. intros [= <-]. destruct (Hf _ _ Hnil E) as [H1 H2].
    destruct (next_insert (ZArr sub') ht) as [ht1|] eqn:E1; cbn [default from_option]; unfold id; [|split; [done|lia]].
    destruct (next_insert_ok (S d) (ZArr sub') _ _ Hht H1 E1) as [H3 H4]. change (leaves (ZArr sub')) with (size sub') in H4.
    split; [done|]. cbn in H2. lia.
Qed.

Section bounds.
Context (settings : input_settings).

Lemma place_ok fuel t : ∀ lvl top index s val ht ht',
  table_ok (Z.to_nat (max_input_nesting_level settings - lvl)) ht →
  place settings fuel t lvl top index s (ZStr val) ht = Some ht' →
  table_ok (Z.to_nat (max_input_nesting_level settings - lvl)) ht' ∧ size ht' ≤ size ht + 1.
Proof.
  induction fuel as [|fuel IH]; intros lvl top index s val ht ht' Hht; [done|]. cbn [place].
  destruct (_ <? _)%Z eqn:El; [done|]. apply Z.ltb_ge in El.
  destruct (next_bracket s) as [[index' after]|]; [|intros [= <-]; by apply plain_var_ok].
  set (d := Z.to_nat (max_input_nesting_level settings - (lvl + 1))).
  assert (Hd : Z.to_nat (max_input_nesting_level settings - lvl) = S d) by (subst d; lia). rewrite Hd in *.
  apply enter_index_ok; [done|]. intros sub sub' Hsub.
  destruct after as [|c s']; [|destruct (ceq c LBRACKET)].
  - intros [= <-]. by apply plain_var_ok.
  - by apply IH.
  - intros [= <-]. by apply plain_var_ok.
Qed.

Abbreviation depth := (Z.to_nat (max_input_nesting_level settings)).

Lemma register_ok t name val ht : table_ok depth ht →
  let ht' := (php_register_variable_safe settings t name val ht).1 in table_ok depth ht' ∧ size ht' ≤ size ht + 1.
Proof.
  intros Hht. unfold php_register_variable_safe, php_register_variable_ex.
  destruct (break _ _) as [nm brackets]. set (var := map _ nm).
  destruct (bool_decide (var = [])); [split; [done|cbn [fst]; lia]|].
  destruct (is_scope t && _); [split; [done|cbn [fst]; lia]|].
  destruct (is_globals t && _); [split; [done|cbn [fst]; lia]|].
  destruct brackets as [|c s]; [by apply plain_var_ok|].
  destruct (place _ _ _ _ _ _ _ _ _) as [ht1|] eqn:E; cbn [fst].
  - apply place_ok in E; rewrite Z.sub_0_r in *; done.
  - split; [by apply table_ok_hdel|]. pose proof (size_hdel (symtable_key var) ht). lia.
Qed.

Lemma treat_loop_ok fuel arg t sep : ∀ cur count ht, table_ok depth ht → (0 ≤ count)%Z →
  let ht' := (treat_loop settings fuel arg t sep cur count ht).1 in
  table_ok depth ht' ∧ (Z.of_nat (size ht') ≤ Z.of_nat (size ht) + Z.max 0 (max_input_vars settings - count))%Z.
Proof.
  induction fuel as [|fuel IH]; intros [[var|] buf] count ht Hht Hc; cbn [treat_loop fst]; try (split; [done|lia]).
  destruct (match arg with PARSE_COOKIE => cookie_name var | _ => Some var end) as [name|]; [|by apply IH].
  destruct (_ <? _)%Z eqn:El; cbn [fst]; [split; [done|lia]|]. apply Z.ltb_ge in El.
  destruct (query_pair name) as [n v]. pose proof (register_ok t n v ht Hht) as [H1 H2].
  destruct (php_register_variable_safe settings t n v ht) as [ht1 ns]. cbn [fst] in H1, H2.
  pose proof (IH (php_strtok_r buf sep) (count + 1)%Z ht1 H1 ltac:(lia)) as [H3 H4].
  destruct (treat_loop _ _ _ _ _ _ _ _) as [ht2 ns2]. cbn [fst] in *. split; [done|lia].
Qed.
End bounds.

(** C28: What a request can put into the superglobals is bounded: for any string, an address or
    the cookies become a table in which there are only strings and arrays of strings, in
    which no key is repeated, at most one more level deep than [max_input_nesting_level]
    and with at most [max_input_vars] strings. *)
Theorem treat_data_bounded settings arg t str dest :
  arg ≠ PARSE_STRING →
  let ht := (php_default_treat_data settings arg t str dest).1 in
  strings_ok (S (Z.to_nat (max_input_nesting_level settings))) (ZArr ht) ∧
  (Z.of_nat (leaves (ZArr ht)) ≤ Z.max 0 (max_input_vars settings))%Z.
Proof.
  intros Harg. unfold php_default_treat_data.
  assert (Hnil : table_ok (Z.to_nat (max_input_nesting_level settings)) []) by (split; [apply NoDup_nil_2|constructor]).
  destruct arg; [| |done]; cbn zeta;
    match goal with |- context [treat_loop settings ?f ?a ?t ?sep ?cur 0 []] =>
      pose proof (treat_loop_ok settings f a t sep cur 0 [] Hnil ltac:(lia)) as [H1 H2] end;
    (split; [exact H1|]); change (leaves (ZArr ?x)) with (size x); rewrite Z.sub_0_r in H2; exact H2.
Qed.

Lemma treat_data_bounded_witness :
  let ht := (php_default_treat_data (InputSettings 2 3 false AMPERSAND) PARSE_GET plain_track
               "a[x][y][z]=0&b[]=1&b[]=2&c=3&d=4" []).1 in
  ht = [ (KStr "b", ZArr [(KIdx 0, ZStr "1"); (KIdx 1, ZStr "2")]) ] ∧
  strings_ok 3 (ZArr ht) ∧ (Z.of_nat (leaves (ZArr ht)) ≤ 3)%Z.
Proof.
  split; [by vm_compute|].
  apply (treat_data_bounded (InputSettings 2 3 false AMPERSAND) PARSE_GET plain_track "a[x][y][z]=0&b[]=1&b[]=2&c=3&d=4" []).
  discriminate.
Defined.
