(* ===== verification/PostData.v ===== *)
(** * A posted form does not depend on how it arrives

    [php_std_post_handler] takes variables from what has been read while it reads on, and
    keeps how far it has looked for the end of the next one.  What it stores is what the
    pieces of the whole body between ampersands are, one after the other. *)

From S2P Require Import Prelude Zend Numeric UrlCode Query.

Open Scope zs_scope.

(** ** The pieces of a body *)

Abbreviation pieces := (split_on AMPERSAND).

(** A piece without bytes at the end is none. *)
Definition ended (l : list zstr) : list zstr :=
  removelast l ++ match List.last l [] with [] => [] | w => [w] end.
Definition form_pieces (body : zstr) : list zstr := ended (pieces body).

(** What has been read when a read does not fill the buffer. *)
Fixpoint received (bufsiz : nat) (reads : list zstr) : zstr :=
  match reads with
  | [] => []
  | buf :: reads' => buf ++ (if bool_decide (length buf = bufsiz) then received bufsiz reads' else [])
  end.

Section post.
Context (settings : input_settings).

(** Piece after piece, up to the limit: how many there were, whether they were all, the
    table and the notices. *)
Fixpoint store_pieces (l : list zstr) (cnt : Z) (ht : htab zval) : Z * bool * (htab zval * list notice) :=
  match l with
  | [] => (cnt, true, (ht, []))
  | w :: l' =>
      let '(name, val) := query_pair w in
      let '(ht, ns) := php_register_variable_safe settings plain_track name val ht in
      let cnt := (cnt + 1)%Z in
      if (max_input_vars settings <? cnt)%Z then (cnt, false, (ht, ns ++ [VarsExceeded]))
      else let '(cnt, ok, (ht, ns')) := store_pieces l' cnt ht in (cnt, ok, (ht, ns ++ ns'))
  end.

Lemma store_pieces_app l l' cnt ht :
  store_pieces (l ++ l') cnt ht =
    let '(cnt, ok, (ht, ns)) := store_pieces l cnt ht in
    if ok : bool then let '(cnt, ok, (ht, ns')) := store_pieces l' cnt ht in (cnt, ok, (ht, ns ++ ns')) else (cnt, ok, (ht, ns)).
Proof.
  revert cnt ht. induction l as [|w l IH]; intros cnt ht; cbn [store_pieces app Datatypes.app].
  { by destruct (store_pieces l' cnt ht) as [[? ?] [? ?]]. }
  destruct (query_pair w) as [n v]. destruct (php_register_variable_safe _ _ _ _ _) as [ht1 ns1].
  destruct (_ <? _)%Z; [done|]. rewrite IH. destruct (store_pieces l _ ht1) as [[c ok] [ht2 ns2]]. destruct ok; [|done].
  destruct (store_pieces l' c ht2) as [[? ?] [? ?]]. by rewrite (assoc_L (++)).
Qed.

(** ** Pieces of a concatenation *)

Lemma pieces_nonempty s : pieces s ≠ [].
Proof. destruct s as [|c s]; [done|]. cbn [split_on]. destruct (ceq AMPERSAND c); [done|]. by destruct (split_on _ s). Qed.

Lemma pieces_app s t : pieces (s ++ t) = removelast (pieces s) ++ pieces (List.last (pieces s) [] ++ t).
Proof.
  induction s as [|c s IH]; [done|]. cbn [split_on app Datatypes.app]. rewrite IH.
  pose proof (pieces_nonempty s) as Hne. destruct (ceq AMPERSAND c) eqn:Ec.
  - by destruct (pieces s).
  - destruct (pieces s) as [|w l]; [done|]. destruct l as [|w' l]; [|done].
    cbn [removelast List.last app Datatypes.app split_on]. by rewrite Ec.
Qed.

Lemma ended_app l l' : l' ≠ [] → ended (l ++ l') = l ++ ended l'.
Proof.
  intros Hl'. unfold ended. rewrite removelast_app, <-(assoc_L (++)) by done. f_equal. f_equal.
  destruct l' as [|w l'] using rev_ind; [done|]. by rewrite (assoc_L (++)), !last_last.
Qed.

Lemma form_pieces_app s t : form_pieces (s ++ t) = removelast (pieces s) ++ form_pieces (List.last (pieces s) [] ++ t).
Proof. unfold form_pieces. rewrite pieces_app. apply ended_app, pieces_nonempty. Qed.

(** ** The handler *)

Lemma break_skip (p : ascii → bool) a b : Forall (λ c, p c = false) a → break p (a ++ b) = (a ++ (break p b).1, (break p b).2).
Proof.
  induction 1 as [|c a Hc _ IH]; cbn [app Datatypes.app break]; [by destruct (break p b)|]. by rewrite Hc, IH.
Qed.

(** Where the end of the next piece is, although the search begins behind what was scanned. *)
Lemma scan_break s k : free_of AMPERSAND (take k s) →
  break (ceq AMPERSAND) s = (take k s ++ (break (ceq AMPERSAND) (drop k s)).1, (break (ceq AMPERSAND) (drop k s)).2).
Proof. intros Hk. rewrite <-(take_drop k s) at 1. by apply break_skip. Qed.

(** One piece is taken, or the search goes as far as the data does. *)
Lemma add_var_more s cnt k ht : free_of AMPERSAND (take k s) →
  match (break (ceq AMPERSAND) s).2 with
  | [] => pieces s = [s] ∧
      add_post_var settings (PostVarData s cnt k) false ht = (PostVarData s cnt (match s with [] => k | _ => length s end), None)
  | _ :: rest =>
      let pair := (break (ceq AMPERSAND) s).1 in
      pieces s = pair :: pieces rest ∧ length rest < length s ∧ ∀ eof,
      add_post_var settings (PostVarData s cnt k) eof ht =
        let '(name, val) := query_pair pair in
        (PostVarData rest cnt 0, Some (php_register_variable_safe settings plain_track name val ht))
  end.
Proof.
  intros Hk. pose proof (split_on_break AMPERSAND s) as Hs. pose proof (scan_break s k Hk) as Hb.
  pose proof (break_length (ceq AMPERSAND) s) as Hl. pose proof (break_app (ceq AMPERSAND) s) as Happ.
  unfold add_post_var. cbn [pd_str pd_already_scanned pd_cnt].
  destruct s as [|c0 s]; [done|]. set (s1 := c0 :: s) in *.
  destruct (break (ceq AMPERSAND) (drop k s1)) as [tail0 r0]. rewrite Hb in *. cbn [fst snd] in *. destruct r0 as [|c rest].
  - rewrite app_nil_r in Happ. by rewrite Happ in Hs.
  - cbn [length] in Hl. split; [done|]. split; [lia|done].
Qed.

Lemma add_vars_more fuel : ∀ s cnt k ht, length s < fuel → free_of AMPERSAND (take k s) → (s = [] → k = 0) →
  let '(cnt', ok, r) := store_pieces (removelast (pieces s)) cnt ht in
  let rem := List.last (pieces s) [] in
  ∃ vars, add_post_vars settings fuel (PostVarData s cnt k) false ht = (vars, ok, r) ∧
    (ok = true → vars = PostVarData rem cnt' (length rem) ∧ free_of AMPERSAND rem).
Proof.
  induction fuel as [|fuel IH]; intros s cnt k ht Hf Hk Hk0; [lia|]. pose proof (add_var_more s cnt k ht Hk) as Hstep.
  pose proof (break_fst_Forall (ceq AMPERSAND) s) as Hfree.
  destruct (break (ceq AMPERSAND) s) as [pair r] eqn:Eb. cbn [fst snd] in Hstep, Hfree. destruct r as [|c rest].
  - destruct Hstep as [Hp Hv]. rewrite Hp. cbn [removelast store_pieces List.last add_post_vars]. rewrite Hv.
    eexists. split; [done|]. intros _. split; [destruct s; [by rewrite Hk0|done]|].
    pose proof (break_app (ceq AMPERSAND) s) as Happ. rewrite Eb in Happ. cbn in Happ. rewrite app_nil_r in Happ. by rewrite <-Happ.
  - destruct Hstep as (Hp & Hl & Hv). rewrite Hp. cbn [add_post_vars]. rewrite Hv.
    assert (Hrl : removelast (pair :: pieces rest) = pair :: removelast (pieces rest)) by (pose proof (pieces_nonempty rest); by destruct (pieces rest)).
    assert (Hla : List.last (pair :: pieces rest) [] = List.last (pieces rest) []) by (pose proof (pieces_nonempty rest); by destruct (pieces rest)).
    rewrite Hrl, Hla. cbn [store_pieces]. destruct (query_pair pair) as [n v].
    destruct (php_register_variable_safe settings plain_track n v ht) as [ht1 ns1]. cbn [pd_str pd_cnt pd_already_scanned].
    destruct (_ <? _)%Z; [by eexists|]. specialize (IH rest (cnt + 1)%Z 0 ht1 ltac:(lia) (Forall_nil_2 _) (λ _, eq_refl)).
    destruct (store_pieces (removelast (pieces rest)) (cnt + 1)%Z ht1) as [[cnt2 ok] [ht2 ns2]]. destruct IH as (vars & -> & Hvars).
    by exists vars.
Qed.

Lemma add_vars_end fuel : ∀ s cnt k ht, length s < fuel → free_of AMPERSAND (take k s) →
  ∃ vars, add_post_vars settings fuel (PostVarData s cnt k) true ht =
    (vars, (store_pieces (form_pieces s) cnt ht).1.2, (store_pieces (form_pieces s) cnt ht).2).
Proof.
  induction fuel as [|fuel IH]; intros s cnt k ht Hf Hk; [lia|]. pose proof (add_var_more s cnt k ht Hk) as Hstep.
  destruct (break (ceq AMPERSAND) s) as [pair r] eqn:Eb. cbn [fst snd] in Hstep. destruct r as [|c rest].
  - destruct Hstep as [Hp _]. destruct s as [|c0 s]; [by eexists|]. unfold form_pieces. rewrite Hp.
    pose proof (scan_break _ _ Hk) as Hb. rewrite Eb in Hb. injection Hb as -> Hr.
    cbn [add_post_vars]. unfold add_post_var. cbn [pd_str pd_already_scanned pd_cnt].
    destruct (break (ceq AMPERSAND) (drop k (c0 :: s))) as [tail0 r0]. cbn [snd] in Hr. subst r0.
    change (ended [c0 :: s]) with [c0 :: s]. cbn [store_pieces]. destruct (query_pair (c0 :: s)) as [n v].
    destruct (php_register_variable_safe settings plain_track n v ht) as [ht1 ns1]. cbn [pd_str pd_cnt pd_already_scanned].
    destruct (_ <? _)%Z; [by eexists|]. destruct fuel as [|fuel]; [cbn in Hf; lia|]. by eexists.
  - destruct Hstep as (Hp & Hl & Hv). cbn [add_post_vars]. rewrite Hv. unfold form_pieces. rewrite Hp.
    change (pair :: pieces rest) with ([pair] ++ pieces rest). rewrite ended_app by apply pieces_nonempty. cbn [app Datatypes.app store_pieces]. destruct (query_pair pair) as [n v].
    destruct (php_register_variable_safe settings plain_track n v ht) as [ht1 ns1]. cbn [pd_str pd_cnt pd_already_scanned].
    destruct (_ <? _)%Z; [by eexists|]. destruct (IH rest (cnt + 1)%Z 0 ht1 ltac:(lia) (Forall_nil_2 _)) as (vars & ->).
    unfold form_pieces. destruct (store_pieces (ended (pieces rest)) (cnt + 1)%Z ht1) as [[? ?] [? ?]]. by eexists.
Qed.

Lemma post_loop_run bufsiz reads : ∀ s cnt k ht, free_of AMPERSAND s → k = length s ∨ k = 0 → (s = [] → k = 0) →
  (match post_loop settings bufsiz reads (PostVarData s cnt k) ht with
   | (None, res) => res
   | (Some post_data, (ht, ns)) =>
       let '(_, _, (ht, ns')) := add_post_vars settings (S (length (pd_str post_data))) post_data true ht in (ht, ns ++ ns')
   end) = (store_pieces (form_pieces (s ++ received bufsiz reads)) cnt ht).2.
Proof.
  assert (Hend : ∀ s cnt k ht, free_of AMPERSAND s → k = length s ∨ k = 0 →
    (let '(_, _, (ht, ns')) := add_post_vars settings (S (length s)) (PostVarData s cnt k) true ht in (ht, ns')) =
    (store_pieces (form_pieces s) cnt ht).2).
  { intros s cnt k ht Hs Hk. destruct (add_vars_end (S (length s)) s cnt k ht) as [vars ->]; [lia| |].
    - destruct Hk as [->| ->]; [by rewrite take_ge|constructor].
    - by destruct (store_pieces _ _ _) as [[? ?] [? ?]]. }
  induction reads as [|buf reads IH]; intros s cnt k ht Hs Hk Hk0; cbn [post_loop received].
  { rewrite app_nil_r. cbn [pd_str]. pose proof (Hend s cnt k ht Hs Hk) as He.
    by destruct (add_post_vars _ _ _ _ _) as [[? ?] [? ?]]. }
  cbn [pd_str pd_cnt pd_already_scanned]. set (more := if bool_decide (length buf = bufsiz) then received bufsiz reads else []).
  (* after the variables of this read *)
  assert (Hgo : ∀ s' cnt' k' ht' ns', free_of AMPERSAND s' → k' = length s' ∨ k' = 0 → (s' = [] → k' = 0) →
    (match (if bool_decide (length buf = bufsiz) then
              let '(res, (ht, ns0)) := post_loop settings bufsiz reads (PostVarData s' cnt' k') ht' in (res, (ht, ns' ++ ns0))
            else (Some (PostVarData s' cnt' k'), (ht', ns'))) with
     | (None, res) => res
     | (Some post_data, (ht, ns)) =>
         let '(_, _, (ht, ns0)) := add_post_vars settings (S (length (pd_str post_data))) post_data true ht in (ht, ns ++ ns0)
     end) = (let '(_, _, (ht, ns)) := store_pieces (form_pieces (s' ++ more)) cnt' ht' in (ht, ns' ++ ns))).
  { intros s' cnt' k' ht' ns' Hs' Hk' Hk0'. subst more. case_bool_decide.
    - specialize (IH s' cnt' k' ht' Hs' Hk' Hk0'). destruct (store_pieces _ _ _) as [[? ?] [? ?]].
      destruct (post_loop _ _ _ _ _) as [[post|] [ht2 ns2]]; cbn [snd] in IH; [|by injection IH as -> ->].
      destruct (add_post_vars _ _ _ _ _) as [[? ?] [? ?]]. injection IH as -> <-. by rewrite (assoc_L (++)).
    - rewrite app_nil_r. cbn [pd_str]. pose proof (Hend s' cnt' k' ht' Hs' Hk') as He.
      destruct (add_post_vars _ _ _ _ _) as [[? ?] [? ?]], (store_pieces _ _ _) as [[? ?] [? ?]]. by injection He as -> ->. }
  destruct buf as [|c0 buf].
  - rewrite !app_nil_r. cbn [negb]. rewrite Hgo by done. cbn [app Datatypes.app].
    by destruct (store_pieces _ _ _) as [[? ?] [? ?]].
  - set (b := c0 :: buf) in *. rewrite (assoc_L (++)), form_pieces_app, store_pieces_app.
    pose proof (add_vars_more (S (length (s ++ b))) (s ++ b) cnt k ht ltac:(lia)) as Hmore.
    destruct (store_pieces (removelast (pieces (s ++ b))) cnt ht) as [[cnt1 ok] [ht1 ns1]].
    destruct Hmore as (vars & -> & Hvars); [|by destruct s|].
    { destruct Hk as [->| ->]; [by rewrite take_app_length|constructor]. }
    destruct ok; cbn [negb]; [|done]. destruct (Hvars eq_refl) as [-> Hrem].
    rewrite Hgo; [|done|by left|by intros ->]. by destruct (store_pieces _ _ _) as [[? ?] [? ?]].
Qed.

(** C27: A posted form is stored as its pieces between ampersands, one after the other up to the
    limit, however the reads cut it: a piece may be split over any number of reads, and
    where the search for its end had got to is kept between them. *)
Theorem post_handler_spec bufsiz reads ht :
  php_std_post_handler settings bufsiz reads ht = (store_pieces (form_pieces (received bufsiz reads)) 0 ht).2.
Proof. apply (post_loop_run bufsiz reads []); [constructor|by right|done]. Qed.
End post.

(** Every byte arrives where every read but the last fills the buffer. *)
Lemma received_full bufsiz (full : list zstr) (last : zstr) : Forall (λ buf, length buf = bufsiz) full →
  received bufsiz (full ++ [last]) = mjoin full ++ last.
Proof.
  induction 1 as [|buf full Hb _ IH]; cbn [app Datatypes.app received].
  - case_bool_decide; by rewrite app_nil_r.
  - rewrite bool_decide_true, IH by done. change (mjoin (buf :: full)) with (buf ++ mjoin full). by rewrite (assoc_L (++)).
Qed.
