(* ===== verification/Regex.v ===== *)
(** * Regular expressions and the longest match

    The rules of a scanner that [re2c] makes a function of: a rule is a regular
    expression, and the automaton reads on as long as one of the rules of its condition
    can still match, takes the longest match, and the first rule among equals.  The
    automaton is a vector of derivatives here; [longest_spec] shows that it finds what
    the rules mean.  [re2c:yyfill:check = 0] has the limit of the buffer tested after the
    byte is read: the buffer is followed by a NUL, and a scanner that could still read it
    gives up. *)

From S2P Require Import Prelude Zend.

Open Scope zs_scope.

(** ** Syntax *)

Inductive re :=
| Void
| Eps
| Cls (p : ascii → bool)
| Cat (r1 r2 : re)
| Alt (r1 r2 : re)
| Star (r : re).

Definition Plus (r : re) : re := Cat r (Star r).
Definition Opt (r : re) : re := Alt r Eps.
Definition chr (c : ascii) : re := Cls (ceq c).

(** [[...]] and [[^...]]; [[^]] is any byte. *)
Definition member (s : zstr) (c : ascii) : bool := existsb (ceq c) s.
Definition one_of (s : zstr) : re := Cls (member s).
Definition none_of (s : zstr) : re := Cls (λ c, negb (member s c)).
Definition any_byte : re := none_of [].

(** A string in quotes; the scanner is made with [--case-inverted], which makes it match
    in either case. *)
Definition chr_ci (c : ascii) : re := Cls (λ d, ceq (tolower c) (tolower d)).
Fixpoint word (s : zstr) : re := match s with [] => Eps | c :: s' => Cat (chr_ci c) (word s') end.
Fixpoint alts (l : list re) : re := match l with [] => Void | [r] => r | r :: l' => Alt r (alts l') end.

(** ** Meaning *)

Inductive matches : re → zstr → Prop :=
| matches_eps : matches Eps []
| matches_cls p c : p c = true → matches (Cls p) [c]
| matches_cat r1 r2 s1 s2 : matches r1 s1 → matches r2 s2 → matches (Cat r1 r2) (s1 ++ s2)
| matches_alt_l r1 r2 s : matches r1 s → matches (Alt r1 r2) s
| matches_alt_r r1 r2 s : matches r2 s → matches (Alt r1 r2) s
| matches_star_nil r : matches (Star r) []
| matches_star_app r s1 s2 : matches r s1 → matches (Star r) s2 → matches (Star r) (s1 ++ s2).

(** ** Derivatives *)

Fixpoint nullable (r : re) : bool :=
  match r with
  | Void | Cls _ => false
  | Eps | Star _ => true
  | Cat r1 r2 => nullable r1 && nullable r2
  | Alt r1 r2 => nullable r1 || nullable r2
  end.

(** Constructors that keep derivatives small. *)
Definition cat (r1 r2 : re) : re :=
  match r1, r2 with
  | Void, _ | _, Void => Void
  | Eps, r | r, Eps => r
  | _, _ => Cat r1 r2
  end.
Definition alt (r1 r2 : re) : re :=
  match r1, r2 with
  | Void, r | r, Void => r
  | _, _ => Alt r1 r2
  end.

Fixpoint deriv (c : ascii) (r : re) : re :=
  match r with
  | Void | Eps => Void
  | Cls p => if p c then Eps else Void
  | Cat r1 r2 =>
      if nullable r1 then alt (cat (deriv c r1) r2) (deriv c r2) else cat (deriv c r1) r2
  | Alt r1 r2 => alt (deriv c r1) (deriv c r2)
  | Star r => cat (deriv c r) (Star r)
  end.

(** An expression of which nothing is left; a class is not empty. *)
Fixpoint dead (r : re) : bool :=
  match r with
  | Void => true
  | Eps | Cls _ | Star _ => false
  | Cat r1 r2 => dead r1 || dead r2
  | Alt r1 r2 => dead r1 && dead r2
  end.

(** ** The scanner *)

Inductive scanned :=
| Overrun
| NoMatch
| Match (rule : nat) (len : nat).

Fixpoint first_nullable (rs : list re) : option nat :=
  match rs with
  | [] => None
  | r :: rs' => if nullable r then Some 0 else S <$> first_nullable rs'
  end.

(** [n] bytes have been read; [best] is the longest match so far. *)
Fixpoint scan (rs : list re) (s : zstr) (n : nat) (best : scanned) : scanned :=
  match s with
  | [] => if forallb (λ r, dead (deriv NUL r)) rs then best else Overrun
  | c :: s' =>
      let rs' := map (deriv c) rs in
      if forallb dead rs' then best
      else scan rs' s' (S n) (match first_nullable rs' with Some i => Match i (S n) | None => best end)
  end.

(** The match of the rules [rs] at the start of [s]. *)
Definition longest (rs : list re) (s : zstr) : scanned := scan rs s 0 NoMatch.

(** ** Derivatives and the language *)

Lemma matches_void s : ¬ matches Void s.
Proof. inversion 1. Qed.
Lemma matches_eps_inv s : matches Eps s ↔ s = [].
Proof. split; [by inversion 1|intros ->; constructor]. Qed.
Lemma matches_cls_inv p s : matches (Cls p) s ↔ ∃ c, s = [c] ∧ p c = true.
Proof. split; [inversion 1; eauto|intros (c & -> & Hc); by constructor]. Qed.
Lemma matches_cat_inv r1 r2 s :
  matches (Cat r1 r2) s ↔ ∃ s1 s2, s = s1 ++ s2 ∧ matches r1 s1 ∧ matches r2 s2.
Proof. split; [inversion 1; eauto|intros (s1 & s2 & -> & H1 & H2); by constructor]. Qed.
Lemma matches_alt_inv r1 r2 s : matches (Alt r1 r2) s ↔ matches r1 s ∨ matches r2 s.
Proof. split; [inversion 1; eauto|intros [H|H]; [by apply matches_alt_l|by apply matches_alt_r]]. Qed.

(** A match of a star that is not empty starts with a part that is not. *)
Lemma matches_star_inv r c s :
  matches (Star r) (c :: s) ↔ ∃ s1 s2, s = s1 ++ s2 ∧ matches r (c :: s1) ∧ matches (Star r) s2.
Proof.
  split.
  - remember (Star r) as r' eqn:Er. remember (c :: s) as t eqn:Et.
    intros Hm. induction Hm as [| | | | | |r0 s1 s2 H1 _ H2 IH2]; try done. injection Er as ->.
    destruct s1 as [|d s1]; [by apply IH2|]. injection Et as -> <-. eauto.
  - intros (s1 & s2 & -> & H1 & H2). by apply (matches_star_app r (c :: s1)).
Qed.

Lemma nullable_spec r : nullable r = true ↔ matches r [].
Proof.
  induction r as [| |p|r1 IH1 r2 IH2|r1 IH1 r2 IH2|r IH]; cbn.
  - split; [done|by intros ?%matches_void].
  - split; [constructor|done].
  - split; [done|by intros (c & ? & _)%matches_cls_inv].
  - rewrite andb_true_iff, IH1, IH2, matches_cat_inv. split; [intros []; by exists [], []|].
    by intros (s1 & s2 & [-> ->]%symmetry%app_nil & ? & ?).
  - by rewrite orb_true_iff, IH1, IH2, matches_alt_inv.
  - split; [constructor|done].
Qed.

Lemma cat_spec r1 r2 s : matches (cat r1 r2) s ↔ matches (Cat r1 r2) s.
Proof.
  assert (Hvl : ∀ r, matches (Cat Void r) s ↔ matches Void s).
  { intros r. rewrite matches_cat_inv. split; [|by intros ?%matches_void]. by intros (? & ? & _ & ?%matches_void & _). }
  assert (Hvr : ∀ r, matches (Cat r Void) s ↔ matches Void s).
  { intros r. rewrite matches_cat_inv. split; [|by intros ?%matches_void]. by intros (? & ? & _ & _ & ?%matches_void). }
  assert (Hel : ∀ r, matches (Cat Eps r) s ↔ matches r s).
  { intros r. rewrite matches_cat_inv. split; [by intros (? & ? & -> & ->%matches_eps_inv & ?)|].
    intros ?. exists [], s. by rewrite matches_eps_inv. }
  assert (Her : ∀ r, matches (Cat r Eps) s ↔ matches r s).
  { intros r. rewrite matches_cat_inv. split; [by intros (? & ? & -> & ? & ->%matches_eps_inv); rewrite app_nil_r|].
    intros ?. exists s, []. by rewrite app_nil_r, matches_eps_inv. }
  destruct r1, r2; cbn; by rewrite ?Hvl, ?Hvr, ?Hel, ?Her.
Qed.

Lemma alt_spec r1 r2 s : matches (alt r1 r2) s ↔ matches (Alt r1 r2) s.
Proof.
  assert (Hv : ¬ matches Void s) by apply matches_void.
  destruct r1, r2; cbn; rewrite ?matches_alt_inv; tauto.
Qed.

Lemma deriv_spec c r s : matches (deriv c r) s ↔ matches r (c :: s).
Proof.
  revert s. induction r as [| |p|r1 IH1 r2 IH2|r1 IH1 r2 IH2|r IH]; intros s; cbn.
  - split; by intros ?%matches_void.
  - split; [by intros ?%matches_void|by intros ?%matches_eps_inv].
  - rewrite matches_cls_inv. destruct (p c) eqn:E.
    + rewrite matches_eps_inv. split; [by intros ->; eauto|by intros (? & [= <- ->] & _)].
    + split; [by intros ?%matches_void|intros (? & [= <- ->] & ?); congruence].
  - assert (Hleft : matches (cat (deriv c r1) r2) s ↔
        ∃ s1 s2, s = s1 ++ s2 ∧ matches r1 (c :: s1) ∧ matches r2 s2).
    { rewrite cat_spec, matches_cat_inv. by setoid_rewrite IH1. }
    assert (Hall : matches (Cat r1 r2) (c :: s) ↔
        (∃ s1 s2, s = s1 ++ s2 ∧ matches r1 (c :: s1) ∧ matches r2 s2) ∨ (matches r1 [] ∧ matches r2 (c :: s))).
    { rewrite matches_cat_inv. split.
      - intros (s1 & s2 & Hs & H1 & H2). destruct s1 as [|d s1]; [right; cbn in Hs; by subst s2|].
        injection Hs as -> ->. left. eauto.
      - intros [(s1 & s2 & -> & H1 & H2)|[H1 H2]]; [by exists (c :: s1), s2|by exists [], (c :: s)]. }
    rewrite Hall, <-nullable_spec. destruct (nullable r1).
    + rewrite alt_spec, matches_alt_inv, Hleft, IH2. naive_solver.
    + rewrite Hleft. naive_solver.
  - by rewrite alt_spec, !matches_alt_inv, IH1, IH2.
  - rewrite cat_spec, matches_cat_inv, matches_star_inv. by setoid_rewrite IH.
Qed.

(** ** Dead expressions *)

Lemma dead_spec r s : dead r = true → ¬ matches r s.
Proof.
  revert s. induction r as [| |p|r1 IH1 r2 IH2|r1 IH1 r2 IH2|r IH]; intros s; cbn; try done.
  - intros _. apply matches_void.
  - rewrite orb_true_iff. intros [?|?] (s1 & s2 & _ & ? & ?)%matches_cat_inv; naive_solver.
  - rewrite andb_true_iff. intros [??] [?|?]%matches_alt_inv; naive_solver.
Qed.

(** Every class has a member. *)
Fixpoint inhabited (r : re) : Prop :=
  match r with
  | Void | Eps => True
  | Cls p => ∃ c, p c = true
  | Cat r1 r2 | Alt r1 r2 => inhabited r1 ∧ inhabited r2
  | Star r => inhabited r
  end.

Lemma inhabited_deriv c r : inhabited r → inhabited (deriv c r).
Proof.
  assert (Hcat : ∀ r1 r2, inhabited r1 → inhabited r2 → inhabited (cat r1 r2))
    by (intros [] []; cbn; tauto).
  assert (Halt : ∀ r1 r2, inhabited r1 → inhabited r2 → inhabited (alt r1 r2))
    by (intros [] []; cbn; tauto).
  induction r as [| |p|r1 IH1 r2 IH2|r1 IH1 r2 IH2|r IH]; cbn; try done.
  - by destruct (p c).
  - intros [??]. destruct (nullable r1); auto.
  - intros [??]. auto.
  - auto.
Qed.

Lemma live_spec r : inhabited r → dead r = false → ∃ s, matches r s.
Proof.
  induction r as [| |p|r1 IH1 r2 IH2|r1 IH1 r2 IH2|r IH]; cbn; try done.
  - intros _ _. exists []. constructor.
  - intros [c Hc] _. exists [c]. by constructor.
  - intros [Hi1 Hi2] [Hd1 Hd2]%orb_false_iff. destruct (IH1 Hi1 Hd1) as [s1 H1], (IH2 Hi2 Hd2) as [s2 H2].
    exists (s1 ++ s2). by constructor.
  - intros [Hi1 Hi2] [Hd|Hd]%andb_false_iff.
    + destruct (IH1 Hi1 Hd) as [s Hs]. exists s. by apply matches_alt_l.
    + destruct (IH2 Hi2 Hd) as [s Hs]. exists s. by apply matches_alt_r.
  - intros _ _. exists []. constructor.
Qed.

(** ** The longest match *)

(** Rule [i] matches the first [k] bytes, no rule matches more, and no earlier rule as
    many. *)
Definition wins (rs : list re) (s : zstr) (i k : nat) : Prop :=
  0 < k ≤ length s ∧ (∃ r, rs !! i = Some r ∧ matches r (take k s)) ∧
  ∀ j r m, rs !! j = Some r → 0 < m ≤ length s → matches r (take m s) → m < k ∨ (m = k ∧ i ≤ j).
Definition loses (rs : list re) (s : zstr) : Prop :=
  ∀ r m, r ∈ rs → 0 < m ≤ length s → ¬ matches r (take m s).

(** A rule can match something that begins with all of the buffer and the NUL after it. *)
Definition overruns (rs : list re) (s : zstr) : Prop := ∃ r t, r ∈ rs ∧ matches r (s ++ NUL :: t).

Lemma first_nullable_spec rs :
  match first_nullable rs with
  | Some i => (∃ r, rs !! i = Some r ∧ nullable r = true) ∧ ∀ j r, rs !! j = Some r → nullable r = true → i ≤ j
  | None => ∀ r, r ∈ rs → nullable r = false
  end.
Proof.
  induction rs as [|r rs IH]; cbn; [by intros r ?%not_elem_of_nil|].
  destruct (nullable r) eqn:E; cbn; [split; [by exists r|lia]|].
  destruct (first_nullable rs) as [i|]; cbn.
  - destruct IH as [IH1 IH2]. split; [done|]. intros [|j] r' Hj Hr'; [cbn in Hj; congruence|].
    apply le_n_S. by eapply IH2.
  - intros r' [->|?]%elem_of_cons; auto.
Qed.

Lemma dead_all rs c s : forallb dead (map (deriv c) rs) = true → ∀ r, r ∈ rs → ¬ matches r (c :: s).
Proof.
  rewrite forallb_forall. intros Hd r Hr Hm. apply (dead_spec (deriv c r) s).
  - by apply Hd, in_map, list_elem_of_In.
  - by apply deriv_spec.
Qed.

(** One byte read: what the derivatives find in the rest. *)
Lemma deriv_wins rs c s i k : wins (map (deriv c) rs) s i k → wins rs (c :: s) i (S k).
Proof.
  intros (Hk & (r & Hr & Hm) & Hmax). rewrite list_lookup_fmap in Hr.
  destruct (rs !! i) as [r0|] eqn:Hi; [|done]. injection Hr as <-. split; [cbn; lia|]. split.
  { exists r0. split; [done|]. by apply deriv_spec. }
  intros j r m Hj Hlen Hjm. destruct m as [|m]; [lia|]. cbn in Hjm, Hlen.
  destruct m as [|m]; [lia|]. apply deriv_spec in Hjm.
  destruct (Hmax j (deriv c r) (S m)); [by rewrite list_lookup_fmap, Hj|lia|done|lia..].
Qed.

Lemma deriv_loses rs c s : loses (map (deriv c) rs) s →
  match first_nullable (map (deriv c) rs) with Some i => wins rs (c :: s) i 1 | None => loses rs (c :: s) end.
Proof.
  intros Hl. pose proof (first_nullable_spec (map (deriv c) rs)) as Hn.
  assert (Hlong : ∀ r m, r ∈ rs → 0 < m ≤ length s → ¬ matches r (c :: take m s)).
  { intros r m Hr Hm Hmat. eapply Hl; [by eapply list_elem_of_In, in_map, list_elem_of_In|exact Hm|by apply deriv_spec]. }
  assert (Hone : ∀ r, matches r [c] ↔ nullable (deriv c r) = true) by (intros r; by rewrite nullable_spec, deriv_spec).
  destruct (first_nullable _) as [i|].
  - destruct Hn as [(r & Hr & Hnull) Hfirst]. rewrite list_lookup_fmap in Hr.
    destruct (rs !! i) as [r0|] eqn:Hi; [|done]. injection Hr as <-.
    split; [cbn; lia|]. split; [exists r0; split; [done|by apply Hone]|].
    intros j r [|[|m]] Hj Hlen Hm; [lia| |].
    + right. split; [done|]. apply (Hfirst j (deriv c r)); [by rewrite list_lookup_fmap, Hj|by apply Hone].
    + destruct (Hlong r (S m)); [by eapply list_elem_of_lookup_2|cbn in Hlen; lia|done].
  - intros r [|[|m]] Hr Hlen Hm; [lia| |].
    + apply Hone in Hm. rewrite Hn in Hm; [done|]. by apply list_elem_of_In, in_map, list_elem_of_In.
    + by destruct (Hlong r (S m)); [|cbn in Hlen; lia|].
Qed.

Lemma deriv_overruns rs c s : overruns (map (deriv c) rs) s ↔ overruns rs (c :: s).
Proof.
  split.
  - intros (r & t & (r0 & <- & Hr)%list_elem_of_In%in_map_iff & Hm). exists r0, t.
    split; [by apply list_elem_of_In|by apply deriv_spec].
  - intros (r & t & Hr & Hm). exists (deriv c r), t.
    split; [by apply list_elem_of_In, in_map, list_elem_of_In|by apply deriv_spec].
Qed.

Definition scan_result (rs : list re) (s : zstr) (n : nat) (best x : scanned) : Prop :=
  (overruns rs s ∧ x = Overrun) ∨
  (¬ overruns rs s ∧ (loses rs s ∧ x = best ∨ ∃ i k, wins rs s i k ∧ x = Match i (n + k))).

Lemma scan_spec rs s n best : Forall inhabited rs → scan_result rs s n best (scan rs s n best).
Proof.
  revert rs n best. induction s as [|c s IH]; intros rs n best Hi; cbn.
  - destruct (forallb _ rs) eqn:E.
    + right. split; [|left; split; [|done]].
      * intros (r & t & Hr & Hm). rewrite forallb_forall in E.
        apply (dead_spec (deriv NUL r) t); [by apply E, list_elem_of_In|by apply deriv_spec].
      * intros r m _ Hm. cbn in Hm. lia.
    + left. split; [|done]. apply not_true_iff_false in E. rewrite forallb_forall in E.
      assert (Hex : Exists (not ∘ (λ r, dead (deriv NUL r) = true)) rs).
      { apply not_Forall_Exists; [solve_decision|]. intros Hf. apply E. intros r Hr.
        rewrite Forall_forall in Hf. apply Hf. by apply list_elem_of_In. }
      apply Exists_exists in Hex as (r & Hr & Hd%not_true_iff_false). rewrite Forall_forall in Hi.
      destruct (live_spec (deriv NUL r)) as [t Ht]; [by apply inhabited_deriv, Hi|done|].
      exists r, t. split; [done|]. by apply deriv_spec.
  - destruct (forallb dead (map (deriv c) rs)) eqn:E.
    + right. pose proof (λ t, dead_all rs c t E) as Hdead. split; [|left; split; [|done]].
      * intros (r & t & Hr & Hm). by eapply Hdead.
      * intros r [|m] Hr Hlen Hm; [lia|]. by eapply Hdead.
    + assert (Hi' : Forall inhabited (map (deriv c) rs)).
      { apply Forall_map. eapply Forall_impl; [exact Hi|]. intros r. apply inhabited_deriv. }
      specialize (IH (map (deriv c) rs) (S n) (match first_nullable (map (deriv c) rs) with
                        Some i => Match i (S n) | None => best end) Hi').
      destruct IH as [[Ho ->]|(Ho & [[Hl ->]|(i & k & Hw & ->)])]; rewrite deriv_overruns in Ho.
      * by left.
      * right. split; [done|]. apply deriv_loses in Hl. destruct (first_nullable _) as [i|]; [right|by left].
        exists i, 1. by rewrite Nat.add_1_r.
      * right. split; [done|]. right. exists i, (S k). split; [by apply deriv_wins|f_equal; lia].
Qed.

(** The match is what the rules mean: nothing if a rule could read beyond the buffer,
    otherwise the longest match of a rule, of the first such rule. *)
Lemma longest_spec rs s : Forall inhabited rs → scan_result rs s 0 NoMatch (longest rs s).
Proof. apply scan_spec. Qed.

Lemma longest_match rs s i k :
  Forall inhabited rs → ¬ overruns rs s → wins rs s i k → longest rs s = Match i k.
Proof.
  intros Hi Ho (Hk & (r & Hr & Hm) & Hmax). destruct (longest_spec rs s Hi) as [[? _]|(_ & [[Hl _]|(j & m & Hw & ->)])].
  - done.
  - exfalso. eapply Hl; [by eapply list_elem_of_lookup_2|exact Hk|exact Hm].
  - destruct Hw as (Hk' & (r' & Hr' & Hm') & Hmax'). cbn.
    destruct (Hmax j r' m Hr' Hk' Hm'), (Hmax' i r k Hr Hk Hm); f_equal; lia.
Qed.

(** ** Bounds on what an expression matches *)

(** The bytes that may occur, those that may come first, and whether a match has at most
    one byte. *)
Fixpoint sigma (r : re) (c : ascii) : bool :=
  match r with
  | Void | Eps => false
  | Cls p => p c
  | Cat r1 r2 | Alt r1 r2 => sigma r1 c || sigma r2 c
  | Star r => sigma r c
  end.
Definition first (r : re) (c : ascii) : bool := negb (dead (deriv c r)).
Definition one_byte (r : re) : bool := match r with Void | Eps | Cls _ => true | _ => false end.

Lemma sigma_spec r s : matches r s → Forall (λ c, sigma r c = true) s.
Proof.
  induction 1 as [|p c Hc|r1 r2 s1 s2 _ IH1 _ IH2|r1 r2 s _ IH|r1 r2 s _ IH|r|r s1 s2 _ IH1 _ IH2]; cbn.
  - done.
  - by repeat constructor.
  - apply Forall_app; split; (eapply Forall_impl; [eassumption|]); cbn; intros c ->; by rewrite ?orb_true_r.
  - eapply Forall_impl; [eassumption|]. cbn. by intros c ->.
  - eapply Forall_impl; [eassumption|]. cbn. intros c ->. by rewrite orb_true_r.
  - done.
  - by apply Forall_app.
Qed.

Lemma first_spec r c s : matches r (c :: s) → first r c = true.
Proof.
  intros Hm. unfold first. destruct (dead (deriv c r)) eqn:E; [|done].
  apply (dead_spec _ s) in E. by rewrite deriv_spec in E.
Qed.

Lemma one_byte_spec r s : one_byte r = true → matches r s → length s ≤ 1.
Proof.
  destruct r; try done; intros _.
  - by intros ?%matches_void.
  - by intros ->%matches_eps_inv; cbn; lia.
  - intros (c & -> & _)%matches_cls_inv. cbn. lia.
Qed.

(** An expression that matches nothing that begins with [c], and is longer and goes on with
    [d] after a match. *)
Definition confined (r : re) (c d : ascii) : bool := one_byte r || negb (first r c) || negb (sigma r d).

Lemma confined_spec r c d s t : confined r c d = true → ¬ matches r (c :: s ++ d :: t).
Proof.
  unfold confined. intros [[H|H%negb_true_iff]%orb_true_iff|H%negb_true_iff]%orb_true_iff Hm.
  - apply (one_byte_spec _ _ H) in Hm. cbn in Hm. rewrite length_app in Hm. cbn in Hm. lia.
  - apply first_spec in Hm. congruence.
  - apply sigma_spec in Hm. apply Forall_cons_1 in Hm as [_ Hm]. apply Forall_app in Hm as [_ Hm].
    apply Forall_cons_1 in Hm as [Hm _]. congruence.
Qed.

(** Where no rule goes on after [text], and one matches it, a rule that matches it is taken. *)
Lemma longest_text rs text d t i0 r0 :
  Forall inhabited rs → text ≠ [] → (∀ r t, r ∈ rs → ¬ matches r (text ++ d :: t)) →
  rs !! i0 = Some r0 → matches r0 text →
  ∃ i r, longest rs (text ++ d :: t) = Match i (length text) ∧ i ≤ i0 ∧ rs !! i = Some r ∧ matches r text.
Proof.
  intros Hi Hne Hno Hr0 Hm0.
  assert (Hlen : 0 < length text ≤ length (text ++ d :: t)).
  { rewrite length_app. cbn. destruct text; [done|cbn; lia]. }
  assert (Htake : take (length text) (text ++ d :: t) = text) by apply take_app_length.
  destruct (longest_spec rs (text ++ d :: t) Hi) as [[(r & t' & Hr & Hm) _]|(_ & [[Hl _]|(i & k & (Hk & (r & Hr & Hm) & Hmax) & Hl)])].
  - exfalso. rewrite <-(assoc_L (++)) in Hm. by apply Hno in Hm.
  - exfalso. eapply (Hl r0 (length text)); [by eapply list_elem_of_lookup_2|exact Hlen|by rewrite Htake].
  - assert (Hle : k ≤ length text).
    { destruct (decide (k ≤ length text)) as [|Hgt]; [done|]. exfalso.
      replace k with (length text + S (k - length text - 1)) in Hm by lia.
      rewrite take_app_add in Hm. cbn [take] in Hm. eapply Hno; [by eapply list_elem_of_lookup_2|exact Hm]. }
    destruct (Hmax i0 r0 (length text) Hr0 Hlen) as [?|[<- ?]]; [by rewrite Htake|lia|].
    exists i, r. split; [done|]. split; [done|]. split; [done|]. by rewrite Htake in Hm.
Qed.
