(* ===== verification/IniScanner.v ===== *)
(** * The scanner of ini files

    [Zend/zend_ini_scanner.l]: the tokens of an ini file, in the normal mode, which is the
    one Yaf asks for, and the raw mode.  The rules are those of the file, each with its
    conditions and its expression, in their order; [Regex.longest] chooses among them. *)

From S2P Require Import Prelude Zend Regex.

Open Scope zs_scope.

(** ** Named expressions *)

Definition LF : ascii := ascii_of_nat 10.
Definition CR : ascii := ascii_of_nat 13.
Definition TAB : ascii := ascii_of_nat 9.
Definition BLANK : ascii := " "%char.
Definition DQUOTE : ascii := ascii_of_nat 34.
Definition SQUOTE : ascii := "'"%char.
Definition DOLLAR : ascii := "$"%char.
Definition ESCAPE : ascii := "\"%char.
Definition SEMICOLON : ascii := ";"%char.
Definition LBRACE : ascii := "{"%char.
Definition RBRACE : ascii := "}"%char.
Definition LBRACKET : ascii := "["%char.
Definition RBRACKET : ascii := "]"%char.
Definition EQUALS : ascii := "="%char.

Definition digits_set : zstr := "0123456789".
Definition letters_set : zstr := "abcdefghijklmnopqrstuvwxyzABCDEFGHIJKLMNOPQRSTUVWXYZ_".

Definition LNUM : re := Plus (one_of digits_set).
Definition DNUM : re :=
  Alt (Cat (Star (one_of digits_set)) (Cat (chr ".") (Plus (one_of digits_set))))
      (Cat (Plus (one_of digits_set)) (Cat (chr ".") (Star (one_of digits_set)))).
Definition NUMBER : re := Alt (Cat (Opt (chr "-")) LNUM) DNUM.
Definition ANY_CHAR : re := any_byte.
Definition NEWLINE : re := Alt (chr CR) (Alt (chr LF) (Cat (chr CR) (chr LF))).
Definition TABS_AND_SPACES : re := one_of [BLANK; TAB].
Definition CONSTANT : re := Cat (one_of letters_set) (Star (one_of (letters_set ++ digits_set))).
Definition label_end : zstr := [EQUALS; LF; CR; TAB] ++ ";&|^$~(){}!" ++ [DQUOTE; LBRACKET].
Definition LABEL : re := Plus (none_of label_end).
Definition OPERATORS : re := one_of "&|^~()!".
Definition TOKENS : re :=
  one_of (":,.[]" ++ [DQUOTE; SQUOTE] ++ "()&|^+,-./*=%$!~<>?@{}").
Definition DOLLAR_CURLY : re := Cat (chr DOLLAR) (chr LBRACE).
Definition LITERAL_DOLLAR : re :=
  Cat (chr DOLLAR) (Alt (none_of [LBRACE; NUL]) (Cat (chr ESCAPE) ANY_CHAR)).
Definition value_stop : zstr := [DOLLAR; EQUALS; BLANK; TAB; LF; CR] ++ ";&|^~()!" ++ [DQUOTE; SQUOTE; NUL].
Definition VALUE_CHARS : re := Alt (none_of value_stop) LITERAL_DOLLAR.
Definition section_stop : zstr := [DOLLAR; LF; CR; SEMICOLON; DQUOTE; SQUOTE; RBRACKET; ESCAPE].
Definition SECTION_VALUE_CHARS : re :=
  Alt (none_of section_stop) (Alt (Cat (chr ESCAPE) ANY_CHAR) LITERAL_DOLLAR).

(** ** Conditions and rules *)

Inductive condition :=
| INITIAL | ST_OFFSET | ST_SECTION_VALUE | ST_VALUE | ST_SECTION_RAW | ST_DOUBLE_QUOTES
| ST_VARNAME | ST_RAW.
#[export] Instance condition_eq_dec : EqDecision condition.
Proof. solve_decision. Defined.

Inductive rule :=
| section_start | raw_string | section_end | offset_start | offset_end | variable_start
| variable_name | variable_end | true_value | false_value | null_value | option_name
| option_assign | raw_value | section_raw | value_end | constant_value | number_value
| token_char | operator_char | value_assign | value_string | section_string | quote_start
| quote_end | quoted_string | value_blanks | skip_blanks | empty_line | comment_line
| value_other | any_other.

Definition rule_conditions (r : rule) : list condition :=
  match r with
  | section_start | offset_start | option_name | option_assign | token_char | empty_line => [INITIAL]
  | raw_string | constant_value | number_value | quote_start | value_blanks =>
      [ST_SECTION_VALUE; ST_VALUE; ST_OFFSET]
  | section_end => [ST_SECTION_RAW; ST_SECTION_VALUE]
  | offset_end => [ST_OFFSET]
  | variable_start => [ST_DOUBLE_QUOTES; ST_SECTION_VALUE; ST_VALUE; ST_OFFSET]
  | variable_name | variable_end => [ST_VARNAME]
  | true_value | false_value | null_value => [INITIAL; ST_VALUE]
  | raw_value => [ST_RAW]
  | section_raw => [ST_SECTION_RAW]
  | value_end | value_other => [ST_VALUE; ST_RAW]
  | operator_char | value_assign | value_string => [ST_VALUE]
  | section_string => [ST_SECTION_VALUE; ST_OFFSET]
  | quote_end | quoted_string => [ST_DOUBLE_QUOTES]
  | skip_blanks => [INITIAL; ST_RAW]
  | comment_line => [INITIAL; ST_VALUE; ST_RAW]
  | any_other => [INITIAL; ST_OFFSET; ST_SECTION_VALUE; ST_VALUE; ST_SECTION_RAW;
                  ST_DOUBLE_QUOTES; ST_VARNAME; ST_RAW]
  end.

Definition blanks : re := Star TABS_AND_SPACES.
Definition rule_re (r : rule) : re :=
  match r with
  | section_start => chr LBRACKET
  | raw_string => Cat (chr SQUOTE) (Cat (Plus (none_of [SQUOTE])) (chr SQUOTE))
  | section_end => Cat (chr RBRACKET) (Cat blanks (Opt NEWLINE))
  | offset_start => Cat LABEL (Cat (chr LBRACKET) blanks)
  | offset_end => Cat blanks (chr RBRACKET)
  | variable_start => DOLLAR_CURLY
  | variable_name => LABEL
  | variable_end => chr RBRACE
  | true_value => Cat (alts [word "true"; word "on"; word "yes"]) blanks
  | false_value => Cat (alts [word "false"; word "off"; word "no"; word "none"]) blanks
  | null_value => Cat (word "null") blanks
  | option_name => LABEL
  | option_assign => Cat blanks (Cat (chr EQUALS) blanks)
  | raw_value => none_of [LF; CR; SEMICOLON; NUL]
  | section_raw => Plus (none_of [RBRACKET; LF; CR])
  | value_end => Cat blanks NEWLINE
  | constant_value => CONSTANT
  | number_value => NUMBER
  | token_char => TOKENS
  | operator_char => Cat OPERATORS blanks
  | value_assign => chr EQUALS
  | value_string => Plus VALUE_CHARS
  | section_string => Plus SECTION_VALUE_CHARS
  | quote_start => Cat blanks (chr DQUOTE)
  | quote_end => Cat (chr DQUOTE) blanks
  | quoted_string => any_byte
  | value_blanks => Plus TABS_AND_SPACES
  | skip_blanks => Plus TABS_AND_SPACES
  | empty_line => Cat blanks NEWLINE
  | comment_line => Cat blanks (Cat (chr SEMICOLON) (Cat (Star (none_of [CR; LF])) NEWLINE))
  | value_other => any_byte
  | any_other => any_byte
  end.

(** In the order of the file. *)
Definition all_rules : list rule :=
  [ section_start; raw_string; section_end; offset_start; offset_end; variable_start;
    variable_name; variable_end; true_value; false_value; null_value; option_name;
    option_assign; raw_value; section_raw; value_end; constant_value; number_value;
    token_char; operator_char; value_assign; value_string; section_string; quote_start;
    quote_end; quoted_string; value_blanks; skip_blanks; empty_line; comment_line;
    value_other; any_other ].
Definition rules_of (c : condition) : list rule :=
  filter (λ r, c ∈ rule_conditions r) all_rules.

(** ** Tokens and the state of the scanner *)

Inductive token :=
| TC_SECTION
| TC_RAW (s : zstr)
| TC_CONSTANT (s : zstr)
| TC_NUMBER (s : zstr)
| TC_STRING (s : zstr)
| TC_WHITESPACE (s : zstr)
| TC_LABEL (s : zstr)
| TC_OFFSET (s : zstr)
| TC_DOLLAR_CURLY
| TC_VARNAME (s : zstr)
| TC_QUOTED_STRING (s : zstr)
| BOOL_TRUE (s : zstr)
| BOOL_FALSE (s : zstr)
| NULL_NULL (s : zstr)
| END_OF_LINE
| TChar (c : ascii).

Inductive scanner_mode := ZEND_INI_SCANNER_NORMAL | ZEND_INI_SCANNER_RAW.

Record scanner := Scanner {
  sc_mode : scanner_mode;
  sc_state : condition;
  sc_stack : list condition;
  sc_lineno : Z;
  sc_start : bool;             (** [YYCURSOR == SCNG(yy_start)] *)
  sc_rest : zstr;              (** from [YYCURSOR] to [YYLIMIT] *)
}.
#[export] Instance scanner_rebuild : Rebuild scanner := λ s,
  Scanner (sc_mode s) (sc_state s) (sc_stack s) (sc_lineno s) (sc_start s) (sc_rest s).

(** [init_ini_scanner], [yy_scan_buffer] *)
Definition init_ini_scanner (mode : scanner_mode) (buf : zstr) : scanner :=
  Scanner mode INITIAL [] 1 true buf.

Definition BEGIN (c : condition) (sc : scanner) : scanner := sc <| sc_state := c |>.
Definition next_line (sc : scanner) : scanner := sc <| sc_lineno := (sc_lineno sc + 1)%Z |>.
Definition yy_push_state (c : condition) (sc : scanner) : scanner :=
  sc <| sc_stack := sc_state sc :: sc_stack sc |> <| sc_state := c |>.
(** The top of an empty stack is a null pointer. *)
Definition yy_pop_state (sc : scanner) : option scanner :=
  match sc_stack sc with
  | [] => None
  | c :: st => Some (sc <| sc_stack := st |> <| sc_state := c |>)
  end.

(** ** Texts *)

Definition tab_or_space (c : ascii) : bool := member [BLANK; TAB] c.
Definition white (c : ascii) : bool := member [LF; CR; TAB; BLANK] c.
Definition EAT_LEADING_WHITESPACE (s : zstr) : zstr := drop_while tab_or_space s.
Definition EAT_TRAILING_WHITESPACE (s : zstr) : zstr := drop_end white s.
Definition EAT_TRAILING_WHITESPACE_EX (ch : ascii) (s : zstr) : zstr :=
  drop_end (λ c, ceq ch c || white c) s.

(** [zend_ini_escape_string]: the string and the number of line ends in it. *)
Fixpoint escape_string (quote_type : ascii) (s : zstr) : zstr * Z :=
  match s with
  | [] => ([], 0%Z)
  | c :: s' =>
      let line (c : ascii) (rest : zstr) : Z :=
        if ceq c LF || ceq c CR && negb (match rest with d :: _ => ceq d LF | [] => false end) then 1%Z else 0%Z in
      if ceq c ESCAPE then
        match s' with
        | [] => ([ESCAPE], 0%Z)
        | d :: s'' =>
            let '(t, n) := escape_string quote_type s'' in
            let out := if ceq d DQUOTE && ceq d quote_type || ceq d ESCAPE || ceq d DOLLAR then [d] else [ESCAPE; d] in
            (out ++ t, (line d s'' + n)%Z)
        end
      else let '(t, n) := escape_string quote_type s' in (c :: t, (line c s' + n)%Z)
  end.
Definition zend_ini_escape_string (s : zstr) (quote_type : ascii) (sc : scanner) : zstr * scanner :=
  let '(t, n) := escape_string quote_type s in (t, sc <| sc_lineno := (sc_lineno sc + n)%Z |>).

Definition next_is (c : ascii) (s : zstr) : bool := match s with d :: _ => ceq c d | [] => false end.

(** The loop of a quoted string: how many more bytes it takes.  [prev] is the byte before
    the cursor. *)
Fixpoint quoted_length (prev : ascii) (s : zstr) : nat :=
  match s with
  | [] => 0
  | c :: s' =>
      if ceq c DQUOTE then
        if negb (bool_decide (s' = [])) && ceq prev ESCAPE && negb (next_is CR s') && negb (next_is LF s')
        then S (quoted_length c s') else 0
      else if ceq c DOLLAR then if next_is LBRACE s' then 0 else S (quoted_length c s')
      else if ceq c ESCAPE then
        match s' with
        | d :: s'' => if ceq d DQUOTE then S (quoted_length c s') else S (S (quoted_length d s''))
        | [] => 1
        end
      else S (quoted_length c s')
  end.

(** A raw value: [c] has been read, [s] follows.  The text and what is left. *)
Definition raw_text (c : ascii) (s : zstr) : zstr * zstr :=
  let '(body, rest) := break (member [LF; CR]) s in
  let text := drop_end (ceq SEMICOLON) (c :: body) in
  match text with
  | q :: ((_ :: _) as t) =>
      if ceq q DQUOTE && ceq (List.last t NUL) DQUOTE then (removelast t, rest)
      else match break (ceq SEMICOLON) (c :: body) with
           | (_, []) => (text, rest)
           | (before, after) => (before, after ++ rest)
           end
  | _ => match break (ceq SEMICOLON) (c :: body) with
         | (_, []) => (text, rest)
         | (before, after) => (before, after ++ rest)
         end
  end.

(** ** [ini_lex] *)

(** What the code of a rule does: starts again, returns a token, or returns 0, the end. *)
Inductive lexed :=
| Restart (sc : scanner)
| Token (t : token) (sc : scanner)
| EndOfInput (sc : scanner).

(** The code of a rule that matched [text]; [sc] is behind the match. *)
Definition rule_action (r : rule) (text : zstr) (sc : scanner) : option lexed :=
  match r with
  | section_start =>
      let next := match sc_mode sc with ZEND_INI_SCANNER_RAW => ST_SECTION_RAW | _ => ST_SECTION_VALUE end in
      Some (Token TC_SECTION (BEGIN next sc))
  | raw_string => Some (Token (TC_RAW (removelast (tail text))) sc)
  | section_end => Some (Token (TChar RBRACKET) (next_line (BEGIN INITIAL sc)))
  | offset_start =>
      Some (Token (TC_OFFSET (EAT_TRAILING_WHITESPACE_EX LBRACKET (EAT_LEADING_WHITESPACE text)))
              (BEGIN ST_OFFSET sc))
  | offset_end => Some (Token (TChar RBRACKET) (BEGIN INITIAL sc))
  | variable_start => Some (Token TC_DOLLAR_CURLY (yy_push_state ST_VARNAME sc))
  | variable_name => Some (Token (TC_VARNAME (EAT_TRAILING_WHITESPACE (EAT_LEADING_WHITESPACE text))) sc)
  | variable_end => Token (TChar RBRACE) <$> yy_pop_state sc
  | true_value => Some (Token (BOOL_TRUE "1") sc)
  | false_value => Some (Token (BOOL_FALSE []) sc)
  | null_value => Some (Token (NULL_NULL []) sc)
  | option_name => Some (Token (TC_LABEL (EAT_TRAILING_WHITESPACE (EAT_LEADING_WHITESPACE text))) sc)
  | option_assign =>
      let next := match sc_mode sc with ZEND_INI_SCANNER_RAW => ST_RAW | _ => ST_VALUE end in
      Some (Token (TChar EQUALS) (BEGIN next sc))
  | raw_value =>
      match text with
      | [c] => let '(t, rest) := raw_text c (sc_rest sc) in Some (Token (TC_RAW t) (sc <| sc_rest := rest |>))
      | _ => None
      end
  | section_raw => Some (Token (TC_RAW text) sc)
  | value_end | comment_line => Some (Token END_OF_LINE (next_line (BEGIN INITIAL sc)))
  | constant_value => Some (Token (TC_CONSTANT text) sc)
  | number_value => Some (Token (TC_NUMBER text) sc)
  | token_char | operator_char => match text with c :: _ => Some (Token (TChar c) sc) | [] => None end
  | value_assign => Some (Token END_OF_LINE (BEGIN INITIAL (sc <| sc_rest := text ++ sc_rest sc |>)))
  | value_string | section_string => Some (Token (TC_STRING text) sc)
  | quote_start => Some (Token (TChar DQUOTE) (yy_push_state ST_DOUBLE_QUOTES sc))
  | quote_end => Token (TChar DQUOTE) <$> yy_pop_state sc
  | quoted_string =>
      match text with
      | [c] =>
          let n := quoted_length c (sc_rest sc) in
          let '(t, sc') := zend_ini_escape_string (c :: take n (sc_rest sc)) DQUOTE sc in
          Some (Token (TC_QUOTED_STRING t) (sc' <| sc_rest := drop n (sc_rest sc) |>))
      | _ => None
      end
  | value_blanks => Some (Token (TC_WHITESPACE text) sc)
  | skip_blanks => Some (Restart sc)
  | empty_line => Some (Token END_OF_LINE (next_line sc))
  | value_other => Some (Token END_OF_LINE (BEGIN INITIAL sc))
  | any_other => Some (EndOfInput sc)
  end.

Definition BOM : zstr := [ascii_of_nat 239; ascii_of_nat 187; ascii_of_nat 191].

(** From [restart] on, once. *)
Definition ini_step (sc : scanner) : option lexed :=
  match sc_rest sc with
  | [] =>
      Some (match sc_state sc with
            | ST_VALUE | ST_RAW => Token END_OF_LINE (BEGIN INITIAL sc)
            | _ => EndOfInput sc
            end)
  | s =>
      if sc_start sc && bool_decide (3 < length s) && is_prefix BOM s
      then Some (Restart (sc <| sc_start := false |> <| sc_rest := drop 3 s |>))
      else
        match longest (map rule_re (rules_of (sc_state sc))) s with
        | Match i n =>
            r ← rules_of (sc_state sc) !! i;
            rule_action r (take n s) (sc <| sc_start := false |> <| sc_rest := drop n s |>)
        | Overrun | NoMatch => Some (EndOfInput sc)
        end
  end.

(** [fuel] bounds the restarts. *)
Fixpoint ini_lex (fuel : nat) (sc : scanner) : option (option token * scanner) :=
  match fuel with
  | 0 => None
  | S fuel' =>
      match ini_step sc with
      | Some (Restart sc') => ini_lex fuel' sc'
      | Some (Token t sc') => Some (Some t, sc')
      | Some (EndOfInput sc') => Some (None, sc')
      | None => None
      end
  end.

(** The tokens up to the end, as the parser asks for them. *)
Fixpoint ini_tokens (fuel : nat) (sc : scanner) : option (list token) :=
  match fuel with
  | 0 => None
  | S fuel' =>
      match ini_lex (S (length (sc_rest sc))) sc with
      | Some (Some t, sc') => (t ::.) <$> ini_tokens fuel' sc'
      | Some (None, _) => Some []
      | None => None
      end
  end.

(** All tokens of a text: every token takes a byte, or ends a value. *)
Definition scan_text (mode : scanner_mode) (s : zstr) : option (list token) :=
  ini_tokens (2 * length s + 2) (init_ini_scanner mode s).

(** Texts for examples: lines, with [~] for a double quote. *)
Definition lines (l : list zstr) : zstr := mjoin (map (λ s, s ++ [LF]) l).
Definition in_quotes (s : zstr) : zstr := map (λ c, if ceq c "~" then DQUOTE else c) s.

Example scan_section : scan_text ZEND_INI_SCANNER_NORMAL (lines ["[product : common]"; in_quotes "db.host = ~a b~ ; comment"; "on = yes"; "a[x]=1|${y}"]) =
  Some [TC_SECTION; TC_STRING "product : common"; TChar RBRACKET;
        TC_LABEL "db.host"; TChar EQUALS; TChar DQUOTE; TC_QUOTED_STRING "a b"; TChar DQUOTE; END_OF_LINE;
        BOOL_TRUE "1"; TChar EQUALS; BOOL_TRUE "1"; END_OF_LINE;
        TC_OFFSET "a"; TC_CONSTANT "x"; TChar RBRACKET; TChar EQUALS; TC_NUMBER "1"; TChar "|"; TC_DOLLAR_CURLY; TC_VARNAME "y"; TChar RBRACE; END_OF_LINE].
Proof. vm_compute. reflexivity. Qed.

(** ** The scanner is total *)

Definition all_bytes : zstr := map ascii_of_nat (seq 0 256).
Fixpoint inhabitedb (r : re) : bool :=
  match r with
  | Void | Eps => true
  | Cls p => existsb p all_bytes
  | Cat r1 r2 | Alt r1 r2 => inhabitedb r1 && inhabitedb r2
  | Star r => inhabitedb r
  end.
Lemma inhabitedb_spec r : inhabitedb r = true → inhabited r.
Proof.
  induction r as [| |p|r1 IH1 r2 IH2|r1 IH1 r2 IH2|r IH]; cbn -[all_bytes]; rewrite ?andb_true_iff; try tauto.
  intros (c & _ & Hc)%existsb_exists. by exists c.
Qed.

Lemma rules_inhabited c : Forall inhabited (map rule_re (rules_of c)).
Proof.
  apply Forall_map, Forall_forall. intros r _. apply inhabitedb_spec. by destruct r; vm_compute.
Qed.

(** The rule that is chosen, what it matched, and that it is one of the condition. *)
Lemma chosen_rule c s i n :
  longest (map rule_re (rules_of c)) s = Match i n →
  0 < n ≤ length s ∧ ∃ r, rules_of c !! i = Some r ∧ c ∈ rule_conditions r ∧ matches (rule_re r) (take n s).
Proof.
  intros Hl. destruct (longest_spec _ s (rules_inhabited c)) as [[_ H]|(_ & [[_ H]|(j & k & Hw & H)])];
    rewrite Hl in H; try done. injection H as -> ->. destruct Hw as (Hn & (re & Hr & Hm) & _). split; [done|].
  rewrite list_lookup_fmap in Hr. destruct (rules_of c !! j) as [r|] eqn:Hj; [|done]. injection Hr as <-.
  exists r. split; [done|]. split; [|done].
  apply list_elem_of_lookup_2 in Hj. by apply list_elem_of_filter in Hj as [? _].
Qed.

Definition string_condition (c : condition) : bool :=
  match c with ST_SECTION_VALUE | ST_VALUE | ST_OFFSET => true | _ => false end.

(** The conditions on the stack are those that a string or a variable was begun in. *)
Definition scanner_ok (sc : scanner) : Prop :=
  match sc_state sc, sc_stack sc with
  | ST_DOUBLE_QUOTES, [c] => string_condition c = true
  | ST_VARNAME, [c] => string_condition c = true
  | ST_VARNAME, [ST_DOUBLE_QUOTES; c] => string_condition c = true
  | (ST_DOUBLE_QUOTES | ST_VARNAME), _ => False
  | _, st => st = []
  end.

(** Every token takes a byte, or ends a value. *)
Definition scan_measure (sc : scanner) : nat :=
  2 * length (sc_rest sc) + match sc_state sc with ST_VALUE | ST_RAW => 1 | _ => 0 end.

Definition step_ok (sc : scanner) (x : lexed) : Prop :=
  match x with
  | Restart sc' => scanner_ok sc' ∧ sc_state sc' = sc_state sc ∧ length (sc_rest sc') < length (sc_rest sc)
  | Token _ sc' => scanner_ok sc' ∧ scan_measure sc' < scan_measure sc
  | EndOfInput _ => True
  end.

Lemma raw_text_length c s : c ≠ SEMICOLON → length (raw_text c s).2 ≤ length s.
Proof.
  intros Hc. unfold raw_text. destruct (break (member [LF; CR]) s) as [body rest] eqn:Eb.
  pose proof (break_length (member [LF; CR]) s) as Hb. rewrite Eb in Hb. cbn [fst snd] in Hb.
  assert (Hcut : ∀ text : zstr, length (match break (ceq SEMICOLON) (c :: body) with
             | (_, []) => (text, rest) | (before, after) => (before, after ++ rest) end).2 ≤ length s).
  { intros text. cbn [break]. unfold ceq at 1. rewrite bool_decide_false by done.
    pose proof (break_length (ceq SEMICOLON) body) as Hs. destruct (break (ceq SEMICOLON) body) as [b [|a l]]; cbn in *; [lia|].
    rewrite length_app. lia. }
  destruct (drop_end _ _) as [|q [|t0 t]]; try apply Hcut. destruct (_ && _); [cbn; lia|apply Hcut].
Qed.

(** The code of a rule of the condition, run behind a match that is not empty. *)
Ltac step_tac :=
  eexists; split; [reflexivity|];
  repeat split; try done; unfold scan_measure; cbn; rewrite ?length_app; cbn; lia.

Lemma rule_action_ok r t0 text c st mode n b rest :
  scanner_ok (Scanner mode c st n b (t0 :: text ++ rest)) → c ∈ rule_conditions r → matches (rule_re r) (t0 :: text) →
  ∃ x, rule_action r (t0 :: text) (Scanner mode c st n false rest) = Some x ∧
    step_ok (Scanner mode c st n b (t0 :: text ++ rest)) x.
Proof.
  intros Hok Hc Hm.
  assert (Hone : ∀ p, matches (Cls p) (t0 :: text) → text = [] ∧ p t0 = true).
  { intros p (d & [= -> ->] & ?)%matches_cls_inv. done. }
  unfold scanner_ok in Hok. cbn [sc_state sc_stack] in Hok.
  destruct r; cbn [rule_conditions] in Hc;
    repeat (apply elem_of_cons in Hc as [->|Hc]); try (by apply not_elem_of_nil in Hc);
    try (subst st; destruct mode; step_tac);
    try (destruct st as [|c1 [|c2 [|]]]; try done; destruct c1; try done; try (destruct c2; try done); step_tac).

  - apply Hone in Hm as [-> Ht]. cbn [rule_action sc_rest]. destruct (raw_text t0 rest) as [t rest'] eqn:Er.
    assert (Hlen : length rest' ≤ length rest).
    { pose proof (raw_text_length t0 rest) as Hr. rewrite Er in Hr. apply Hr. intros ->. done. }
    subst st. step_tac.
  - apply Hone in Hm as [-> _]. cbn [rule_action sc_rest]. unfold zend_ini_escape_string.
    destruct (escape_string _ _) as [t k]. eexists. split; [reflexivity|].
    split; [done|]. unfold scan_measure. cbn. rewrite length_drop. lia.
Qed.

Lemma ini_step_ok sc : scanner_ok sc → ∃ x, ini_step sc = Some x ∧ step_ok sc x.
Proof.
  destruct sc as [mode c st n b s]. intros Hok. unfold ini_step. cbn [sc_rest sc_state sc_start].
  destruct s as [|s0 s'].
  { eexists. split; [reflexivity|]. destruct c; cbn; try done; split; done || (unfold scan_measure; cbn; lia). }
  set (s := s0 :: s') in *. destruct (_ && _) eqn:Ebom.
  { eexists. split; [reflexivity|]. apply andb_true_iff in Ebom as [[_ Hlen%bool_decide_eq_true]%andb_true_iff _].
    split; [exact Hok|]. split; [done|]. change (length (drop 3 s) < length s). rewrite length_drop. lia. }
  destruct (longest _ s) as [| |i k] eqn:El; try (eexists; split; [reflexivity|done]).
  apply chosen_rule in El as (Hk & r & Hr & Hc & Hm). rewrite Hr. cbn [mbind option_bind].
  destruct (take k s) as [|t0 text] eqn:Et.
  { apply (f_equal length) in Et. rewrite length_take in Et. cbn [length] in Et, Hk. lia. }
  assert (Hs : s = t0 :: text ++ drop k s) by (rewrite <-(take_drop k s) at 1; by rewrite Et).
  rewrite Hs in Hok. destruct (rule_action_ok r t0 text c st mode n b (drop k s) Hok Hc Hm) as (x & Hx & Hstep).
  exists x. split; [exact Hx|]. by rewrite Hs.
Qed.

Lemma ini_lex_ok fuel sc :
  scanner_ok sc → length (sc_rest sc) < fuel →
  ∃ t sc', ini_lex fuel sc = Some (t, sc') ∧
    match t with Some _ => scanner_ok sc' ∧ scan_measure sc' < scan_measure sc | None => True end.
Proof.
  revert sc. induction fuel as [|fuel IH]; intros sc Hok Hlen; [lia|]. cbn [ini_lex].
  destruct (ini_step_ok sc Hok) as (x & -> & Hx). destruct x as [sc'|t sc'|sc']; cbn in Hx.
  - destruct Hx as (Hok' & Hst & Hlt). destruct (IH sc' Hok') as (t & sc2 & Hl & Ht); [lia|].
    exists t, sc2. split; [done|]. destruct t; [|done]. destruct Ht as [? Hm]. split; [done|].
    unfold scan_measure in *. rewrite Hst in Hm. lia.
  - by exists (Some t), sc'.
  - by exists None, sc'.
Qed.

Lemma ini_tokens_ok fuel sc : scanner_ok sc → scan_measure sc < fuel → ∃ ts, ini_tokens fuel sc = Some ts.
Proof.
  revert sc. induction fuel as [|fuel IH]; intros sc Hok Hlen; [lia|]. cbn [ini_tokens].
  destruct (ini_lex_ok (S (length (sc_rest sc))) sc Hok) as (t & sc' & -> & Ht); [lia|].
  destruct t as [t|]; [|by eexists]. destruct Ht as [Hok' Hm].
  destruct (IH sc' Hok') as [ts ->]; [lia|]. by eexists.
Qed.

(** C21: The scanner returns its tokens for every text: it comes to the end, with at most two
    tokens for a byte and one for the end of the last value, and it never takes a condition
    off an empty stack. *)
Theorem scan_text_total mode s : ∃ ts, scan_text mode s = Some ts.
Proof. apply ini_tokens_ok; [done|]. unfold scan_measure. cbn. lia. Qed.
