(* ===== verification/IniParser.v ===== *)
(** * The parser of ini files

    [Zend/zend_ini_parser.y]: the grammar as a relation between tokens and trees, with a
    constructor for every production; a parser for it; and the actions, which compute the
    values and report sections and entries to the callback.  The precedences that the file
    declares are a condition on trees. *)

From S2P Require Import Prelude Zend Numeric Url IniScanner.

Open Scope zs_scope.

(** ** What is reported *)

(** The calls of the callback of [zend_parse_ini_file], in order.  A key without a value
    has none.  The scanner in its normal mode makes every value a string, so that the
    references to one can be counted wherever it is shared. *)
Inductive ini_event :=
| ZEND_INI_PARSER_ENTRY (key : zstr) (value : option zval)
| ZEND_INI_PARSER_POP_ENTRY (key : zstr) (value : option zval) (index : option zstr)
| ZEND_INI_PARSER_SECTION (key : zstr).

(** ** Actions *)

(** The tables that a value may refer to: constants, whose values are converted to
    strings, configuration directives and the environment. *)
Record ini_tables := IniTables {
  zend_get_constant : zstr → option zstr;
  zend_get_configuration_directive : zstr → option zstr;
  getenv : zstr → option zstr;
}.

(** [zend_ini_do_op] *)
Definition zend_ini_do_op (type : ascii) (op1 : zstr) (op2 : option zstr) : option zstr :=
  i_op1 ← atoi op1;
  i_op2 ← match op2 with Some s => atoi s | None => Some 0%Z end;
  Some (dec_of_Z (
    if ceq type "|" then Z.lor i_op1 i_op2
    else if ceq type "&" then Z.land i_op1 i_op2
    else if ceq type "^" then Z.lxor i_op1 i_op2
    else if ceq type "~" then Z.lnot i_op1
    else if ceq type "!" then (if (i_op1 =? 0)%Z then 1 else 0)%Z
    else 0%Z)).

Section parser.
Context (tables : ini_tables).

(** [zend_ini_get_constant]: a name with a colon is not a constant. *)
Definition zend_ini_get_constant (name : zstr) : zstr :=
  match memchr name COLON with
  | Some _ => name
  | None => default name (zend_get_constant tables name)
  end.

(** [zend_ini_get_var] *)
Definition zend_ini_get_var (name : zstr) : zstr :=
  match zend_get_configuration_directive tables name with
  | Some v => v
  | None => default [] (getenv tables (cstr name))
  end.

(** ** Trees *)

(** [expr]; [zend_ini_add_string] has joined the parts of a string. *)
Inductive tree :=
| TString (s : zstr)
| TBinary (op : ascii) (l r : tree)
| TUnary (op : ascii) (e : tree)
| TParens (e : tree).

(** [string_or_value] *)
Inductive value_tree := VExpr (e : tree) | VWord (s : zstr).

Inductive statement :=
| SSection (name : zstr)
| SEntry (key : zstr) (v : value_tree)
| SOffset (key offset : zstr) (v : value_tree)
| SLabel (key : zstr)
| SEmpty.

Definition binary_op (c : ascii) : bool := ceq c "|" || ceq c "&" || ceq c "^".
Definition unary_op (c : ascii) : bool := ceq c "~" || ceq c "!".
Definition LPAREN : ascii := "("%char.
Definition RPAREN : ascii := ")"%char.

(** The values of expressions and the callbacks of statements. *)
Fixpoint eval (e : tree) : option zstr :=
  match e with
  | TString s => Some s
  | TBinary op l r => a ← eval l; b ← eval r; zend_ini_do_op op a (Some b)
  | TUnary op e => a ← eval e; zend_ini_do_op op a None
  | TParens e => eval e
  end.
Definition eval_value (v : value_tree) : option zval :=
  match v with VExpr e => ZStr <$> eval e | VWord s => Some (ZStr s) end.
Fixpoint callbacks (l : list statement) : option (list ini_event) :=
  match l with
  | [] => Some []
  | st :: l' =>
      here ← match st with
             | SSection name => Some [ZEND_INI_PARSER_SECTION name]
             | SEntry key v => v ← eval_value v; Some [ZEND_INI_PARSER_ENTRY key (Some v)]
             | SOffset key offset v => v ← eval_value v; Some [ZEND_INI_PARSER_POP_ENTRY key (Some v) (Some offset)]
             | SLabel key => Some [ZEND_INI_PARSER_ENTRY key None]
             | SEmpty => Some []
             end;
      rest ← callbacks l';
      Some (here ++ rest)
  end.

(** ** The grammar *)

(** [constant_literal] in sections, [constant_string] elsewhere *)
Definition constant_text (section : bool) (t : token) : option zstr :=
  match t with
  | TC_CONSTANT s => Some (if section then s else zend_ini_get_constant s)
  | TC_RAW s | TC_NUMBER s | TC_STRING s | TC_WHITESPACE s => Some s
  | _ => None
  end.

Definition cfg_var_ref (n : zstr) : list token := [TC_DOLLAR_CURLY; TC_VARNAME n; TChar RBRACE].
Definition quoted (l : list token) : list token := TChar DQUOTE :: l ++ [TChar DQUOTE].

Inductive encapsed_list : list token → zstr → Prop :=
| encapsed_var l v n : encapsed_list l v → encapsed_list (l ++ cfg_var_ref n) (v ++ zend_ini_get_var n)
| encapsed_quoted l v s : encapsed_list l v → encapsed_list (l ++ [TC_QUOTED_STRING s]) (v ++ s)
| encapsed_empty : encapsed_list [] [].

(** [var_string_list_section] and [var_string_list] *)
Inductive var_string_list (section : bool) : list token → zstr → Prop :=
| list_var n : var_string_list section (cfg_var_ref n) (zend_ini_get_var n)
| list_constant t s : constant_text section t = Some s → var_string_list section [t] s
| list_quoted l v : encapsed_list l v → var_string_list section (quoted l) v
| list_add_var l v n : var_string_list section l v →
    var_string_list section (l ++ cfg_var_ref n) (v ++ zend_ini_get_var n)
| list_add_constant l v t s : var_string_list section l v → constant_text section t = Some s →
    var_string_list section (l ++ [t]) (v ++ s)
| list_add_quoted l v l' v' : var_string_list section l v → encapsed_list l' v' →
    var_string_list section (l ++ quoted l') (v ++ v').

Inductive expr : list token → tree → Prop :=
| expr_string l s : var_string_list false l s → expr l (TString s)
| expr_binary l1 e1 c l2 e2 : binary_op c = true → expr l1 e1 → expr l2 e2 →
    expr (l1 ++ TChar c :: l2) (TBinary c e1 e2)
| expr_unary c l e : unary_op c = true → expr l e → expr (TChar c :: l) (TUnary c e)
| expr_parens l e : expr l e → expr (TChar LPAREN :: l ++ [TChar RPAREN]) (TParens e).

(** [section_string_or_value], [option_offset] *)
Inductive opt_string (section : bool) : list token → zstr → Prop :=
| opt_some l s : var_string_list section l s → opt_string section l s
| opt_empty : opt_string section [] [].

Inductive string_or_value : list token → value_tree → Prop :=
| value_expr l e : expr l e → string_or_value l (VExpr e)
| value_true s : string_or_value [BOOL_TRUE s] (VWord s)
| value_false s : string_or_value [BOOL_FALSE s] (VWord s)
| value_null s : string_or_value [NULL_NULL s] (VWord s)
| value_line : string_or_value [END_OF_LINE] (VWord []).

Inductive statement_of : list token → statement → Prop :=
| st_section l s : opt_string true l s → statement_of (TC_SECTION :: l ++ [TChar RBRACKET]) (SSection s)
| st_entry k l v : string_or_value l v → statement_of (TC_LABEL k :: TChar EQUALS :: l) (SEntry k v)
| st_offset k l s l' v : opt_string false l s → string_or_value l' v →
    statement_of (TC_OFFSET k :: l ++ TChar RBRACKET :: TChar EQUALS :: l') (SOffset k s v)
| st_label k : statement_of [TC_LABEL k] (SLabel k)
| st_line : statement_of [END_OF_LINE] SEmpty.

Inductive statement_list : list token → list statement → Prop :=
| statements_add l ss l' s : statement_list l ss → statement_of l' s → statement_list (l ++ l') (ss ++ [s])
| statements_empty : statement_list [] [].

(** [%left '|' '&' '^'] and [%right '~' '!']: an operator is not the right operand of a
    binary one of the same precedence, and a binary operation not that of a unary one. *)
Definition is_binary (e : tree) : bool := match e with TBinary _ _ _ => true | _ => false end.
Fixpoint precedence_ok (e : tree) : bool :=
  match e with
  | TString _ => true
  | TBinary _ l r => precedence_ok l && precedence_ok r && negb (is_binary r)
  | TUnary _ e => precedence_ok e && negb (is_binary e)
  | TParens e => precedence_ok e
  end.
Definition value_precedence_ok (v : value_tree) : bool :=
  match v with VExpr e => precedence_ok e | VWord _ => true end.
Definition statement_precedence_ok (s : statement) : bool :=
  match s with SEntry _ v | SOffset _ _ v => value_precedence_ok v | _ => true end.

(** ** The parser *)

Definition begins_string (t : token) : bool :=
  match t with
  | TC_DOLLAR_CURLY | TC_RAW _ | TC_CONSTANT _ | TC_NUMBER _ | TC_STRING _ | TC_WHITESPACE _ => true
  | TChar c => ceq c DQUOTE
  | _ => false
  end.

(** The rest of a string; [quotes] tells whether it is within quotes. *)
Fixpoint parse_string (section quotes : bool) (acc : zstr) (ts : list token) : option (zstr * list token) :=
  match ts with
  | TC_DOLLAR_CURLY :: TC_VARNAME n :: TChar c :: ts' =>
      if ceq c RBRACE then parse_string section quotes (acc ++ zend_ini_get_var n) ts' else None
  | TC_DOLLAR_CURLY :: _ => None
  | t :: ts' =>
      if quotes then
        match t with
        | TC_QUOTED_STRING s => parse_string section quotes (acc ++ s) ts'
        | TChar c => if ceq c DQUOTE then parse_string section false acc ts' else None
        | _ => None
        end
      else
        match constant_text section t with
        | Some s => parse_string section quotes (acc ++ s) ts'
        | None => if begins_string t then parse_string section true acc ts' else Some (acc, ts)
        end
  | [] => if quotes then None else Some (acc, [])
  end.

Definition starts (ts : list token) : bool := match ts with t :: _ => begins_string t | [] => false end.

(** An expression: operands, and operators between them from the left. *)
Fixpoint parse_operand (fuel : nat) (ts : list token) : option (tree * list token) :=
  match fuel with
  | 0 => None
  | S fuel' =>
      if starts ts then
        '(s, rest) ← parse_string false false [] ts; Some (TString s, rest)
      else
        match ts with
        | TChar c :: ts' =>
            if unary_op c then '(e, rest) ← parse_operand fuel' ts'; Some (TUnary c e, rest)
            else if ceq c LPAREN then
              '(e, rest) ← parse_operand fuel' ts';
              '(e, rest) ← parse_more fuel' e rest;
              match rest with
              | TChar d :: rest' => if ceq d RPAREN then Some (TParens e, rest') else None
              | _ => None
              end
            else None
        | _ => None
        end
  end
with parse_more (fuel : nat) (e : tree) (ts : list token) : option (tree * list token) :=
  match fuel with
  | 0 => None
  | S fuel' =>
      match ts with
      | TChar c :: ts' =>
          if binary_op c then '(r, rest) ← parse_operand fuel' ts'; parse_more fuel' (TBinary c e r) rest
          else Some (e, ts)
      | _ => Some (e, ts)
      end
  end.
Definition parse_expr (ts : list token) : option (tree * list token) :=
  let fuel := S (length ts) in
  '(e, rest) ← parse_operand fuel ts; parse_more fuel e rest.

Definition parse_opt_string (section : bool) (ts : list token) : option (zstr * list token) :=
  if starts ts then parse_string section false [] ts else Some ([], ts).

Definition parse_value (ts : list token) : option (value_tree * list token) :=
  match ts with
  | (BOOL_TRUE s | BOOL_FALSE s | NULL_NULL s) :: rest => Some (VWord s, rest)
  | END_OF_LINE :: rest => Some (VWord [], rest)
  | _ => '(e, rest) ← parse_expr ts; Some (VExpr e, rest)
  end.

Definition expect (c : ascii) (ts : list token) : option (list token) :=
  match ts with TChar d :: rest => if ceq d c then Some rest else None | _ => None end.

Definition parse_statement (ts : list token) : option (statement * list token) :=
  match ts with
  | TC_SECTION :: ts' =>
      '(s, rest) ← parse_opt_string true ts'; rest ← expect RBRACKET rest; Some (SSection s, rest)
  | TC_LABEL k :: ts' =>
      match expect EQUALS ts' with
      | Some rest => '(v, rest) ← parse_value rest; Some (SEntry k v, rest)
      | None => Some (SLabel k, ts')
      end
  | TC_OFFSET k :: ts' =>
      '(s, rest) ← parse_opt_string false ts';
      rest ← expect RBRACKET rest; rest ← expect EQUALS rest;
      '(v, rest) ← parse_value rest;
      Some (SOffset k s v, rest)
  | END_OF_LINE :: ts' => Some (SEmpty, ts')
  | _ => None
  end.

Fixpoint parse_statements (fuel : nat) (ts : list token) : option (list statement) :=
  match ts, fuel with
  | [], _ => Some []
  | _, 0 => None
  | _, S fuel' => '(s, rest) ← parse_statement ts; (s ::.) <$> parse_statements fuel' rest
  end.
Definition ini_parse_tokens (ts : list token) : option (list statement) := parse_statements (length ts) ts.

(** [zend_parse_ini_file], [zend_parse_ini_string]: FAILURE, or what was reported.  What is
    reported before an error is not kept. *)
Inductive ini_outcome := IniFailure | IniSuccess (evs : list ini_event).
Definition zend_parse_ini (mode : scanner_mode) (text : zstr) : option ini_outcome :=
  ts ← scan_text mode text;
  match ini_parse_tokens ts with
  | None => Some IniFailure
  | Some l => IniSuccess <$> callbacks l
  end.

(** ** Strings *)

Lemma parse_string_stops section acc ts : starts ts = false → parse_string section false acc ts = Some (acc, ts).
Proof. destruct ts as [|t ts]; [done|]. intros Hs. destruct t; cbn in *; try done. by rewrite Hs. Qed.

Lemma parse_var section quotes acc n ts :
  parse_string section quotes acc (cfg_var_ref n ++ ts) = parse_string section quotes (acc ++ zend_ini_get_var n) ts.
Proof. done. Qed.

Lemma parse_constant section acc t s ts : constant_text section t = Some s →
  parse_string section false acc (t :: ts) = parse_string section false (acc ++ s) ts.
Proof. destruct t; try done; by intros [= <-]. Qed.

Lemma parse_encapsed section acc l v ts : encapsed_list l v →
  parse_string section true acc (l ++ ts) = parse_string section true (acc ++ v) ts.
Proof.
  intros Hl. revert acc ts. induction Hl as [l v n _ IH|l v s _ IH|]; intros acc ts; rewrite ?app_nil_r; [| |done].
  - rewrite <-(assoc_L (++)), IH, parse_var. by rewrite (assoc_L (++)).
  - rewrite <-(assoc_L (++)), IH. cbn. by rewrite (assoc_L (++)).
Qed.

Lemma parse_quoted section acc l v ts : encapsed_list l v →
  parse_string section false acc (quoted l ++ ts) = parse_string section false (acc ++ v) ts.
Proof.
  intros Hl. unfold quoted. cbn [app Datatypes.app]. rewrite <-(assoc_L (++)).
  change (parse_string section true acc (l ++ [TChar DQUOTE] ++ ts) = parse_string section false (acc ++ v) ts).
  by rewrite (parse_encapsed _ _ _ _ _ Hl).
Qed.

(** A string is read to its end. *)
Lemma parse_string_run section acc l v ts : var_string_list section l v →
  parse_string section false acc (l ++ ts) = parse_string section false (acc ++ v) ts.
Proof.
  intros Hl. revert acc ts. induction Hl as [n|t s Hs|l v Hl|l v n _ IH|l v t s _ IH Hs|l v l' v' _ IH Hl']; intros acc ts.
  - done.
  - by apply parse_constant.
  - by apply parse_quoted.
  - rewrite <-(assoc_L (++)), IH, parse_var. by rewrite (assoc_L (++)).
  - rewrite <-(assoc_L (++)), IH. cbn [app Datatypes.app]. rewrite (parse_constant _ _ _ _ _ Hs). by rewrite (assoc_L (++)).
  - rewrite <-(assoc_L (++)), IH, (parse_quoted _ _ _ _ _ Hl'). by rewrite (assoc_L (++)).
Qed.

Lemma starts_string section l v ts : var_string_list section l v → starts (l ++ ts) = true.
Proof.
  intros Hl. revert ts. induction Hl as [n|t s Hs|l v Hl|l v n _ IH|l v t s _ IH Hs|l v l' v' _ IH Hl']; intros ts;
    rewrite <-?(assoc_L (++)); try done; try apply IH.
  by destruct t.
Qed.

(** Parts in front of a string. *)
Lemma encapsed_cons l v l' v' : encapsed_list l v → encapsed_list l' v' → encapsed_list (l ++ l') (v ++ v').
Proof.
  intros Hl. induction 1 as [l' v' n _ IH|l' v' s _ IH|]; rewrite ?app_nil_r, ?(assoc_L (++)); [| |done].
  - by apply encapsed_var.
  - by apply encapsed_quoted.
Qed.

(** Possibly empty strings. *)
Definition strings (section : bool) (l : list token) (v : zstr) : Prop :=
  (l = [] ∧ v = []) ∨ var_string_list section l v.

Lemma strings_app section l v l' v' :
  var_string_list section l v → strings section l' v' → var_string_list section (l ++ l') (v ++ v').
Proof.
  intros Hl [[-> ->]|Hl']; [by rewrite !app_nil_r|]. induction Hl' as [n|t s Hs|l' v' He|l' v' n _ IH|l' v' t s _ IH Hs|l' v' l2 v2 _ IH He].
  - by apply list_add_var.
  - by apply list_add_constant.
  - by apply list_add_quoted.
  - rewrite !(assoc_L (++)). by apply list_add_var.
  - rewrite !(assoc_L (++)). by apply list_add_constant.
  - rewrite !(assoc_L (++)). by apply list_add_quoted.
Qed.

Definition string_sound (section : bool) (ts : list token) : Prop :=
  (∀ acc v rest, parse_string section false acc ts = Some (v, rest) →
    ∃ l w, ts = l ++ rest ∧ v = acc ++ w ∧ strings section l w ∧ starts rest = false) ∧
  (∀ acc v rest, parse_string section true acc ts = Some (v, rest) →
    ∃ l w l' w', ts = l ++ TChar DQUOTE :: l' ++ rest ∧ v = acc ++ w ++ w' ∧
      encapsed_list l w ∧ strings section l' w' ∧ starts rest = false).

(** One part more in front, outside and inside of quotes. *)
Lemma string_sound_part section acc l0 s ts v rest :
  var_string_list section l0 s → string_sound section ts → parse_string section false (acc ++ s) ts = Some (v, rest) →
  ∃ l w, l0 ++ ts = l ++ rest ∧ v = acc ++ w ∧ strings section l w ∧ starts rest = false.
Proof.
  intros Hl [Hts _] (l & w & -> & -> & Hs & Hr)%Hts. exists (l0 ++ l), (s ++ w). rewrite <-!(assoc_L (++)).
  split_and!; [done..| |done]. right. by apply strings_app.
Qed.

Lemma quoted_sound_part section acc l0 s ts v rest :
  encapsed_list l0 s → string_sound section ts → parse_string section true (acc ++ s) ts = Some (v, rest) →
  ∃ l w l' w', l0 ++ ts = l ++ TChar DQUOTE :: l' ++ rest ∧ v = acc ++ w ++ w' ∧
    encapsed_list l w ∧ strings section l' w' ∧ starts rest = false.
Proof.
  intros Hl [_ Hts] (l & w & l' & w' & -> & -> & He & Hs & Hr)%Hts. exists (l0 ++ l), (s ++ w), l', w'.
  rewrite <-!(assoc_L (++)). split_and!; try done. by apply encapsed_cons.
Qed.

Lemma parse_string_sound section ts : string_sound section ts.
Proof.
  assert (Hn : ∀ n ts, length ts ≤ n → string_sound section ts); [|by eapply Hn].
  clear ts. induction n as [|n IH]; intros [|t ts] Hlen; cbn [length] in Hlen; try lia.
  1, 2: split; [|done]; intros acc v rest [= <- <-]; exists [], []; rewrite !app_nil_r; split_and!; try done; by left.
  assert (Hts : string_sound section ts) by (apply IH; lia).
  assert (Hstop : ∀ acc v rest, begins_string t = false → Some (acc, t :: ts) = Some (v, rest) →
    ∃ l w, t :: ts = l ++ rest ∧ v = acc ++ w ∧ strings section l w ∧ starts rest = false).
  { intros acc v rest Ht [= <- <-]. exists [], []. rewrite app_nil_r. split_and!; try done. by left. }
  assert (Hconst : ∀ acc s v rest, constant_text section t = Some s →
    parse_string section false (acc ++ s) ts = Some (v, rest) →
    ∃ l w, t :: ts = l ++ rest ∧ v = acc ++ w ∧ strings section l w ∧ starts rest = false).
  { intros acc s v rest Hs. by apply (string_sound_part section acc [t] s); [apply list_constant|]. }
  destruct t as [|s|s|s|s|s|s|s| |s|s|s|s|s| |c];
    try (split; intros acc v rest; cbn; [by apply Hstop|done]);
    try (split; intros acc v rest; cbn; [by apply Hconst|done]).
  - destruct ts as [|t1 ts]; [done|]. destruct t1; try done. destruct ts as [|t2 ts]; [done|]. destruct t2 as [| | | | | | | | | | | | | | |c]; try done.
    assert (Hts' : string_sound section ts) by (apply IH; cbn in Hlen; lia).
    split; intros acc v rest; cbn; destruct (ceq c RBRACE) eqn:Ec; try done; apply bool_decide_eq_true in Ec as ->.
    + by apply (string_sound_part section acc (cfg_var_ref s)); [apply list_var|].
    + apply (quoted_sound_part section acc (cfg_var_ref s)); [|done]. apply (encapsed_var [] []), encapsed_empty.
  - split; intros acc v rest; cbn; [by apply Hstop|].
    apply (quoted_sound_part section acc [TC_QUOTED_STRING s]); [|done]. apply (encapsed_quoted [] []), encapsed_empty.
  - split; intros acc v rest; cbn; destruct (ceq c DQUOTE) eqn:Ec; try done.
    + apply bool_decide_eq_true in Ec as ->. intros (l & w & l' & w' & -> & -> & He & Hs & Hr)%(proj2 Hts).
      exists (quoted l ++ l'), (w ++ w'). unfold quoted. cbn. rewrite <-!(assoc_L (++)). split_and!; try done.
      right. rewrite !(assoc_L (++)). apply (strings_app section (quoted l)); [by apply list_quoted|done].
    + by apply Hstop.
    + apply bool_decide_eq_true in Ec as ->. intros (l & w & -> & -> & Hs & Hr)%(proj1 Hts).
      exists [], [], l, w. split_and!; try done. apply encapsed_empty.
Qed.

(** ** Expressions *)

(** No operator and no part of a string follows. *)
Definition ends_expr (ts : list token) : bool :=
  match ts with TChar c :: _ => negb (binary_op c || ceq c DQUOTE) | t :: _ => negb (begins_string t) | [] => true end.

Lemma ends_no_start ts : ends_expr ts = true → starts ts = false.
Proof. destruct ts as [|[] ts]; try done. cbn. by destruct (binary_op c), (ceq c DQUOTE). Qed.

Lemma binary_no_quote c : binary_op c = true → ceq c DQUOTE = false.
Proof. unfold binary_op. intros [[E|E]%orb_true_iff|E]%orb_true_iff; by apply bool_decide_eq_true in E as ->. Qed.
Lemma unary_no_quote c : unary_op c = true → ceq c DQUOTE = false.
Proof. unfold unary_op. intros [E|E]%orb_true_iff; by apply bool_decide_eq_true in E as ->. Qed.

Lemma parse_more_ends fuel e ts : ends_expr ts = true → parse_more (S fuel) e ts = Some (e, ts).
Proof. destruct ts as [|[] ts]; try done. cbn. by destruct (binary_op c). Qed.

(** The operand that an expression starts with, and the operators after it. *)
Definition parses (l : list token) (e : tree) : Prop :=
  (is_binary e = false → ∀ fuel ts, length l ≤ fuel → starts ts = false → parse_operand fuel (l ++ ts) = Some (e, ts)) ∧
  ∃ l0 e0 l1, l = l0 ++ l1 ∧
    (∀ fuel ts, length l0 ≤ fuel → starts ts = false → parse_operand fuel (l0 ++ l1 ++ ts) = Some (e0, l1 ++ ts)) ∧
    (∀ fuel ts, length l1 < fuel → starts ts = false → ∃ fuel', fuel ≤ fuel' + length l1 ∧
       parse_more fuel e0 (l1 ++ ts) = parse_more fuel' e ts).

Lemma parses_operand l e : is_binary e = false →
  (∀ fuel ts, length l ≤ fuel → starts ts = false → parse_operand fuel (l ++ ts) = Some (e, ts)) → parses l e.
Proof.
  intros He Hop. split; [done|]. exists l, e, []. rewrite app_nil_r. split; [done|]. split; [done|].
  intros fuel ts _ _. exists fuel. cbn. split; [lia|done].
Qed.

(** A whole expression. *)
Lemma parses_expr l e fuel1 fuel2 ts : parses l e → length l ≤ fuel1 → length l < fuel2 → ends_expr ts = true →
  ('(e0, rest) ← parse_operand fuel1 (l ++ ts); parse_more fuel2 e0 rest) = Some (e, ts).
Proof.
  intros (_ & l0 & e0 & l1 & -> & Hop & Hmore) Hf1 Hf2 Hts. rewrite length_app in Hf1, Hf2.
  rewrite <-(assoc_L (++)), Hop; [|lia|by apply ends_no_start]. cbn [mbind option_bind].
  destruct (Hmore fuel2 ts) as (fuel' & Hf' & ->); [lia|by apply ends_no_start|]. destruct fuel' as [|fuel']; [lia|]. by apply parse_more_ends.
Qed.

Lemma expr_parses l e : expr l e → precedence_ok e = true → parses l e.
Proof.
  induction 1 as [l s Hs|l1 e1 c l2 e2 Hc _ IH1 _ IH2|c l e Hc _ IH|l e _ IH]; cbn [precedence_ok]; intros Hp.
  - apply parses_operand; [done|]. intros fuel ts Hf Hts.
    destruct fuel as [|fuel]; [destruct l; [by apply (starts_string false [] s []) in Hs|cbn in Hf; lia]|].
    cbn [parse_operand]. rewrite (starts_string _ _ _ ts Hs), (parse_string_run _ _ _ _ _ Hs), parse_string_stops by done.
    done.
  - apply andb_true_iff in Hp as [[Hp1 Hp2]%andb_true_iff Hr%negb_true_iff].
    destruct (IH1 Hp1) as (_ & l0 & e0 & l1' & -> & Hop & Hmore). destruct (IH2 Hp2) as [Hop2 _]. specialize (Hop2 Hr).
    split; [done|]. exists l0, e0, (l1' ++ TChar c :: l2). split; [by rewrite (assoc_L (++))|]. split.
    + intros fuel ts Hf Hts. rewrite <-(assoc_L (++)). apply Hop; [done|]. cbn. by apply binary_no_quote.
    + intros fuel ts Hf Hts. rewrite length_app in Hf. cbn [length] in Hf. rewrite <-(assoc_L (++)).
      destruct (Hmore fuel (TChar c :: l2 ++ ts)) as (fuel' & Hf' & Hrun); [lia|by apply binary_no_quote|].
      cbn [app Datatypes.app]. rewrite Hrun. destruct fuel' as [|fuel']; [lia|]. exists fuel'. cbn [parse_more].
      rewrite Hc, Hop2 by (done || lia). split; [rewrite length_app; cbn; lia|done].
  - apply andb_true_iff in Hp as [Hp Hb%negb_true_iff]. destruct (IH Hp) as [Hop _]. specialize (Hop Hb).
    apply parses_operand; [done|]. intros [|fuel] ts Hf Hts; cbn [length] in Hf; [lia|].
    cbn [parse_operand app Datatypes.app starts begins_string]. rewrite (unary_no_quote _ Hc), Hc, Hop by (done || lia). done.
  - apply parses_operand; [done|]. intros [|fuel] ts Hf Hts; cbn [length] in Hf; rewrite ?length_app in Hf; cbn [length] in Hf; [lia|].
    specialize (IH Hp). cbn [parse_operand app Datatypes.app starts begins_string]. rewrite <-(assoc_L (++)).
    pose proof (parses_expr l e fuel fuel ([TChar RPAREN] ++ ts) IH) as Hrun.
    specialize (Hrun ltac:(lia) ltac:(lia) eq_refl). change (ceq LPAREN DQUOTE) with false. cbv iota.
    change (unary_op LPAREN) with false. cbv iota. change (ceq LPAREN LPAREN) with true. cbv iota.
    cbn [mbind option_bind] in Hrun |- *. destruct (parse_operand fuel _) as [[e0 rest]|]; [|done].
    cbn [mbind option_bind] in Hrun |- *. rewrite Hrun. done.
Qed.

Lemma parse_expr_run l e ts : expr l e → precedence_ok e = true → ends_expr ts = true →
  parse_expr (l ++ ts) = Some (e, ts).
Proof.
  intros Hl Hp Hts. unfold parse_expr. apply parses_expr; [by apply expr_parses| |..|done]; rewrite length_app; lia.
Qed.

(** What the parser returns is an expression of the grammar. *)
Definition operand_sound (fuel : nat) : Prop := ∀ ts e rest, parse_operand fuel ts = Some (e, rest) →
  ∃ l, ts = l ++ rest ∧ expr l e ∧ precedence_ok e = true ∧ is_binary e = false.
Definition more_sound (fuel : nat) : Prop := ∀ ts l0 e0 e rest, parse_more fuel e0 ts = Some (e, rest) →
  expr l0 e0 → precedence_ok e0 = true → ∃ l, ts = l ++ rest ∧ expr (l0 ++ l) e ∧ precedence_ok e = true.

Lemma string_sound_start section ts v rest : starts ts = true → parse_string section false [] ts = Some (v, rest) →
  ∃ l, ts = l ++ rest ∧ var_string_list section l v.
Proof.
  intros Hts (l & w & -> & -> & [[-> ->]|Hl] & Hr)%(proj1 (parse_string_sound section ts)); [|by eexists].
  cbn in Hts. congruence.
Qed.

Lemma parse_sound fuel : operand_sound fuel ∧ more_sound fuel.
Proof.
  induction fuel as [|fuel [IHo IHm]]; [done|]. split.
  - intros ts e rest. cbn [parse_operand]. destruct (starts ts) eqn:Hs.
    { destruct (parse_string _ _ _ ts) as [[s r]|] eqn:Es; [|done]. intros [= <- <-].
      destruct (string_sound_start _ _ _ _ Hs Es) as (l & -> & Hl). exists l. split_and!; try done. by apply expr_string. }
    destruct ts as [|[| | | | | | | | | | | | | | |c] ts]; try done. destruct (unary_op c) eqn:Hu.
    { destruct (parse_operand fuel ts) as [[e1 r]|] eqn:Eo; [|done]. intros [= <- <-].
      apply IHo in Eo as (l & -> & Hl & Hp & Hb). exists (TChar c :: l). split_and!; try done; [by apply expr_unary|].
      cbn. by rewrite Hp, Hb. }
    destruct (ceq c LPAREN) eqn:Ec; [|done]. apply bool_decide_eq_true in Ec as ->.
    destruct (parse_operand fuel ts) as [[e1 r]|] eqn:Eo; [|done]. cbn [mbind option_bind].
    destruct (parse_more fuel e1 r) as [[e2 r2]|] eqn:Em; [|done]. cbn [mbind option_bind].
    destruct r2 as [|[| | | | | | | | | | | | | | |d] r2]; try done. destruct (ceq d RPAREN) eqn:Ed; [|done].
    apply bool_decide_eq_true in Ed as ->. intros [= <- <-].
    apply IHo in Eo as (l & -> & Hl & Hp & Hb). apply (IHm _ l) in Em as (l2 & -> & Hl2 & Hp2); [|done..].
    exists (TChar LPAREN :: (l ++ l2) ++ [TChar RPAREN]). split; [cbn; by rewrite <-!(assoc_L (++))|].
    split_and!; try done. by apply expr_parens.
  - intros ts l0 e0 e rest. cbn [parse_more].
    assert (Hstop : Some (e0, ts) = Some (e, rest) → expr l0 e0 → precedence_ok e0 = true →
      ∃ l, ts = l ++ rest ∧ expr (l0 ++ l) e ∧ precedence_ok e = true).
    { intros [= -> ->] ??. exists []. by rewrite app_nil_r. }
    destruct ts as [|[| | | | | | | | | | | | | | |c] ts]; try exact Hstop. destruct (binary_op c) eqn:Hc; [|exact Hstop].
    destruct (parse_operand fuel ts) as [[e1 r]|] eqn:Eo; [|done]. cbn [mbind option_bind]. intros Em He0 Hp0.
    apply IHo in Eo as (l & -> & Hl & Hp & Hb).
    apply (IHm _ (l0 ++ TChar c :: l)) in Em as (l2 & -> & Hl2 & Hp2); [|by apply expr_binary|cbn; by rewrite Hp0, Hp, Hb].
    exists (TChar c :: l ++ l2). cbn. rewrite <-!(assoc_L (++)) in *. done.
Qed.

Lemma parse_expr_sound ts e rest : parse_expr ts = Some (e, rest) →
  ∃ l, ts = l ++ rest ∧ expr l e ∧ precedence_ok e = true.
Proof.
  unfold parse_expr. destruct (parse_operand _ ts) as [[e0 r]|] eqn:Eo; [|done]. cbn [mbind option_bind]. intros Em.
  apply (proj1 (parse_sound _)) in Eo as (l & -> & Hl & Hp & _).
  apply (proj2 (parse_sound _) _ l) in Em as (l2 & -> & Hl2 & Hp2); [|done..]. exists (l ++ l2). by rewrite (assoc_L (++)).
Qed.
(** ** Statements *)

(** A statement or the end follows. *)
Definition fresh (ts : list token) : bool :=
  match ts with [] | (TC_SECTION | TC_LABEL _ | TC_OFFSET _ | END_OF_LINE) :: _ => true | _ => false end.

Lemma fresh_ends ts : fresh ts = true → ends_expr ts = true.
Proof. by destruct ts as [|[] ts]. Qed.

Lemma expect_here c ts : expect c (TChar c :: ts) = Some ts.
Proof. unfold expect, ceq. by rewrite bool_decide_true. Qed.
Lemma expect_inv c ts rest : expect c ts = Some rest → ts = TChar c :: rest.
Proof.
  destruct ts as [|[| | | | | | | | | | | | | | |d] ts]; try done. cbn. destruct (ceq d c) eqn:E; [|done].
  apply bool_decide_eq_true in E as ->. by intros [= ->].
Qed.

Lemma parse_opt_run section l s ts : opt_string section l s → starts ts = false →
  parse_opt_string section (l ++ ts) = Some (s, ts).
Proof.
  unfold parse_opt_string. intros [l' s' Hl|] Hts.
  - rewrite (starts_string _ _ _ _ Hl), (parse_string_run _ _ _ _ _ Hl). by apply parse_string_stops.
  - cbn. by rewrite Hts.
Qed.

Lemma parse_opt_sound section ts s rest : parse_opt_string section ts = Some (s, rest) →
  ∃ l, ts = l ++ rest ∧ opt_string section l s.
Proof.
  unfold parse_opt_string. destruct (starts ts) eqn:Hs.
  - intros (l & -> & Hl)%string_sound_start; [|done]. exists l. split; [done|by apply opt_some].
  - intros [= <- <-]. exists []. split; [done|apply opt_empty].
Qed.

Lemma expr_head l e : expr l e → ∃ t l', l = t :: l' ∧ (begins_string t = true ∨ ∃ c, t = TChar c).
Proof.
  induction 1 as [l s Hs|l1 e1 d l2 e2 Hc _ (t & l' & -> & Ht) _ _|d l e Hc _ _|l e _ _]; try (by eexists _, _; eauto).
  - apply (starts_string _ _ _ []) in Hs. rewrite app_nil_r in Hs. destruct l as [|t l]; [done|]. eauto.
Qed.

Lemma parse_value_run l v ts : string_or_value l v → value_precedence_ok v = true → ends_expr ts = true →
  parse_value (l ++ ts) = Some (v, ts).
Proof.
  intros [l' e He|s|s|s|] Hp Hts; try done. cbn in Hp. pose proof (parse_expr_run _ _ ts He Hp Hts) as Hrun.
  destruct (expr_head _ _ He) as (t & l2 & -> & Ht). unfold parse_value. cbn [app Datatypes.app] in *.
  destruct t as [| | | | | | | | | | | | | | |c]; (destruct Ht as [Ht|[d Ht]]; try done); by rewrite Hrun.
Qed.

Lemma parse_value_sound ts v rest : parse_value ts = Some (v, rest) →
  ∃ l, ts = l ++ rest ∧ string_or_value l v ∧ value_precedence_ok v = true.
Proof.
  unfold parse_value. intros Hv.
  assert (Hexpr : ('(e, rest) ← parse_expr ts; Some (VExpr e, rest)) = Some (v, rest) →
    ∃ l, ts = l ++ rest ∧ string_or_value l v ∧ value_precedence_ok v = true).
  { destruct (parse_expr ts) as [[e r]|] eqn:E; [|done]. intros [= <- <-].
    apply parse_expr_sound in E as (l & -> & Hl & Hp). exists l. split_and!; try done. by apply value_expr. }
  destruct ts as [|t ts]; [by apply Hexpr|]. destruct t; try (by apply Hexpr); injection Hv as <- <-.
  - exists [BOOL_TRUE s]. split_and!; try done. constructor.
  - exists [BOOL_FALSE s]. split_and!; try done. constructor.
  - exists [NULL_NULL s]. split_and!; try done. constructor.
  - exists [END_OF_LINE]. split_and!; try done. constructor.
Qed.

Lemma parse_statement_run l s ts : statement_of l s → statement_precedence_ok s = true → fresh ts = true →
  parse_statement (l ++ ts) = Some (s, ts).
Proof.
  intros [l' n Hn|k l' v Hv|k l' o l2 v Ho Hv|k|] Hp Hts; cbn [app Datatypes.app parse_statement].
  - rewrite <-(assoc_L (++)), (parse_opt_run _ _ _ _ Hn) by done. cbn [mbind option_bind].
    change ([TChar RBRACKET] ++ ts) with (TChar RBRACKET :: ts). by rewrite expect_here.
  - rewrite expect_here. rewrite (parse_value_run _ _ _ Hv) by (done || by apply fresh_ends). done.
  - rewrite <-(assoc_L (++)), (parse_opt_run _ _ _ _ Ho) by done. cbn [mbind option_bind app Datatypes.app].
    rewrite expect_here. cbn [mbind option_bind]. rewrite expect_here. cbn [mbind option_bind].
    rewrite (parse_value_run _ _ _ Hv) by (done || by apply fresh_ends). done.
  - destruct ts as [|[] ts]; done.
  - done.
Qed.

Lemma parse_statement_sound ts s rest : parse_statement ts = Some (s, rest) →
  ∃ l, ts = l ++ rest ∧ l ≠ [] ∧ statement_of l s ∧ statement_precedence_ok s = true.
Proof.
  destruct ts as [|[] ts]; try done; cbn [parse_statement].
  - destruct (parse_opt_string true ts) as [[n r]|] eqn:E; [|done]. cbn [mbind option_bind].
    destruct (expect RBRACKET r) as [r2|] eqn:Er; [|done]. intros [= <- <-].
    apply parse_opt_sound in E as (l & -> & Hl). apply expect_inv in Er as ->.
    exists (TC_SECTION :: l ++ [TChar RBRACKET]). split; [cbn; by rewrite <-(assoc_L (++))|]. split_and!; try done. by constructor.
  - destruct (expect EQUALS ts) as [r|] eqn:Er.
    + destruct (parse_value r) as [[v r2]|] eqn:Ev; [|done]. intros [= <- <-]. apply expect_inv in Er as ->.
      apply parse_value_sound in Ev as (l & -> & Hl & Hp). exists (TC_LABEL s0 :: TChar EQUALS :: l). split_and!; try done. by constructor.
    + intros [= <- <-]. exists [TC_LABEL s0]. split_and!; try done. constructor.
  - destruct (parse_opt_string false ts) as [[o r]|] eqn:E; [|done]. cbn [mbind option_bind].
    destruct (expect RBRACKET r) as [r2|] eqn:Er; [|done]. cbn [mbind option_bind].
    destruct (expect EQUALS r2) as [r3|] eqn:Er2; [|done]. cbn [mbind option_bind].
    destruct (parse_value r3) as [[v r4]|] eqn:Ev; [|done]. intros [= <- <-].
    apply parse_opt_sound in E as (l & -> & Hl). apply expect_inv in Er as ->. apply expect_inv in Er2 as ->.
    apply parse_value_sound in Ev as (l2 & -> & Hl2 & Hp).
    exists (TC_OFFSET s0 :: l ++ TChar RBRACKET :: TChar EQUALS :: l2). split; [cbn; by rewrite <-(assoc_L (++))|].
    split_and!; try done. by constructor.
  - intros [= <- <-]. exists [END_OF_LINE]. split_and!; try done. constructor.
Qed.

Lemma statement_fresh l s ts : statement_of l s → fresh (l ++ ts) = true.
Proof. by intros []. Qed.

Lemma statements_one l s : statement_of l s → statement_list l [s].
Proof. intros Hs. apply (statements_add [] []); [apply statements_empty|done]. Qed.

(** A statement in front of a list. *)
Lemma statements_cons l s l' ss : statement_of l s → statement_list l' ss → statement_list (l ++ l') (s :: ss).
Proof.
  intros Hs. induction 1 as [l1 ss l2 s2 _ IH H2|].
  - rewrite (assoc_L (++)). by apply (statements_add _ (s :: ss)).
  - rewrite app_nil_r. by apply statements_one.
Qed.

Lemma statements_inv l ss : statement_list l ss →
  (l = [] ∧ ss = []) ∨ ∃ l1 s l2 ss2, l = l1 ++ l2 ∧ ss = s :: ss2 ∧ statement_of l1 s ∧ statement_list l2 ss2.
Proof.
  induction 1 as [l ss l' s Hl IH Hs|]; [|by left]. right. destruct IH as [[-> ->]|(l1 & s1 & l2 & ss2 & -> & -> & H1 & H2)].
  - exists l', s, [], []. rewrite app_nil_r. split_and!; done || apply statements_empty.
  - exists l1, s1, (l2 ++ l'), (ss2 ++ [s]). rewrite (assoc_L (++)). split_and!; try done. by apply statements_add.
Qed.

Lemma statements_fresh l ss : statement_list l ss → fresh l = true.
Proof.
  intros [[-> ->]|(l1 & s1 & l2 & ss2 & -> & _ & H1 & _)]%statements_inv; [done|]. by eapply statement_fresh.
Qed.

Lemma parse_statements_run ss : ∀ l fuel, statement_list l ss → forallb statement_precedence_ok ss = true → length l ≤ fuel →
  parse_statements fuel l = Some ss.
Proof.
  induction ss as [|s ss IH]; intros l fuel [[-> Hss]|(l1 & s1 & l2 & ss2 & -> & Hss & H1 & H2)]%statements_inv Hp Hf; try done.
  - by destruct fuel.
  - injection Hss as <- <-. apply andb_true_iff in Hp as [Hp1 Hp]. pose proof (statement_fresh _ _ l2 H1) as Hfr.
    pose proof (parse_statement_run _ _ l2 H1 Hp1 (statements_fresh _ _ H2)) as Hrun. rewrite length_app in Hf.
    assert (Hne : l1 ≠ []) by (by destruct H1). destruct l1 as [|t l1]; [done|]. cbn [length] in Hf.
    destruct fuel as [|fuel]; [lia|]. cbn [parse_statements app Datatypes.app] in *. rewrite Hrun. cbn [mbind option_bind].
    rewrite (IH l2) by (done || lia). done.
Qed.

Lemma parse_statements_sound fuel : ∀ ts ss, parse_statements fuel ts = Some ss →
  statement_list ts ss ∧ forallb statement_precedence_ok ss = true.
Proof.
  induction fuel as [|fuel IH]; intros [|t ts] ss; cbn [parse_statements]; try done;
    try (intros [= <-]; split; [apply statements_empty|done]).
  destruct (parse_statement (t :: ts)) as [[s rest]|] eqn:Es; [|done]. cbn [mbind option_bind].
  destruct (parse_statements fuel rest) as [ss'|] eqn:E; [|done]. intros [= <-].
  apply parse_statement_sound in Es as (l & -> & _ & Hs & Hp). apply IH in E as [Hl Hps].
  split; [by apply statements_cons|cbn; by rewrite Hp, Hps].
Qed.

(** ** Every sentence has a tree that respects the precedences *)

(** [l op r], where [r] may be a binary operation. *)
Fixpoint graft (op : ascii) (l r : tree) : tree :=
  match r with TBinary c a b => TBinary c (graft op l a) b | _ => TBinary op l r end.
(** [op e], where [e] may be a binary operation. *)
Fixpoint unary_graft (op : ascii) (e : tree) : tree :=
  match e with TBinary c a b => TBinary c (unary_graft op a) b | _ => TUnary op e end.
Fixpoint rotate (e : tree) : tree :=
  match e with
  | TString s => TString s
  | TBinary c l r => graft c (rotate l) (rotate r)
  | TUnary c e => unary_graft c (rotate e)
  | TParens e => TParens (rotate e)
  end.

Lemma graft_expr c e2 : ∀ l1 e1 l2, binary_op c = true → expr l1 e1 → expr l2 e2 → expr (l1 ++ TChar c :: l2) (graft c e1 e2).
Proof.
  induction e2 as [s|d a IHa b _|d e _|e _]; intros l1 e1 l2 Hc H1 H2; cbn [graft]; try by apply expr_binary.
  inversion H2 as [|la ? ? lb ? Hd Ha Hb| |]; subst.
  replace (l1 ++ TChar c :: la ++ TChar d :: lb) with ((l1 ++ TChar c :: la) ++ TChar d :: lb) by (by rewrite <-(assoc_L (++))).
  apply expr_binary; [done|by apply IHa|done].
Qed.

Lemma unary_graft_expr c e : ∀ l, unary_op c = true → expr l e → expr (TChar c :: l) (unary_graft c e).
Proof.
  induction e as [s|d a IHa b _|d e _|e _]; intros l Hc H2; cbn [unary_graft]; try by apply expr_unary.
  inversion H2 as [|la ? ? lb ? Hd Ha Hb| |]; subst. change (expr ((TChar c :: la) ++ TChar d :: lb) (TBinary d (unary_graft c a) b)).
  apply expr_binary; [done|by apply IHa|done].
Qed.

Lemma graft_ok c l r : precedence_ok l = true → precedence_ok r = true → precedence_ok (graft c l r) = true.
Proof.
  intros Hl. induction r as [s|d a IHa b _|d e _|e _]; cbn; intros Hr; rewrite ?Hl, ?Hr; try done.
  apply andb_true_iff in Hr as [[Ha Hb]%andb_true_iff Hn]. by rewrite IHa, Hb.
Qed.
Lemma unary_graft_ok c e : precedence_ok e = true → precedence_ok (unary_graft c e) = true.
Proof.
  induction e as [s|d a IHa b _|d e _|e _]; cbn; intros Hr; rewrite ?Hr; try done.
  apply andb_true_iff in Hr as [[Ha Hb]%andb_true_iff Hn]. by rewrite IHa, Hb.
Qed.

Lemma rotate_expr l e : expr l e → expr l (rotate e) ∧ precedence_ok (rotate e) = true.
Proof.
  induction 1 as [l s Hs|l1 e1 c l2 e2 Hc _ [H1 Hp1] _ [H2 Hp2]|c l e Hc _ [H1 Hp]|l e _ [H1 Hp]]; cbn [rotate].
  - split; [by apply expr_string|done].
  - split; [by apply graft_expr|by apply graft_ok].
  - split; [by apply unary_graft_expr|by apply unary_graft_ok].
  - split; [by apply expr_parens|done].
Qed.

Definition rotate_value (v : value_tree) : value_tree := match v with VExpr e => VExpr (rotate e) | VWord s => VWord s end.
Definition rotate_statement (s : statement) : statement :=
  match s with SEntry k v => SEntry k (rotate_value v) | SOffset k o v => SOffset k o (rotate_value v) | _ => s end.

Lemma rotate_value_of l v : string_or_value l v → string_or_value l (rotate_value v) ∧ value_precedence_ok (rotate_value v) = true.
Proof. intros [l' e [He Hp]%rotate_expr|s|s|s|]; split; try done; by constructor. Qed.

Lemma rotate_statements l ss : statement_list l ss →
  statement_list l (map rotate_statement ss) ∧ forallb statement_precedence_ok (map rotate_statement ss) = true.
Proof.
  induction 1 as [l ss l' s _ [IH Hp] Hs|]; [|split; [apply statements_empty|done]].
  rewrite map_app, forallb_app. cbn [map forallb]. rewrite Hp.
  assert (statement_of l' (rotate_statement s) ∧ statement_precedence_ok (rotate_statement s) = true) as [? ->].
  { destruct Hs as [l1 n Hn|k l1 v [Hv Hv2]%rotate_value_of|k l1 o l2 v Ho [Hv Hv2]%rotate_value_of|k|]; split; try done; by constructor. }
  split; [by apply statements_add|done].
Qed.

(** C19: The parser is the grammar with its precedences: it accepts exactly the sentences that
    the productions derive, and returns the one tree for the sentence in which the binary
    operators associate to the left and the unary ones bind more tightly. *)
Theorem ini_parser_grammar ts :
  match ini_parse_tokens ts with
  | Some ss => statement_list ts ss ∧ forallb statement_precedence_ok ss = true ∧
      ∀ ss', statement_list ts ss' → forallb statement_precedence_ok ss' = true → ss' = ss
  | None => ∀ ss, ¬ statement_list ts ss
  end.
Proof.
  unfold ini_parse_tokens. destruct (parse_statements (length ts) ts) as [ss|] eqn:E.
  - apply parse_statements_sound in E as Hs. destruct Hs as [Hl Hp]. split_and!; try done. intros ss' Hl' Hp'.
    rewrite (parse_statements_run ss' ts (length ts) Hl' Hp') in E by done. congruence.
  - intros ss [Hl Hp]%rotate_statements. by rewrite (parse_statements_run _ ts (length ts) Hl Hp) in E.
Qed.
End parser.

Example parse_text :
  zend_parse_ini (IniTables (λ n, if bool_decide (n = ("E_ALL" : zstr)) then Some ("32767" : zstr) else None) (λ _, None)
                    (λ n, if bool_decide (n = ("HOME" : zstr)) then Some ("/root" : zstr) else None))
    ZEND_INI_SCANNER_NORMAL
    (lines ["[product : common]"; in_quotes "dir = ~${HOME}/x~ ; comment"; "level = E_ALL & ~8"; "a[x]= on"; "b[] = 'it'"; "c"; "d="]) =
  Some (IniSuccess
    [ZEND_INI_PARSER_SECTION "product : common"; ZEND_INI_PARSER_ENTRY "dir" (Some (ZStr "/root/x"));
     ZEND_INI_PARSER_ENTRY "level" (Some (ZStr "32759"));
     ZEND_INI_PARSER_POP_ENTRY "a" (Some (ZStr "1")) (Some ("x" : zstr));
     ZEND_INI_PARSER_POP_ENTRY "b" (Some (ZStr "it")) (Some []);
     ZEND_INI_PARSER_ENTRY "c" None; ZEND_INI_PARSER_ENTRY "d" (Some (ZStr []))]).
Proof. vm_compute. reflexivity. Qed.
