(* ===== verification/IniText.v ===== *)
(** * Ini files that are read back

    Sections and entries written in the plain form [[name]] and [key="value"], and the proof
    that the scanner and the parser report them as they were. *)

From S2P Require Import Prelude Zend Regex IniScanner IniParser.

Open Scope zs_scope.

(** ** Writing *)

Inductive item := ISection (name : zstr) | IEntry (key value : zstr).

Definition print_item (i : item) : zstr :=
  match i with
  | ISection name => LBRACKET :: name ++ [RBRACKET; LF]
  | IEntry key value => key ++ EQUALS :: DQUOTE :: value ++ [DQUOTE; LF]
  end.
Definition print_ini (doc : list item) : zstr := mjoin (map print_item doc).
Definition item_event (i : item) : ini_event :=
  match i with
  | ISection name => ZEND_INI_PARSER_SECTION name
  | IEntry key value => ZEND_INI_PARSER_ENTRY key (Some (ZStr value))
  end.

(** The derivative by a string decides a match. *)
Definition re_match (r : re) (s : zstr) : bool := nullable (fold_left (λ r c, deriv c r) s r).

(** A key: the bytes of a label, no blanks at its ends, not a word for a value; a value: no
    quote, backslash or dollar; a name: the bytes of a section. *)
Definition keyword (key : zstr) : bool :=
  re_match (rule_re true_value) key || re_match (rule_re false_value) key || re_match (rule_re null_value) key.
Definition plain_key (key : zstr) : bool :=
  match key with
  | c :: _ =>
      forallb (λ c, negb (member label_end c)) key && negb (white c) && negb (white (List.last key c)) &&
      negb (ceq c (ascii_of_nat 239)) && negb (keyword key)
  | [] => false
  end.
Definition value_byte (c : ascii) : bool := negb (member [DQUOTE; ESCAPE; DOLLAR] c).
Definition plain_value (v : zstr) : bool := forallb value_byte v.
Definition section_byte (c : ascii) : bool := negb (member section_stop c).
Definition plain_section (name : zstr) : bool := negb (bool_decide (name = [])) && forallb section_byte name.
Definition plain_item (i : item) : bool :=
  match i with
  | ISection name => plain_section name
  | IEntry key value => plain_key key && plain_value value
  end.

Lemma re_match_spec r s : re_match r s = true ↔ matches r s.
Proof.
  unfold re_match. revert r. induction s as [|c s IH]; intros r; cbn; [apply nullable_spec|].
  by rewrite IH, deriv_spec.
Qed.

(** ** Tokens one by one *)

(** [sc] gives the tokens [ts] up to the end. *)
Definition scans (sc : scanner) (ts : list token) : Prop := ∃ fuel, ini_tokens fuel sc = Some ts.

Lemma ini_tokens_mono n sc ts m : ini_tokens n sc = Some ts → n ≤ m → ini_tokens m sc = Some ts.
Proof.
  revert sc ts m. induction n as [|n IH]; intros sc ts m Hn Hm; [done|]. destruct m as [|m]; [lia|]. cbn [ini_tokens] in *.
  destruct (ini_lex _ sc) as [[[t|] sc']|]; try done. destruct (ini_tokens n sc') as [ts'|] eqn:E; [|done].
  rewrite (IH _ _ m E) by lia. done.
Qed.

Lemma scans_text mode s ts : scans (init_ini_scanner mode s) ts → scan_text mode s = Some ts.
Proof.
  intros [fuel Hf]. destruct (ini_tokens_ok (2 * length s + 2) (init_ini_scanner mode s)) as [ts' Hts];
    [done|unfold scan_measure; cbn; lia|].
  unfold scan_text. rewrite Hts. f_equal.
  pose proof (ini_tokens_mono _ _ _ (Nat.max fuel (2 * length s + 2)) Hf ltac:(lia)) as H1.
  pose proof (ini_tokens_mono _ _ _ (Nat.max fuel (2 * length s + 2)) Hts ltac:(lia)) as H2. congruence.
Qed.

Lemma scans_step sc t sc' ts : ini_step sc = Some (Token t sc') → scans sc' ts → scans sc (t :: ts).
Proof. intros Hs [fuel Hf]. exists (S fuel). cbn [ini_tokens ini_lex]. by rewrite Hs, Hf. Qed.

Lemma scans_end sc : sc_rest sc = [] → sc_state sc = INITIAL → scans sc [].
Proof. intros Hr Hst. exists 1. cbn [ini_tokens ini_lex]. unfold ini_step. by rewrite Hr, Hst. Qed.

(** A step by a rule that is known, not at a byte order mark. *)
Lemma step_rule mode c st n b s i k r :
  s ≠ [] → b = false ∨ is_prefix BOM s = false → longest (map rule_re (rules_of c)) s = Match i k → rules_of c !! i = Some r →
  ini_step (Scanner mode c st n b s) = rule_action r (take k s) (Scanner mode c st n false (drop k s)).
Proof.
  intros Hne Hbom Hl Hr. unfold ini_step. cbn [sc_rest sc_state sc_start]. destruct s as [|s0 s]; [done|].
  replace (b && _ && _) with false by (destruct Hbom as [->|Hbom]; [done|]; by rewrite Hbom, andb_false_r).
  rewrite Hl. cbn [mbind option_bind]. by rewrite Hr.
Qed.

(** A rule of the condition that matches [c :: text], where no rule goes on with [d]. *)
Lemma step_text mode cond st n b c text d t i0 r0 :
  b = false ∨ is_prefix BOM (c :: text ++ d :: t) = false →
  (∀ r t, r ∈ rules_of cond → ¬ matches (rule_re r) (c :: text ++ d :: t)) →
  rules_of cond !! i0 = Some r0 → matches (rule_re r0) (c :: text) →
  ∃ i r, i ≤ i0 ∧ rules_of cond !! i = Some r ∧ matches (rule_re r) (c :: text) ∧
    ini_step (Scanner mode cond st n b (c :: text ++ d :: t)) = rule_action r (c :: text) (Scanner mode cond st n false (d :: t)).
Proof.
  intros Hbom Hno Hr0 Hm0.
  destruct (longest_text (map rule_re (rules_of cond)) (c :: text) d t i0 (rule_re r0)) as (i & r & Hl & Hle & Hr & Hm);
    [apply rules_inhabited|done| |by rewrite list_lookup_fmap, Hr0|done|].
  { intros r t' (r1 & <- & Hr1)%list_elem_of_In%in_map_iff. by apply Hno, list_elem_of_In. }
  rewrite list_lookup_fmap in Hr. destruct (rules_of cond !! i) as [r1|] eqn:Hi; [|done]. injection Hr as <-.
  exists i, r1. split; [done|]. split; [done|]. split; [done|].
  rewrite (step_rule mode cond st n b (c :: text ++ d :: t) i (length (c :: text)) r1 ltac:(done) Hbom Hl Hi).
  change (c :: text ++ d :: t) with ((c :: text) ++ d :: t). by rewrite take_app_length, drop_app_length.
Qed.

Abbreviation NORMAL := ZEND_INI_SCANNER_NORMAL.

(** The match of a text whose first bytes settle it. *)
Ltac settled :=
  match goal with
  | |- ini_step (Scanner ?m ?c ?st ?n ?b ?s) = _ =>
      let l := constr:(longest (map rule_re (rules_of c)) s) in
      let v := eval vm_compute in l in
      match v with
      | Match ?i ?k =>
          let o := eval vm_compute in (rules_of c !! i) in
          match o with Some ?r => rewrite (step_rule m c st n b s i k r); [reflexivity|done|right; reflexivity|reflexivity|reflexivity] end
      end
  end.

Lemma step_open st n b s : ini_step (Scanner NORMAL INITIAL st n b (LBRACKET :: s)) =
  Some (Token TC_SECTION (Scanner NORMAL ST_SECTION_VALUE st n false s)).
Proof. destruct s; settled. Qed.

Lemma step_close st n b s : ini_step (Scanner NORMAL ST_SECTION_VALUE st n b (RBRACKET :: LF :: s)) =
  Some (Token (TChar RBRACKET) (Scanner NORMAL INITIAL st (n + 1) false s)).
Proof. destruct s; settled. Qed.

Lemma step_assign st n b s : ini_step (Scanner NORMAL INITIAL st n b (EQUALS :: DQUOTE :: s)) =
  Some (Token (TChar EQUALS) (Scanner NORMAL ST_VALUE st n false (DQUOTE :: s))).
Proof. settled. Qed.

Lemma step_quote st n b s : ini_step (Scanner NORMAL ST_VALUE st n b (DQUOTE :: s)) =
  Some (Token (TChar DQUOTE) (Scanner NORMAL ST_DOUBLE_QUOTES (ST_VALUE :: st) n false s)).
Proof. destruct s; settled. Qed.

Lemma step_unquote st n b c s : ini_step (Scanner NORMAL ST_DOUBLE_QUOTES (c :: st) n b (DQUOTE :: LF :: s)) =
  Some (Token (TChar DQUOTE) (Scanner NORMAL c st n false (LF :: s))).
Proof. settled. Qed.

Lemma step_line st n b s : ini_step (Scanner NORMAL ST_VALUE st n b (LF :: s)) =
  Some (Token END_OF_LINE (Scanner NORMAL INITIAL st (n + 1) false s)).
Proof. destruct s; settled. Qed.

(** ** Texts of variable bytes *)

(** Every byte, tested one by one. *)
Lemma all_bytes_spec (p : ascii → bool) : forallb p all_bytes = true → ∀ c, p c = true.
Proof.
  rewrite forallb_forall. intros Hp c. apply Hp. unfold all_bytes. apply in_map_iff. exists (nat_of_ascii c).
  split; [apply ascii_nat_embedding|]. apply in_seq. pose proof (nat_ascii_bounded c). lia.
Qed.

(** The rules of a condition confine a text that begins with a byte of [p] and ends before [d]. *)
Lemma rules_confined p cond d :
  forallb (λ c, negb (p c) || forallb (λ r, confined (rule_re r) c d) (rules_of cond)) all_bytes = true →
  ∀ c text t r, p c = true → r ∈ rules_of cond → ¬ matches (rule_re r) (c :: text ++ d :: t).
Proof.
  intros Hall c text t r Hc Hr. pose proof (all_bytes_spec _ Hall c) as Hp. cbn beta in Hp. rewrite Hc in Hp. cbn [negb orb] in Hp.
  rewrite forallb_forall in Hp. apply confined_spec, Hp. by apply list_elem_of_In.
Qed.

Lemma plain_key_confined c text t r :
  negb (member label_end c) && negb (white c) = true → r ∈ rules_of INITIAL → ¬ matches (rule_re r) (c :: text ++ EQUALS :: t).
Proof. apply (rules_confined (λ c, negb (member label_end c) && negb (white c))). by vm_compute. Qed.

(** The first byte of a value in quotes is read alone, whatever follows. *)
Lemma value_confined c d t r :
  value_byte c = true → r ∈ rules_of ST_DOUBLE_QUOTES → ¬ matches (rule_re r) (c :: d :: t).
Proof.
  assert (Hall : forallb (λ c, negb (value_byte c) ||
      forallb (λ r, one_byte (rule_re r) || negb (first (rule_re r) c)) (rules_of ST_DOUBLE_QUOTES)) all_bytes = true) by by vm_compute.
  intros Hc Hr. pose proof (all_bytes_spec _ Hall c) as Hp. cbn beta in Hp. rewrite Hc in Hp. cbn [negb orb] in Hp.
  rewrite forallb_forall in Hp. apply (confined_spec _ c d []). unfold confined.
  by rewrite (Hp r) by (by apply list_elem_of_In).
Qed.

(** A name ends where its bytes do. *)
Lemma section_bytes_end name t : forallb section_byte name = true →
  ¬ matches (Star SECTION_VALUE_CHARS) (name ++ RBRACKET :: t).
Proof.
  assert (Hstar : ∀ c, section_byte c = true → deriv c (Star SECTION_VALUE_CHARS) = Star SECTION_VALUE_CHARS).
  { intros c Hc. pose (is_eps := λ r, match r with Eps => true | _ => false end).
    assert (Hall : forallb (λ c, negb (section_byte c) || is_eps (deriv c SECTION_VALUE_CHARS)) all_bytes = true) by by vm_compute.
    pose proof (all_bytes_spec _ Hall c) as Hp. cbn beta in Hp. rewrite Hc in Hp. cbn [negb orb] in Hp.
    cbn [deriv]. fold (deriv c SECTION_VALUE_CHARS). by destruct (deriv c SECTION_VALUE_CHARS). }
  induction name as [|c name IH]; cbn [app Datatypes.app forallb].
  - intros _ Hm. apply first_spec in Hm. by vm_compute in Hm.
  - intros [Hc Hn]%andb_true_iff Hm. apply deriv_spec in Hm. rewrite Hstar in Hm by done. by apply IH in Hm.
Qed.

Lemma section_confined c name t r : section_byte c = true → forallb section_byte name = true →
  r ∈ rules_of ST_SECTION_VALUE → ¬ matches (rule_re r) (c :: name ++ RBRACKET :: t).
Proof.
  intros Hc Hn Hr.
  assert (Hall : forallb (λ c, negb (section_byte c) || forallb (λ r,
      match r with section_string => true | _ => confined (rule_re r) c RBRACKET end) (rules_of ST_SECTION_VALUE)) all_bytes = true)
    by by vm_compute.
  pose proof (all_bytes_spec _ Hall c) as Hp. cbn beta in Hp. rewrite Hc in Hp. cbn [negb orb] in Hp.
  rewrite forallb_forall in Hp. apply list_elem_of_In in Hr. specialize (Hp r Hr).
  assert (Hor : r = section_string ∨ confined (rule_re r) c RBRACKET = true) by (destruct r; first [left; reflexivity|right; exact Hp]).
  destruct Hor as [->|Hcon]; [clear Hp|exact (confined_spec _ _ _ _ _ Hcon)].
  intros (s1 & s2 & Hs & H1 & H2)%matches_cat_inv.
  apply (section_bytes_end (c :: name) t); [cbn; by rewrite Hc, Hn|].
  change ((c :: name) ++ RBRACKET :: t) with (c :: name ++ RBRACKET :: t). rewrite Hs. by apply matches_star_app.
Qed.

(** ** The tokens of an item *)

Lemma label_matches key : key ≠ [] → forallb (λ c, negb (member label_end c)) key = true → matches LABEL key.
Proof.
  destruct key as [|c key]; [done|]. intros _ [Hc Hk]%andb_true_iff. apply (matches_cat _ _ [c] key); [by constructor|].
  induction key as [|d key IH]; [constructor|]. apply andb_true_iff in Hk as [Hd Hk].
  apply (matches_star_app _ [d]); [by constructor|auto].
Qed.

Lemma drop_end_last (p : ascii → bool) c s : p (List.last (c :: s) c) = false → drop_end p (c :: s) = c :: s.
Proof.
  intros Hl. unfold drop_end. destruct (rev (c :: s)) as [|d l] eqn:E.
  { apply (f_equal (@length _)) in E. rewrite length_rev in E. done. }
  assert (Hs : c :: s = rev l ++ [d]) by (rewrite <-(rev_involutive (c :: s)); by rewrite E).
  rewrite Hs in Hl |- *. rewrite last_last in Hl. cbn [drop_while]. rewrite Hl. cbn [rev]. done.
Qed.

Lemma bom_not c s : ceq c (ascii_of_nat 239) = false → is_prefix BOM (c :: s) = false.
Proof.
  intros Hc. change (is_prefix BOM (c :: s)) with
    (ceq (ascii_of_nat 239) c && is_prefix [ascii_of_nat 187; ascii_of_nat 191] s).
  unfold ceq in *. rewrite bool_decide_eq_false in Hc. by rewrite (bool_decide_false (_ = c)).
Qed.

Lemma forallb_not_in (set s : zstr) d : member set d = true → forallb (λ c, negb (member set c)) s = true → d ∉ s.
Proof.
  intros Hd Hs Hin. rewrite forallb_forall in Hs. apply list_elem_of_In, Hs in Hin. by rewrite Hd in Hin.
Qed.

Lemma step_key st n b key t : plain_key key = true →
  ini_step (Scanner NORMAL INITIAL st n b (key ++ EQUALS :: t)) =
    Some (Token (TC_LABEL key) (Scanner NORMAL INITIAL st n false (EQUALS :: t))).
Proof.
  destruct key as [|c key]; [done|].
  intros [[[[Hk Hw%negb_true_iff]%andb_true_iff Hl%negb_true_iff]%andb_true_iff Hbom%negb_true_iff]%andb_true_iff Hkey%negb_true_iff]%andb_true_iff.
  assert (Hc : negb (member label_end c) && negb (white c) = true).
  { cbn [forallb] in Hk. apply andb_true_iff in Hk as [-> _]. by rewrite Hw. }
  change ((c :: key) ++ EQUALS :: t) with (c :: key ++ EQUALS :: t).
  destruct (step_text NORMAL INITIAL st n b c key EQUALS t 5 option_name) as (i & r & Hi & Hr & Hm & ->).
  - right. by apply bom_not.
  - intros r t' Hr. by apply plain_key_confined.
  - done.
  - by apply label_matches.
  - unfold keyword in Hkey. apply orb_false_iff in Hkey as [[Ht Hf]%orb_false_iff Hn].
    apply not_true_iff_false in Ht, Hf, Hn. rewrite re_match_spec in Ht, Hf, Hn.
    destruct i as [|[|[|[|[|[|i]]]]]]; [injection Hr as <-..|lia]; try done.
    + apply first_spec in Hm. exfalso. revert Hc Hm. clear. by destruct c as [[] [] [] [] [] [] [] []]; vm_compute.
    + exfalso. apply matches_cat_inv in Hm as (s1 & s2 & Hs & _ & Hm).
      apply matches_cat_inv in Hm as (s3 & s4 & -> & (d & -> & Hd%bool_decide_eq_true)%matches_cls_inv & _).
      eapply (forallb_not_in label_end (c :: key) LBRACKET); [done|exact Hk|].
      rewrite Hs, Hd. apply elem_of_app. right. by left.
    + unfold rule_action. do 3 f_equal. unfold EAT_LEADING_WHITESPACE, EAT_TRAILING_WHITESPACE.
      rewrite drop_while_false; [by apply drop_end_last|].
      revert Hw. clear. unfold white, tab_or_space. cbn. by destruct (ceq c BLANK), (ceq c TAB), (ceq c LF), (ceq c CR).
Qed.

Lemma section_matches name : forallb section_byte name = true → matches (Star SECTION_VALUE_CHARS) name.
Proof.
  induction name as [|c name IH]; cbn [forallb]; [constructor|]. intros [Hc Hn]%andb_true_iff.
  apply (matches_star_app _ [c]); [|auto]. apply matches_alt_l. by constructor.
Qed.

(** A constant, a number or a string, but the same text. *)
Lemma step_name tables st n name t : plain_section name = true →
  ∃ tok, constant_text tables true tok = Some name ∧
    ini_step (Scanner NORMAL ST_SECTION_VALUE st n false (name ++ RBRACKET :: t)) =
      Some (Token tok (Scanner NORMAL ST_SECTION_VALUE st n false (RBRACKET :: t))).
Proof.
  destruct name as [|c name]; [done|]. intros Hp. assert (Hn : forallb section_byte (c :: name) = true) by exact Hp.
  cbn [forallb] in Hn. apply andb_true_iff in Hn as [Hc Hn].
  change ((c :: name) ++ RBRACKET :: t) with (c :: name ++ RBRACKET :: t).
  destruct (step_text NORMAL ST_SECTION_VALUE st n false c name RBRACKET t 5 section_string) as (i & r & Hi & Hr & Hm & ->).
  - by left.
  - intros r t' Hr. by apply section_confined.
  - done.
  - apply (matches_cat _ _ [c]); [apply matches_alt_l; by constructor|by apply section_matches].
  - assert (Hfirst : first (rule_re r) c = true) by (by eapply first_spec).
    destruct i as [|[|[|[|[|[|i]]]]]]; [injection Hr as <-..|lia];
      try (exfalso; revert Hc Hfirst; clear; by destruct c as [[] [] [] [] [] [] [] []]; vm_compute);
      (eexists; split; [|reflexivity]); done.
Qed.

(** ** A value in quotes *)

Lemma quoted_length_plain prev v t : ceq prev ESCAPE = false → plain_value v = true →
  quoted_length prev (v ++ DQUOTE :: t) = length v.
Proof.
  revert prev. induction v as [|c v IH]; intros prev Hprev Hv.
  - cbn [app Datatypes.app quoted_length]. change (ceq DQUOTE DQUOTE) with true. cbv iota. by rewrite Hprev, andb_false_r.
  - apply andb_true_iff in Hv as [Hc Hv]. unfold value_byte in Hc. cbn in Hc.
    apply negb_true_iff, orb_false_iff in Hc as [Hq [He [Hd _]%orb_false_iff]%orb_false_iff].
    cbn [app Datatypes.app quoted_length]. by rewrite Hq, Hd, He, IH.
Qed.

Lemma escape_plain v : plain_value v = true → ∃ n, escape_string DQUOTE v = (v, n).
Proof.
  induction v as [|c v IH]; [by exists 0%Z|]. intros [Hc Hv]%andb_true_iff. destruct (IH Hv) as [n Hn].
  unfold value_byte in Hc. cbn in Hc. apply negb_true_iff, orb_false_iff in Hc as [_ [He _]%orb_false_iff].
  cbn [escape_string]. rewrite He, Hn. by eexists.
Qed.

Lemma step_value st n c v t : value_byte c = true → plain_value v = true →
  ∃ n', ini_step (Scanner NORMAL ST_DOUBLE_QUOTES st n false (c :: v ++ DQUOTE :: t)) =
    Some (Token (TC_QUOTED_STRING (c :: v)) (Scanner NORMAL ST_DOUBLE_QUOTES st n' false (DQUOTE :: t))).
Proof.
  intros Hc Hv. assert (Hrest : ∃ d s, v ++ DQUOTE :: t = d :: s) by (destruct v; eauto).
  destruct Hrest as (d & s & Hds). rewrite Hds.
  destruct (step_text NORMAL ST_DOUBLE_QUOTES st n false c [] d s 2 quoted_string) as (i & r & Hi & Hr & Hm & Hstep).
  - by left.
  - intros r t' Hr. by apply value_confined.
  - done.
  - by constructor.
  - cbn [app Datatypes.app] in Hstep. rewrite Hstep, <-Hds. assert (Hfirst : first (rule_re r) c = true) by (by eapply first_spec).
    assert (Hquoted : i = 2).
    { destruct i as [|[|[|i]]]; [injection Hr as <-..|lia]; try done;
        exfalso; revert Hc Hfirst; clear; by destruct c as [[] [] [] [] [] [] [] []]; vm_compute. }
    subst i. injection Hr as <-.
    assert (Hesc : ceq c ESCAPE = false).
    { unfold value_byte in Hc. cbn in Hc. by apply negb_true_iff, orb_false_iff in Hc as [_ [He _]%orb_false_iff]. }
    cbn [rule_action sc_rest]. rewrite quoted_length_plain, take_app_length, drop_app_length by done.
    unfold zend_ini_escape_string. destruct (escape_plain (c :: v)) as [k ->]; [cbn; by rewrite Hc|]. by eexists.
Qed.

(** ** Documents *)

Section documents.
Context (tables : ini_tables).

(** The statements of an item and what they report. *)
Definition item_statements (i : item) : list statement :=
  match i with
  | ISection name => [SSection name]
  | IEntry key value => [SEntry key (VExpr (TString value)); SEmpty]
  end.

Lemma scan_item_section n b name rest : plain_section name = true →
  ∃ n' l, statement_list tables l (item_statements (ISection name)) ∧
    ∀ ts, scans (Scanner NORMAL INITIAL [] n' false rest) ts →
      scans (Scanner NORMAL INITIAL [] n b (print_item (ISection name) ++ rest)) (l ++ ts).
Proof.
  intros Hname. destruct (step_name tables [] n name (LF :: rest) Hname) as (tok & Htok & Hstep).
  exists (n + 1)%Z, [TC_SECTION; tok; TChar RBRACKET]. split.
  - apply (statements_one _ _ (SSection name)), (st_section _ [tok]), opt_some, list_constant. done.
  - intros ts Hts. cbn [print_item app Datatypes.app]. rewrite <-(assoc_L (++)).
    change ([RBRACKET; LF] ++ rest) with (RBRACKET :: LF :: rest).
    eapply scans_step; [apply step_open|]. eapply scans_step; [apply Hstep|]. eapply scans_step; [apply step_close|exact Hts].
Qed.

Lemma scan_item_value n v rest : plain_value v = true →
  ∃ n' l, encapsed_list tables l v ∧
    ∀ ts, scans (Scanner NORMAL INITIAL [] n' false rest) ts →
      scans (Scanner NORMAL ST_VALUE [] n false (DQUOTE :: v ++ DQUOTE :: LF :: rest)) (quoted l ++ END_OF_LINE :: ts).
Proof.
  intros Hv. destruct v as [|c v].
  - exists (n + 1)%Z, []. split; [apply encapsed_empty|]. intros ts Hts.
    eapply scans_step; [apply step_quote|]. eapply scans_step; [apply step_unquote|]. eapply scans_step; [apply step_line|exact Hts].
  - apply andb_true_iff in Hv as [Hc Hv]. destruct (step_value [ST_VALUE] n c v (LF :: rest) Hc Hv) as [n' Hstep].
    exists (n' + 1)%Z, [TC_QUOTED_STRING (c :: v)]. split; [apply (encapsed_quoted _ [] []), encapsed_empty|]. intros ts Hts.
    eapply scans_step; [apply step_quote|]. eapply scans_step; [apply Hstep|].
    eapply scans_step; [apply step_unquote|]. eapply scans_step; [apply step_line|exact Hts].
Qed.

Lemma scan_item_entry n b key v rest : plain_key key = true → plain_value v = true →
  ∃ n' l, statement_list tables l (item_statements (IEntry key v)) ∧
    ∀ ts, scans (Scanner NORMAL INITIAL [] n' false rest) ts →
      scans (Scanner NORMAL INITIAL [] n b (print_item (IEntry key v) ++ rest)) (l ++ ts).
Proof.
  intros Hkey Hv. destruct (scan_item_value n v rest Hv) as (n' & l & Hl & Hscan).
  exists n', (TC_LABEL key :: TChar EQUALS :: quoted l ++ [END_OF_LINE]). split.
  - apply (statements_cons _ (TC_LABEL key :: TChar EQUALS :: quoted l) _ [END_OF_LINE]); [|apply statements_one, st_line].
    by apply st_entry, value_expr, expr_string, list_quoted.
  - intros ts Hts. cbn [print_item]. rewrite <-(assoc_L (++)). cbn [app Datatypes.app]. rewrite <-!(assoc_L (++)).
    eapply scans_step; [by apply step_key|]. eapply scans_step; [apply step_assign|]. by apply Hscan.
Qed.

Lemma scan_item n b i rest : plain_item i = true →
  ∃ n' l, statement_list tables l (item_statements i) ∧
    ∀ ts, scans (Scanner NORMAL INITIAL [] n' false rest) ts →
      scans (Scanner NORMAL INITIAL [] n b (print_item i ++ rest)) (l ++ ts).
Proof. destruct i; [apply scan_item_section|]. intros [??]%andb_true_iff. by apply scan_item_entry. Qed.

Lemma statements_app l ss l' ss' : statement_list tables l ss → statement_list tables l' ss' →
  statement_list tables (l ++ l') (ss ++ ss').
Proof.
  intros Hl. induction 1 as [l' ss' l2 s _ IH Hs|]; [|by rewrite !app_nil_r].
  rewrite !(assoc_L (++)). by apply statements_add.
Qed.

Lemma scan_document doc : ∀ n b, forallb plain_item doc = true →
  ∃ ts, scans (Scanner NORMAL INITIAL [] n b (print_ini doc)) ts ∧
    statement_list tables ts (mjoin (map item_statements doc)).
Proof.
  induction doc as [|i doc IH]; intros n b; cbn [forallb].
  - intros _. exists []. split; [by apply scans_end|apply statements_empty].
  - intros [Hi Hdoc]%andb_true_iff. destruct (scan_item n b i (print_ini doc) Hi) as (n' & l & Hl & Hscan).
    destruct (IH n' false Hdoc) as (ts & Hts & Hss). exists (l ++ ts). split; [by apply Hscan|].
    by apply statements_app.
Qed.

Lemma document_callbacks doc : callbacks (mjoin (map item_statements doc)) = Some (map item_event doc).
Proof.
  induction doc as [|i doc IH]; [done|]. cbn [map].
  change (mjoin (item_statements i :: ?l)) with (item_statements i ++ mjoin l).
  destruct i as [name|key v]; cbn [item_statements app Datatypes.app callbacks eval_value eval]; by rewrite IH.
Qed.

Lemma doc_parsed doc :
  forallb plain_item doc = true →
  zend_parse_ini tables ZEND_INI_SCANNER_NORMAL (print_ini doc) = Some (IniSuccess (map item_event doc)).
Proof.
  intros Hdoc. destruct (scan_document doc 1 true Hdoc) as (ts & Hts & Hss).
  unfold zend_parse_ini. rewrite (scans_text _ _ _ Hts). cbn [mbind option_bind].
  unfold ini_parse_tokens. rewrite (parse_statements_run _ _ _ _ Hss); [by rewrite document_callbacks| |done].
  clear. induction doc as [|[name|key v] doc IH]; [done|exact IH|exact IH].
Qed.
(** C20: What is written in plain form is read back: for any names of sections, keys and
    values of the plain form, scanning and parsing the text reports the sections and the
    entries as they were, in their order - the tables are not asked. *)
Theorem ini_text_roundtrip doc :
  forallb plain_item doc = true →
  zend_parse_ini tables ZEND_INI_SCANNER_NORMAL (print_ini doc) = Some (IniSuccess (map item_event doc)).
Proof. apply doc_parsed. Qed.
End documents.

Lemma ini_text_roundtrip_witness :
  let doc := [ISection "product : common"; IEntry "application.directory" "/app/ [1]; x = 2"; IEntry "name" []] in
  print_ini doc = lines ["[product : common]"; in_quotes "application.directory=~/app/ [1]; x = 2~"; in_quotes "name=~~"] ∧
  zend_parse_ini (IniTables (λ _, None) (λ _, None) (λ _, None)) ZEND_INI_SCANNER_NORMAL (print_ini doc) =
    Some (IniSuccess [ZEND_INI_PARSER_SECTION "product : common";
      ZEND_INI_PARSER_ENTRY "application.directory" (Some (ZStr "/app/ [1]; x = 2"));
      ZEND_INI_PARSER_ENTRY "name" (Some (ZStr []))]).
Proof. split; [reflexivity|]. apply ini_text_roundtrip. by vm_compute. Defined.
