(* ===== verification/Server.v ===== *)
(** * The server's side of a response: headers

    [main/SAPI.c]: the headers that a script sets, and how they are sent before the first
    byte of the body; [sapi_cgi_send_headers] of [sapi/cgi/cgi_main.c], which writes them.
    The state of the output layer ([Output]) is declared here too, since sending the
    headers may run code that prints.  A character pointer of the configuration is the
    string up to its NUL. *)

From S2P Require Import Prelude Zend Numeric Url.

Open Scope zs_scope.

Definition CRLF : zstr := [ascii_of_nat 13; ascii_of_nat 10].

(** ** State *)

Inductive sapi_header_op_enum :=
  SAPI_HEADER_REPLACE | SAPI_HEADER_ADD | SAPI_HEADER_DELETE | SAPI_HEADER_DELETE_ALL | SAPI_HEADER_SET_STATUS.

(** [sapi_headers_struct] *)
Record sapi_headers_struct := SapiHeaders {
  headers : list zstr;
  http_response_code : Z;
  send_default_content_type : bool;
  mimetype : option zstr;
  http_status_line : option zstr;
}.
#[export] Instance sapi_headers_rebuild : Rebuild sapi_headers_struct := λ h,
  SapiHeaders (headers h) (http_response_code h) (send_default_content_type h) (mimetype h) (http_status_line h).

(** The part of [SG] that has to do with headers, and whether a header has switched off
    the compression of the output. *)
Record sapi_globals_struct := SapiGlobals {
  sapi_headers : sapi_headers_struct;
  headers_sent : bool;
  no_headers : bool;
  headers_only : bool;
  request_method : option zstr;
  proto_num : Z;
  default_mimetype : option zstr;
  default_charset : option zstr;
  callback_func : option zval;
  compression_off : bool;
}.
#[export] Instance sapi_globals_rebuild : Rebuild sapi_globals_struct := λ g,
  SapiGlobals (sapi_headers g) (headers_sent g) (no_headers g) (headers_only g) (request_method g)
    (proto_num g) (default_mimetype g) (default_charset g) (callback_func g) (compression_off g).

(** The function of an output handler: of the application, one of the two of [output.c], or
    one of another extension ([php_output_start_internal]). *)
Inductive handler_func :=
| func_user (callable : zval)
| php_output_handler_default_func
| php_output_handler_devnull_func
| php_output_handler_compat_func (func : nat).

(** [php_output_handler]: the bytes of the buffer that are used, and its size. *)
Record php_output_handler := Handler {
  name : zstr;
  flags : Z;
  level : nat;
  size : nat;
  buffer : zstr;
  buffer_size : nat;
  func : handler_func;
}.
#[export] Instance handler_rebuild : Rebuild php_output_handler := λ h,
  Handler (name h) (flags h) (level h) (size h) (buffer h) (buffer_size h) (func h).

(** [OG]: the array of the stack, of which the first [top] elements are on it; a pointer to
    a handler is its level. *)
Record output_globals := OutputGlobals {
  handlers : list php_output_handler;
  top : nat;
  active : option nat;
  running : option nat;
  output_start : option (zstr * Z);
  og_flags : Z;
}.
#[export] Instance output_globals_rebuild : Rebuild output_globals := λ o,
  OutputGlobals (handlers o) (top o) (active o) (running o) (output_start o) (og_flags o).

(** Everything, with what the server has been given, what went to standard output past it,
    the errors, and the file and line of the code that runs. *)
Record srv := Srv {
  sg : sapi_globals_struct;
  og : output_globals;
  wire : zstr;
  stdout : zstr;
  errors : list zstr;
  executed : option (zstr * Z);
}.
#[export] Instance srv_rebuild : Rebuild srv := λ s,
  Srv (sg s) (og s) (wire s) (stdout s) (errors s) (executed s).

Abbreviation O := (St srv).

Definition on_sg (f : sapi_globals_struct → sapi_globals_struct) : O unit := modify (λ s, s <| sg := f (sg s) |>).
Definition on_headers (f : sapi_headers_struct → sapi_headers_struct) : O unit :=
  on_sg (λ g, g <| sapi_headers := f (sapi_headers g) |>).
Definition on_og (f : output_globals → output_globals) : O unit := modify (λ s, s <| og := f (og s) |>).
Definition the_headers (s : srv) : sapi_headers_struct := sapi_headers (sg s).
Definition php_error (text : zstr) : O unit := modify (λ s, s <| errors := errors s ++ [text] |>).

Definition PHP_OUTPUT_ACTIVATED : Z := 0x100000.
Definition has (f bit : Z) : bool := negb (Z.land f bit =? 0)%Z.

(** [send_headers] of a module *)
Inductive send_result := SAPI_HEADER_SENT_SUCCESSFULLY | SAPI_HEADER_DO_SEND | SAPI_HEADER_SEND_FAILED.

(** [sapi_module]; the result of [header_handler] is its bit [SAPI_HEADER_ADD]. *)
Record sapi_module_struct := SapiModule {
  ub_write : zstr → O unit;
  header_handler : option (option zstr → sapi_header_op_enum → O bool);
  send_headers : option (O send_result);
  send_header : option zstr → O unit;
}.

Section sapi.
Context (sapi_module : sapi_module_struct).
(** A callback without arguments, called: whether the call could be made. *)
Context (call_header_callback : zval → O bool).

(** ** Content types *)

Definition SAPI_DEFAULT_MIMETYPE : zstr := "text/html".
Definition SAPI_DEFAULT_CHARSET : zstr := "UTF-8".

Definition get_default_content_type (g : sapi_globals_struct) : zstr :=
  let mimetype := cstr (default SAPI_DEFAULT_MIMETYPE (default_mimetype g)) in
  let charset := cstr (default SAPI_DEFAULT_CHARSET (default_charset g)) in
  if bool_decide (charset ≠ []) && strncasecmp0 mimetype "text/" 5
  then mimetype ++ "; charset=" ++ charset else mimetype.

Definition sapi_get_default_content_type_header (g : sapi_globals_struct) : zstr :=
  "Content-type: " ++ get_default_content_type g.

(** The new type, if there is one. *)
Definition sapi_apply_default_charset (g : sapi_globals_struct) (mimetype : zstr) : option zstr :=
  let charset := cstr (default SAPI_DEFAULT_CHARSET (default_charset g)) in
  if bool_decide (charset ≠ []) && strncmp0 mimetype "text/" 5 && negb (bool_decide (is_Some (strstr mimetype "charset=")))
  then Some (mimetype ++ ";charset=" ++ charset) else None.

(** ** Status codes *)

(** A [zend_long] as an [int] *)
Definition to_int (n : Z) : Z := ((n + 2 ^ 31) mod 2 ^ 32 - 2 ^ 31)%Z.

Fixpoint sapi_extract_response_code (header_line : zstr) : option Z :=
  match header_line with
  | [] => Some 200%Z
  | c :: r =>
      if ceq c " " && negb (bool_decide (head r = Some " "%char)) then atoi r else sapi_extract_response_code r
  end.

Definition sapi_update_response_code (ncode : Z) : O unit :=
  on_headers (λ h, if (http_response_code h =? ncode)%Z then h
                   else h <| http_status_line := None |> <| http_response_code := ncode |>).

(** ** The list of headers *)

(** A header of this name, without regard to case. *)
Definition header_named (nm h : zstr) : bool :=
  bool_decide (length nm < length h) && bool_decide (h !! length nm = Some ":"%char) && strncasecmp0 h nm (length nm).

Definition sapi_remove_header (nm : zstr) : O unit :=
  on_headers (λ h, h <| headers := filter (λ x, header_named nm x = false) (headers h) |>).

Definition sapi_header_add_op (op : sapi_header_op_enum) (header : zstr) : O unit :=
  add ← match header_handler sapi_module with
        | None => mret true
        | Some handler => handler (Some header) op
        end;
  if add : bool then
    match op, break (ceq ":") header with
    | SAPI_HEADER_REPLACE, (nm, _ :: _) => sapi_remove_header nm
    | _, _ => mret tt
    end;;
    on_headers (λ h, h <| headers := headers h ++ [header] |>)
  else mret tt.

(** ** Setting headers *)

(** Trailing white space is cut off. *)
Definition trim_line (line : zstr) : zstr := drop_end is_space line.

(** The first byte that may not be in a header. *)
Definition bad_byte (line : zstr) : option ascii :=
  snd <$> list_find (λ c, c = ascii_of_nat 10 ∨ c = ascii_of_nat 13 ∨ c = NUL) line.

(** The value of a [Content-Type] header after its colon: the header that is stored. *)
Definition content_type_header (header_line value : zstr) : O zstr :=
  g ← gets sg;
  let ptr := drop_while (ceq " ") value in
  (if strncmp0 ptr "image/" 6 then on_sg (λ g, g <| compression_off := true |>) else mret tt);;
  let newtype := sapi_apply_default_charset g ptr in
  on_headers (λ h, h <| mimetype := Some (default (default ptr newtype) (mimetype h)) |>
                     <| send_default_content_type := false |>);;
  mret (match newtype with Some t => "Content-type: " ++ t | None => header_line end).

(** A redirect is one already, or gets the code that was asked for, or the one that the
    method of the request asks for. *)
Definition location_code (g : sapi_globals_struct) (code : Z) : option Z :=
  let now := http_response_code (sapi_headers g) in
  if ((now <? 300) || (399 <? now))%Z && negb (now =? 201)%Z then
    Some (if negb (code =? 0)%Z then code
          else if (1000 <? proto_num g)%Z && match request_method g with
                                             | Some m => negb (bool_decide (m = ("HEAD" : zstr))) &&
                                                         negb (bool_decide (m = ("GET" : zstr)))
                                             | None => false
                                             end
          then 303 else 302)%Z
  else None.

(** What the server has to do about the headers that it knows. *)
Definition special_header (header_line : zstr) (code : Z) : O zstr :=
  match break (ceq ":") header_line with
  | (nm, _ :: value) =>
      if zend_string_equals_ci nm "Content-Type" then content_type_header header_line value
      else if zend_string_equals_ci nm "Content-Length" then
        on_sg (λ g, g <| compression_off := true |>);; mret header_line
      else if zend_string_equals_ci nm "Location" then
        g ← gets sg;
        match location_code g code with Some c => sapi_update_response_code c | None => mret tt end;;
        mret header_line
      else if zend_string_equals_ci nm "WWW-Authenticate" then sapi_update_response_code 401;; mret header_line
      else mret header_line
  | _ => mret header_line
  end.

Definition delete_header (header_line : zstr) : O bool :=
  if bool_decide (":"%char ∈ cstr header_line) then
    php_error "Header to delete may not contain colon.";; mret false
  else
    match header_handler sapi_module with
    | Some handler => handler (Some header_line) SAPI_HEADER_DELETE;; mret tt
    | None => mret tt
    end;;
    sapi_remove_header header_line;; mret true.

Definition set_header (op : sapi_header_op_enum) (header_line : zstr) (code : Z) : O bool :=
  match bad_byte header_line with
  | Some c =>
      php_error (if ceq c NUL then "Header may not contain NUL bytes"
                 else "Header may not contain more than a single header, new line detected");;
      mret false
  | None =>
      if bool_decide (5 ≤ length header_line) && strncasecmp0 header_line "HTTP/" 5 then
        ncode ← lift (sapi_extract_response_code header_line);
        sapi_update_response_code ncode;;
        on_headers (λ h, h <| http_status_line := Some header_line |>);; mret true
      else
        header ← special_header header_line code;
        (if (code =? 0)%Z then mret tt else sapi_update_response_code code);;
        sapi_header_add_op op header;; mret true
  end.

Definition headers_sent_error (s : srv) : zstr :=
  "Cannot modify header information - headers already sent" ++
  match output_start (og s) with
  | Some (file, line) => " by (output started at " ++ cstr file ++ ":" ++ dec_of_Z line ++ ")"
  | None => ""
  end.

(** The argument is a line and a code, or the status. *)
Definition sapi_header_op (op : sapi_header_op_enum) (line : zstr) (response_code : Z) : O bool :=
  s ← gets id;
  if headers_sent (sg s) && negb (no_headers (sg s)) then php_error (headers_sent_error s);; mret false
  else
    match op with
    | SAPI_HEADER_SET_STATUS => sapi_update_response_code (to_int response_code);; mret true
    | SAPI_HEADER_DELETE_ALL =>
        match header_handler sapi_module with Some handler => handler None op;; mret tt | None => mret tt end;;
        on_headers (λ h, h <| headers := [] |>);; mret true
    | SAPI_HEADER_DELETE => if bool_decide (line = []) then mret false else delete_header (trim_line line)
    | SAPI_HEADER_ADD | SAPI_HEADER_REPLACE =>
        if bool_decide (line = []) then mret false else set_header op (trim_line line) (to_int response_code)
    end.

Definition sapi_add_header_ex (line : zstr) (replace : bool) : O bool :=
  sapi_header_op (if replace then SAPI_HEADER_REPLACE else SAPI_HEADER_ADD) line 0.

(** [header], [header_remove] of [ext/standard/head.c] *)
Definition php_header_function (line : zstr) (rep : bool) (code : Z) : O bool :=
  sapi_header_op (if rep then SAPI_HEADER_REPLACE else SAPI_HEADER_ADD) line code.
Definition header_remove (nm : option zstr) : O bool :=
  match nm with
  | None => sapi_header_op SAPI_HEADER_DELETE_ALL [] 0
  | Some nm => sapi_header_op SAPI_HEADER_DELETE nm 0
  end.

(** [http_response_code] of the same file, where 0 stands for no argument: the code is
    assigned, whatever has been sent, and the line of a status stays. *)
Definition php_http_response_code (response_code : Z) : O zval :=
  old ← gets (λ s, http_response_code (the_headers s));
  if (response_code =? 0)%Z then mret (if (old =? 0)%Z then ZBool false else ZLong old)
  else
    on_headers (λ h, h <| http_response_code := to_int response_code |>);;
    mret (if (old =? 0)%Z then ZBool true else ZLong old).

(** What a script calls about its headers: [header], [header_remove], [http_response_code]. *)
Inductive header_call :=
| CallHeader (line : zstr) (rep : bool) (code : Z)
| CallRemove (nm : option zstr)
| CallCode (code : Z).

Definition run_header_call (c : header_call) : O unit :=
  match c with
  | CallHeader line rep code => php_header_function line rep code;; mret tt
  | CallRemove nm => header_remove nm;; mret tt
  | CallCode code => php_http_response_code code;; mret tt
  end.

Fixpoint header_calls (calls : list header_call) : O unit :=
  match calls with
  | [] => mret tt
  | c :: calls' => run_header_call c;; header_calls calls'
  end.

(** ** Sending *)

Definition sapi_run_header_callback (callback : zval) : O unit :=
  ok ← call_header_callback callback;
  if ok : bool then mret tt else php_error "Could not call the sapi_header_callback".

Fixpoint send_each (hs : list zstr) : O unit :=
  match hs with
  | [] => mret tt
  | h :: hs' => send_header sapi_module (Some h);; send_each hs'
  end.

Definition do_send : O unit :=
  h ← gets the_headers;
  send_header sapi_module (Some (match http_status_line h with
                                 | Some l => l
                                 | None => "HTTP/1.0 " ++ dec_of_Z (http_response_code h) ++ " X"
                                 end));;
  send_each (headers h);;
  s ← gets id;
  (if send_default_content_type (the_headers s)
   then send_header sapi_module (Some (sapi_get_default_content_type_header (sg s))) else mret tt);;
  send_header sapi_module None.

(** The default content type becomes a header like the others. *)
Definition add_default_content_type : O unit :=
  s ← gets id;
  if send_default_content_type (the_headers s) && bool_decide (is_Some (send_headers sapi_module)) then
    let default_mimetype := get_default_content_type (sg s) in
    (if bool_decide (default_mimetype = []) then mret tt
     else on_headers (λ h, h <| mimetype := Some default_mimetype |>);;
          sapi_header_add_op SAPI_HEADER_ADD ("Content-type: " ++ default_mimetype));;
    on_headers (λ h, h <| send_default_content_type := false |>)
  else mret tt.

Definition run_callback : O unit :=
  callback ← gets (λ s, callback_func (sg s));
  match callback with
  | Some cb => on_sg (λ g, g <| callback_func := None |>);; sapi_run_header_callback cb
  | None => mret tt
  end.

Definition sapi_send_headers_free : O unit := on_headers (λ h, h <| http_status_line := None |>).

Definition sapi_send_headers : O bool :=
  g ← gets sg;
  if headers_sent g || no_headers g then mret true
  else
    add_default_content_type;;
    run_callback;;
    on_sg (λ g, g <| headers_sent := true |>);;
    retval ← match send_headers sapi_module with Some send => send | None => mret SAPI_HEADER_DO_SEND end;
    ret ← match retval with
          | SAPI_HEADER_SENT_SUCCESSFULLY => mret true
          | SAPI_HEADER_DO_SEND => do_send;; mret true
          | SAPI_HEADER_SEND_FAILED => on_sg (λ g, g <| headers_sent := false |>);; mret false
          end;
    sapi_send_headers_free;; mret ret.

(** [php_header] of [ext/standard/head.c]: whether a body may be sent. *)
Definition php_header : O bool :=
  sent ← sapi_send_headers;
  only ← gets (λ s, headers_only (sg s));
  mret (sent && negb only).

(** [header_register_callback] *)
Definition header_register_callback (callback : zval) (callable : bool) : O bool :=
  if callable then on_sg (λ g, g <| callback_func := Some callback |>);; mret true else mret false.

(** [sapi_activate], of the headers; the module's own activation comes after it. *)
Definition sapi_activate (method : option zstr) : O unit :=
  on_headers (λ h, h <| headers := [] |> <| send_default_content_type := true |> <| http_status_line := None |>
                     <| mimetype := None |>);;
  on_sg (λ g, g <| headers_sent := false |> <| callback_func := None |> <| no_headers := false |>
                <| proto_num := 1000%Z |> <| request_method := method |>
                <| headers_only := bool_decide (method = Some ("HEAD" : zstr)) |>).

(** [sapi_deactivate], of the headers *)
Definition sapi_deactivate : O unit :=
  on_headers (λ h, h <| headers := [] |> <| mimetype := None |>);;
  sapi_send_headers_free;;
  on_sg (λ g, g <| headers_sent := false |>).

End sapi.

(** ** The CGI server *)

(** [http_status_map] of [main/http_status_codes.h] *)
Definition http_status_map : list (Z * zstr) := [
    (100%Z, "Continue"); (101%Z, "Switching Protocols"); (200%Z, "OK"); (201%Z, "Created");
    (202%Z, "Accepted"); (203%Z, "Non-Authoritative Information"); (204%Z, "No Content");
    (205%Z, "Reset Content"); (206%Z, "Partial Content"); (300%Z, "Multiple Choices");
    (301%Z, "Moved Permanently"); (302%Z, "Found"); (303%Z, "See Other"); (304%Z, "Not Modified");
    (305%Z, "Use Proxy"); (307%Z, "Temporary Redirect"); (308%Z, "Permanent Redirect");
    (400%Z, "Bad Request"); (401%Z, "Unauthorized"); (402%Z, "Payment Required");
    (403%Z, "Forbidden"); (404%Z, "Not Found"); (405%Z, "Method Not Allowed");
    (406%Z, "Not Acceptable"); (407%Z, "Proxy Authentication Required");
    (408%Z, "Request Timeout"); (409%Z, "Conflict"); (410%Z, "Gone"); (411%Z, "Length Required");
    (412%Z, "Precondition Failed"); (413%Z, "Request Entity Too Large");
    (414%Z, "Request-URI Too Long"); (415%Z, "Unsupported Media Type");
    (416%Z, "Requested Range Not Satisfiable"); (417%Z, "Expectation Failed");
    (426%Z, "Upgrade Required"); (428%Z, "Precondition Required"); (429%Z, "Too Many Requests");
    (431%Z, "Request Header Fields Too Large"); (451%Z, "Unavailable For Legal Reasons");
    (500%Z, "Internal Server Error"); (501%Z, "Not Implemented"); (502%Z, "Bad Gateway");
    (503%Z, "Service Unavailable"); (504%Z, "Gateway Timeout");
    (505%Z, "HTTP Version Not Supported"); (506%Z, "Variant Also Negotiates");
    (511%Z, "Network Authentication Required") ].

Definition SAPI_CGI_MAX_HEADER_LENGTH : nat := 1024.

(** [slprintf] into a buffer: what fits, with room for a NUL. *)
Definition slprintf (size : nat) (s : zstr) : zstr := take (size - 1) s.

(** [CGIG] *)
Record cgi_globals := CgiGlobals {
  nph : bool;
  rfc2616_headers : bool;
}.

Section cgi.
Context (cgig : cgi_globals).

(** [sapi_cgi_ub_write], to a connection that takes everything. *)
Definition sapi_cgi_ub_write (str : zstr) : O unit := modify (λ s, s <| wire := wire s ++ str |>).

(** [php_output_direct], once the output layer has been started. *)
Definition php_output_stdout (str : zstr) : O unit := modify (λ s, s <| stdout := stdout s ++ str |>).

(** [PHPWRITE_H] *)
Definition php_output_write_unbuffered (str : zstr) : O unit :=
  f ← gets (λ s, og_flags (og s));
  if has f PHP_OUTPUT_ACTIVATED then sapi_cgi_ub_write str else php_output_stdout str.

Definition status_header (h : zstr) : bool := bool_decide (7 < length h) && strncasecmp0 h "Status:" 7.
Definition content_type_line (h : zstr) : bool := bool_decide (13 < length h) && strncasecmp0 h "Content-Type:" 13.

(** From the first blank of a status line on. *)
Definition after_protocol (l : zstr) : option (nat * zstr) :=
  match break (ceq " ") (cstr l) with
  | (p, r) => match r with [] => None | _ => Some (length p, r) end
  end.

(** The status that goes by the code, unless the script has set one. *)
Definition status_by_code (h : sapi_headers_struct) : option zstr :=
  let code := http_response_code h in
  if existsb status_header (headers h) then None
  else Some ("Status: " ++ dec_of_Z code ++ match list_find (λ p, p.1 = code) http_status_map with
                                            | Some (_, (_, str)) => " " ++ str
                                            | None => []
                                            end).

(** The first line without its end, unless the script has set one, and the code that the
    rest goes by. *)
Definition cgi_status (h : sapi_headers_struct) : option (option zstr * Z) :=
  let code := http_response_code h in
  match (if rfc2616_headers cgig then http_status_line h else None), http_status_line h with
  | Some l, _ =>
      status ← match after_protocol l with Some (_, s) => atoi (drop 1 s) | None => Some code end;
      Some (Some (cstr l), status)
  | None, sl =>
      match (l ← sl; s ← after_protocol l;
             if bool_decide (5 ≤ s.1) && strncasecmp0 l "HTTP/" 5 then Some s.2 else None) with
      | Some s => status ← atoi (drop 1 s); Some (Some ("Status:" ++ s), status)
      | None => Some (status_by_code h, code)
      end
  end.

(** The headers: no empty one, one status, and no content type where nothing has changed. *)
Fixpoint cgi_send_each (response_status : Z) (ignore_status : bool) (hs : list zstr) : O unit :=
  match hs with
  | [] => mret tt
  | h :: hs' =>
      if bool_decide (h = []) then cgi_send_each response_status ignore_status hs'
      else if status_header h then
        (if ignore_status then mret tt
         else php_output_write_unbuffered h;; php_output_write_unbuffered CRLF);;
        cgi_send_each response_status true hs'
      else if (response_status =? 304)%Z && content_type_line h then cgi_send_each response_status ignore_status hs'
      else
        php_output_write_unbuffered h;; php_output_write_unbuffered CRLF;;
        cgi_send_each response_status ignore_status hs'
  end.

Definition sapi_cgi_send_headers : O send_result :=
  s ← gets id;
  if no_headers (sg s) then mret SAPI_HEADER_SENT_SUCCESSFULLY
  else
    let h := the_headers s in
    status ← (if nph cgig || negb (http_response_code h =? 200)%Z then lift (cgi_status h)
              else mret (None, http_response_code h));
    let '(line, response_status) := status in
    match line with
    | Some l => php_output_write_unbuffered (slprintf SAPI_CGI_MAX_HEADER_LENGTH (l ++ CRLF))
    | None => mret tt
    end;;
    cgi_send_each response_status (bool_decide (is_Some line)) (headers h);;
    php_output_write_unbuffered CRLF;;
    mret SAPI_HEADER_SENT_SUCCESSFULLY.

Definition cgi_sapi_module : sapi_module_struct :=
  {| ub_write := sapi_cgi_ub_write; header_handler := None;
     send_headers := Some sapi_cgi_send_headers; send_header := λ _, undefined |}.

End cgi.

(** ** No header holds a line break

    Whatever a script passes, the lines that are kept for the head of the response are
    single lines, if the default type and character set of the configuration are. *)

Lemma slprintf_fits n s : length s < n → slprintf n s = s.
Proof. intros Hl. unfold slprintf. apply take_ge. lia. Qed.

Abbreviation clean l := (bad_byte l = None).

Lemma clean_forall l : clean l ↔ Forall (λ c, ¬ (c = ascii_of_nat 10 ∨ c = ascii_of_nat 13 ∨ c = NUL)) l.
Proof.
  unfold bad_byte. rewrite fmap_None, list_find_None. done.
Qed.

Lemma clean_app a b : clean (a ++ b) ↔ clean a ∧ clean b.
Proof. rewrite !clean_forall. apply Forall_app. Qed.

Lemma clean_sublist a b : a `sublist_of` b → clean b → clean a.
Proof.
  rewrite !clean_forall, !Forall_forall. intros Hs Hb c Hc. apply Hb. by eapply elem_of_submseteq, sublist_submseteq.
Qed.

Lemma clean_line_no_nul a : clean a → no_nul a.
Proof. rewrite clean_forall. intros Ha. eapply Forall_impl; [exact Ha|]. intros c Hc ->. apply Hc. auto. Qed.

Lemma drop_while_sublist (p : ascii → bool) l : drop_while p l `sublist_of` l.
Proof. induction l as [|c l IH]; [done|]. cbn. case_match; [by apply sublist_cons|done]. Qed.

(** A status line also has a number for a code, as far as it has one. *)
Definition status_ok (l : zstr) : Prop :=
  clean l ∧ l ≠ [] ∧ ∀ p s, after_protocol l = Some (p, s) → is_Some (atoi (drop 1 s)).

Record clean_state (s : srv) : Prop := CleanState {
  clean_lines : Forall (λ h, clean h) (headers (the_headers s));
  clean_status : from_option status_ok True (http_status_line (the_headers s));
  clean_charset : clean (cstr (default SAPI_DEFAULT_CHARSET (default_charset (sg s))));
  clean_mimetype : clean (cstr (default SAPI_DEFAULT_MIMETYPE (default_mimetype (sg s))));
}.

Lemma cstr_clean l : clean l → cstr l = l.
Proof. intros Hl. by apply cstr_no_nul, clean_line_no_nul. Qed.

Lemma atoi_blank r : atoi (" "%char :: r) = atoi r.
Proof. done. Qed.

Lemma extract_blank r n : sapi_extract_response_code (" "%char :: r) = Some n → is_Some (atoi r).
Proof.
  induction r as [|c r IH]; [done|]. cbn [sapi_extract_response_code head].
  change (ceq " " " ") with true. cbn [andb]. case_bool_decide as Ec; [|by eexists].
  injection Ec as ->. rewrite atoi_blank. cbn [negb]. exact IH.
Qed.

(** The code that is taken from a status line is the one that is read from it later. *)
Lemma extract_status l n : clean l → l ≠ [] → sapi_extract_response_code l = Some n → status_ok l.
Proof.
  intros Hl Hne Hn. do 2 (split; [done|]). clear Hne. intros p s. unfold after_protocol. rewrite (cstr_clean l Hl).
  clear Hl. revert p s. induction l as [|c l IH]; [done|]. intros p s. cbn [break].
  destruct (ceq " " c) eqn:Ec.
  - apply bool_decide_eq_true in Ec as <-. intros [= <- <-]. by eapply extract_blank.
  - cbn [sapi_extract_response_code] in Hn.
    assert (ceq c " " = false) as Ec' by (unfold ceq in *; rewrite bool_decide_eq_false in *; congruence).
    rewrite Ec' in Hn. cbn in Hn. specialize (IH Hn). destruct (break (ceq " ") l) as [a [|b r]]; [done|].
    intros [= <- <-]. by eapply IH.
Qed.

Section clean_ops.
Context (sapi_module : sapi_module_struct) (call_header_callback : zval → O bool).
Context (Hhandler : ∀ f h op, header_handler sapi_module = Some f → preserves clean_state (f h op)).
Context (Hcallback : ∀ cb, preserves clean_state (call_header_callback cb)).

Lemma clean_on_headers f :
  (∀ h, Forall (λ x, clean x) (headers h) → Forall (λ x, clean x) (headers (f h))) →
  (∀ h, from_option status_ok True (http_status_line h) → from_option status_ok True (http_status_line (f h))) →
  preserves clean_state (on_headers f).
Proof. intros Hl Hs. apply preserves_modify. intros s []. split; cbn; auto. Qed.

Lemma clean_on_sg f :
  (∀ g, sapi_headers (f g) = sapi_headers g ∧ default_charset (f g) = default_charset g ∧
        default_mimetype (f g) = default_mimetype g) →
  preserves clean_state (on_sg f).
Proof.
  intros Hf. apply preserves_modify. intros s []. unfold the_headers in *.
  destruct (Hf (sg s)) as (E1 & E2 & E3). split; unfold the_headers; cbn [sg upd]; cbn; by rewrite ?E1, ?E2, ?E3.
Qed.

Lemma clean_update_code n : preserves clean_state (sapi_update_response_code n).
Proof. apply clean_on_headers; intros h Hh; case_match; cbn; done. Qed.

Lemma clean_error text : preserves clean_state (php_error text).
Proof. apply preserves_modify. by intros s []. Qed.

Lemma clean_remove nm : preserves clean_state (sapi_remove_header nm).
Proof.
  apply clean_on_headers; [|done]. intros h Hh. cbn. rewrite Forall_forall in *. intros x Hx.
  apply list_elem_of_filter in Hx. naive_solver.
Qed.

(** A computation that keeps the state clean, with what its result is. *)
Definition yields {A} (m : O A) (P : A → Prop) : Prop :=
  ∀ s a s', clean_state s → m s = Some (a, s') → clean_state s' ∧ P a.

Lemma clean_bind {A B} (m : O A) (k : A → O B) P :
  yields m P → (∀ a, P a → preserves clean_state (k a)) → preserves clean_state (m ≫= k).
Proof.
  intros Hm Hk s b s' HI (a & s1 & H1 & H2)%bind_inv. destruct (Hm _ _ _ HI H1). by eapply Hk.
Qed.

Lemma yields_bind {A B} (m : O A) (k : A → O B) P Q :
  yields m P → (∀ a, P a → yields (k a) Q) → yields (m ≫= k) Q.
Proof.
  intros Hm Hk s b s' HI (a & s1 & H1 & H2)%bind_inv. destruct (Hm _ _ _ HI H1). by eapply Hk.
Qed.

Lemma yields_ret {A} (a : A) (P : A → Prop) : P a → yields (mret a) P.
Proof. by intros HP s b s' HI [= <- <-]. Qed.

Lemma yields_preserves {A} (m : O A) : preserves clean_state m → yields m (λ _, True).
Proof. intros Hm s a s' HI E. split; [by eapply Hm|done]. Qed.

Lemma yields_lift {A} (P : A → Prop) (o : option A) : (∀ a, o = Some a → P a) → yields (lift o) P.
Proof. intros HP s a s' HI E. unfold lift in E. destruct o; [|done]. injection E as <- <-. auto. Qed.

Lemma yields_sg :
  yields (gets sg) (λ g, clean (cstr (default SAPI_DEFAULT_CHARSET (default_charset g))) ∧
                         clean (cstr (default SAPI_DEFAULT_MIMETYPE (default_mimetype g)))).
Proof. intros s a s' HI [= <- <-]. split; [done|]. by destruct HI. Qed.

Lemma clean_add_op op h : clean h → preserves clean_state (sapi_header_add_op sapi_module op h).
Proof.
  intros Hh. unfold sapi_header_add_op. apply preserves_bind.
  { case_match; [by eapply Hhandler|apply preserves_ret]. }
  intros [|]; [|apply preserves_ret]. apply preserves_bind.
  - destruct (break _ h) as [nm [|c r]]; destruct op; auto using preserves_ret, clean_remove.
  - intros _. apply clean_on_headers; [|done]. intros hs Hhs. cbn. apply Forall_app. split; [done|]. by constructor.
Qed.

Lemma clean_content_type h v :
  clean h → clean v → yields (content_type_header h v) (λ x, clean x).
Proof.
  intros Hh Hv. eapply yields_bind; [apply yields_sg|]. intros g [Hc _].
  eapply yields_bind; [apply yields_preserves|intros _ _].
  { case_match; [by apply clean_on_sg|apply preserves_ret]. }
  eapply yields_bind; [apply yields_preserves; by apply clean_on_headers|intros _ _].
  apply yields_ret. unfold sapi_apply_default_charset. case_match eqn:E; [|done].
  case_match; [|done]. injection E as <-.
  assert (clean (drop_while (ceq " ") v)) by (eapply clean_sublist; [apply drop_while_sublist|done]).
  apply clean_app. split; [done|]. apply clean_app. split; [done|]. by apply (clean_app ";charset=").
Qed.

Lemma clean_special h code : clean h → yields (special_header h code) (λ x, clean x).
Proof.
  intros Hh. unfold special_header. pose proof (break_app (ceq ":") h) as Hb.
  destruct (break (ceq ":") h) as [nm [|c v]]; [by apply yields_ret|]. cbn [fst snd] in Hb.
  assert (clean v) by (rewrite <-Hb in Hh; apply clean_app in Hh as [_ Hh];
    eapply clean_sublist; [|exact Hh]; by apply sublist_cons).
  repeat case_match; try (by apply clean_content_type); try (by apply yields_ret);
    (eapply yields_bind; [apply yields_preserves|intros ? _; try (by apply yields_ret)]); auto using clean_update_code.
  - by apply clean_on_sg.
  - apply preserves_gets.
  - eapply yields_bind; [apply yields_preserves|intros _ _; by apply yields_ret].
    case_match; auto using clean_update_code, preserves_ret.
Qed.

Lemma clean_set op h code : preserves clean_state (set_header sapi_module op h code).
Proof.
  unfold set_header. destruct (bad_byte h) eqn:Eh.
  { apply preserves_bind; [apply clean_error|intros _; apply preserves_ret]. }
  case_match.
  - eapply clean_bind; [apply (yields_lift (λ n, sapi_extract_response_code h = Some n)); naive_solver|].
    intros n Hn. apply preserves_bind; [apply clean_update_code|intros _].
    apply preserves_bind; [|intros _; apply preserves_ret].
    apply clean_on_headers; [done|]. intros ? _. apply (extract_status h n Eh); [|exact Hn]. by destruct h.
  - eapply clean_bind; [by apply clean_special|]. intros x Hx. apply preserves_bind.
    { case_match; auto using preserves_ret, clean_update_code. }
    intros _. apply preserves_bind; [by apply clean_add_op|intros _; apply preserves_ret].
Qed.

Lemma clean_delete h : preserves clean_state (delete_header sapi_module h).
Proof.
  unfold delete_header. case_bool_decide.
  { apply preserves_bind; [apply clean_error|intros _; apply preserves_ret]. }
  apply preserves_bind.
  - case_match; [|apply preserves_ret]. apply preserves_bind; [by eapply Hhandler|intros _; apply preserves_ret].
  - intros _. apply preserves_bind; [apply clean_remove|intros _; apply preserves_ret].
Qed.

Lemma clean_header_op op line code : preserves clean_state (sapi_header_op sapi_module op line code).
Proof.
  unfold sapi_header_op. apply preserves_bind; [apply preserves_gets|intros s]. case_match.
  { apply preserves_bind; [apply clean_error|intros _; apply preserves_ret]. }
  destruct op; [| | | |]; try case_bool_decide; auto using preserves_ret, clean_set, clean_delete.
  - apply preserves_bind.
    + case_match; [|apply preserves_ret]. apply preserves_bind; [by eapply Hhandler|intros _; apply preserves_ret].
    + intros _. apply preserves_bind; [by apply clean_on_headers|intros _; apply preserves_ret].
  - apply preserves_bind; [apply clean_update_code|intros _; apply preserves_ret].
Qed.

Lemma clean_header_call c : preserves clean_state (run_header_call sapi_module c).
Proof.
  destruct c as [line rep code|[nm|]|code]; cbn [run_header_call header_remove];
    apply preserves_bind; try (by apply clean_header_op); try (intros _; apply preserves_ret).
  unfold php_http_response_code. apply preserves_bind; [apply preserves_gets|intros old].
  case_match; [apply preserves_ret|]. apply preserves_bind; [by apply clean_on_headers|intros _; apply preserves_ret].
Qed.
End clean_ops.

(** ** The head of a response on the wire *)

(** A client's reading of a head: lines up to an empty one, and what follows. *)
Fixpoint read_head (cur : zstr) (w : zstr) : option (list zstr * zstr) :=
  match w with
  | [] => None
  | c :: w' =>
      match ceq c (ascii_of_nat 13), w' with
      | true, d :: w'' =>
          if ceq d (ascii_of_nat 10) then
            match cur with
            | [] => Some ([], w'')
            | _ => r ← read_head [] w''; Some (cur :: r.1, r.2)
            end
          else read_head (cur ++ [c]) w'
      | _, _ => read_head (cur ++ [c]) w'
      end
  end.

Definition crlf_lines (ls : list zstr) : zstr := mjoin ((λ l, l ++ CRLF) <$> ls).

Lemma crlf_lines_cons l ls : crlf_lines (l :: ls) = l ++ CRLF ++ crlf_lines ls.
Proof. unfold crlf_lines. cbn. by rewrite <-(assoc_L (++)). Qed.

Lemma read_head_line l cur w : clean l → read_head cur (l ++ w) = read_head (cur ++ l) w.
Proof.
  rewrite clean_forall. intros Hl. revert cur. induction Hl as [|c l Hc Hl IH]; intros cur.
  { by rewrite (right_id_L [] (++)). }
  cbn [Datatypes.app read_head]. unfold ceq at 1. rewrite bool_decide_false by tauto.
  rewrite IH. by rewrite <-(assoc_L (++)).
Qed.

Lemma read_head_lines ls body :
  Forall (λ l, clean l ∧ l ≠ []) ls → read_head [] (crlf_lines ls ++ CRLF ++ body) = Some (ls, body).
Proof.
  induction 1 as [|l ls [Hl Hne] _ IH]; [done|].
  rewrite crlf_lines_cons, <-!(assoc_L (++)), read_head_line by done. cbn [Datatypes.app].
  destruct l as [|c l]; [done|]. cbn in IH. cbn. rewrite IH. done.
Qed.

(** What the CGI server writes of a list of headers. *)
Fixpoint cgi_lines (response_status : Z) (ignore_status : bool) (hs : list zstr) : list zstr :=
  match hs with
  | [] => []
  | h :: hs' =>
      if bool_decide (h = []) then cgi_lines response_status ignore_status hs'
      else if status_header h then
        (if ignore_status then [] else [h]) ++ cgi_lines response_status true hs'
      else if (response_status =? 304)%Z && content_type_line h then cgi_lines response_status ignore_status hs'
      else h :: cgi_lines response_status ignore_status hs'
  end.

Lemma cgi_lines_incl status ignore hs : ∀ l, l ∈ cgi_lines status ignore hs → l ∈ hs ∧ l ≠ [].
Proof.
  revert ignore. induction hs as [|h hs IH]; intros ignore l; [intros Hl; by apply elem_of_nil in Hl|].
  cbn [cgi_lines]. case_bool_decide as Eh; [intros Hl%IH; set_solver|].
  destruct (status_header h); [destruct ignore; cbn [Datatypes.app]; rewrite ?elem_of_cons; intros Hl|
    case_match; rewrite ?elem_of_cons; intros Hl]; repeat (destruct Hl as [->|Hl]); try apply IH in Hl; set_solver.
Qed.

Definition activated (s : srv) : Prop := has (og_flags (og s)) PHP_OUTPUT_ACTIVATED = true.
Definition written (t : zstr) (s : srv) : srv := s <| wire := wire s ++ t |>.

Lemma written_written a b s : written b (written a s) = written (a ++ b) s.
Proof. unfold written. cbn. by rewrite (assoc_L (++)). Qed.
Lemma written_nil s : written [] s = s.
Proof. unfold written. rewrite (right_id_L [] (++)). by destruct s. Qed.

Lemma write_unbuffered_run t s : activated s → php_output_write_unbuffered t s = Some (tt, written t s).
Proof. intros Ha. unfold php_output_write_unbuffered. st_run. by rewrite Ha. Qed.

Lemma cgi_send_each_run status ignore hs s :
  activated s →
  cgi_send_each status ignore hs s = Some (tt, written (crlf_lines (cgi_lines status ignore hs)) s).
Proof.
  intros Ha. revert ignore s Ha. induction hs as [|h hs IH]; intros ignore s Ha; cbn [cgi_send_each cgi_lines].
  { by rewrite written_nil. }
  case_bool_decide; [by apply IH|]. destruct (status_header h); [destruct ignore|case_match].
  - rewrite bind_ret. by apply IH.
  - rewrite bind_assoc, (bind_runs _ _ _ _ _ (write_unbuffered_run h s Ha)).
    rewrite (bind_runs _ _ _ _ _ (write_unbuffered_run CRLF (written h s) Ha)), IH by done.
    rewrite !written_written. cbn [Datatypes.app]. by rewrite crlf_lines_cons, ?(assoc_L (++)).
  - by apply IH.
  - rewrite (bind_runs _ _ _ _ _ (write_unbuffered_run h s Ha)).
    rewrite (bind_runs _ _ _ _ _ (write_unbuffered_run CRLF (written h s) Ha)), IH by done.
    rewrite !written_written. by rewrite crlf_lines_cons, ?(assoc_L (++)).
Qed.

Lemma clean_dec n : clean (dec_of_Z n).
Proof.
  rewrite clean_forall. eapply Forall_impl; [apply dec_chars|].
  intros c Hc H. repeat destruct H as [->|H]; try subst c; destruct Hc as [Hc|Hc]; by vm_compute in Hc.
Qed.

Lemma status_texts_clean : Forall (λ p : Z * zstr, clean p.2) http_status_map.
Proof. decided. Qed.

Section cgi_head.
Context (cgig : cgi_globals).

Lemma after_protocol_clean l p s : clean l → after_protocol l = Some (p, s) → clean s.
Proof.
  intros Hl. unfold after_protocol. rewrite (cstr_clean l Hl). pose proof (break_app (ceq " ") l) as Hb.
  destruct (break (ceq " ") l) as [a [|b r]]; [done|]. intros [= <- <-]. cbn [fst snd] in Hb.
  rewrite <-Hb in Hl. by apply clean_app in Hl as [_ Hl].
Qed.

Lemma status_by_code_ok h : from_option (λ l, clean l ∧ l ≠ []) True (status_by_code h).
Proof.
  unfold status_by_code. case_match; [done|]. split; [|done]. apply (clean_app "Status: "). split; [done|].
  apply clean_app. split; [apply clean_dec|]. destruct (list_find _ _) as [[i [c str]]|] eqn:E; [|done].
  apply list_find_Some in E as (Hi & _ & _). apply (clean_app " "). split; [done|].
  exact (Forall_lookup_1 _ _ _ _ status_texts_clean Hi).
Qed.

(** The first line is there, and it is one line. *)
Lemma cgi_status_ok s :
  clean_state s →
  ∃ line code, cgi_status cgig (the_headers s) = Some (line, code) ∧
    from_option (λ l, clean l ∧ l ≠ []) True line.
Proof.
  intros [_ Hs _ _].
  assert (no_status_line : ∃ line code, Some (status_by_code (the_headers s), http_response_code (the_headers s)) =
    Some (line, code) ∧ from_option (λ l, clean l ∧ l ≠ []) True line).
  { eexists _, _. split; [done|]. apply status_by_code_ok. }
  unfold cgi_status. set (h := the_headers s) in *.
  destruct (http_status_line h) as [l|]; [|clear Hs].
  - destruct Hs as (Hl & Hne & Hcode). destruct (rfc2616_headers cgig).
    + rewrite (cstr_clean l Hl). destruct (after_protocol l) as [[p t]|] eqn:E.
      * destruct (Hcode p t eq_refl) as [n ->]. by eexists _, _.
      * by eexists _, _.
    + cbn [option_bind mbind]. destruct (after_protocol l) as [[p t]|] eqn:E; cbn [option_bind mbind].
      * cbn [fst snd]. destruct (_ && _); [|exact no_status_line].
        cbn. destruct (Hcode p t eq_refl) as [n ->]. eexists _, _. split; [done|]. split; [|done].
        apply (clean_app "Status:"). split; [done|]. by eapply after_protocol_clean.
      * exact no_status_line.
  - destruct (rfc2616_headers cgig); exact no_status_line.
Qed.

(** The lines of the head. *)
Definition head_of (h : sapi_headers_struct) : option (list zstr) :=
  '(line, code) ← (if nph cgig || negb (http_response_code h =? 200)%Z then cgi_status cgig h
                   else Some (None, http_response_code h));
  Some (option_list line ++ cgi_lines code (bool_decide (is_Some line)) (headers h)).

(** The first line goes through a buffer, into which it fits with its end. *)
Definition status_fits (h : sapi_headers_struct) : Prop :=
  ∀ line code, cgi_status cgig h = Some (Some line, code) → length line + 3 ≤ SAPI_CGI_MAX_HEADER_LENGTH.

Definition line_ok (l : zstr) : Prop := clean l ∧ l ≠ [].

Lemma cgi_lines_ok code ignore s :
  clean_state s → Forall line_ok (cgi_lines code ignore (headers (the_headers s))).
Proof.
  intros [Hl _ _ _]. apply Forall_forall. intros l [Hin Hne]%cgi_lines_incl. split; [|done].
  by eapply (proj1 (Forall_forall _ _) Hl).
Qed.

Lemma head_write line code s :
  activated s → from_option (λ l, length l + 3 ≤ SAPI_CGI_MAX_HEADER_LENGTH) True line →
  (match line with
   | Some l => php_output_write_unbuffered (slprintf SAPI_CGI_MAX_HEADER_LENGTH (l ++ CRLF))
   | None => mret tt
   end;;
   cgi_send_each code (bool_decide (is_Some line)) (headers (the_headers s));;
   php_output_write_unbuffered CRLF;;
   mret SAPI_HEADER_SENT_SUCCESSFULLY) s =
  Some (SAPI_HEADER_SENT_SUCCESSFULLY,
    written (crlf_lines (option_list line ++ cgi_lines code (bool_decide (is_Some line)) (headers (the_headers s))) ++ CRLF) s).
Proof.
  intros Ha Hfits. set (hs := headers (the_headers s)).
  set (first := match line with Some l => l ++ CRLF | None => [] end).
  assert (Hfirst : ∀ k : unit → O send_result, (match line with
     | Some l => php_output_write_unbuffered (slprintf SAPI_CGI_MAX_HEADER_LENGTH (l ++ CRLF))
     | None => mret tt end ≫= k) s = k tt (written first s)).
  { intros k. destruct line as [l|]; [|by rewrite bind_ret, written_nil].
    unfold slprintf. rewrite take_ge; [by rewrite (bind_runs _ _ _ _ _ (write_unbuffered_run (l ++ CRLF) s Ha))|].
    cbn [from_option] in Hfits. rewrite length_app. cbn [length CRLF]. lia. }
  rewrite Hfirst.
  rewrite (bind_runs _ _ _ _ _ (cgi_send_each_run code (bool_decide (is_Some line)) hs (written first s) Ha)).
  rewrite written_written.
  rewrite (bind_runs _ _ _ _ _ (write_unbuffered_run CRLF (written _ s) Ha)), written_written.
  unfold mret, St_ret. do 3 f_equal. f_equal. subst first. destruct line as [l|]; [|done].
  change (option_list (Some l) ++ ?t) with (l :: t). by rewrite crlf_lines_cons, ?(assoc_L (++)).
Qed.

Lemma cgi_send_run s :
  clean_state s → activated s → no_headers (sg s) = false → status_fits (the_headers s) →
  ∃ ls, head_of (the_headers s) = Some ls ∧ Forall line_ok ls ∧
    sapi_cgi_send_headers cgig s = Some (SAPI_HEADER_SENT_SUCCESSFULLY, written (crlf_lines ls ++ CRLF) s).
Proof.
  intros Hc Ha Hn Hfits. unfold sapi_cgi_send_headers, head_of. st_run. unfold id. rewrite Hn.
  destruct (nph cgig || negb (http_response_code (the_headers s) =? 200)%Z).
  - destruct (cgi_status_ok s Hc) as (line & code & E & Hline). rewrite E. rewrite bind_lift_Some.
    eexists. split; [done|]. split.
    + apply Forall_app. split; [|by apply cgi_lines_ok]. destruct line as [l|]; [|done]. by constructor.
    + apply head_write; [done|]. destruct line as [l|]; [|done]. by eapply Hfits.
  - rewrite bind_ret. eexists. split; [done|]. split; [by apply cgi_lines_ok|]. by apply (head_write None).
Qed.

(** The headers as they are sent, with the default content type. *)
Definition to_send (g : sapi_globals_struct) : sapi_headers_struct :=
  let h := sapi_headers g in
  if send_default_content_type h then
    (if bool_decide (get_default_content_type g = []) then h
     else h <| mimetype := Some (get_default_content_type g) |>
            <| headers := headers h ++ [("Content-type: " : zstr) ++ get_default_content_type g] |>)
    <| send_default_content_type := false |>
  else h.

Lemma add_default_run s :
  add_default_content_type (cgi_sapi_module cgig) s =
  Some (tt, s <| sg := (sg s) <| sapi_headers := to_send (sg s) |> |>).
Proof.
  unfold add_default_content_type, to_send. st_run. unfold id, the_headers.
  destruct (send_default_content_type _) eqn:E; cbn [andb].
  - change (bool_decide (is_Some (send_headers (cgi_sapi_module cgig)))) with true. cbv iota.
    case_bool_decide; [by rewrite bind_ret|]. unfold sapi_header_add_op. cbn [header_handler cgi_sapi_module].
    unfold on_headers, on_sg. by st_run.
  - by destruct s as [[] ? ? ? ? ?].
Qed.

Lemma default_content_type_clean s : clean_state s → clean (get_default_content_type (sg s)).
Proof.
  intros [_ _ Hc Hm]. unfold get_default_content_type. case_match; [|done].
  apply clean_app. split; [done|]. apply (clean_app "; charset="). by split.
Qed.

Lemma to_send_clean s : clean_state s → clean_state (s <| sg := (sg s) <| sapi_headers := to_send (sg s) |> |>).
Proof.
  intros Hs. pose proof (default_content_type_clean s Hs) as Hd. destruct Hs as [Hl Hst Hc Hm].
  unfold the_headers in *. split; try done; unfold the_headers; cbn [sg upd sapi_headers]; cbn; unfold to_send;
    (destruct (send_default_content_type _); [case_bool_decide; [done|]|done]); try done.
  cbn. apply Forall_app. split; [done|]. apply Forall_singleton. apply (clean_app "Content-type: "). by split.
Qed.

(** What is left when the head has been sent. *)
Definition after_send (ls : list zstr) (s : srv) : srv :=
  written (crlf_lines ls ++ CRLF)
    (s <| sg := (sg s) <| sapi_headers := (to_send (sg s)) <| http_status_line := None |> |> <| headers_sent := true |> |>).

(** The head is about to be sent by the CGI server, to which nothing stands in the way. *)
Record sendable (s : srv) : Prop := Sendable {
  sendable_clean : clean_state s;
  sendable_activated : activated s;
  sendable_sent : headers_sent (sg s) = false;
  sendable_headers : no_headers (sg s) = false;
  sendable_callback : callback_func (sg s) = None;
  sendable_fits : status_fits (to_send (sg s));
}.

Lemma send_headers_run call_header_callback s :
  sendable s →
  ∃ ls, head_of (to_send (sg s)) = Some ls ∧ Forall line_ok ls ∧
    sapi_send_headers (cgi_sapi_module cgig) call_header_callback s = Some (true, after_send ls s).
Proof.
  intros [Hc Ha Hs Hn Hcb Hfits]. unfold sapi_send_headers. st_run. rewrite Hs, Hn. cbn [orb].
  rewrite (bind_runs _ _ _ _ _ (add_default_run s)). unfold run_callback. st_run.
  cbn [sg upd callback_func]. cbn. rewrite Hcb. unfold on_sg. st_run.
  set (s1 := (_ <| sg := _ |>)) at 1.
  destruct (cgi_send_run s1) as (ls & Els & Hls & Hrun); [|done..|].
  { apply to_send_clean in Hc. by destruct Hc. }
  exists ls. split; [done|]. split; [done|]. rewrite (bind_runs _ _ _ _ _ Hrun). unfold sapi_send_headers_free, on_headers, on_sg.
  st_run. done.
Qed.
End cgi_head.

(** ** Headers by their names *)

Definition same_name (a b : zstr) : bool := zend_string_equals_ci a b.
Definition values (nm : zstr) (hs : list zstr) : list zstr := filter (λ h, header_named nm h = true) hs.
(** A name, with neither a colon nor a NUL. *)
Definition name_ok (nm : zstr) : Prop := no_nul nm ∧ ":"%char ∉ nm.

Lemma tolower_colon c : tolower c = ":"%char → c = ":"%char.
Proof. destruct c as [[] [] [] [] [] [] [] []]; vm_compute; done. Qed.

Lemma no_colon_lower a b : zend_str_tolower a = zend_str_tolower b → ":"%char ∉ b → ":"%char ∉ a.
Proof.
  intros E Hb Ha. apply Hb.
  assert (Hl : ":"%char ∈ zend_str_tolower a) by (apply (list_elem_of_fmap_2 tolower a ":"%char Ha)).
  rewrite E in Hl. apply list_elem_of_fmap in Hl as (c & Ec & Hc). by rewrite <-(tolower_colon c (eq_sym Ec)).
Qed.

Lemma break_colon a v : ":"%char ∉ a → break (ceq ":") (a ++ (":"%char :: v)) = (a, ":"%char :: v).
Proof.
  intros Ha. apply break_at; [|done]. apply Forall_forall. intros c Hc. unfold ceq.
  apply bool_decide_eq_false. intros <-. done.
Qed.

Lemma named_spec nm h :
  name_ok nm → clean h →
  header_named nm h = true ↔
  ∃ p v, h = p ++ (":"%char :: v) ∧ (":"%char ∉ p) ∧ zend_str_tolower p = zend_str_tolower nm.
Proof.
  intros [Hn Hc] Hh. unfold header_named. rewrite !andb_true_iff, !bool_decide_eq_true. unfold strncasecmp0.
  rewrite bool_decide_eq_true, (cstr_clean h Hh), (cstr_no_nul nm Hn), (take_ge nm) by lia. split.
  - intros [[Hl Hk] E]. exists (take (length nm) h), (drop (S (length nm)) h).
    split; [|split; [by eapply no_colon_lower|done]]. by rewrite <-(take_drop_middle _ _ _ Hk) at 1.
  - intros (p & v & -> & Hp & E). assert (length p = length nm) as Hl.
    { apply (f_equal length) in E. unfold zend_str_tolower in E. by rewrite !length_map in E. }
    rewrite <-Hl, length_app. cbn [length]. rewrite take_app_length, lookup_app_r, Nat.sub_diag by lia.
    split; [split; [lia|done]|done].
Qed.

Lemma named_line nm v other :
  name_ok nm → name_ok other → clean (nm ++ (":"%char :: v)) →
  header_named other (nm ++ (":"%char :: v)) = same_name nm other.
Proof.
  intros [Hn Hc] Ho Hl. apply eq_true_iff_eq. rewrite named_spec by done. unfold same_name, zend_string_equals_ci.
  rewrite bool_decide_eq_true. split.
  - intros (p & v' & E & Hp & Hlow). pose proof (break_colon nm v Hc) as E1. rewrite E, break_colon in E1 by done.
    by injection E1 as -> _.
  - intros E. by exists nm, v.
Qed.

Lemma named_same a b h :
  name_ok a → name_ok b → clean h → header_named a h = true → header_named b h = same_name a b.
Proof.
  intros Ha Hb Hh Hn. apply (named_spec a h Ha Hh) in Hn as (p & v & -> & Hp & E).
  assert (name_ok p) as Hpo.
  { split; [|done]. apply clean_app in Hh as [Hh _]. by apply clean_line_no_nul. }
  rewrite named_line by done. unfold same_name, zend_string_equals_ci. by rewrite E.
Qed.

Lemma values_removed nm other hs :
  name_ok nm → name_ok other → Forall (λ h, clean h) hs →
  values other (filter (λ x, header_named nm x = false) hs) = if same_name nm other then [] else values other hs.
Proof.
  intros Hn Ho. unfold values. induction 1 as [|h hs Hh _ IH]; [by case_match|].
  rewrite !filter_cons. destruct (header_named nm h) eqn:En; cbn [decide].
  - rewrite (decide_False (P := true = false)) by done. rewrite IH.
    pose proof (named_same nm other h Hn Ho Hh En) as E. destruct (same_name nm other); [done|].
    rewrite E, decide_False by done. done.
  - rewrite decide_True by done. rewrite filter_cons, IH.
    destruct (header_named other h) eqn:Eo; [|done]. rewrite !decide_True by done.
    pose proof (named_same other nm h Ho Hn Hh Eo) as E. rewrite En in E.
    assert (same_name nm other = false) as ->; [|done].
    rewrite E. unfold same_name, zend_string_equals_ci. apply bool_decide_ext. naive_solver.
Qed.

(** The code after a header of this name, where the script asks for none. *)
Definition code_after (g : sapi_globals_struct) (nm : zstr) : Z :=
  let now := http_response_code (sapi_headers g) in
  if same_name nm "Location" then default now (location_code g 0)
  else if same_name nm "WWW-Authenticate" then 401%Z else now.

(** The line [nm: v], which is neither a status line nor a content type. *)
Record header_ok (nm v : zstr) : Prop := HeaderOk {
  header_name : name_ok nm;
  header_clean : clean (nm ++ (":"%char :: v));
  header_trimmed : trim_line (nm ++ (":"%char :: v)) = nm ++ (":"%char :: v);
  header_no_status : strncasecmp0 (nm ++ (":"%char :: v)) "HTTP/" 5 = false;
  header_no_type : same_name nm "Content-Type" = false;
}.

(** [s] with other headers and another code *)
Definition with_headers (hs : list zstr) (code : Z) (s s' : srv) : Prop :=
  ∃ line off, s' = s <| sg := (sg s)
    <| sapi_headers := SapiHeaders hs code (send_default_content_type (the_headers s)) (mimetype (the_headers s)) line |>
    <| compression_off := off |> |> ∧ (line = None ∨ line = http_status_line (the_headers s)).

Lemma with_headers_refl s : with_headers (headers (the_headers s)) (http_response_code (the_headers s)) s s.
Proof.
  exists (http_status_line (the_headers s)), (compression_off (sg s)). split; [|by right]. destruct s as [[[]] ? ? ? ? ?].
  done.
Qed.

Lemma with_headers_trans hs1 hs2 c1 c2 s s1 s2 :
  with_headers hs1 c1 s s1 → with_headers hs2 c2 s1 s2 → with_headers hs2 c2 s s2.
Proof.
  intros (l1 & o1 & -> & H1) (l2 & o2 & -> & H2). exists l2, o2. split; [done|].
  destruct H2 as [->| ->]; [by left|exact H1].
Qed.

Lemma update_code_run n s :
  ∃ s', sapi_update_response_code n s = Some (tt, s') ∧ with_headers (headers (the_headers s)) n s s'.
Proof.
  unfold sapi_update_response_code, on_headers, on_sg, modify. eexists. split; [done|].
  unfold the_headers. destruct (_ =? n)%Z eqn:E.
  - apply Z.eqb_eq in E as <-. exists (http_status_line (the_headers s)), (compression_off (sg s)).
    split; [|by right]. by destruct s as [[[]] ? ? ? ? ?].
  - exists None, (compression_off (sg s)). split; [|by left]. by destruct s as [[[]] ? ? ? ? ?].
Qed.

Lemma compression_run s :
  ∃ s', on_sg (λ g, g <| compression_off := true |>) s = Some (tt, s') ∧
    with_headers (headers (the_headers s)) (http_response_code (the_headers s)) s s'.
Proof.
  unfold on_sg, modify. eexists. split; [done|]. exists (http_status_line (the_headers s)), true.
  split; [|by right]. by destruct s as [[[]] ? ? ? ? ?].
Qed.

(** What the server does for a header of another name than [Content-Type]. *)
Lemma special_run nm v code s :
  header_ok nm v →
  ∃ s' c, special_header (nm ++ (":"%char :: v)) code s = Some (nm ++ (":"%char :: v), s') ∧
    with_headers (headers (the_headers s)) c s s' ∧ (code = 0%Z → c = code_after (sg s) nm).
Proof.
  intros [[_ Hn] _ _ _ Ht]. unfold special_header, code_after. rewrite break_colon by done.
  unfold same_name in *. rewrite Ht. set (line := nm ++ _). clearbody line.
  assert (Hchange : ∀ (m : O unit) c, (∃ s', m s = Some (tt, s') ∧ with_headers (headers (the_headers s)) c s s') →
    ∃ s', (m;; mret line) s = Some (line, s') ∧ with_headers (headers (the_headers s)) c s s').
  { intros m c (s' & E & Hw). exists s'. split; [|done]. by rewrite (bind_runs _ _ _ _ _ E). }
  destruct (zend_string_equals_ci nm "Content-Length") eqn:El.
  { destruct (Hchange _ _ (compression_run s)) as (s' & E & Hw). exists s', (http_response_code (the_headers s)).
    split; [done|]. split; [done|]. intros _. unfold zend_string_equals_ci in *. apply bool_decide_eq_true in El.
    rewrite El. done. }
  destruct (zend_string_equals_ci nm "Location").
  { rewrite bind_gets. destruct (location_code (sg s) code) as [c|] eqn:Ec.
    - destruct (Hchange _ _ (update_code_run c s)) as (s' & E & Hw). exists s', c.
      split; [done|]. split; [done|]. intros ->. by rewrite Ec.
    - destruct (Hchange (mret tt) _ (ex_intro _ s (conj eq_refl (with_headers_refl s)))) as (s' & E & Hw).
      exists s', (http_response_code (the_headers s)). split; [done|]. split; [done|]. intros ->. by rewrite Ec. }
  destruct (zend_string_equals_ci nm "WWW-Authenticate").
  { destruct (Hchange _ _ (update_code_run 401 s)) as (s' & E & Hw). by exists s', 401%Z. }
  exists s, (http_response_code (the_headers s)). split; [done|]. split; [apply with_headers_refl|done].
Qed.

Lemma named_exact nm v : name_ok nm → clean (nm ++ (":"%char :: v)) → header_named nm (nm ++ (":"%char :: v)) = true.
Proof. intros. rewrite named_line by done. unfold same_name, zend_string_equals_ci. by apply bool_decide_eq_true. Qed.

Definition is_replace (op : sapi_header_op_enum) : bool :=
  match op with SAPI_HEADER_REPLACE => true | _ => false end.

(** Setting a header, in full: the list, the code, and nothing else. *)
Lemma header_op_run sapi_module op nm v code s :
  header_handler sapi_module = None → headers_sent (sg s) = false →
  op = SAPI_HEADER_ADD ∨ op = SAPI_HEADER_REPLACE → header_ok nm v →
  ∃ s', sapi_header_op sapi_module op (nm ++ (":"%char :: v)) code s = Some (true, s') ∧
    with_headers ((if is_replace op then filter (λ x, header_named nm x = false) (headers (the_headers s))
                   else headers (the_headers s)) ++ [nm ++ (":"%char :: v)])
      (if (to_int code =? 0)%Z then code_after (sg s) nm else to_int code) s s'.
Proof.
  intros Hh Hs Hop Hok. pose proof Hok as [[_ Hn] Hc Htr Hst _].
  assert (Hop' : sapi_header_op sapi_module op (nm ++ (":"%char :: v)) code s =
                 set_header sapi_module op (nm ++ (":"%char :: v)) (to_int code) s).
  { unfold sapi_header_op. st_run. unfold id. rewrite Hs. cbn [andb].
    destruct Hop as [->| ->]; (rewrite bool_decide_false by (by destruct nm)); by rewrite Htr. }
  rewrite Hop'. unfold set_header. rewrite Hc, Hst, andb_false_r.
  destruct (special_run nm v (to_int code) s Hok) as (s1 & c & E1 & Hw1 & Hc1).
  rewrite (bind_runs _ _ _ _ _ E1). set (line := nm ++ _) in *.
  assert (∃ s2, (if (to_int code =? 0)%Z then mret tt else sapi_update_response_code (to_int code)) s1 = Some (tt, s2) ∧
    with_headers (headers (the_headers s)) (if (to_int code =? 0)%Z then code_after (sg s) nm else to_int code) s s2)
    as (s2 & E2 & Hw2).
  { destruct (to_int code =? 0)%Z eqn:E0.
    - exists s1. split; [done|]. apply Z.eqb_eq in E0. by rewrite <-(Hc1 E0).
    - destruct (update_code_run (to_int code) s1) as (s2 & E2 & Hw2). exists s2. split; [done|].
      eapply with_headers_trans; [exact Hw1|]. by destruct Hw1 as (? & ? & -> & _). }
  rewrite (bind_runs _ _ _ _ _ E2). unfold sapi_header_add_op. rewrite Hh. st_run.
  destruct Hw2 as (l2 & o2 & -> & Hl2). subst line.
  destruct Hop as [->| ->]; cbn [is_replace];
    rewrite ?(break_colon nm v Hn); unfold sapi_remove_header, on_headers, on_sg; st_run;
    (eexists; split; [reflexivity|]; by exists l2, o2).
Qed.

(** Setting a header puts its line after the others of its name, or in their place, and
    leaves those of every other name as they are; the code of the response becomes the one
    that the script asks for, or that of a redirect or of a request for credentials. *)
Theorem header_op_spec sapi_module op nm v code s :
  header_handler sapi_module = None → clean_state s → headers_sent (sg s) = false →
  op = SAPI_HEADER_ADD ∨ op = SAPI_HEADER_REPLACE → header_ok nm v →
  ∃ s', sapi_header_op sapi_module op (nm ++ (":"%char :: v)) code s = Some (true, s') ∧
    (∀ other, name_ok other → values other (headers (the_headers s')) =
       (if is_replace op && same_name nm other then [] else values other (headers (the_headers s))) ++
       (if same_name nm other then [nm ++ (":"%char :: v)] else [])) ∧
    http_response_code (the_headers s') = (if (to_int code =? 0)%Z then code_after (sg s) nm else to_int code) ∧
    wire s' = wire s ∧ og s' = og s.
Proof.
  intros Hh Hcl Hs Hop Hok. destruct (header_op_run sapi_module op nm v code s Hh Hs Hop Hok) as (s' & E & Hw).
  exists s'. split; [done|]. destruct Hw as (l & o & -> & _). split; [|done].
  intros other Ho. cbn [the_headers sg upd sapi_headers]. cbn. unfold values. rewrite filter_app.
  destruct Hok as [Hn Hc _ _ _]. destruct Hcl as [Hl _ _ _]. f_equal.
  - destruct Hop as [->| ->]; cbn [is_replace andb]; [done|]. by apply values_removed.
  - rewrite filter_cons, filter_nil, named_line by done. destruct (same_name nm other); [by rewrite decide_True|by rewrite decide_False].
Qed.

(** A request that has just been activated. *)
Definition start_og : output_globals := OutputGlobals [] 0 None None None PHP_OUTPUT_ACTIVATED.
Definition start_sg (method : option zstr) : sapi_globals_struct :=
  SapiGlobals (SapiHeaders [] 200 true None None) false false (bool_decide (method = Some ("HEAD" : zstr)))
    method 1000 None None None false.
Definition start_srv (method : option zstr) : srv := Srv (start_sg method) start_og [] [] [] None.

Lemma start_clean method : clean_state (start_srv method).
Proof. by split. Qed.

Lemma header_op_spec_witness :
  ∃ s', sapi_header_op (cgi_sapi_module (CgiGlobals false false)) SAPI_HEADER_REPLACE
          (("Location" : zstr) ++ (":"%char :: (" /login" : zstr))) 0 (start_srv (Some ("GET" : zstr))) = Some (true, s') ∧
    (∀ other, name_ok other → values other (headers (the_headers s')) =
       (if true && same_name "Location" other then [] else []) ++
       (if same_name "Location" other then [("Location" : zstr) ++ (":"%char :: (" /login" : zstr))] else [])) ∧
    http_response_code (the_headers s') = 302%Z ∧ wire s' = [] ∧ og s' = start_og.
Proof.
  apply (header_op_spec (cgi_sapi_module (CgiGlobals false false)) SAPI_HEADER_REPLACE "Location" " /login" 0
           (start_srv (Some ("GET" : zstr)))); [done|apply start_clean|done|by right|].
  split; [split; decided|done..].
Defined.

(** Removing a header removes all lines of its name. *)
Lemma header_remove_spec sapi_module nm s :
  header_handler sapi_module = None → clean_state s → headers_sent (sg s) = false →
  name_ok nm → nm ≠ [] → trim_line nm = nm →
  ∃ s', header_remove sapi_module (Some nm) s = Some (true, s') ∧
    (∀ other, name_ok other → values other (headers (the_headers s')) =
       if same_name nm other then [] else values other (headers (the_headers s))) ∧
    http_response_code (the_headers s') = http_response_code (the_headers s).
Proof.
  intros Hh [Hl _ _ _] Hs Hn Hne Ht. unfold header_remove, sapi_header_op. st_run. unfold id. rewrite Hs. cbn [andb].
  rewrite bool_decide_false, Ht by done. unfold delete_header. destruct Hn as [Hnul Hc].
  rewrite (cstr_no_nul nm Hnul), bool_decide_false, Hh by done. unfold sapi_remove_header, on_headers, on_sg. st_run.
  eexists. split; [done|]. split; [|done]. intros other Ho. by apply (values_removed nm other).
Qed.

(** ** What the client reads *)

Section client.
Context (cgig : cgi_globals) (call_header_callback : zval → O bool).
Abbreviation cgi := (cgi_sapi_module cgig).

(** What no header changes. *)
Section frame.
Context (I : srv → Prop) (Hheaders : ∀ f, preserves I (on_headers f)) (Herror : ∀ text, preserves I (php_error text)).
Context (Hcompression : preserves I (on_sg (λ g, g <| compression_off := true |>))).

Ltac frame_step :=
  first [ apply Hheaders | apply Herror | apply Hcompression | apply preserves_ret | apply preserves_gets
        | apply preserves_lift | apply preserves_bind; [|intros ?] | case_match ].

Lemma header_op_frame op line code : preserves I (sapi_header_op cgi op line code).
Proof.
  unfold sapi_header_op, set_header, delete_header, special_header, content_type_header, sapi_header_add_op,
    sapi_update_response_code, sapi_remove_header. cbn [header_handler cgi_sapi_module]. repeat frame_step.
Qed.

Lemma header_call_frame c : preserves I (run_header_call cgi c).
Proof.
  destruct c as [line rep code|[nm|]|code]; cbn [run_header_call header_remove];
    apply preserves_bind; try apply header_op_frame; try (intros _; apply preserves_ret).
  unfold php_http_response_code. repeat frame_step.
Qed.

Lemma header_calls_frame calls : preserves I (header_calls cgi calls).
Proof.
  induction calls as [|c calls IH]; [apply preserves_ret|].
  apply preserves_bind; [apply header_call_frame|intros _; exact IH].
Qed.
End frame.

Lemma header_calls_clean calls : preserves clean_state (header_calls cgi calls).
Proof.
  induction calls as [|c calls IH]; [apply preserves_ret|].
  apply preserves_bind; [by apply clean_header_call|intros _; exact IH].
Qed.

(** All that the sending of the head needs but the length of its first line. *)
Definition ready (s : srv) : Prop :=
  activated s ∧ headers_sent (sg s) = false ∧ no_headers (sg s) = false ∧ callback_func (sg s) = None ∧ wire s = [].

Lemma header_calls_ready calls : preserves ready (header_calls cgi calls).
Proof. by apply header_calls_frame; intros; apply preserves_modify; intros t. Qed.
End client.

(** C4: No script can split the head of its response: whatever it passes to [header],
    [header_remove] and [http_response_code], the head that is sent reads as the lines that
    the server has kept, each of them as it is, and what is sent after it is the body -
    provided that these calls are defined, which they are unless a status line holds a number
    that is no [int], and that the line of the status fits into the buffer of the CGI server,
    which is cut at 1024 bytes; [long_status_line] shows what becomes of a longer one. *)
Theorem head_read_back cgig call_header_callback calls method s' :
  header_calls (cgi_sapi_module cgig) calls (start_srv method) = Some (tt, s') →
  status_fits cgig (to_send (sg s')) →
  ∃ ls s'', head_of cgig (to_send (sg s')) = Some ls ∧
    sapi_send_headers (cgi_sapi_module cgig) call_header_callback s' = Some (true, s'') ∧
    ∀ body, read_head [] (wire s'' ++ body) = Some (ls, body).
Proof.
  intros Hrun Hfits.
  pose proof (header_calls_clean cgig calls _ _ _ (start_clean method) Hrun) as Hc.
  assert (ready s') as (Ha & Hs & Hn & Hcb & Hw) by (by eapply (header_calls_ready cgig calls); [|exact Hrun]).
  destruct (send_headers_run cgig call_header_callback s') as (ls & E & Hls & Hsend); [by split|].
  exists ls, (after_send ls s'). split; [done|]. split; [done|]. intros body.
  cbn [after_send written wire upd]. cbn. rewrite Hw. cbn [Datatypes.app]. rewrite <-(assoc_L (++)).
  by apply read_head_lines.
Qed.

Definition sample_calls : list header_call :=
  [CallHeader ("X-Name: a" ++ CRLF ++ "Set-Cookie: admin=1") true 0; CallHeader "Location: /login" true 0;
   CallCode 303; CallHeader "X-Gone: 1" false 0; CallRemove (Some "x-gone" : option zstr)].

Lemma head_read_back_witness :
  ∃ ls s'', head_of (CgiGlobals false false) (to_send (sg
      (default (start_srv None) (snd <$> header_calls (cgi_sapi_module (CgiGlobals false false))
        sample_calls (start_srv None))))) = Some ls ∧
    sapi_send_headers (cgi_sapi_module (CgiGlobals false false)) (λ _, mret true)
      (default (start_srv None) (snd <$> header_calls (cgi_sapi_module (CgiGlobals false false))
        sample_calls (start_srv None))) = Some (true, s'') ∧
    ∀ body, read_head [] (wire s'' ++ body) = Some (ls, body).
Proof.
  apply (head_read_back (CgiGlobals false false) (λ _, mret true) sample_calls None); [vm_compute; reflexivity|].
  intros line code E. vm_compute in E. injection E as <- <-. vm_compute. lia.
Defined.

(** A head, with a header that is refused. *)
Example refused_header :
  ∃ s, header_calls (cgi_sapi_module (CgiGlobals false false))
         sample_calls (start_srv None) = Some (tt, s) ∧
    head_of (CgiGlobals false false) (to_send (sg s)) =
      Some ["Status: 303 See Other"; "Location: /login"; "Content-type: text/html; charset=UTF-8"] ∧
    errors s = ["Header may not contain more than a single header, new line detected"].
Proof. eexists. split; [vm_compute; reflexivity|]. split; by vm_compute. Qed.

(** A status line that does not fit into the buffer of the CGI server loses its end: what
    should be the next header becomes a part of it. *)
Lemma long_status_line :
  ∃ s w, header_calls (cgi_sapi_module (CgiGlobals false false))
           [CallHeader ("HTTP/1.1 404 " ++ replicate 1100 "x"%char) true 0;
            CallHeader "X-Key: v" true 0] (start_srv None) = Some (tt, s) ∧
    sapi_send_headers (cgi_sapi_module (CgiGlobals false false)) (λ _, mret true) s = Some (true, w) ∧
    read_head [] (wire w) =
      Some (["Status: 404 " ++ replicate 1011 "x"%char ++ "X-Key: v"; "Content-type: text/html; charset=UTF-8"], []).
Proof. eexists _, _. split; [vm_compute; reflexivity|]. split; vm_compute; reflexivity. Qed.
