(* ===== verification/Date.v ===== *)
(** * Dates

    [ext/date/lib/unixtime2tm.c], [dow.c] and [tm2unixtime.c]: a time stamp as a date of the
    Gregorian calendar and back, and the formatting of dates in [ext/date/php_date.c], as far
    as Greenwich time needs it; the expiry of a cookie is such a date ([Cookie]).  Time
    stamps are 64-bit integers; all that is computed from one stays within 64 bits. *)

From S2P Require Import Prelude Zend Numeric Server.

Open Scope zs_scope.
#[local] Open Scope Z_scope.

(** ** The calendar of the code *)

Definition SECS_PER_DAY : Z := 86400.
Definition SECS_PER_ERA : Z := 12622780800.
Definition DAYS_PER_YEAR : Z := 365.
Definition DAYS_PER_LYEAR : Z := 366.
Definition DAYS_PER_LYEAR_PERIOD : Z := 146097.
Definition YEARS_PER_LYEAR_PERIOD : Z := 400.

Definition timelib_is_leap (y : Z) : bool :=
  (Z.rem y 4 =? 0) && (negb (Z.rem y 100 =? 0) || (Z.rem y 400 =? 0)).
Definition year_days (y : Z) : Z := if timelib_is_leap y then DAYS_PER_LYEAR else DAYS_PER_YEAR.

(** The tables of [unixtime2tm.c] and [tm2unixtime.c], which agree. *)
Definition month_tab_leap : list Z := [-1; 30; 59; 90; 120; 151; 181; 212; 243; 273; 304; 334].
Definition month_tab : list Z := [0; 31; 59; 90; 120; 151; 181; 212; 243; 273; 304; 334].

(** [timelib_time], without a zone and a fraction of a second. *)
Record timelib_time := Time { t_y : Z; t_m : Z; t_d : Z; t_h : Z; t_i : Z; t_s : Z; sse : Z }.

(** ** From a time stamp to a date *)

(** The years from 1970 on; [tmp_days] counts from 1, in a leap year from 0. *)
Fixpoint years_up (fuel : nat) (cur_year tmp_days : Z) : option (Z * Z) :=
  match fuel with
  | 0%nat => None
  | S fuel' =>
      if DAYS_PER_LYEAR <=? tmp_days then years_up fuel' (cur_year + 1) (tmp_days - year_days (cur_year + 1))
      else Some (cur_year, tmp_days)
  end.

(** The years before 1970; [tmp_days] counts from 1. *)
Fixpoint years_down (fuel : nat) (cur_year tmp_days : Z) : option (Z * Z) :=
  match fuel with
  | 0%nat => None
  | S fuel' =>
      if tmp_days <=? 0 then
        if tmp_days <? - 1460970 then years_down fuel' (cur_year - 4000) (tmp_days + 1460970)
        else years_down fuel' (cur_year - 1) (tmp_days + year_days (cur_year - 1))
      else Some (cur_year, tmp_days)
  end.

(** The last month whose entry is below the day. *)
Fixpoint find_month (i : nat) (months : list Z) (tmp_days : Z) : nat :=
  match i with
  | 0%nat => 0%nat
  | S i' => if default 0 (months !! i) <? tmp_days then i else find_month i' months tmp_days
  end.

(** Which year a day falls in, and its number there, after what the signs of the time stamp
    make of both. *)
Definition year_of (ts days : Z) : option (Z * Z) :=
  if 0 <=? ts then
    let tmp_days := days + 1 in
    let periods := Z.quot tmp_days DAYS_PER_LYEAR_PERIOD in
    if (DAYS_PER_LYEAR_PERIOD <=? tmp_days) || (tmp_days <=? - DAYS_PER_LYEAR_PERIOD) then
      years_up 402 (1970 + YEARS_PER_LYEAR_PERIOD * periods) (tmp_days - DAYS_PER_LYEAR_PERIOD * periods)
    else years_up 402 1970 tmp_days
  else
    r ← years_down (Z.to_nat (- days / 1460970) + 4010) 1970 days;
    let '(cur_year, tmp_days) := r in
    Some (cur_year, if timelib_is_leap cur_year && (cur_year <? 1970) then tmp_days - 1 else tmp_days).

Definition timelib_unixtime2gmt (ts : Z) : option timelib_time :=
  let days := Z.quot ts SECS_PER_DAY in
  let remainder := ts - days * SECS_PER_DAY in
  let '(days, remainder) :=
    if (ts <? 0) && (remainder =? 0) then (days + 1, remainder - SECS_PER_DAY) else (days, remainder) in
  let remainder := if 0 <=? ts then remainder else remainder + SECS_PER_DAY in
  r ← year_of ts days;
  let '(cur_year, tmp_days) := r in
  let months := if timelib_is_leap cur_year then month_tab_leap else month_tab in
  let i := find_month 11 months tmp_days in
  entry ← months !! i;
  let hours := Z.quot remainder 3600 in
  Some (Time cur_year (Z.of_nat i + 1) (tmp_days - entry) hours (Z.quot (remainder - hours * 3600) 60) (Z.rem remainder 60) ts).

(** ** From a date to a time stamp *)

(** The seconds of the years from 1970 up to a year, and of those from it up to 1970. *)
Fixpoint secs_after (n : nat) : Z :=
  match n with 0%nat => 0 | S n' => year_days (1970 + Z.of_nat n') * SECS_PER_DAY + secs_after n' end.
Fixpoint secs_before (n : nat) (i : Z) : Z :=
  match n with 0%nat => 0 | S n' => - (year_days i * SECS_PER_DAY) + secs_before n' (i - 1) end.

Definition do_years (year : Z) : Z :=
  let eras := Z.quot (year - 1970) 40000 in
  let year' := if eras =? 0 then year else year - eras * 40000 in
  (if eras =? 0 then 0 else SECS_PER_ERA * eras * 100) +
  (if 1970 <=? year' then secs_after (Z.to_nat (year' - 1970)) else secs_before (Z.to_nat (1970 - year')) 1969).

Definition do_months (month year : Z) : option Z :=
  (if timelib_is_leap year then e ← month_tab_leap !! Z.to_nat (month - 1); Some ((e + 1) * SECS_PER_DAY)
   else e ← month_tab !! Z.to_nat (month - 1); Some (e * SECS_PER_DAY)).
Definition do_days (day : Z) : Z := (day - 1) * SECS_PER_DAY.
Definition do_time (hour minute second : Z) : Z := hour * 3600 + minute * 60 + second.

(** The sum of [timelib_update_ts], of a date that needs no adjusting.  It is not cut to 64
    bits, which it exceeds only within a month of the least time stamp. *)
Definition seconds_of (t : timelib_time) : option Z :=
  ms ← do_months (t_m t) (t_y t); Some (do_years (t_y t) + ms + do_days (t_d t) + do_time (t_h t) (t_i t) (t_s t)).

(** ** Days of the week and of the year *)

Definition m_table_common : list Z := [-1; 0; 3; 3; 6; 1; 4; 6; 2; 5; 0; 3; 5].
Definition m_table_leap : list Z := [-1; 6; 2; 3; 6; 1; 4; 6; 2; 5; 0; 3; 5].
Definition positive_mod (x y : Z) : Z := let tmp := Z.rem x y in if tmp <? 0 then tmp + y else tmp.
Definition century_value (j : Z) : Z := 6 - positive_mod j 4 * 2.

Definition timelib_day_of_week_ex (y m d : Z) (iso : bool) : Z :=
  let c1 := century_value (Z.quot y 100) in
  let y1 := positive_mod y 100 in
  let m1 := default 0 ((if timelib_is_leap y then m_table_leap else m_table_common) !! Z.to_nat m) in
  let dow := positive_mod (c1 + y1 + m1 + Z.quot y1 4 + d) 7 in
  if iso && (dow =? 0) then 7 else dow.
Definition timelib_day_of_week (y m d : Z) : Z := timelib_day_of_week_ex y m d false.
Definition timelib_iso_day_of_week (y m d : Z) : Z := timelib_day_of_week_ex y m d true.

Definition d_table_common : list Z := [0; 0; 31; 59; 90; 120; 151; 181; 212; 243; 273; 304; 334].
Definition d_table_leap : list Z := [0; 0; 31; 60; 91; 121; 152; 182; 213; 244; 274; 305; 335].
Definition ml_table_common : list Z := [0; 31; 28; 31; 30; 31; 30; 31; 31; 30; 31; 30; 31].
Definition ml_table_leap : list Z := [0; 31; 29; 31; 30; 31; 30; 31; 31; 30; 31; 30; 31].

Definition timelib_day_of_year (y m d : Z) : Z :=
  default 0 ((if timelib_is_leap y then d_table_leap else d_table_common) !! Z.to_nat m) + d - 1.
Definition timelib_days_in_month (y m : Z) : Z :=
  default 0 ((if timelib_is_leap y then ml_table_leap else ml_table_common) !! Z.to_nat m).

(** The ISO week and the year that it belongs to.  The variable [doy] counts from 1, and in
    a leap year after February a day more than there is. *)
Definition timelib_isoweek_from_date (y m d : Z) : Z * Z :=
  let y_leap := timelib_is_leap y in
  let prev_y_leap := timelib_is_leap (y - 1) in
  let doy := timelib_day_of_year y m d + 1 in
  let doy := if y_leap && (2 <? m) then doy + 1 else doy in
  let jan1weekday := timelib_day_of_week y 1 1 in
  let weekday := timelib_day_of_week y m d in
  let weekday := if weekday =? 0 then 7 else weekday in
  let jan1weekday := if jan1weekday =? 0 then 7 else jan1weekday in
  if (doy <=? 8 - jan1weekday) && (4 <? jan1weekday) then
    ((if (jan1weekday =? 5) || ((jan1weekday =? 6) && prev_y_leap) then 53 else 52), y - 1)
  else
    let i := if y_leap then 366 else 365 in
    if i - (doy - (if y_leap then 1 else 0)) <? 4 - weekday then (1, y + 1)
    else
      let j := doy + (7 - weekday) + (jan1weekday - 1) in
      (Z.quot j 7 - (if 4 <? jan1weekday then 1 else 0), y).

(** ** Formatting *)

Definition mon_full_names : list zstr :=
  ["January"; "February"; "March"; "April"; "May"; "June"; "July"; "August"; "September"; "October"; "November"; "December"].
Definition mon_short_names : list zstr :=
  ["Jan"; "Feb"; "Mar"; "Apr"; "May"; "Jun"; "Jul"; "Aug"; "Sep"; "Oct"; "Nov"; "Dec"].
Definition day_full_names : list zstr := ["Sunday"; "Monday"; "Tuesday"; "Wednesday"; "Thursday"; "Friday"; "Saturday"].
Definition day_short_names : list zstr := ["Sun"; "Mon"; "Tue"; "Wed"; "Thu"; "Fri"; "Sat"].

Definition english_suffix (number : Z) : zstr :=
  if (10 <=? number) && (number <=? 19) then "th"
  else if Z.rem number 10 =? 1 then "st"
  else if Z.rem number 10 =? 2 then "nd"
  else if Z.rem number 10 =? 3 then "rd" else "th".

(** The name by the number that [timelib_day_of_week] gives, outside the table only below 0. *)
Definition day_name (names : list zstr) (y m d : Z) : zstr :=
  let day_of_week := timelib_day_of_week y m d in
  if day_of_week <? 0 then "Unknown" else default [] (names !! Z.to_nat day_of_week).
Definition php_date_full_day_name : Z → Z → Z → zstr := day_name day_full_names.
Definition php_date_short_day_name : Z → Z → Z → zstr := day_name day_short_names.

(** A decimal number with zeros up to a width, which counts the sign. *)
Definition pad (width : nat) (n : Z) : zstr :=
  if n <? 0 then "-" ++ replicate (width - S (length (dec_of_Z (- n)))) "0"%char ++ dec_of_Z (- n)
  else replicate (width - length (dec_of_Z n)) "0"%char ++ dec_of_Z n.

Definition month_name (names : list zstr) (m : Z) : option zstr := if m <? 1 then None else names !! Z.to_nat (m - 1).

(** The hours of a clock with twelve. *)
Definition clock_hour (h : Z) : Z := if Z.rem h 12 =? 0 then 12 else Z.rem h 12.

(** [date_format] of one letter, in Greenwich time. *)
Definition format_letter (c : ascii) (t : timelib_time) : option zstr :=
  let num n := Some (slprintf 32 (dec_of_Z (to_int n))) in
  let pad2 n := Some (slprintf 32 (pad 2 (to_int n))) in
  let text s := Some (slprintf 32 s) in
  match c with
  | "d"%char => pad2 (t_d t)
  | "D"%char => text (php_date_short_day_name (t_y t) (t_m t) (t_d t))
  | "j"%char => num (t_d t)
  | "l"%char => text (php_date_full_day_name (t_y t) (t_m t) (t_d t))
  | "S"%char => text (english_suffix (t_d t))
  | "w"%char => num (timelib_day_of_week (t_y t) (t_m t) (t_d t))
  | "N"%char => num (timelib_iso_day_of_week (t_y t) (t_m t) (t_d t))
  | "z"%char => num (timelib_day_of_year (t_y t) (t_m t) (t_d t))
  | "W"%char => pad2 (timelib_isoweek_from_date (t_y t) (t_m t) (t_d t)).1
  | "o"%char => num (timelib_isoweek_from_date (t_y t) (t_m t) (t_d t)).2
  | "F"%char => name ← month_name mon_full_names (t_m t); text name
  | "m"%char => pad2 (t_m t)
  | "M"%char => name ← month_name mon_short_names (t_m t); text name
  | "n"%char => num (t_m t)
  | "t"%char => num (timelib_days_in_month (t_y t) (t_m t))
  | "L"%char => num (if timelib_is_leap (to_int (t_y t)) then 1 else 0)
  | "y"%char => Some (slprintf 32 (pad 2 (Z.rem (to_int (t_y t)) 100)))
  | "Y"%char => text ((if t_y t <? 0 then "-" else []) ++ pad 4 (Z.abs (t_y t)))
  | "a"%char => text (if 12 <=? t_h t then "pm" else "am")
  | "A"%char => text (if 12 <=? t_h t then "PM" else "AM")
  | "B"%char =>
      let retval := to_int (Z.quot ((sse t - (sse t - (Z.rem (sse t) 86400 + 3600))) * 10) 864) in
      Some (slprintf 32 (pad 3 (retval mod 1000)))
  | "g"%char => num (clock_hour (t_h t))
  | "G"%char => num (t_h t)
  | "h"%char => pad2 (clock_hour (t_h t))
  | "H"%char => pad2 (t_h t)
  | "i"%char => pad2 (t_i t)
  | "s"%char => pad2 (t_s t)
  | "u"%char => text "000000"
  | "v"%char => text "000"
  | "I"%char => num 0
  | "P"%char => text "+00:00"
  | "O"%char => text "+0000"
  | "T"%char => text "GMT"
  | "e"%char => text "UTC"
  | "Z"%char => num 0
  | "c"%char =>
      Some (slprintf 96 (pad 4 (to_int (t_y t)) ++ "-" ++ pad 2 (to_int (t_m t)) ++ "-" ++ pad 2 (to_int (t_d t)) ++ "T" ++
                         pad 2 (to_int (t_h t)) ++ ":" ++ pad 2 (to_int (t_i t)) ++ ":" ++ pad 2 (to_int (t_s t)) ++ "+00:00"))
  | "r"%char =>
      name ← month_name mon_short_names (t_m t);
      Some (slprintf 96 (php_date_short_day_name (t_y t) (t_m t) (t_d t) ++ ", " ++ pad 2 (to_int (t_d t)) ++ " " ++ name ++
                         " " ++ pad 4 (to_int (t_y t)) ++ " " ++ pad 2 (to_int (t_h t)) ++ ":" ++ pad 2 (to_int (t_i t)) ++ ":" ++
                         pad 2 (to_int (t_s t)) ++ " +0000"))
  | "U"%char => text (dec_of_Z (sse t))
  | _ => Some [c]
  end.

(** The loop over the format: behind a backslash a byte stands for itself, also the
    terminator. *)
Fixpoint date_format (format : zstr) (t : timelib_time) : option zstr :=
  match format with
  | [] => Some []
  | c :: format' =>
      if ceq c (ascii_of_nat 92) then
        match format' with
        | [] => Some [NUL]
        | c' :: format'' => rest ← date_format format'' t; Some (c' :: rest)
        end
      else
        text ← format_letter c t;
        rest ← date_format format' t;
        Some (text ++ rest)
  end.

Definition php_format_date (format : zstr) (ts : Z) : option zstr :=
  t ← timelib_unixtime2gmt ts; date_format format t.

Example dates :
  php_format_date "D, d-M-Y H:i:s T" 1 = Some "Thu, 01-Jan-1970 00:00:01 GMT"%zs ∧
  php_format_date "c" 951782400 = Some "2000-02-29T00:00:00+00:00"%zs ∧
  php_format_date "r" (-1) = Some "Wed, 31 Dec 1969 23:59:59 +0000"%zs ∧
  php_format_date "Y-m-d W o" 1483228800 = Some "2017-01-01 52 2016"%zs ∧
  php_format_date "Y-m-d" 12622694400 = Some "2370-01-00"%zs ∧
  php_format_date "Y-m-d" (-62135596800) = Some "0001-01-01"%zs.
Proof. by vm_compute. Qed.

(** ** The Gregorian calendar *)

(** The days from the beginning of the year 1 to that of a year, of that to a month, and
    from the beginning of 1970 to a date. *)
Definition days_before_year (y : Z) : Z := 365 * (y - 1) + (y - 1) / 4 - (y - 1) / 100 + (y - 1) / 400.
Fixpoint days_of_months (n : nat) (y : Z) : Z :=
  match n with 0%nat => 0 | S n' => days_of_months n' y + timelib_days_in_month y (Z.of_nat n) end.
Definition day_number (y m d : Z) : Z := days_before_year y + days_of_months (Z.to_nat (m - 1)) y + d - 719163.

Definition valid_date (y m d : Z) : Prop := 1 ≤ m ≤ 12 ∧ 1 ≤ d ≤ timelib_days_in_month y m.
Definition valid_clock (t : timelib_time) : Prop := 0 ≤ t_h t < 24 ∧ 0 ≤ t_i t < 60 ∧ 0 ≤ t_s t < 60.

Lemma rem_zero y n : 0 < n → (Z.rem y n =? 0) = (y mod n =? 0).
Proof. intros Hn. apply eq_true_iff_eq. rewrite !Z.eqb_eq, Z.rem_divide, Z.mod_divide by lia. done. Qed.

Lemma leap_mod y : timelib_is_leap y = (y mod 4 =? 0) && (negb (y mod 100 =? 0) || (y mod 400 =? 0)).
Proof. unfold timelib_is_leap. by rewrite !rem_zero by lia. Qed.

Lemma leap_period y k : timelib_is_leap (y + 400 * k) = timelib_is_leap y.
Proof.
  rewrite !leap_mod. replace (y + 400 * k) with (y + (k * 100) * 4) at 1 by lia. rewrite Z.mod_add by lia.
  replace (y + 400 * k) with (y + (k * 4) * 100) at 1 by lia. rewrite Z.mod_add by lia.
  replace (y + 400 * k) with (y + k * 400) by lia. by rewrite Z.mod_add by lia.
Qed.

Lemma year_length y : 365 ≤ year_days y ≤ 366.
Proof. unfold year_days. destruct (timelib_is_leap y); unfold DAYS_PER_LYEAR, DAYS_PER_YEAR; lia. Qed.

Lemma div_next y n : 0 < n → y / n = (y - 1) / n + (if y mod n =? 0 then 1 else 0).
Proof.
  intros Hn. destruct (Z.eqb_spec (y mod n) 0) as [E|E].
  - pose proof (Z.div_mod y n ltac:(lia)). 
    enough (y / n - 1 = (y - 1) / n) by lia. apply Z.div_unique with (r := n - 1); lia.
  - pose proof (Z.div_mod y n ltac:(lia)). pose proof (Z.mod_pos_bound y n Hn). rewrite Z.add_0_r.
    apply Z.div_unique with (r := y mod n - 1); lia.
Qed.

Lemma leap_count y :
  (if y mod 4 =? 0 then 1 else 0) - (if y mod 100 =? 0 then 1 else 0) + (if y mod 400 =? 0 then 1 else 0) =
  if timelib_is_leap y then 1 else 0.
Proof.
  rewrite leap_mod.
  assert (y mod 100 = 0 → y mod 4 = 0) by (rewrite !Z.mod_divide by lia; intros [k ->]; exists (k * 25); lia).
  assert (y mod 400 = 0 → y mod 100 = 0) by (rewrite !Z.mod_divide by lia; intros [k ->]; exists (k * 4); lia).
  destruct (Z.eqb_spec (y mod 4) 0), (Z.eqb_spec (y mod 100) 0), (Z.eqb_spec (y mod 400) 0); cbn [andb orb negb]; lia.
Qed.

Lemma days_before_next y : days_before_year (y + 1) = days_before_year y + year_days y.
Proof.
  unfold days_before_year, year_days, DAYS_PER_LYEAR, DAYS_PER_YEAR. replace (y + 1 - 1) with y by lia.
  pose proof (leap_count y). rewrite (div_next y 4), (div_next y 100), (div_next y 400) by lia.
  destruct (timelib_is_leap y); lia.
Qed.

Lemma days_before_period y k : days_before_year (y + 400 * k) = days_before_year y + 146097 * k.
Proof.
  unfold days_before_year. replace (y + 400 * k - 1) with (y - 1 + (k * 100) * 4) at 2 by lia.
  rewrite Z.div_add by lia. replace (y + 400 * k - 1) with (y - 1 + (k * 4) * 100) at 2 by lia. rewrite Z.div_add by lia.
  replace (y + 400 * k - 1) with (y - 1 + k * 400) at 2 by lia. rewrite Z.div_add by lia. lia.
Qed.

(** ** The loops *)

(** The day of the year that [tmp_days] stands for in a loop that counts leap years from 0. *)
Definition leap_day (y : Z) : Z := year_days y - 365.

Lemma leap_day_bounds y : 0 ≤ leap_day y ≤ 1.
Proof. unfold leap_day. pose proof (year_length y). lia. Qed.

Lemma years_up_ok fuel : ∀ y tmp,
  1 - leap_day y ≤ tmp → tmp < 365 * Z.of_nat fuel →
  ∃ y' tmp', years_up fuel y tmp = Some (y', tmp') ∧ y ≤ y' ∧
    days_before_year y' + (tmp' + leap_day y') = days_before_year y + (tmp + leap_day y) ∧
    1 ≤ tmp' + leap_day y' ≤ year_days y'.
Proof.
  induction fuel as [|fuel IH]; intros y tmp Hl Hf; cbn [years_up].
  - pose proof (leap_day_bounds y). lia.
  - unfold DAYS_PER_LYEAR. case Z.leb_spec; intros Hle.
    + pose proof (year_length (y + 1)) as Hy. pose proof (days_before_next y) as Hn.
      destruct (IH (y + 1) (tmp - year_days (y + 1))) as (y' & tmp' & E & Hge & Ht & Hb).
      * unfold leap_day. lia.
      * lia.
      * exists y', tmp'. split; [done|]. split; [lia|]. split; [|done]. unfold leap_day in *. lia.
    + exists y, tmp. split; [done|]. split; [lia|]. split; [done|]. unfold leap_day in *. lia.
Qed.

Definition found (y tmp y' tmp' : Z) : Prop :=
  y' < y ∧ days_before_year y' + tmp' = days_before_year y + tmp ∧ 1 ≤ tmp' ≤ year_days y'.

Lemma years_down_near r : ∀ fuel y tmp,
  - 1460970 ≤ tmp ≤ 0 → - tmp < 365 * Z.of_nat r → (r < fuel)%nat →
  ∃ y' tmp', years_down fuel y tmp = Some (y', tmp') ∧ found y tmp y' tmp'.
Proof.
  induction r as [|r IH]; intros [|fuel] y tmp Ht Hr Hf; [lia..|]. cbn [years_down].
  rewrite (proj2 (Z.leb_le tmp 0)), (proj2 (Z.ltb_ge tmp _)) by lia.
  pose proof (year_length (y - 1)) as Hy. pose proof (days_before_next (y - 1)) as Hn.
  replace (y - 1 + 1) with y in Hn by lia.
  destruct (decide (tmp + year_days (y - 1) ≤ 0)) as [Hle|Hgt].
  - destruct (IH fuel (y - 1) (tmp + year_days (y - 1))) as (y' & tmp' & E & H1 & H2 & H3); [lia..|].
    exists y', tmp'. split; [done|]. unfold found. lia.
  - exists (y - 1), (tmp + year_days (y - 1)). split; [|unfold found; lia].
    destruct fuel; [lia|]. cbn [years_down]. by rewrite (proj2 (Z.leb_gt _ 0)) by lia.
Qed.

Lemma years_down_ok q : ∀ fuel y tmp,
  tmp ≤ 0 → - tmp < 1460970 * (Z.of_nat q + 1) → (q + 4003 < fuel)%nat →
  ∃ y' tmp', years_down fuel y tmp = Some (y', tmp') ∧ found y tmp y' tmp'.
Proof.
  induction q as [|q IH]; intros fuel y tmp Ht Hq Hf.
  - apply (years_down_near 4003); lia.
  - destruct (decide (tmp < - 1460970)) as [Hlt|Hge]; [|apply (years_down_near 4003); lia].
    destruct fuel as [|fuel]; [lia|]. cbn [years_down].
    rewrite (proj2 (Z.leb_le tmp 0)), (proj2 (Z.ltb_lt tmp _)) by lia.
    destruct (IH fuel (y - 4000) (tmp + 1460970)) as (y' & tmp' & E & H1 & H2 & H3); [lia..|].
    exists y', tmp'. split; [done|]. pose proof (days_before_period y (-10)) as Hp.
    replace (y + 400 * -10) with (y - 4000) in Hp by lia. unfold found. lia.
Qed.

(** ** Months *)

Lemma days_in_month_table y k :
  timelib_days_in_month y k = default 0 ((if timelib_is_leap y then ml_table_leap else ml_table_common) !! Z.to_nat k).
Proof. done. Qed.

(** Entries of tables by their numbers. *)
Ltac look_up :=
  repeat match goal with
  | |- context [default 0 (?l !! ?n)] => let v := eval vm_compute in (default 0 (l !! n)) in change (default 0 (l !! n)) with v
  end.

Lemma find_month_ok y tmp :
  let months := if timelib_is_leap y then month_tab_leap else month_tab in
  let i := find_month 11 months tmp in
  1 ≤ tmp + leap_day y ≤ year_days y →
  ∃ e, months !! i = Some e ∧ (i ≤ 11)%nat ∧ days_of_months i y = e + leap_day y ∧
    1 ≤ tmp - e ≤ timelib_days_in_month y (Z.of_nat i + 1).
Proof.
  unfold leap_day, year_days, DAYS_PER_LYEAR, DAYS_PER_YEAR. destruct (timelib_is_leap y) eqn:E; cbv zeta; intros Ht;
    cbn [find_month month_tab month_tab_leap lookup list_lookup default from_option id];
    repeat (case Z.ltb_spec; intros ?); eexists; (split; [reflexivity|]); (split; [lia|]); unfold timelib_days_in_month;
    cbn [days_of_months]; unfold timelib_days_in_month; rewrite ?E; look_up; lia.
Qed.

(** ** What a time stamp becomes *)

(** The last day of 400 years, counted from 1970, is taken for the day before the first of
    the next ones. *)
Definition lost_day (ts : Z) : bool := (0 <=? ts) && ((ts / SECS_PER_DAY + 1) mod DAYS_PER_LYEAR_PERIOD =? 0).

(** The days and the seconds of the day, as the code has them. *)
Definition code_days (ts : Z) : Z := ts / SECS_PER_DAY + (if ts <? 0 then 1 else 0).

Lemma split_timestamp ts :
  let days := Z.quot ts SECS_PER_DAY in
  let remainder := ts - days * SECS_PER_DAY in
  (let '(days, remainder) :=
     if (ts <? 0) && (remainder =? 0) then (days + 1, remainder - SECS_PER_DAY) else (days, remainder) in
   (days, if 0 <=? ts then remainder else remainder + SECS_PER_DAY)) = (code_days ts, ts mod SECS_PER_DAY).
Proof.
  cbv zeta. unfold code_days, SECS_PER_DAY. pose proof (Z.div_mod ts 86400 ltac:(lia)) as Hd.
  pose proof (Z.mod_pos_bound ts 86400 ltac:(lia)) as Hm. pose proof (Z.quot_rem' ts 86400) as Hq.
  case Z.ltb_spec; intros Hts; cbn [andb].
  - pose proof (Z.rem_bound_pos_neg ts 86400 ltac:(lia) ltac:(lia)) as Hr.
    rewrite (proj2 (Z.leb_gt 0 ts)) by lia. case Z.eqb_spec; intros Hz; f_equal; lia.
  - pose proof (Z.rem_bound_pos ts 86400 ltac:(lia) ltac:(lia)) as Hr. rewrite (proj2 (Z.leb_le 0 ts)) by lia. f_equal; lia.
Qed.

Lemma year_of_ok ts :
  ∃ y tmp, year_of ts (code_days ts) = Some (y, tmp) ∧
    days_before_year y + (tmp + leap_day y) = ts / SECS_PER_DAY + 719163 ∧
    (if lost_day ts then tmp = 0 ∧ leap_day y = 0 else 1 ≤ tmp + leap_day y ≤ year_days y).
Proof.
  unfold year_of, code_days, lost_day. set (D := ts / SECS_PER_DAY).
  assert (HD : 0 ≤ ts → 0 ≤ D) by (intros; apply Z.div_pos; unfold SECS_PER_DAY; lia).
  assert (HD' : ts < 0 → D < 0) by (intros; apply Z.div_lt_upper_bound; unfold SECS_PER_DAY; lia).
  case (Z.leb_spec 0 ts); intros Hts; cbn [andb].
  - rewrite (proj2 (Z.ltb_ge ts 0)) by lia. rewrite Z.add_0_r. set (k := Z.quot (D + 1) DAYS_PER_LYEAR_PERIOD).
    assert (Hk : k = (D + 1) / 146097) by (apply Z.quot_div_nonneg; unfold DAYS_PER_LYEAR_PERIOD; lia).
    unfold DAYS_PER_LYEAR_PERIOD, YEARS_PER_LYEAR_PERIOD in *.
    pose proof (Z.div_mod (D + 1) 146097 ltac:(lia)) as Hdm. pose proof (Z.mod_pos_bound (D + 1) 146097 ltac:(lia)) as Hm.
    rewrite <-Hk in Hdm.
    replace (if _ || _ then _ else _) with (years_up 402 (1970 + 400 * k) ((D + 1) mod 146097))
      by (case (Z.leb_spec 146097 (D + 1)); intros ?; cbn [orb];
          [f_equal; lia|rewrite (proj2 (Z.leb_gt (D + 1) _)) by lia; f_equal; [|apply Z.mod_small]; nia]).
    pose proof (days_before_period 1970 k) as Hp. change (days_before_year 1970) with 719162 in Hp.
    assert (Hl : leap_day (1970 + 400 * k) = 0) by (unfold leap_day, year_days; by rewrite leap_period).
    case Z.eqb_spec; intros Hz.
    + rewrite Hz. exists (1970 + 400 * k), 0. split; [done|]. split; [|done]. lia.
    + destruct (years_up_ok 402 (1970 + 400 * k) ((D + 1) mod 146097)) as (y & tmp & E & _ & Hn & Hb); [lia..|].
      exists y, tmp. split; [done|]. split; [|done]. lia.
  - rewrite (proj2 (Z.ltb_lt ts 0)) by lia.
    destruct (years_down_ok (Z.to_nat (- (D + 1) / 1460970)) (Z.to_nat (- (D + 1) / 1460970) + 4010) 1970 (D + 1))
      as (y & tmp & E & Hlt & Hn & Hb).
    + lia.
    + pose proof (Z.div_mod (- (D + 1)) 1460970 ltac:(lia)). pose proof (Z.mod_pos_bound (- (D + 1)) 1460970 ltac:(lia)).
      pose proof (Z.div_pos (- (D + 1)) 1460970 ltac:(lia) ltac:(lia)). lia.
    + lia.
    + rewrite E. cbn. change (days_before_year 1970) with 719162 in Hn.
      rewrite (proj2 (Z.ltb_lt y 1970)) by lia. rewrite andb_true_r. eexists _, _. split; [done|].
      assert (Hl : leap_day y = if timelib_is_leap y then 1 else 0) by (unfold leap_day, year_days; by destruct (timelib_is_leap y)).
      rewrite Hl. destruct (timelib_is_leap y); lia.
Qed.

Lemma clock_ok R :
  0 ≤ R < 86400 →
  let hours := Z.quot R 3600 in let minutes := Z.quot (R - hours * 3600) 60 in
  0 ≤ hours < 24 ∧ 0 ≤ minutes < 60 ∧ 0 ≤ Z.rem R 60 < 60 ∧ hours * 3600 + minutes * 60 + Z.rem R 60 = R.
Proof.
  intros HR. cbv zeta. rewrite (Z.quot_div_nonneg R 3600), (Z.rem_mod_nonneg R 60) by lia.
  pose proof (Z.div_mod R 3600 ltac:(lia)). pose proof (Z.mod_pos_bound R 3600 ltac:(lia)).
  replace (R - R / 3600 * 3600) with (R mod 3600) by lia. rewrite Z.quot_div_nonneg by lia.
  pose proof (Z.div_mod (R mod 3600) 60 ltac:(lia)). pose proof (Z.mod_pos_bound (R mod 3600) 60 ltac:(lia)).
  assert (Hm : R mod 60 = (R mod 3600) mod 60).
  { rewrite (Z.div_mod R 3600) at 1 by lia.
    replace (3600 * (R / 3600) + R mod 3600) with (R mod 3600 + (R / 3600 * 60) * 60) by lia. by rewrite Z.mod_add by lia. }
  rewrite Hm. lia.
Qed.

(** The date of a time stamp, before anything is said about its being one. *)
Lemma gmt_run ts :
  ∃ t, timelib_unixtime2gmt ts = Some t ∧ sse t = ts ∧ valid_clock t ∧ 1 ≤ t_m t ≤ 12 ∧
    t_h t * 3600 + t_i t * 60 + t_s t = ts mod SECS_PER_DAY ∧
    day_number (t_y t) (t_m t) (t_d t) = ts / SECS_PER_DAY ∧
    (if lost_day ts then t_m t = 1 ∧ t_d t = 0 else valid_date (t_y t) (t_m t) (t_d t)).
Proof.
  destruct (year_of_ok ts) as (y & tmp & E & Hn & Hb). pose proof (split_timestamp ts) as Hs. cbv zeta in Hs.
  unfold timelib_unixtime2gmt. destruct (if (ts <? 0) && _ then _ else _) as [days remainder]. injection Hs as -> ->.
  rewrite E. cbn [mbind option_bind]. set (months := if timelib_is_leap y then month_tab_leap else month_tab).
  assert (∃ e, months !! find_month 11 months tmp = Some e ∧ (find_month 11 months tmp ≤ 11)%nat ∧
    days_of_months (find_month 11 months tmp) y = e + leap_day y ∧
    (if lost_day ts then find_month 11 months tmp = 0%nat ∧ tmp - e = 0
     else 1 ≤ tmp - e ≤ timelib_days_in_month y (Z.of_nat (find_month 11 months tmp) + 1))) as (e & He & Hi & Hdays & Hd).
  { destruct (lost_day ts).
    - destruct Hb as [-> Hl]. unfold leap_day, year_days in Hl. exists 0. unfold months.
      unfold leap_day, year_days. destruct (timelib_is_leap y); [by vm_compute in Hl|].
      split; [done|]. split; [cbn; lia|]. by split.
    - destruct (find_month_ok y tmp Hb) as (e & He & Hi & Hdays & Hd). by exists e. }
  rewrite He. cbn [mbind option_bind]. eexists. split; [reflexivity|]. cbn [sse t_m t_d t_y t_h t_i t_s]. unfold valid_clock. cbn [t_h t_i t_s].
  pose proof (Z.mod_pos_bound ts SECS_PER_DAY ltac:(done)) as Hr. unfold SECS_PER_DAY in Hr |- *.
  set (R := ts mod 86400) in *. destruct (clock_ok R) as (Hh & Hm & Hs' & Hsum); [lia|].
  split; [done|]. split; [lia|]. split; [lia|]. split; [lia|].
  assert (Hnum : day_number y (Z.of_nat (find_month 11 months tmp) + 1) (tmp - e) = ts / 86400).
  { unfold day_number. replace (Z.to_nat _) with (find_month 11 months tmp) by lia. unfold SECS_PER_DAY in Hn. lia. }
  split; [done|]. destruct (lost_day ts); [lia|]. unfold valid_date. lia.
Qed.

(** ** And back *)

Lemma secs_after_ok n : secs_after n = (days_before_year (1970 + Z.of_nat n) - 719162) * SECS_PER_DAY.
Proof.
  induction n as [|n IH]; [done|]. cbn [secs_after]. rewrite IH. replace (1970 + Z.of_nat (S n)) with (1970 + Z.of_nat n + 1) by lia.
  rewrite days_before_next. lia.
Qed.

Lemma secs_before_ok n : ∀ i,
  secs_before n i = (days_before_year (i + 1 - Z.of_nat n) - days_before_year (i + 1)) * SECS_PER_DAY.
Proof.
  induction n as [|n IH]; intros i; cbn [secs_before]; [replace (i + 1 - Z.of_nat 0) with (i + 1) by lia; lia|].
  rewrite IH. replace (i - 1 + 1 - Z.of_nat n) with (i + 1 - Z.of_nat (S n)) by lia.
  replace (i - 1 + 1) with i by lia. rewrite (days_before_next i). lia.
Qed.

Lemma do_years_ok year : do_years year = (days_before_year year - 719162) * SECS_PER_DAY.
Proof.
  unfold do_years. set (e := Z.quot (year - 1970) 40000). pose proof (days_before_period year (- e * 100)) as Hp.
  replace (year + 400 * (- e * 100)) with (year - e * 40000) in Hp by lia.
  replace (if e =? 0 then year else year - e * 40000) with (year - e * 40000) by (case Z.eqb_spec; lia).
  replace (if e =? 0 then 0 else SECS_PER_ERA * e * 100) with (SECS_PER_ERA * e * 100) by (case Z.eqb_spec; lia).
  unfold SECS_PER_ERA. case Z.leb_spec; intros Hle.
  - rewrite secs_after_ok. rewrite Z2Nat.id by lia. replace (1970 + _) with (year - e * 40000) by lia.
    unfold SECS_PER_DAY. lia.
  - rewrite secs_before_ok. rewrite Z2Nat.id by lia. replace (1969 + 1 - _) with (year - e * 40000) by lia.
    change (days_before_year (1969 + 1)) with 719162. unfold SECS_PER_DAY. lia.
Qed.

Lemma do_months_ok m y :
  1 ≤ m ≤ 12 → do_months m y = Some (days_of_months (Z.to_nat (m - 1)) y * SECS_PER_DAY).
Proof.
  intros Hm. unfold do_months. assert (Z.to_nat (m - 1) ≤ 11)%nat as Hi by lia. generalize dependent (Z.to_nat (m - 1)).
  intros i Hi. destruct (timelib_is_leap y) eqn:E;
    do 12 (destruct i as [|i]; [cbn; unfold timelib_days_in_month; rewrite ?E; look_up; done|]); lia.
Qed.

(** ** Days of the week *)

Lemma positive_mod_ok x n : 0 < n → positive_mod x n = x mod n.
Proof.
  intros Hn. unfold positive_mod. pose proof (Z.quot_rem' x n) as Hq. case Z.ltb_spec; intros Hr.
  - assert (x < 0) by (destruct (decide (0 ≤ x)); [pose proof (Z.rem_bound_pos x n); lia|lia]).
    pose proof (Z.rem_bound_pos_neg x n Hn ltac:(lia)). apply Z.mod_unique with (q := Z.quot x n - 1); lia.
  - pose proof (Z.rem_bound_abs x n ltac:(lia)). apply Z.mod_unique with (q := Z.quot x n); lia.
Qed.

Lemma year_parts y :
  let a := y / 400 in let b := (y / 100) mod 4 in let c := y mod 100 in
  y = 400 * a + 100 * b + c ∧ y / 4 = 100 * a + 25 * b + c / 4 ∧ y / 100 = 4 * a + b.
Proof.
  cbv zeta. pose proof (Z.div_mod y 100 ltac:(lia)) as Hd. pose proof (Z.div_mod (y / 100) 4 ltac:(lia)) as Hq.
  rewrite Z.div_div in Hq by lia. change (100 * 4) with 400 in Hq.
  assert (Hy : y = y mod 100 + (100 * (y / 400) + 25 * ((y / 100) mod 4)) * 4) by lia.
  split; [lia|]. split; [|lia]. rewrite Hy at 1. rewrite Z.div_add by lia. lia.
Qed.

(** From the year 0 on the names of the days are those of the calendar, in which the first
    day of 1970 was a Thursday. *)
Lemma day_of_week_ok y m d :
  0 ≤ y → 1 ≤ m ≤ 12 → timelib_day_of_week y m d = (day_number y m d + 4) mod 7.
Proof.
  intros Hy Hm. unfold timelib_day_of_week, timelib_day_of_week_ex, century_value, day_number, days_before_year. cbn [andb].
  rewrite !positive_mod_ok by lia. rewrite (Z.quot_div_nonneg y 100), (Z.quot_div_nonneg (y mod 100) 4) by (try apply Z.mod_pos_bound; lia).
  pose proof (div_next y 4 ltac:(lia)) as H4. pose proof (div_next y 100 ltac:(lia)) as H100. pose proof (div_next y 400 ltac:(lia)) as H400.
  pose proof (leap_count y) as Hlp.
  set (m1 := default 0 _). set (ms := days_of_months _ y).
  assert (Hms : (m1 + 6 - (ms - (if timelib_is_leap y then 1 else 0) - 365 - 719159)) mod 7 = 0).
  { unfold m1, ms. assert (Z.to_nat (m - 1) ≤ 11)%nat as Hi by lia. replace (Z.to_nat m) with (S (Z.to_nat (m - 1))) by lia.
    generalize dependent (Z.to_nat (m - 1)). intros i Hi. destruct (timelib_is_leap y) eqn:E;
      do 12 (destruct i as [|i]; [cbn [days_of_months]; unfold timelib_days_in_month; rewrite ?E; look_up; done|]); lia. }
  clearbody m1 ms. destruct (year_parts y) as (Hc & Hq4 & Hq100).
  set (a := y / 400) in *. set (b := (y / 100) mod 4) in *. set (c := y mod 100) in *. set (c4 := c / 4) in *.
  apply Z.mod_divide in Hms as [k Hk]; [|lia].
  replace (365 * (y - 1) + (y - 1) / 4 - (y - 1) / 100 + (y - 1) / 400 + ms + d - 719163 + 4)
    with (6 - b * 2 + c + m1 + c4 + d + (20871 * a + 5218 * b + 52 * c - k) * 7) by lia.
  by rewrite Z.mod_add by lia.
Qed.

(** C26: Every time stamp becomes the date of the Gregorian calendar on which it falls, with its
    time of day, and this date becomes the time stamp again; from the year 0 on the day of
    the week is the right one too.  The only dates that are none are the last days of each
    400 years from 1970, which become the day before the first of January. *)
Theorem timestamp_roundtrip ts :
  ∃ t, timelib_unixtime2gmt ts = Some t ∧ seconds_of t = Some ts ∧ valid_clock t ∧
    day_number (t_y t) (t_m t) (t_d t) * SECS_PER_DAY + (t_h t * 3600 + t_i t * 60 + t_s t) = ts ∧
    (0 ≤ t_y t → timelib_day_of_week (t_y t) (t_m t) (t_d t) = (ts / SECS_PER_DAY + 4) mod 7) ∧
    (if lost_day ts then t_m t = 1 ∧ t_d t = 0 else valid_date (t_y t) (t_m t) (t_d t)).
Proof.
  destruct (gmt_run ts) as (t & E & Hts & Hc & Hm & Hclock & Hday & Hv). exists t.
  pose proof (Z.div_mod ts SECS_PER_DAY ltac:(done)) as Hd. split; [done|]. split; [|split; [done|split; [lia|split; [|done]]]].
  - unfold seconds_of, do_days, do_time. rewrite do_months_ok by done. cbn [mbind option_bind]. f_equal.
    rewrite do_years_ok. unfold day_number in Hday. unfold SECS_PER_DAY in *. lia.
  - intros Hy. rewrite day_of_week_ok by done. by rewrite Hday.
Qed.

(** 31 December 2369; a Friday of the year -1 that is called a Thursday; a format that ends
    with a backslash. *)
Example not_dates :
  php_format_date "Y-m-d" 12622694399 = Some "2369-12-30"%zs ∧ php_format_date "Y-m-d" 12622694400 = Some "2370-01-00"%zs ∧
  php_format_date "Y-m-d" 12622780800 = Some "2370-01-01"%zs ∧
  timelib_day_of_week (-1) 1 1 = 4 ∧ (day_number (-1) 1 1 + 4) mod 7 = 5 ∧
  php_format_date "Y\" 0 = Some ("1970"%zs ++ [NUL]).
Proof. by vm_compute. Qed.
