(* ===== verification/Output.v ===== *)
(** * The output layer

    [main/output.c]: what a script prints goes through a stack of handlers, each with a
    buffer, before the server gets it; the first byte that gets through has the headers sent
    ([Server]).  The handlers of the application are functions of the application; a C
    pointer into a buffer is the bytes that it points to, since no code copies into the
    buffer again before they are read.  A fatal error is recorded, and what the code does
    after it is what is written there; that the engine does not come back is not modelled. *)

From S2P Require Import Prelude Zend Numeric Url Server.

Open Scope zs_scope.

Definition PHP_OUTPUT_HANDLER_WRITE : Z := 0x00.
Definition PHP_OUTPUT_HANDLER_START : Z := 0x01.
Definition PHP_OUTPUT_HANDLER_CLEAN : Z := 0x02.
Definition PHP_OUTPUT_HANDLER_FLUSH : Z := 0x04.
Definition PHP_OUTPUT_HANDLER_FINAL : Z := 0x08.
Definition PHP_OUTPUT_HANDLER_INTERNAL : Z := 0x0000.
Definition PHP_OUTPUT_HANDLER_USER : Z := 0x0001.
Definition PHP_OUTPUT_HANDLER_CLEANABLE : Z := 0x0010.
Definition PHP_OUTPUT_HANDLER_FLUSHABLE : Z := 0x0020.
Definition PHP_OUTPUT_HANDLER_REMOVABLE : Z := 0x0040.
Definition PHP_OUTPUT_HANDLER_STDFLAGS : Z := 0x0070.
Definition PHP_OUTPUT_HANDLER_STARTED : Z := 0x1000.
Definition PHP_OUTPUT_HANDLER_DISABLED : Z := 0x2000.
Definition PHP_OUTPUT_HANDLER_PROCESSED : Z := 0x4000.

Definition PHP_OUTPUT_POP_TRY : Z := 0x000.
Definition PHP_OUTPUT_POP_FORCE : Z := 0x001.
Definition PHP_OUTPUT_POP_DISCARD : Z := 0x010.
Definition PHP_OUTPUT_POP_SILENT : Z := 0x100.

Definition PHP_OUTPUT_IMPLICITFLUSH : Z := 0x01.
Definition PHP_OUTPUT_DISABLED : Z := 0x02.
Definition PHP_OUTPUT_WRITTEN : Z := 0x04.
Definition PHP_OUTPUT_SENT : Z := 0x08.
Definition PHP_OUTPUT_ACTIVE : Z := 0x10.
Definition PHP_OUTPUT_LOCKED : Z := 0x20.

Definition PHP_OUTPUT_HANDLER_ALIGNTO_SIZE : nat := Z.to_nat 0x1000.
Definition PHP_OUTPUT_HANDLER_DEFAULT_SIZE : nat := Z.to_nat 0x4000.
Definition PHP_OUTPUT_HANDLER_INITBUF_SIZE (s : nat) : nat :=
  if 1 <? s then s + PHP_OUTPUT_HANDLER_ALIGNTO_SIZE - s mod PHP_OUTPUT_HANDLER_ALIGNTO_SIZE
  else PHP_OUTPUT_HANDLER_DEFAULT_SIZE.

Definition php_output_default_handler_name : zstr := "default output handler".
Definition php_output_devnull_handler_name : zstr := "null output handler".

Inductive php_output_handler_status_t :=
  PHP_OUTPUT_HANDLER_FAILURE | PHP_OUTPUT_HANDLER_SUCCESS | PHP_OUTPUT_HANDLER_NO_DATA.

(** [php_output_context]; a buffer whose data is NULL is [None]. *)
Record php_output_context := OutputContext {
  op : Z;
  inb : option zstr;
  outb : option zstr;
}.
#[export] Instance context_rebuild : Rebuild php_output_context := λ c, OutputContext (op c) (inb c) (outb c).
Definition php_output_context_init (mode : Z) : php_output_context := OutputContext mode None None.
Definition php_output_context_reset (c : php_output_context) : php_output_context := OutputContext (op c) None None.
Definition php_output_context_feed (data : zstr) (c : php_output_context) : php_output_context := c <| inb := Some data |>.
Definition php_output_context_swap (c : php_output_context) : php_output_context := OutputContext (op c) (outb c) None.
Definition php_output_context_pass (c : php_output_context) : php_output_context := OutputContext (op c) None (inb c).

(** [out.data && out.used] *)
Definition some_data (o : option zstr) : option zstr :=
  match o with Some (c :: s) => Some (c :: s) | _ => None end.

Definition flag_og (bit : Z) : O unit := on_og (λ o, o <| og_flags := Z.lor (og_flags o) bit |>).

(** A handler by its pointer. *)
Definition get_handler (l : nat) : O php_output_handler := o ← gets og; lift (handlers o !! l).
Definition on_handler (l : nat) (f : php_output_handler → php_output_handler) : O unit :=
  on_og (λ o, o <| handlers := alter f l (handlers o) |>).
Definition flag_handler (l : nat) (bit : Z) : O unit := on_handler l (λ h, h <| flags := Z.lor (flags h) bit |>).

Section output.
Context `{Runtime} (sapi_module : sapi_module_struct) (call_header_callback : zval → O bool).

(** The handlers of the application: a call with the buffer and the mode, whose result is
    [None] if it fails or raises; what makes a value callable, its name or the error; the
    handlers of other extensions, which of them go by a name, and whether one may be
    started. *)
Context (call_handler : zval → zstr → Z → O (option zval)).
Context (callable_name : zval → zstr + zstr).
Context (compat_func : nat → zstr → Z → option zstr).
Context (handler_alias : zstr → option (nat → Z → php_output_handler)).
Context (conflict : zstr → bool).

Definition php_output_header : O unit :=
  sent ← gets (λ s, headers_sent (sg s));
  if sent : bool then mret tt
  else
    modify (λ s, s <| og := (og s) <| output_start := match output_start (og s) with
                                                      | None => executed s
                                                      | Some p => Some p
                                                      end |> |>);;
    ok ← php_header sapi_module call_header_callback;
    if ok : bool then mret tt else flag_og PHP_OUTPUT_DISABLED.

Definition php_output_activate : O unit := on_og (λ _, OutputGlobals [] 0 None None None PHP_OUTPUT_ACTIVATED).

Definition php_output_deactivate : O unit :=
  f ← gets (λ s, og_flags (og s));
  if has f PHP_OUTPUT_ACTIVATED then
    php_output_header;;
    on_og (λ o, OutputGlobals [] 0 None None (output_start o) (Z.lxor (og_flags o) PHP_OUTPUT_ACTIVATED))
  else mret tt.

Definition php_output_lock_error (mode : Z) : O bool :=
  o ← gets og;
  if negb (mode =? 0)%Z && bool_decide (is_Some (active o)) && bool_decide (is_Some (running o)) then
    php_output_deactivate;;
    php_error "Cannot use output buffering in output buffering display handlers";; mret true
  else mret false.

Definition php_output_set_status (status : Z) : O unit :=
  on_og (λ o, o <| og_flags := Z.lor (Z.land (og_flags o) (Z.lnot 0xf)) (Z.land status 0xf) |>).
Definition php_output_get_status (o : output_globals) : Z :=
  Z.land (Z.lor (Z.lor (og_flags o) (if active o is Some _ then PHP_OUTPUT_ACTIVE else 0))
            (if running o is Some _ then PHP_OUTPUT_LOCKED else 0)) 0xff.

(** ** One handler *)

Definition php_output_handler_init (nm : zstr) (chunk_size : nat) (flags : Z) (f : handler_func) : php_output_handler :=
  Handler nm flags 0 chunk_size [] (PHP_OUTPUT_HANDLER_INITBUF_SIZE chunk_size) f.
Definition php_output_handler_create_internal (nm : zstr) (chunk_size : nat) (flags : Z) (f : handler_func) : php_output_handler :=
  php_output_handler_init nm chunk_size (Z.lor (Z.land flags (Z.lnot 0xf)) PHP_OUTPUT_HANDLER_INTERNAL) f.

(** The buffer with room for [n] more bytes. *)
Definition grow (h : php_output_handler) (n : nat) : nat :=
  let room := buffer_size h - length (buffer h) in
  if room <=? n then
    buffer_size h + Nat.max (PHP_OUTPUT_HANDLER_INITBUF_SIZE (size h)) (PHP_OUTPUT_HANDLER_INITBUF_SIZE (n - room))
  else buffer_size h.

(** Whether the handler need not be run.  Bytes beyond the buffer are not written. *)
Definition php_output_handler_append (l : nat) (buf : option zstr) : O bool :=
  match some_data buf with
  | None => mret true
  | Some data =>
      flag_og PHP_OUTPUT_WRITTEN;;
      h ← get_handler l;
      if bool_decide (length (buffer h) ≤ buffer_size h) &&
         bool_decide (length (buffer h) + length data ≤ grow h (length data)) then
        on_handler l (λ h, h <| buffer := buffer h ++ data |> <| buffer_size := grow h (length data) |>);;
        if bool_decide (size h ≠ 0) && bool_decide (size h ≤ length (buffer h) + length data) then
          o ← gets og; mret (bool_decide (is_Some (running o)))
        else mret true
      else undefined
  end.

(** The call of a handler's function. *)
Definition run_handler (l : nat) (h : php_output_handler) (c : php_output_context)
    : O (php_output_handler_status_t * php_output_context) :=
  let by_used (c : php_output_context) :=
    (match some_data (outb c) with Some _ => PHP_OUTPUT_HANDLER_SUCCESS | None => PHP_OUTPUT_HANDLER_NO_DATA end, c) in
  match func h with
  | func_user callable =>
      retval ← call_handler callable (buffer h) (op c);
      mret (match retval with
            | None | Some (ZBool false) => (PHP_OUTPUT_HANDLER_FAILURE, c)
            | Some (ZBool true) => (PHP_OUTPUT_HANDLER_NO_DATA, c)
            | Some v => match zval_get_string v with
                        | [] => (PHP_OUTPUT_HANDLER_NO_DATA, c)
                        | s => (PHP_OUTPUT_HANDLER_SUCCESS, c <| outb := Some s |>)
                        end
            end)
  | php_output_handler_default_func => mret (by_used (php_output_context_pass (php_output_context_feed (buffer h) c)))
  | php_output_handler_devnull_func => mret (by_used (php_output_context_feed (buffer h) c))
  | php_output_handler_compat_func f =>
      let c := php_output_context_feed (buffer h) c in
      mret (by_used (match compat_func f (buffer h) (op c) with
                     | Some s => c <| outb := Some s |>
                     | None => php_output_context_pass c
                     end))
  end.

Definition php_output_handler_op (l : nat) (c : php_output_context)
    : O (php_output_handler_status_t * php_output_context) :=
  err ← php_output_lock_error (op c);
  if err : bool then mret (PHP_OUTPUT_HANDLER_FAILURE, c)
  else
    stored ← php_output_handler_append l (inb c);
    if stored && (op c =? 0)%Z then mret (PHP_OUTPUT_HANDLER_NO_DATA, c)
    else
      h ← get_handler l;
      on_og (λ o, o <| running := Some l |>);;
      r ← run_handler l h (if has (flags h) PHP_OUTPUT_HANDLER_STARTED then c
                           else c <| op := Z.lor (op c) PHP_OUTPUT_HANDLER_START |>);
      flag_handler l PHP_OUTPUT_HANDLER_STARTED;;
      on_og (λ o, o <| running := None |>);;
      h ← get_handler l;
      match r.1 with
      | PHP_OUTPUT_HANDLER_FAILURE =>
          flag_handler l PHP_OUTPUT_HANDLER_DISABLED;;
          on_handler l (λ h, h <| buffer := [] |> <| buffer_size := 0 |>);;
          mret (r.1, r.2 <| outb := Some (buffer h) |> <| op := op c |>)
      | PHP_OUTPUT_HANDLER_NO_DATA | PHP_OUTPUT_HANDLER_SUCCESS =>
          on_handler l (λ h, h <| buffer := [] |>);;
          flag_handler l PHP_OUTPUT_HANDLER_PROCESSED;;
          mret (r.1, (match r.1 with
                      | PHP_OUTPUT_HANDLER_NO_DATA => php_output_context_reset r.2
                      | _ => r.2
                      end) <| op := op c |>)
      end.

(** ** The stack *)

(** Whether the handlers below are left alone, and what they get. *)
Definition php_output_stack_apply_op (l : nat) (c : php_output_context) : O (bool * php_output_context) :=
  h ← get_handler l;
  let was_disabled := has (flags h) PHP_OUTPUT_HANDLER_DISABLED in
  r ← (if was_disabled then mret (PHP_OUTPUT_HANDLER_FAILURE, c) else php_output_handler_op l c);
  mret (match r.1 with
        | PHP_OUTPUT_HANDLER_NO_DATA => (true, r.2)
        | PHP_OUTPUT_HANDLER_SUCCESS => (false, if 0 <? level h then php_output_context_swap r.2 else r.2)
        | PHP_OUTPUT_HANDLER_FAILURE =>
            (false, if was_disabled then if 0 <? level h then r.2 else php_output_context_pass r.2
                    else if 0 <? level h then php_output_context_swap r.2 else r.2)
        end).

Definition php_output_stack_apply_clean (l : nat) (c : php_output_context) : O (bool * php_output_context) :=
  on_handler l (λ h, h <| buffer := [] |>);;
  r ← php_output_handler_op l c;
  mret (false, php_output_context_reset r.2).

(** [zend_stack_apply_with_argument], from the top or from the bottom *)
Fixpoint apply_topdown (f : nat → php_output_context → O (bool * php_output_context)) (n : nat) (c : php_output_context)
    : O php_output_context :=
  match n with
  | 0 => mret c
  | S i => r ← f i c; if r.1 : bool then mret r.2 else apply_topdown f i r.2
  end.

Definition php_output_op (mode : Z) (str : option zstr) : O unit :=
  err ← php_output_lock_error mode;
  if err : bool then mret tt
  else
    o ← gets og;
    c ← match active o, top o with
        | Some _, S n =>
            let c := (php_output_context_init mode) <| inb := str |> in
            if 1 <? top o then apply_topdown php_output_stack_apply_op (top o) c
            else
              h ← get_handler n;
              if has (flags h) PHP_OUTPUT_HANDLER_DISABLED then mret (php_output_context_pass c)
              else r ← php_output_handler_op n c; mret r.2
        | _, _ => mret ((php_output_context_init mode) <| outb := str |>)
        end;
    match some_data (outb c) with
    | Some data =>
        php_output_header;;
        f ← gets (λ s, og_flags (og s));
        if has f PHP_OUTPUT_DISABLED then mret tt
        else ub_write sapi_module data;; flag_og PHP_OUTPUT_SENT
    | None => mret tt
    end.

Definition php_output_write (str : zstr) : O nat :=
  f ← gets (λ s, og_flags (og s));
  if has f PHP_OUTPUT_ACTIVATED then php_output_op PHP_OUTPUT_HANDLER_WRITE (Some str);; mret (length str)
  else if has f PHP_OUTPUT_DISABLED then mret 0
  else php_output_stdout str;; mret (length str).

(** [php_output_flush]: the handler is off the stack while its output is written, but it is
    still the active one. *)
Definition php_output_flush : O bool :=
  o ← gets og;
  match active o with
  | None => mret false
  | Some l =>
      h ← get_handler l;
      if has (flags h) PHP_OUTPUT_HANDLER_FLUSHABLE then
        r ← php_output_handler_op l (php_output_context_init PHP_OUTPUT_HANDLER_FLUSH);
        match some_data (outb r.2) with
        | Some data =>
            on_og (λ o, o <| top := top o - 1 |>);;
            php_output_write data;;
            on_og (λ o, o <| top := S (top o) |>);; mret true
        | None => mret true
        end
      else mret false
  end.

Definition php_output_flush_all : O unit :=
  o ← gets og;
  match active o with
  | Some _ => php_output_op PHP_OUTPUT_HANDLER_FLUSH None
  | None => mret tt
  end.

Definition php_output_clean : O bool :=
  o ← gets og;
  match active o with
  | None => mret false
  | Some l =>
      h ← get_handler l;
      if has (flags h) PHP_OUTPUT_HANDLER_CLEANABLE then
        php_output_handler_op l (php_output_context_init PHP_OUTPUT_HANDLER_CLEAN);; mret true
      else mret false
  end.

Definition php_output_clean_all : O unit :=
  o ← gets og;
  match active o with
  | Some _ =>
      apply_topdown php_output_stack_apply_clean (top o) (php_output_context_init PHP_OUTPUT_HANDLER_CLEAN);; mret tt
  | None => mret tt
  end.

(** The notices of [php_output_stack_pop]. *)
Definition pop_error (flags : Z) (h : option php_output_handler) : O unit :=
  let what : zstr := if has flags PHP_OUTPUT_POP_DISCARD then "discard" else "send" in
  if has flags PHP_OUTPUT_POP_SILENT then mret tt
  else php_error (match h with
                  | None => "failed to " ++ what ++ " buffer. No buffer to " ++ what
                  | Some h => "failed to " ++ what ++ " buffer of " ++ cstr (name h) ++ " (" ++
                              dec_of_Z (Z.of_nat (level h)) ++ ")"
                  end).

Definition php_output_stack_pop (flgs : Z) : O bool :=
  o ← gets og;
  match active o with
  | None => pop_error flgs None;; mret false
  | Some l =>
      orphan ← get_handler l;
      if negb (has flgs PHP_OUTPUT_POP_FORCE) && negb (has (flags orphan) PHP_OUTPUT_HANDLER_REMOVABLE) then
        pop_error flgs (Some orphan);; mret false
      else
        let started := if has (flags orphan) PHP_OUTPUT_HANDLER_STARTED then 0%Z else PHP_OUTPUT_HANDLER_START in
        let clean := if has flgs PHP_OUTPUT_POP_DISCARD then PHP_OUTPUT_HANDLER_CLEAN else 0%Z in
        c ← (if has (flags orphan) PHP_OUTPUT_HANDLER_DISABLED
             then mret (php_output_context_init PHP_OUTPUT_HANDLER_FINAL)
             else r ← php_output_handler_op l
                        (php_output_context_init (Z.lor (Z.lor PHP_OUTPUT_HANDLER_FINAL started) clean));
                  mret r.2);
        on_og (λ o, o <| top := top o - 1 |> <| active := match top o - 1 with 0 => None | S n => Some n end |>);;
        match some_data (outb c), has flgs PHP_OUTPUT_POP_DISCARD with
        | Some data, false => php_output_write data;; mret tt
        | _, _ => mret tt
        end;;
        on_og (λ o, o <| handlers := take (top o) (handlers o) |>);;
        mret true
  end.

Definition php_output_end : O bool := php_output_stack_pop PHP_OUTPUT_POP_TRY.
Definition php_output_discard : O bool := php_output_stack_pop (Z.lor PHP_OUTPUT_POP_DISCARD PHP_OUTPUT_POP_TRY).

(** The loops of [php_output_end_all] and [php_output_discard_all], as often as there are
    handlers on the stack. *)
Fixpoint end_all (fuel : nat) : O unit :=
  o ← gets og;
  match active o, fuel with
  | None, _ => mret tt
  | Some _, 0 => undefined
  | Some _, S fuel' =>
      popped ← php_output_stack_pop PHP_OUTPUT_POP_FORCE;
      if popped : bool then end_all fuel' else mret tt
  end.
Definition php_output_end_all : O unit := o ← gets og; end_all (top o).

Fixpoint discard_all (fuel : nat) : O unit :=
  o ← gets og;
  match active o, fuel with
  | None, _ => mret tt
  | Some _, 0 => undefined
  | Some _, S fuel' =>
      php_output_stack_pop (Z.lor PHP_OUTPUT_POP_DISCARD PHP_OUTPUT_POP_FORCE);; discard_all fuel'
  end.
Definition php_output_discard_all : O unit := o ← gets og; discard_all (top o).

Definition php_output_get_level : O nat := gets (λ s, match active (og s) with Some _ => top (og s) | None => 0 end).

Definition php_output_get_contents : O (option zstr) :=
  o ← gets og;
  match active o with Some l => h ← get_handler l; mret (Some (buffer h)) | None => mret None end.
Definition php_output_get_length : O (option nat) :=
  contents ← php_output_get_contents; mret (length <$> contents).

(** ** Starting a handler *)

Definition php_output_handler_start (h : option php_output_handler) : O bool :=
  err ← php_output_lock_error PHP_OUTPUT_HANDLER_START;
  match h with
  | Some h =>
      if err || negb (conflict (name h)) then mret false
      else
        on_og (λ o, o <| handlers := take (top o) (handlers o) ++ [h <| level := top o |>] |>
                      <| top := S (top o) |> <| active := Some (top o) |>);;
        mret true
  | None => mret false
  end.

Definition php_output_start_default : O bool :=
  php_output_handler_start (Some (php_output_handler_create_internal php_output_default_handler_name 0
    PHP_OUTPUT_HANDLER_STDFLAGS php_output_handler_default_func)).
Definition php_output_start_devnull : O bool :=
  php_output_handler_start (Some (php_output_handler_create_internal php_output_devnull_handler_name
    PHP_OUTPUT_HANDLER_DEFAULT_SIZE 0 php_output_handler_devnull_func)).
Definition php_output_start_internal (nm : zstr) (f : nat) (chunk_size : nat) (flags : Z) : O bool :=
  php_output_handler_start (Some (php_output_handler_create_internal nm chunk_size flags (php_output_handler_compat_func f))).

Definition php_output_handler_create_user (output_handler : zval) (chunk_size : nat) (flags : Z)
    : O (option php_output_handler) :=
  let user :=
    match callable_name output_handler with
    | inl nm => mret (Some (php_output_handler_init nm chunk_size
                              (Z.lor (Z.land flags (Z.lnot 0xf)) PHP_OUTPUT_HANDLER_USER) (func_user output_handler)))
    | inr error => php_error error;; mret None
    end in
  match output_handler with
  | ZNull => mret (Some (php_output_handler_create_internal php_output_default_handler_name chunk_size flags
                           php_output_handler_default_func))
  | ZStr (c :: s) => match handler_alias (c :: s) with
                     | Some alias => mret (Some (alias chunk_size flags))
                     | None => user
                     end
  | _ => user
  end.

Definition php_output_start_user (output_handler : option zval) (chunk_size : nat) (flags : Z) : O bool :=
  h ← match output_handler with
      | Some v => php_output_handler_create_user v chunk_size flags
      | None => mret (Some (php_output_handler_create_internal php_output_default_handler_name chunk_size flags
                              php_output_handler_default_func))
      end;
  php_output_handler_start h.

Definition php_output_handler_started (o : output_globals) (nm : zstr) : bool :=
  match active o with
  | Some _ => existsb (λ h, bool_decide (name h = nm)) (take (top o) (handlers o))
  | None => false
  end.

Definition php_output_handler_conflict (handler_new handler_set : zstr) : O bool :=
  o ← gets og;
  if php_output_handler_started o handler_set then
    php_error (if bool_decide (handler_new = handler_set)
               then "output handler '" ++ cstr handler_new ++ "' cannot be used twice"
               else "output handler '" ++ cstr handler_new ++ "' conflicts with '" ++ cstr handler_set ++ "'");;
    mret true
  else mret false.

Definition php_output_set_implicit_flush (enabled : bool) : O unit :=
  on_og (λ o, o <| og_flags := if enabled then Z.lor (og_flags o) PHP_OUTPUT_IMPLICITFLUSH
                               else Z.land (og_flags o) (Z.lnot PHP_OUTPUT_IMPLICITFLUSH) |>).

(** [php_output_handler_hook]: the running handler about itself *)
Definition hook_flags : O (option Z) :=
  o ← gets og;
  match running o with Some l => h ← get_handler l; mret (Some (flags h)) | None => mret None end.
Definition hook_level : O (option nat) :=
  o ← gets og;
  match running o with Some l => h ← get_handler l; mret (Some (level h)) | None => mret None end.
Definition hook_immutable : O bool :=
  o ← gets og;
  match running o with
  | Some l =>
      on_handler l (λ h, h <| flags := Z.land (flags h)
        (Z.lnot (Z.lor PHP_OUTPUT_HANDLER_REMOVABLE PHP_OUTPUT_HANDLER_CLEANABLE)) |>);; mret true
  | None => mret false
  end.
Definition hook_disable : O bool :=
  o ← gets og;
  match running o with Some l => flag_handler l PHP_OUTPUT_HANDLER_DISABLED;; mret true | None => mret false end.

(** ** The functions of the language *)

(** [php_error_docref] about the active handler. *)
Definition failed (what : zstr) (of_handler : bool) : O unit :=
  o ← gets og;
  if of_handler then
    l ← lift (active o); h ← get_handler l;
    php_error ("failed to " ++ what ++ " buffer of " ++ cstr (name h) ++ " (" ++ dec_of_Z (Z.of_nat (level h)) ++ ")")
  else php_error ("failed to " ++ what).

Definition no_buffer : O bool := gets (λ s, bool_decide (active (og s) = None)).

Definition ob_start (output_handler : option zval) (chunk_size : Z) (flags : Z) : O bool :=
  ok ← php_output_start_user output_handler (Z.to_nat (Z.max 0 chunk_size)) flags;
  if ok : bool then mret true else php_error "failed to create buffer";; mret false.

Definition ob_flush : O bool :=
  none ← no_buffer;
  if none : bool then failed "flush buffer. No buffer to flush" false;; mret false
  else ok ← php_output_flush; if ok : bool then mret true else failed "flush" true;; mret false.

Definition ob_clean : O bool :=
  none ← no_buffer;
  if none : bool then failed "delete buffer. No buffer to delete" false;; mret false
  else ok ← php_output_clean; if ok : bool then mret true else failed "delete" true;; mret false.

Definition ob_end_flush : O bool :=
  none ← no_buffer;
  if none : bool then failed "delete and flush buffer. No buffer to delete or flush" false;; mret false
  else php_output_end.

Definition ob_end_clean : O bool :=
  none ← no_buffer;
  if none : bool then failed "delete buffer. No buffer to delete" false;; mret false
  else php_output_discard.

Definition ob_get_flush : O zval :=
  contents ← php_output_get_contents;
  match contents with
  | None => failed "delete and flush buffer. No buffer to delete or flush" false;; mret (ZBool false)
  | Some s => ok ← php_output_end; (if ok : bool then mret tt else failed "delete" true);; mret (ZStr s)
  end.

Definition ob_get_clean : O zval :=
  contents ← php_output_get_contents;
  match contents with
  | None => mret (ZBool false)
  | Some s => ok ← php_output_discard; (if ok : bool then mret tt else failed "delete" true);; mret (ZStr s)
  end.

Definition ob_get_contents : O zval :=
  contents ← php_output_get_contents; mret (match contents with Some s => ZStr s | None => ZBool false end).
Definition ob_get_level : O zval := n ← php_output_get_level; mret (ZLong (Z.of_nat n)).
Definition ob_get_length : O zval :=
  n ← php_output_get_length; mret (match n with Some n => ZLong (Z.of_nat n) | None => ZBool false end).

Definition add_next_index {A} (vs : list A) : htab A := imap (λ i v, (KIdx (Z.of_nat i), v)) vs.

Definition ob_list_handlers : O zval :=
  o ← gets og;
  mret (ZArr (match active o with
              | None => []
              | Some _ => add_next_index ((λ h, ZStr (name h)) <$> take (top o) (handlers o))
              end)).

Definition php_output_handler_status (h : php_output_handler) : zval :=
  ZArr [(KStr "name", ZStr (name h)); (KStr "type", ZLong (Z.land (flags h) 0xf)); (KStr "flags", ZLong (flags h));
        (KStr "level", ZLong (Z.of_nat (level h))); (KStr "chunk_size", ZLong (Z.of_nat (size h)));
        (KStr "buffer_size", ZLong (Z.of_nat (buffer_size h)));
        (KStr "buffer_used", ZLong (Z.of_nat (length (buffer h))))].

Definition ob_get_status (full_status : bool) : O zval :=
  o ← gets og;
  match active o with
  | None => mret (ZArr [])
  | Some l =>
      if full_status then mret (ZArr (add_next_index (php_output_handler_status <$> take (top o) (handlers o))))
      else h ← get_handler l; mret (php_output_handler_status h)
  end.

(** What a script does about its output and its headers. *)
Inductive action :=
| Echo (s : zstr)
| Header (c : header_call)
| Start (chunk_size : Z)
| Flush | Flush_all | Clean | Clean_all | End | Discard.

Definition act (a : action) : O unit :=
  match a with
  | Echo s => php_output_write s;; mret tt
  | Header c => run_header_call sapi_module c
  | Start n => ob_start None n PHP_OUTPUT_HANDLER_STDFLAGS;; mret tt
  | Flush => ob_flush;; mret tt
  | Flush_all => php_output_flush_all
  | Clean => ob_clean;; mret tt
  | Clean_all => php_output_clean_all
  | End => ob_end_flush;; mret tt
  | Discard => ob_end_clean;; mret tt
  end.

Fixpoint run_script (actions : list action) : O unit :=
  match actions with [] => mret tt | a :: actions' => act a;; run_script actions' end.

(** The end of a request: the buffers go out, and the head, if there was nothing else. *)
Definition finish : O unit := php_output_end_all;; php_output_deactivate.

End output.

(** ** What the output layer promises

    With the handlers of the engine itself, which pass on what they get: a stack of texts,
    each with the size from which on it is passed to the one below. *)

Record ob := Ob { chunk : nat; text : zstr }.

Definition cleared (b : ob) : ob := Ob (chunk b) [].

(** What is printed, from the top of the stack on; with [all] every buffer is passed on, as
    long as there is something in it.  The second result gets through to the server. *)
Fixpoint put (all : bool) (bs : list ob) (s : zstr) : list ob * zstr :=
  match bs with
  | [] => ([], s)
  | b :: bs' =>
      let t := text b ++ s in
      if all || bool_decide (s ≠ []) && bool_decide (chunk b ≠ 0) && bool_decide (chunk b ≤ length t) then
        if bool_decide (t = []) then (b :: bs', [])
        else let r := put all bs' t in (cleared b :: r.1, r.2)
      else (Ob (chunk b) t :: bs', [])
  end.

Definition spec_act (a : action) (bs : list ob) : list ob * zstr :=
  match a, bs with
  | Echo s, _ => put false bs s
  | Header _, _ => (bs, [])
  | Start n, _ => (Ob (Z.to_nat (Z.max 0 n)) [] :: bs, [])
  | Flush, b :: bs' => let r := put false bs' (text b) in (cleared b :: r.1, r.2)
  | Flush_all, b :: bs' => put true bs []
  | Clean, b :: bs' => (cleared b :: bs', [])
  | Clean_all, _ => (cleared <$> bs, [])
  | End, b :: bs' => put false bs' (text b)
  | Discard, b :: bs' => (bs', [])
  | _, [] => ([], [])
  end.

Fixpoint spec_script (actions : list action) (bs : list ob) : list ob * zstr :=
  match actions with
  | [] => (bs, [])
  | a :: actions' =>
      let r := spec_act a bs in
      let r' := spec_script actions' r.1 in (r'.1, r.2 ++ r'.2)
  end.

Fixpoint spec_end_all (fuel : nat) (bs : list ob) : zstr :=
  match fuel, bs with
  | S fuel', b :: bs' => let r := put false bs' (text b) in r.2 ++ spec_end_all fuel' r.1
  | _, _ => []
  end.

(** Everything that a script prints. *)
Definition spec_body (actions : list action) : zstr :=
  let r := spec_script actions [] in r.2 ++ spec_end_all (length r.1) r.1.

(** ** Flags *)

Lemma has_lor f a b : has (Z.lor f a) b = has f b || has a b.
Proof.
  unfold has. rewrite Z.land_lor_distr_l.
  destruct (Z.eqb_spec (Z.lor (Z.land f b) (Z.land a b)) 0) as [E|E].
  - apply Z.lor_eq_0_iff in E as [-> ->]. done.
  - destruct (Z.eqb_spec (Z.land f b) 0) as [E1|]; [|done]. destruct (Z.eqb_spec (Z.land a b) 0) as [E2|]; [|done].
    by rewrite E1, E2 in E.
Qed.

(** ** One handler *)

Record handler_rel (l : nat) (h : php_output_handler) (b : ob) : Prop := HandlerRel {
  rel_func : func h = php_output_handler_default_func;
  rel_size : size h = chunk b;
  rel_buffer : buffer h = text b;
  rel_level : level h = l;
  rel_room : length (buffer h) < buffer_size h;
  rel_flushable : has (flags h) PHP_OUTPUT_HANDLER_FLUSHABLE = true;
  rel_cleanable : has (flags h) PHP_OUTPUT_HANDLER_CLEANABLE = true;
  rel_removable : has (flags h) PHP_OUTPUT_HANDLER_REMOVABLE = true;
  rel_enabled : has (flags h) PHP_OUTPUT_HANDLER_DISABLED = false;
}.

Inductive stack_rel : list php_output_handler → list ob → Prop :=
| rel_nil : stack_rel [] []
| rel_push hs bs h b : stack_rel hs bs → handler_rel (length hs) h b → stack_rel (hs ++ [h]) (b :: bs).

Lemma stack_rel_length hs bs : stack_rel hs bs → length hs = length bs.
Proof. induction 1; [done|]. rewrite length_app. cbn. lia. Qed.

Lemma INITBUF_lt n : n < PHP_OUTPUT_HANDLER_INITBUF_SIZE n.
Proof.
  unfold PHP_OUTPUT_HANDLER_INITBUF_SIZE. pose proof (Nat.mod_upper_bound n PHP_OUTPUT_HANDLER_ALIGNTO_SIZE).
  assert (PHP_OUTPUT_HANDLER_ALIGNTO_SIZE ≠ 0) by done.
  assert (2 < PHP_OUTPUT_HANDLER_DEFAULT_SIZE) by (unfold PHP_OUTPUT_HANDLER_DEFAULT_SIZE; lia).
  destruct (Nat.ltb_spec 1 n); lia.
Qed.

(** The buffer is always large enough. *)
Lemma grow_enough h n : length (buffer h) < buffer_size h → length (buffer h) + n < grow h n.
Proof.
  intros Hr. unfold grow. destruct (Nat.leb_spec (buffer_size h - length (buffer h)) n); [|lia].
  pose proof (INITBUF_lt (n - (buffer_size h - length (buffer h)))). lia.
Qed.

(** [s] with other handlers, and flags that say that something was written. *)
Definition set_stack (hs : list php_output_handler) (f : Z) (s : srv) : srv :=
  s <| og := (og s) <| handlers := hs |> <| og_flags := f |> |>.
Definition touched (f f' : Z) : Prop := f' = f ∨ f' = Z.lor f PHP_OUTPUT_WRITTEN.

Lemma touched_trans f f' f'' : touched f f' → touched f' f'' → touched f f''.
Proof.
  intros [->| ->] [->| ->]; unfold touched; auto. right. by rewrite <-Z.lor_assoc, Z.lor_diag.
Qed.

Lemma touched_has f f' bit :
  touched f f' → has PHP_OUTPUT_WRITTEN bit = false → has f' bit = has f bit.
Proof. intros [->| ->] Hb; [done|]. by rewrite has_lor, Hb, orb_false_r. Qed.

Lemma alter_middle {A} (f : A → A) a x b : alter f (length a) (a ++ x :: b) = a ++ f x :: b.
Proof. induction a as [|y a IH]; [done|]. cbn. f_equal. exact IH. Qed.

Lemma set_stack_set hs1 f1 hs2 f2 s : set_stack hs2 f2 (set_stack hs1 f1 s) = set_stack hs2 f2 s.
Proof. done. Qed.
Lemma set_stack_id s : set_stack (handlers (og s)) (og_flags (og s)) s = s.
Proof. by destruct s as [? [] ? ? ? ?]. Qed.

Lemma handler_rel_text l h b t sz :
  handler_rel l h b → length t < sz →
  handler_rel l (h <| buffer := t |> <| buffer_size := sz |>) (Ob (chunk b) t).
Proof. intros [] Ht. split; try done. Qed.

Lemma handler_rel_flags l h b bit :
  handler_rel l h b → has bit PHP_OUTPUT_HANDLER_DISABLED = false →
  handler_rel l (h <| flags := Z.lor (flags h) bit |>) b.
Proof.
  intros [] Hb. split; try done; cbn [flags upd]; cbn; rewrite has_lor; rewrite ?rel_flushable0, ?rel_cleanable0, ?rel_removable0, ?rel_enabled0; done.
Qed.

Section refinement.
Context `{Runtime} (sapi_module : sapi_module_struct) (call_header_callback : zval → O bool)
  (call_handler : zval → zstr → Z → O (option zval)) (compat_func : nat → zstr → Z → option zstr).

Abbreviation handler_op := (php_output_handler_op sapi_module call_header_callback call_handler compat_func).

Lemma get_handler_run s hs h rest : handlers (og s) = hs ++ h :: rest → get_handler (length hs) s = Some (h, s).
Proof.
  intros Hs. unfold get_handler. st_run. rewrite Hs, lookup_app_r, Nat.sub_diag by lia. done.
Qed.

Lemma on_handler_run s hs h rest f :
  handlers (og s) = hs ++ h :: rest → on_handler (length hs) f s = Some (tt, set_stack (hs ++ f h :: rest) (og_flags (og s)) s).
Proof.
  intros Hs. unfold on_handler, on_og, modify, set_stack. do 2 f_equal. cbn. rewrite Hs, alter_middle.
  by destruct s as [? [] ? ? ? ?].
Qed.

(** Input goes to the end of the buffer; a buffer that is full says so. *)
Lemma append_run s hs h rest b data :
  handlers (og s) = hs ++ h :: rest → handler_rel (length hs) h b → running (og s) = None →
  ∃ h' f', php_output_handler_append (length hs) data s =
      Some (negb (bool_decide (default [] data ≠ []) && bool_decide (chunk b ≠ 0) &&
                  bool_decide (chunk b ≤ length (text b ++ default [] data))), set_stack (hs ++ h' :: rest) f' s) ∧
    handler_rel (length hs) h' (Ob (chunk b) (text b ++ default [] data)) ∧ touched (og_flags (og s)) f'.
Proof.
  intros Hs Hr Hrun. unfold php_output_handler_append. destruct data as [[|c data]|]; cbn [some_data from_option]; unfold id.
  - exists h, (og_flags (og s)). rewrite <-Hs, set_stack_id, (right_id_L [] (++)). split; [done|].
    split; [by destruct b|by left].
  - set (d := c :: data). pose proof Hr as []. pose proof (grow_enough h (length d) rel_room0) as Hg.
    set (s1 := set_stack (handlers (og s)) (Z.lor (og_flags (og s)) PHP_OUTPUT_WRITTEN) s).
    assert (Hflag : flag_og PHP_OUTPUT_WRITTEN s = Some (tt, s1)) by (by destruct s as [? [] ? ? ? ?]).
    rewrite (bind_runs _ _ _ _ _ Hflag), (bind_runs _ _ _ _ _ (get_handler_run s1 hs h rest Hs)).
    rewrite !bool_decide_true by lia. cbn [andb].
    rewrite (bind_runs _ _ _ _ _ (on_handler_run s1 hs h rest _ Hs)).
    set (h' := h <| buffer := _ |> <| buffer_size := _ |>).
    exists h', (Z.lor (og_flags (og s)) PHP_OUTPUT_WRITTEN). split; [|split; [|by right]].
    + rewrite (bool_decide_true (d ≠ [])) by done. rewrite rel_size0, rel_buffer0, length_app. cbn [andb].
      destruct (_ && _); [|done]. st_run. change (running (og _)) with (running (og s)). rewrite Hrun. done.
    + subst h'. rewrite rel_buffer0. apply handler_rel_text; [done|]. rewrite length_app, <-rel_buffer0. lia.
  - exists h, (og_flags (og s)). rewrite <-Hs, set_stack_id, (right_id_L [] (++)). split; [done|].
    split; [by destruct b|by left].
Qed.

Lemma lock_error_run mode s :
  running (og s) = None → php_output_lock_error sapi_module call_header_callback mode s = Some (false, s).
Proof. intros Hr. unfold php_output_lock_error. st_run. by rewrite Hr, andb_false_r. Qed.

Lemma flag_handler_run s hs h rest bit :
  handlers (og s) = hs ++ h :: rest →
  flag_handler (length hs) bit s = Some (tt, set_stack (hs ++ (h <| flags := Z.lor (flags h) bit |>) :: rest) (og_flags (og s)) s).
Proof. intros Hs. unfold flag_handler. by rewrite (on_handler_run s hs h rest). Qed.

(** Whether the handler is run. *)
Definition runs_now (mode : Z) (b : ob) (s : zstr) : bool :=
  negb (mode =? 0)%Z || bool_decide (s ≠ []) && bool_decide (chunk b ≠ 0) && bool_decide (chunk b ≤ length (text b ++ s)).

(** The function of the engine's own handler passes its buffer on. *)
Lemma process_run s hs h rest b c :
  handlers (og s) = hs ++ h :: rest → handler_rel (length hs) h b → running (og s) = None →
  ∃ h' c', (h ← get_handler (length hs);
     on_og (λ o, o <| running := Some (length hs) |>);;
     r ← run_handler call_handler compat_func (length hs) h
           (if has (flags h) PHP_OUTPUT_HANDLER_STARTED then c else c <| op := Z.lor (op c) PHP_OUTPUT_HANDLER_START |>);
     flag_handler (length hs) PHP_OUTPUT_HANDLER_STARTED;;
     on_og (λ o, o <| running := None |>);;
     h ← get_handler (length hs);
     match r.1 with
     | PHP_OUTPUT_HANDLER_FAILURE =>
         flag_handler (length hs) PHP_OUTPUT_HANDLER_DISABLED;;
         on_handler (length hs) (λ h, h <| buffer := [] |> <| buffer_size := 0 |>);;
         mret (r.1, r.2 <| outb := Some (buffer h) |> <| op := op c |>)
     | PHP_OUTPUT_HANDLER_NO_DATA | PHP_OUTPUT_HANDLER_SUCCESS =>
         on_handler (length hs) (λ h, h <| buffer := [] |>);;
         flag_handler (length hs) PHP_OUTPUT_HANDLER_PROCESSED;;
         mret (r.1, (match r.1 with
                     | PHP_OUTPUT_HANDLER_NO_DATA => php_output_context_reset r.2
                     | _ => r.2
                     end) <| op := op c |>)
     end) s =
    Some ((if bool_decide (text b = []) then PHP_OUTPUT_HANDLER_NO_DATA else PHP_OUTPUT_HANDLER_SUCCESS, c'),
          set_stack (hs ++ h' :: rest) (og_flags (og s)) s) ∧
    handler_rel (length hs) h' (cleared b) ∧ op c' = op c ∧
    outb c' = (if bool_decide (text b = []) then None else Some (text b)).
Proof.
  intros Hs Hr Hrun. rewrite (bind_runs _ _ _ _ _ (get_handler_run s hs h rest Hs)).
  unfold on_og. rewrite bind_modify.
  set (s1 := s <| og := (og s) <| running := Some (length hs) |> |>).
  assert (Hs1 : handlers (og s1) = hs ++ h :: rest) by done.
  set (c1 := if has (flags h) _ then _ else _).
  assert (Hc1 : run_handler call_handler compat_func (length hs) h c1 s1 =
    Some ((if bool_decide (text b = []) then PHP_OUTPUT_HANDLER_NO_DATA else PHP_OUTPUT_HANDLER_SUCCESS,
           OutputContext (op c1) None (Some (text b))), s1)).
  { unfold run_handler. destruct Hr as []. rewrite rel_func0, rel_buffer0. by destruct (text b). }
  rewrite (bind_runs _ _ _ _ _ Hc1). clear Hc1.
  rewrite (bind_runs _ _ _ _ _ (flag_handler_run s1 hs h rest _ Hs1)), bind_modify.
  set (h1 := h <| flags := _ |>). set (s2 := _ <| og := _ |>).
  assert (Hs2 : handlers (og s2) = hs ++ h1 :: rest) by done.
  rewrite (bind_runs _ _ _ _ _ (get_handler_run s2 hs h1 rest Hs2)).
  assert (Hr1 : handler_rel (length hs) h1 b) by by apply handler_rel_flags.
  set (h2 := h1 <| buffer := [] |>).
  assert (Hr2 : handler_rel (length hs) h2 (cleared b)).
  { destruct Hr1. split; try done. cbn [h2 buffer buffer_size upd]. cbn. cbn in rel_room0. lia. }
  set (h3 := h2 <| flags := Z.lor (flags h2) PHP_OUTPUT_HANDLER_PROCESSED |>). exists h3.
  assert (Hfin : ∀ A (a : A),
    (on_handler (length hs) (λ h, h <| buffer := [] |>);; flag_handler (length hs) PHP_OUTPUT_HANDLER_PROCESSED;; mret a) s2 =
    Some (a, set_stack (hs ++ h3 :: rest) (og_flags (og s)) s)).
  { intros A a. rewrite (bind_runs _ _ _ _ _ (on_handler_run s2 hs h1 rest _ Hs2)).
    rewrite (bind_runs _ _ _ _ _ (flag_handler_run (set_stack (hs ++ h2 :: rest) (og_flags (og s2)) s2) hs h2 rest _ eq_refl)).
    unfold mret, St_ret. do 2 f_equal. unfold set_stack, s2. subst s1. destruct s as [? [] ? ? ? ?]. cbn in Hrun. subst. done. }
  case_bool_decide; cbn [fst snd]; rewrite Hfin; eexists; (split; [done|]); (split; [by apply handler_rel_flags|done]).
Qed.

Lemma handler_op_run s hs h rest b c :
  handlers (og s) = hs ++ h :: rest → handler_rel (length hs) h b → running (og s) = None →
  let t := text b ++ default [] (inb c) in
  ∃ h' f' st c', handler_op (length hs) c s = Some ((st, c'), set_stack (hs ++ h' :: rest) f' s) ∧
    touched (og_flags (og s)) f' ∧
    (if runs_now (op c) b (default [] (inb c)) then
       handler_rel (length hs) h' (cleared b) ∧ op c' = op c ∧
       if bool_decide (t = []) then st = PHP_OUTPUT_HANDLER_NO_DATA ∧ outb c' = None
       else st = PHP_OUTPUT_HANDLER_SUCCESS ∧ outb c' = Some t
     else handler_rel (length hs) h' (Ob (chunk b) t) ∧ st = PHP_OUTPUT_HANDLER_NO_DATA ∧ c' = c).
Proof.
  intros Hs Hr Hrun t. unfold php_output_handler_op. rewrite (bind_runs _ _ _ _ _ (lock_error_run _ s Hrun)).
  destruct (append_run s hs h rest b (inb c) Hs Hr Hrun) as (h1 & f1 & Ha & Hr1 & Hf1).
  rewrite (bind_runs _ _ _ _ _ Ha). set (s1 := set_stack (hs ++ h1 :: rest) f1 s). fold t in Hr1 |- *.
  unfold runs_now. fold t. set (full := bool_decide (default [] (inb c) ≠ []) && _ && _).
  destruct (negb full && (op c =? 0)%Z) eqn:E.
  - apply andb_true_iff in E as [E1 E2]. rewrite E2. cbn [negb orb]. apply negb_true_iff in E1. rewrite E1.
    exists h1, f1, PHP_OUTPUT_HANDLER_NO_DATA, c. done.
  - destruct (process_run s1 hs h1 rest (Ob (chunk b) t) c eq_refl Hr1 Hrun) as (h2 & c2 & Hp & Hr2 & Hop & Hout).
    exists h2, f1, (if bool_decide (t = []) then PHP_OUTPUT_HANDLER_NO_DATA else PHP_OUTPUT_HANDLER_SUCCESS), c2.
    split; [exact Hp|]. split; [done|].
    assert (negb (op c =? 0)%Z || full = true) as ->.
    { destruct full, (op c =? 0)%Z; done. }
    split; [done|]. split; [done|]. cbn [text] in Hout. by case_bool_decide.
Qed.

Abbreviation apply_op := (php_output_stack_apply_op sapi_module call_header_callback call_handler compat_func).

(** One handler of the stack, and what the ones below get. *)
Lemma stack_apply_run s hs h rest b c :
  handlers (og s) = hs ++ h :: rest → handler_rel (length hs) h b → running (og s) = None → outb c = None →
  let t := text b ++ default [] (inb c) in
  ∃ h' f' r, apply_op (length hs) c s = Some (r, set_stack (hs ++ h' :: rest) f' s) ∧
    touched (og_flags (og s)) f' ∧
    (if runs_now (op c) b (default [] (inb c)) then
       handler_rel (length hs) h' (cleared b) ∧
       if bool_decide (t = []) then r.1 = true ∧ outb r.2 = None
       else r.1 = false ∧ (if 0 <? length hs then r.2 = OutputContext (op c) (Some t) None else outb r.2 = Some t)
     else handler_rel (length hs) h' (Ob (chunk b) t) ∧ r = (true, c)).
Proof.
  intros Hs Hh Hrun Hout t. destruct (handler_op_run s hs h rest b c Hs Hh Hrun) as (h' & f' & st & c1 & Hrun1 & Hf & Hres).
  fold t in Hres. unfold php_output_stack_apply_op. rewrite (bind_runs _ _ _ _ _ (get_handler_run s hs h rest Hs)).
  cbv zeta. rewrite (rel_enabled _ _ _ Hh), (bind_runs _ _ _ _ _ Hrun1), (rel_level _ _ _ Hh). cbn [fst snd].
  exists h', f'. destruct (runs_now _ _ _).
  - destruct Hres as (Hh' & Hop1 & Hst). case_bool_decide.
    + destruct Hst as [-> Hout1]. by eexists.
    + destruct Hst as [-> Hout1]. eexists. split; [done|]. split; [done|]. split; [done|]. split; [done|]. cbn [snd].
      destruct (0 <? length hs); [|done]. unfold php_output_context_swap. by rewrite Hop1, Hout1.
  - destruct Hres as (Hh' & -> & ->). by eexists.
Qed.

(** From the top of the stack down. *)
Lemma topdown_run bs : ∀ hs rest s c,
  stack_rel hs bs → bs ≠ [] → handlers (og s) = hs ++ rest → running (og s) = None → outb c = None →
  let r := put (negb (op c =? 0)%Z) bs (default [] (inb c)) in
  ∃ hs' f' c', apply_topdown apply_op (length hs) c s = Some (c', set_stack (hs' ++ rest) f' s) ∧
    stack_rel hs' r.1 ∧ length hs' = length hs ∧ touched (og_flags (og s)) f' ∧ some_data (outb c') = some_data (Some r.2).
Proof.
  induction bs as [|b bs IH]; intros hs rest s c Hrel Hne Hs Hrun Hout r; [done|].
  inversion Hrel as [|hs1 bs1 h b1 Hrel1 Hh]; subst hs bs1 b1. rewrite <-(assoc_L (++)) in Hs. cbn [Datatypes.app] in Hs.
  rewrite length_app, Nat.add_1_r. cbn [length apply_topdown].
  destruct (stack_apply_run s hs1 h rest b c Hs Hh Hrun Hout) as (h' & f' & st & Hrun1 & Hf & Hres).
  rewrite (bind_runs _ _ _ _ _ Hrun1). subst r. cbn [put]. unfold runs_now in Hres.
  set (t := text b ++ default [] (inb c)) in *.
  assert (Hlen : ∀ b', handler_rel (length hs1) h' b' → stack_rel (hs1 ++ [h']) (b' :: bs)) by (intros; by constructor).
  assert (Hl : length (hs1 ++ [h']) = S (length hs1)) by (rewrite length_app; cbn; lia).
  assert (Happ : ∀ hs, hs ++ h' :: rest = (hs ++ [h']) ++ rest) by (intros; by rewrite <-(assoc_L (++))).
  destruct (negb (op c =? 0)%Z || _ && _ && _) eqn:Enow.
  - destruct Hres as (Hh' & Hst). case_bool_decide as Et.
    + destruct st as [[|] c1]; destruct Hst as [[=] Hout1]. cbn [fst snd] in *. exists (hs1 ++ [h']), f', c1.
      rewrite <-Happ. split; [done|]. split; [|by rewrite Hout1]. replace b with (cleared b); [by apply Hlen|].
      destruct b as [n tx]. unfold cleared. cbn. f_equal. subst t. cbn [text] in Et. by apply app_eq_nil in Et as [-> _].
    + destruct st as [[|] c1]; destruct Hst as [[=] Hst]. cbn [fst snd] in *.
      destruct bs as [|b0 bs0].
      * inversion Hrel1; subst. cbn [length apply_topdown Nat.ltb Nat.leb put fst snd] in *.
        exists [h'], f', c1. split; [done|]. split; [by apply Hlen|]. split; [done|]. by rewrite Hst.
      * assert ((0 <? length hs1) = true) as E0.
        { apply Nat.ltb_lt. rewrite (stack_rel_length _ _ Hrel1). cbn. lia. }
        rewrite E0 in Hst. subst c1.
        destruct (IH hs1 (h' :: rest) (set_stack (hs1 ++ h' :: rest) f' s) (OutputContext (op c) (Some t) None)) as
          (hs2 & f2 & c2 & Hrun2 & Hrel2 & Hl2 & Hf2 & Hout2); [done..|].
        rewrite Hrun2, Happ. exists (hs2 ++ [h']), f2, c2. split; [done|]. split; [constructor; [done|by rewrite Hl2]|].
        split; [rewrite length_app, Hl2; cbn; lia|]. split; [by eapply touched_trans|done].
  - destruct Hres as (Hh' & ->). cbn [fst snd]. exists (hs1 ++ [h']), f', c. rewrite <-Happ.
    split; [done|]. split; [by apply Hlen|]. split; [done|]. split; [done|]. by rewrite Hout.
Qed.
End refinement.

(** ** The head and the body *)

(** A status line that the buffer of the CGI server has room for, and a code. *)
Definition short (h : sapi_headers_struct) : Prop :=
  from_option (λ l, length l ≤ 1000) True (http_status_line h) ∧ (- 2 ^ 63 ≤ http_response_code h < 2 ^ 63)%Z.

Lemma status_texts_short : Forall (λ p : Z * zstr, length p.2 ≤ 100) http_status_map.
Proof. decided. Qed.

Lemma after_protocol_length l p t : after_protocol l = Some (p, t) → length t ≤ length l.
Proof.
  unfold after_protocol. pose proof (break_app (ceq " ") (cstr l)) as Hb. pose proof (cstr_length l) as Hl.
  destruct (break _ (cstr l)) as [a [|c r]]; [done|]. intros [= <- <-]. cbn [fst snd] in Hb.
  apply (f_equal length) in Hb. rewrite length_app in Hb. lia.
Qed.

Lemma by_code_short h : short h → from_option (λ l, length l ≤ 1000) True (status_by_code h).
Proof.
  intros [_ Hc]. unfold status_by_code. case_match; [done|]. cbn [from_option].
  rewrite !length_app. pose proof (dec_length _ Hc) as Hd. change MAX_LENGTH_OF_LONG with 20 in Hd. cbn [length].
  destruct (list_find _ _) as [[i [c str]]|] eqn:E; [|cbn; lia].
  apply list_find_Some in E as (Hi & _ & _). pose proof (Forall_lookup_1 _ _ _ _ status_texts_short Hi) as Hs.
  cbn [snd] in Hs. rewrite length_app. cbn [length]. lia.
Qed.

Lemma fits_of_short cgig g : short (sapi_headers g) → status_fits cgig (to_send g).
Proof.
  intros Hsh line code E. assert (Hsh' : short (to_send g)).
  { unfold to_send. destruct (send_default_content_type _); [case_bool_decide|]; exact Hsh. }
  clear Hsh. pose proof (by_code_short _ Hsh') as Hby. set (h := to_send g) in *. destruct Hsh' as [Hl _].
  assert (length line ≤ 1007); [|unfold SAPI_CGI_MAX_HEADER_LENGTH; lia].
  unfold cgi_status in E. destruct (http_status_line h) as [l|]; cbn [from_option] in Hl.
  - destruct (rfc2616_headers cgig).
    + destruct (match after_protocol l with Some _ => _ | None => _ end) as [n|]; [|done].
      injection E as <- _. pose proof (cstr_length l). lia.
    + cbn [mbind option_bind] in E. destruct (after_protocol l) as [[p t]|] eqn:Ea; cbn [mbind option_bind fst snd] in E.
      * destruct (_ && _).
        { destruct (atoi _); [|done]. injection E as <- _. apply after_protocol_length in Ea. cbn. cbn in Ea. lia. }
        injection E as E _. rewrite E in Hby. cbn in Hby. lia.
      * injection E as E _. rewrite E in Hby. cbn in Hby. lia.
  - destruct (rfc2616_headers cgig); injection E as E _; rewrite E in Hby; cbn in Hby; lia.
Qed.

Lemma to_int_range n : (- 2 ^ 63 ≤ to_int n < 2 ^ 63)%Z.
Proof. unfold to_int. pose proof (Z.mod_pos_bound (n + 2 ^ 31) (2 ^ 32)). lia. Qed.

Lemma extract_range l n : sapi_extract_response_code l = Some n → (- 2 ^ 63 ≤ n < 2 ^ 63)%Z.
Proof.
  induction l as [|c l IH]; cbn; [intros [= <-]; lia|]. case_match; [|exact IH]. unfold atoi.
  destruct ((- 2 ^ 31 <=? _) && _)%Z eqn:E; [|done]. intros [= <-]. lia.
Qed.

Abbreviation short_headers := (λ s, short (the_headers s)).

Lemma short_code n : (- 2 ^ 63 ≤ n < 2 ^ 63)%Z → preserves short_headers (sapi_update_response_code n).
Proof. intros Hn. apply preserves_modify. intros s [Hl Hc]. unfold the_headers. cbn. by case_match. Qed.

Lemma short_headers_only f :
  (∀ h, http_status_line (f h) = http_status_line h ∧ http_response_code (f h) = http_response_code h) →
  preserves short_headers (on_headers f).
Proof.
  intros Hf. apply preserves_modify. intros s. unfold the_headers, short. cbn. by destruct (Hf (sapi_headers (sg s))) as [-> ->].
Qed.

Lemma short_remove nm : preserves short_headers (sapi_remove_header nm).
Proof. by apply short_headers_only. Qed.

Lemma location_code_range g code n :
  (- 2 ^ 63 ≤ code < 2 ^ 63)%Z → location_code g code = Some n → (- 2 ^ 63 ≤ n < 2 ^ 63)%Z.
Proof. unfold location_code. intros Hc. case_match; [|done]. intros [= <-]. repeat case_match; lia. Qed.

Ltac short_step :=
  first [ apply preserves_ret | apply preserves_gets | apply short_remove
        | apply preserves_bind; [|intros ?] | apply short_headers_only; by intros | apply preserves_modify; by intros ].

Lemma short_special h code :
  (- 2 ^ 63 ≤ code < 2 ^ 63)%Z → preserves short_headers (special_header h code).
Proof.
  intros Hcode. unfold special_header, content_type_header. destruct (break _ h) as [nm [|c v]]; [apply preserves_ret|].
  repeat case_match; repeat short_step.
  - destruct (location_code _ _) eqn:E; [apply short_code; by eapply location_code_range|apply preserves_ret].
  - by apply short_code.
Qed.

Lemma trim_line_length l : length (trim_line l) ≤ length l.
Proof.
  destruct (drop_end_app is_space l) as (t & E & _). unfold trim_line. rewrite E at 2. rewrite length_app. lia.
Qed.

(** Setting a header of moderate length leaves what the CGI server has room for. *)
Lemma short_header_op cgig op line code :
  length line ≤ 1000 → preserves short_headers (sapi_header_op (cgi_sapi_module cgig) op line code).
Proof.
  intros Hlen. pose proof (trim_line_length line) as Ht. pose proof (to_int_range code) as Hcode.
  unfold sapi_header_op. apply preserves_bind; [apply preserves_gets|intros s]. case_match; [repeat short_step|].
  assert (Hset : preserves short_headers (set_header (cgi_sapi_module cgig) op (trim_line line) (to_int code))).
  { unfold set_header. case_match; [repeat short_step|]. case_match.
    - intros s0 a s' HI (n & s1 & E1 & E2)%bind_inv. unfold lift in E1.
      destruct (sapi_extract_response_code _) as [m|] eqn:Em; [|done]. injection E1 as <- <-. revert s0 a s' HI E2.
      change (preserves short_headers (sapi_update_response_code m;;
        on_headers (λ h, h <| http_status_line := Some (trim_line line) |>);; mret true)).
      apply preserves_bind; [apply short_code; by eapply extract_range|intros _].
      apply preserves_bind; [|intros _; apply preserves_ret]. apply preserves_modify. intros s0 [_ Hc]. split; cbn; [lia|done].
    - apply preserves_bind; [by apply short_special|intros x]. apply preserves_bind; [case_match; [apply preserves_ret|by apply short_code]|intros _].
      unfold sapi_header_add_op. cbn [header_handler cgi_sapi_module].
      apply preserves_bind; [|intros _; apply preserves_ret]. apply preserves_bind; [apply preserves_ret|intros [|]; [|apply preserves_ret]].
      apply preserves_bind; [|intros _; by apply short_headers_only]. destruct op; try apply preserves_ret.
      destruct (break (ceq ":") x) as [? [|]]; [apply preserves_ret|apply short_remove]. }
  destruct op; [| |unfold delete_header; cbn [header_handler cgi_sapi_module]| |]; try case_bool_decide; try case_bool_decide;
    try exact Hset; repeat short_step; by apply short_code.
Qed.

(** The line of a call is moderate. *)
Definition call_short (c : header_call) : Prop :=
  match c with CallHeader line _ _ => length line ≤ 1000 | CallRemove (Some nm) => length nm ≤ 1000 | _ => True end.

Lemma short_header_call cgig c : call_short c → preserves short_headers (run_header_call (cgi_sapi_module cgig) c).
Proof.
  intros Hc. destruct c as [line rep code|[nm|]|code]; cbn [run_header_call header_remove call_short] in *;
    apply preserves_bind; try (by apply short_header_op); try (intros _; apply preserves_ret).
  - apply short_header_op. cbn. lia.
  - unfold php_http_response_code. apply preserves_bind; [apply preserves_gets|intros old].
    case_match; [apply preserves_ret|]. apply preserves_bind; [|intros _; apply preserves_ret].
    apply preserves_modify. intros s [Hl _]. split; [exact Hl|]. apply to_int_range.
Qed.

(** The stack is as it was. *)
Definition same_stack (s s' : srv) : Prop :=
  handlers (og s') = handlers (og s) ∧ top (og s') = top (og s) ∧ active (og s') = active (og s) ∧
  running (og s') = running (og s).

#[export] Instance same_stack_preorder : PreOrder same_stack.
Proof. split; [by intros s|]. intros s1 s2 s3 (? & ? & ? & ?) (? & ? & ? & ?). repeat split; congruence. Qed.

Section pages.
Context `{Runtime} (cgig : cgi_globals) (call_header_callback : zval → O bool)
  (call_handler : zval → zstr → Z → O (option zval)) (callable_name : zval → zstr + zstr)
  (compat_func : nat → zstr → Z → option zstr) (handler_alias : zstr → option (nat → Z → php_output_handler))
  (conflict : zstr → bool).
Abbreviation cgi := (cgi_sapi_module cgig).
Abbreviation output_header := (php_output_header cgi call_header_callback).

(** Whether the request asks for the head alone. *)
Context (ho : bool).

(** What is claimed of the headers, from which the head is made. *)
Context (P : sapi_globals_struct → Prop).

(** What the output layer has given to the server: nothing yet, or the head and the body,
    which is kept back where only the head was asked for.  Unless [ending], the head waits
    for a body. *)
Record page_at (ending : bool) (s : srv) (body : zstr) : Prop := Page {
  page_clean : clean_state s;
  page_activated : activated s;
  page_headers : no_headers (sg s) = false;
  page_callback : callback_func (sg s) = None;
  page_only : headers_only (sg s) = ho;
  page_wire :
    if headers_sent (sg s) then
      (∃ ls g, P g ∧ head_of cgig (to_send g) = Some ls ∧ Forall line_ok ls ∧
         wire s = crlf_lines ls ++ CRLF ++ (if ho then [] else body)) ∧
      has (og_flags (og s)) PHP_OUTPUT_DISABLED = ho ∧ (ending = false → body ≠ [])
    else body = [] ∧ wire s = [] ∧ has (og_flags (og s)) PHP_OUTPUT_DISABLED = false ∧ short (the_headers s) ∧ P (sg s);
}.
Abbreviation page := (page_at false).

(** Only the flags have changed, and those that count are as they were. *)
Lemma page_flags s body hs t a r st f :
  page s body → has f PHP_OUTPUT_ACTIVATED = true →
  has f PHP_OUTPUT_DISABLED = has (og_flags (og s)) PHP_OUTPUT_DISABLED →
  page (s <| og := OutputGlobals hs t a r st f |>) body.
Proof.
  intros [Hc Ha Hn Hcb Honly Hw] Hf Hd. split; try done.
  - by destruct Hc.
  - cbn [sg og og_flags upd]. cbn. rewrite Hd. exact Hw.
Qed.

Lemma header_run s body :
  page s body → ∃ s', output_header s = Some (tt, s') ∧ page_at true s' body ∧ headers_sent (sg s') = true ∧
    headers_only (sg s') = headers_only (sg s) ∧ same_stack s s'.
Proof.
  intros Hp. pose proof Hp as [Hc Ha Hn Hcb Honly Hw]. unfold php_output_header. st_run.
  destruct (headers_sent (sg s)) eqn:Esent.
  { exists s. split; [done|]. split; [|split; [done|]; split; [done|]; reflexivity]. destruct Hw as (Hw & Hd & _).
    split; try done. by rewrite Esent. }
  destruct Hw as (-> & Hwire & Hdis & Hshort & HP). rewrite bind_modify.
  set (s1 := s <| og := _ |>).
  assert (Hp1 : page s1 []).
  { subst s1. destruct s as [g [hs t a r st f] w so e ex]. apply (page_flags _ [] hs t a r _ f Hp Ha). done. }
  assert (Hs1 : sg s1 = sg s) by done.
  destruct (send_headers_run cgig call_header_callback s1) as (ls & Ehead & Hls & Hsend).
  { destruct Hp1. split; try done. by apply fits_of_short. }
  assert (Hph : php_header cgi call_header_callback s1 = Some (negb (headers_only (sg s)), after_send ls s1)).
  { unfold php_header. rewrite (bind_runs _ _ _ _ _ Hsend). done. }
  rewrite (bind_runs _ _ _ _ _ Hph).
  assert (Hcl : clean_state (after_send ls s1)).
  { pose proof (to_send_clean s1 (page_clean _ _ _ Hp1)) as []. by split. }
  assert (Hwire' : wire (after_send ls s1) = crlf_lines ls ++ CRLF).
  { cbn [after_send written wire upd]. cbn. by rewrite Hwire. }
  destruct (headers_only (sg s)) eqn:Eonly; cbn [negb].
  - eexists. split; [done|]. split; [|done]. destruct Hcl. split; try done; [|by cbn; rewrite Eonly|].
    + unfold activated. cbn [og upd og_flags]. cbn. rewrite has_lor. cbn. apply orb_true_iff. left. exact Ha.
    + cbn [sg og og_flags upd after_send written]. cbn. rewrite <-Honly. split; [|by rewrite has_lor, orb_true_r].
      exists ls, (sg s). split; [done|]. split; [done|]. split; [done|]. by rewrite Hwire.
  - eexists. split; [done|]. split; [|done]. destruct Hcl. split; try done; [by cbn; rewrite Eonly|].
    cbn [sg og og_flags upd after_send written]. cbn. rewrite <-Honly. split; [|done].
    exists ls, (sg s). split; [done|]. split; [done|]. split; [done|]. by rewrite Hwire.
Qed.

(** The end of [php_output_op]. *)
Definition emit (o : option zstr) : O unit :=
  match some_data o with
  | Some data =>
      output_header;;
      f ← gets (λ s, og_flags (og s));
      if has f PHP_OUTPUT_DISABLED then mret tt else ub_write cgi data;; flag_og PHP_OUTPUT_SENT
  | None => mret tt
  end.

Lemma emit_run s body data :
  page s body → ∃ s', emit (Some data) s = Some (tt, s') ∧ page s' (body ++ data) ∧ same_stack s s'.
Proof.
  intros Hp. unfold emit. destruct data as [|c data]; cbn [some_data].
  { exists s. rewrite (right_id_L [] (++)). split; [done|]. split; [exact Hp|reflexivity]. }
  set (d := c :: data). destruct (header_run s body Hp) as (s1 & Hh & [Hc Ha Hn Hcb Honly Hw] & Hsent & _ & Hst).
  rewrite (bind_runs _ _ _ _ _ Hh), bind_gets. rewrite Hsent in Hw. destruct Hw as [(ls & g & HPg & Hls & Hok & Hw) [Hdis _]]. rewrite <-Honly in Hw.
  assert (Hne : body ++ d ≠ []) by (by intros [_ [=]]%app_eq_nil). rewrite Hdis, <-Honly.
  destruct (headers_only (sg s1)) eqn:Eonly.
  - exists s1. split; [done|]. split; [|done]. split; try done; [congruence|]. rewrite Hsent, <-Honly. split; [by exists ls, g|split; [congruence|done]].
  - unfold ub_write, cgi_sapi_module, sapi_cgi_ub_write, flag_og, on_og. st_run. eexists. split; [done|]. split.
    + split; try done; [by destruct Hc| |by cbn; rewrite Eonly|].
      * unfold activated. cbn [og upd og_flags]. cbn. rewrite has_lor. apply orb_true_iff. by left.
      * cbn [sg og og_flags upd wire]. cbn. rewrite Hsent, <-Honly, has_lor, Hdis. split; [|split; [by rewrite <-Honly|done]].
        exists ls, g. do 3 (split; [done|]). by rewrite Hw, <-!(assoc_L (++)).
    + etransitivity; [exact Hst|]. done.
Qed.

Abbreviation output_op := (php_output_op cgi call_header_callback call_handler compat_func).

(** The stack holds [bs], at the bottom of the array of handlers. *)
Record on_stack (s : srv) (bs : list ob) (hs rest : list php_output_handler) : Prop := OnStack {
  on_handlers : handlers (og s) = hs ++ rest;
  on_rel : stack_rel hs bs;
  on_top : top (og s) = length hs;
  on_running : running (og s) = None;
}.

Lemma page_set_stack s body hs f : page s body → touched (og_flags (og s)) f → page (set_stack hs f s) body.
Proof.
  intros Hp Hf. destruct s as [g [hs0 t a r st f0] w so e ex]. cbn [og og_flags] in Hf.
  apply (page_flags _ body hs t a r st f Hp).
  - rewrite (touched_has _ _ PHP_OUTPUT_ACTIVATED Hf); [by destruct Hp|done].
  - by rewrite (touched_has _ _ PHP_OUTPUT_DISABLED Hf).
Qed.

(** What gets through the stack, before it is given to the server. *)
Lemma through_run mode str s bs hs rest body :
  page s body → on_stack s bs hs rest → (bs ≠ [] → is_Some (active (og s))) →
  let r := put (negb (mode =? 0)%Z) bs (default [] str) in
  ∃ c s1 hs', (match active (og s), top (og s) with
      | Some _, S n =>
          let c := (php_output_context_init mode) <| inb := str |> in
          if 1 <? top (og s) then
            apply_topdown (php_output_stack_apply_op cgi call_header_callback call_handler compat_func) (top (og s)) c
          else
            h ← get_handler n;
            if has (flags h) PHP_OUTPUT_HANDLER_DISABLED then mret (php_output_context_pass c)
            else r ← php_output_handler_op cgi call_header_callback call_handler compat_func n c; mret r.2
      | _, _ => mret ((php_output_context_init mode) <| outb := str |>)
      end) s = Some (c, s1) ∧
    some_data (outb c) = some_data (Some r.2) ∧ page s1 body ∧ on_stack s1 r.1 hs' rest ∧ length hs' = length hs ∧
    active (og s1) = active (og s).
Proof.
  intros Hp [Hhs Hrel Htop Hrun] Hact r. rewrite Htop.
  destruct bs as [|b bs].
  { inversion Hrel; subst hs. cbn [length] in *. eexists _, s, []. split; [by destruct (active (og s))|].
    split; [by destruct str as [[]|]|]. split; [exact Hp|]. split; [by split|done]. }
  destruct Hact as [l Hl]; [done|]. rewrite Hl. set (c := _ <| inb := str |>).
  destruct (length hs) as [|n] eqn:En.
  { apply stack_rel_length in Hrel. by rewrite En in Hrel. }
  rewrite <-En. destruct (Nat.ltb_spec 1 (length hs)) as [H1|H1].
  - destruct (topdown_run cgi call_header_callback call_handler compat_func (b :: bs) hs rest s c Hrel)
      as (hs' & f' & c' & E & Hrel' & Hlen & Hf & Hout); [done..|].
    exists c', (set_stack (hs' ++ rest) f' s), hs'. split; [exact E|]. split; [exact Hout|].
    split; [by apply page_set_stack|]. split; [|done]. split; [done|exact Hrel'|cbn; congruence|done].
  - assert (n = 0) as -> by lia. inversion Hrel as [|hs1 bs1 h b1 Hrel1 Hh]; subst.
    rewrite length_app in En. cbn in En. assert (hs1 = []) as -> by (apply length_zero_iff_nil; lia).
    assert (bs = []) as -> by (apply length_zero_iff_nil; by rewrite <-(stack_rel_length _ _ Hrel1)).
    cbn [Datatypes.app] in Hhs.
    rewrite (bind_runs _ _ _ _ _ (get_handler_run s [] h rest Hhs)), (rel_enabled _ _ _ Hh).
    destruct (handler_op_run cgi call_header_callback call_handler compat_func s [] h rest b c Hhs Hh Hrun)
      as (h' & f' & st & c' & E & Hf & Hres).
    rewrite (bind_runs _ _ _ _ _ E). cbn [fst snd]. exists c', (set_stack (h' :: rest) f' s), [h'].
    split; [done|]. unfold runs_now in Hres. subst r. cbn [put]. change (inb c) with str in Hres. change (op c) with mode in Hres.
    assert (Hgoal : ∀ b', handler_rel 0 h' b' → page (set_stack (h' :: rest) f' s) body ∧
      on_stack (set_stack (h' :: rest) f' s) [b'] [h'] rest ∧ length [h'] = length ([] ++ [h]) ∧
      active (og (set_stack (h' :: rest) f' s)) = Some l).
    { intros b' Hb'. split; [by apply page_set_stack|]. split; [|done]. split; [done| |done|done].
      apply (rel_push [] [] h' b'); [constructor|done]. }
    destruct (negb (mode =? 0)%Z || _ && _ && _).
    + destruct Hres as (Hh' & _ & Hst). case_bool_decide as Et.
      * destruct Hst as [_ Hout]. split; [by rewrite Hout|]. cbn [fst snd].
        replace b with (cleared b); [by apply Hgoal|]. destruct b as [k tx]. unfold cleared. cbn. f_equal.
        cbn [text] in Et. by apply app_eq_nil in Et as [-> _].
      * destruct Hst as [_ Hout]. split; [by rewrite Hout|]. cbn [fst snd put]. by apply Hgoal.
    + destruct Hres as (Hh' & _ & ->). split; [done|]. cbn [fst snd]. by apply Hgoal.
Qed.

Lemma output_op_run mode str s bs hs rest body :
  page s body → on_stack s bs hs rest → (bs ≠ [] → is_Some (active (og s))) →
  let r := put (negb (mode =? 0)%Z) bs (default [] str) in
  ∃ s' hs', output_op mode str s = Some (tt, s') ∧ page s' (body ++ r.2) ∧ on_stack s' r.1 hs' rest ∧
    length hs' = length hs ∧ active (og s') = active (og s).
Proof.
  intros Hp Hst Hact r. unfold php_output_op.
  rewrite (bind_runs _ _ _ _ _ (lock_error_run cgi call_header_callback mode s (on_running _ _ _ _ Hst))), bind_gets.
  destruct (through_run mode str s bs hs rest body Hp Hst Hact) as (c & s1 & hs' & E & Hout & Hp1 & Hst1 & Hlen & Ha).
  rewrite (bind_runs _ _ _ _ _ E). fold r in Hout, Hst1.
  destruct (emit_run s1 body r.2 Hp1) as (s2 & Eemit & Hp2 & (Hh & Ht & Hact2 & Hr)).
  exists s2, hs'. split; [unfold emit in Eemit; by rewrite Hout|]. split; [done|]. split; [|split; [done|congruence]].
  destruct Hst1. by split; congruence.
Qed.

(** ** The functions, one by one *)

(** The state between two of them. *)
Record outputs (s : srv) (bs : list ob) (body : zstr) : Prop := Outputs {
  outputs_page : page s body;
  outputs_stack : ∃ hs, on_stack s bs hs [];
  outputs_active : active (og s) = match bs with [] => None | _ :: bs' => Some (length bs') end;
}.

Lemma outputs_top s b bs body :
  outputs s (b :: bs) body →
  ∃ hs h, handlers (og s) = hs ++ h :: [] ∧ stack_rel hs bs ∧ handler_rel (length hs) h b ∧
    top (og s) = S (length hs) ∧ running (og s) = None ∧ active (og s) = Some (length hs) ∧ page s body.
Proof.
  intros [Hp [hs0 [Hhs Hrel Htop Hrun]] Hact]. inversion Hrel as [|hs bs1 h b1 Hrel1 Hh]; subst.
  exists hs, h. rewrite (right_id_L [] (++)) in Hhs. rewrite Hact, (stack_rel_length _ _ Hrel1).
  split; [done|]. split; [done|]. split; [by rewrite <-(stack_rel_length _ _ Hrel1)|]. split; [|done].
  rewrite Htop, length_app, (stack_rel_length _ _ Hrel1). cbn. lia.
Qed.

Lemma write_run str s bs body :
  outputs s bs body →
  let r := put false bs str in
  ∃ s', php_output_write cgi call_header_callback call_handler compat_func str s = Some (length str, s') ∧
    outputs s' r.1 (body ++ r.2).
Proof.
  intros [Hp [hs Hst] Hact] r. unfold php_output_write. st_run. rewrite (page_activated _ _ _ Hp).
  destruct (output_op_run PHP_OUTPUT_HANDLER_WRITE (Some str) s bs hs [] body Hp Hst) as (s' & hs' & E & Hp' & Hst' & Hlen & Ha).
  { intros Hne. rewrite Hact. by destruct bs. }
  rewrite (bind_runs _ _ _ _ _ E). eexists. split; [done|]. split; [exact Hp'|by exists hs'|].
  rewrite Ha, Hact. change (put (negb (PHP_OUTPUT_HANDLER_WRITE =? 0)%Z) bs (default [] (Some str))) with r in Hst'.
  pose proof (stack_rel_length _ _ (on_rel _ _ _ _ Hst')) as H1.
  pose proof (stack_rel_length _ _ (on_rel _ _ _ _ Hst)) as H2. fold r. destruct bs, (r.1); cbn in *; congruence.
Qed.

(** A handler that is run for another reason than more output. *)
Lemma force_run s hs h rest b mode body :
  handlers (og s) = hs ++ h :: rest → handler_rel (length hs) h b → running (og s) = None → (mode =? 0)%Z = false →
  page s body →
  ∃ h' f' st c', php_output_handler_op cgi call_header_callback call_handler compat_func (length hs)
      (php_output_context_init mode) s = Some ((st, c'), set_stack (hs ++ h' :: rest) f' s) ∧
    page (set_stack (hs ++ h' :: rest) f' s) body ∧ handler_rel (length hs) h' (cleared b) ∧
    some_data (outb c') = some_data (Some (text b)).
Proof.
  intros Hs Hh Hrun Hmode Hp.
  destruct (handler_op_run cgi call_header_callback call_handler compat_func s hs h rest b
    (php_output_context_init mode) Hs Hh Hrun) as (h' & f' & st & c' & E & Hf & Hres).
  exists h', f', st, c'. split; [exact E|]. split; [by apply page_set_stack|]. unfold runs_now in Hres.
  cbn [op inb php_output_context_init from_option] in Hres. unfold id in Hres. rewrite Hmode in Hres. cbn [negb orb] in Hres.
  rewrite (right_id_L [] (++)) in Hres. destruct Hres as (Hh' & _ & Hst). split; [done|].
  case_bool_decide as Et; destruct Hst as [_ ->]; [by rewrite Et|done].
Qed.

Lemma put_nil bs : put false bs [] = (bs, []).
Proof.
  destruct bs as [|b bs]; [done|]. cbn [put orb andb]. rewrite bool_decide_false by naive_solver. cbn [andb].
  rewrite (right_id_L [] (++)). by destruct b.
Qed.

Lemma put_some data bs str : some_data (Some str) = None → put false bs str = (bs, data) → data = [].
Proof. destruct str; [|done]. intros _. rewrite put_nil. congruence. Qed.

Lemma flush_run s b bs body :
  outputs s (b :: bs) body →
  let r := put false bs (text b) in
  ∃ s', php_output_flush cgi call_header_callback call_handler compat_func s = Some (true, s') ∧
    outputs s' (cleared b :: r.1) (body ++ r.2).
Proof.
  intros (hs & h & Hs & Hrel & Hh & Htop & Hrun & Hact & Hp)%outputs_top r. unfold php_output_flush. st_run. rewrite Hact.
  rewrite (bind_runs _ _ _ _ _ (get_handler_run s hs h [] Hs)), (rel_flushable _ _ _ Hh).
  destruct (force_run s hs h [] b PHP_OUTPUT_HANDLER_FLUSH body Hs Hh Hrun eq_refl Hp) as (h' & f' & st & c' & E & Hp' & Hh' & Hout).
  rewrite (bind_runs _ _ _ _ _ E). cbn [snd]. rewrite Hout. set (s1 := set_stack _ _ _) in *.
  subst r. destruct (text b) as [|ch tx] eqn:Et; cbn [some_data].
  - rewrite put_nil. exists s1. split; [done|]. cbn [fst snd]. rewrite (right_id_L [] (++)). split; [done| |].
    + exists (hs ++ [h']). split; [by rewrite (right_id_L [] (++))|by constructor| |done].
      rewrite length_app. cbn. rewrite Htop. lia.
    + cbn. by rewrite <-(stack_rel_length _ _ Hrel).
  - unfold on_og. rewrite bind_modify. set (s2 := s1 <| og := _ |>).
    assert (Hp2 : page s2 body).
    { subst s2. destruct s1 as [g [hs0 t a r st0 f] w so e ex]. apply (page_flags _ body _ _ _ _ _ _ Hp'); [by destruct Hp'|done]. }
    assert (Hst2 : on_stack s2 bs hs [h']) by (split; [done|done|cbn; rewrite Htop; lia|done]).
    destruct (output_op_run PHP_OUTPUT_HANDLER_WRITE (Some (ch :: tx)) s2 bs hs [h'] body Hp2 Hst2)
      as (s3 & hs3 & E3 & Hp3 & [Hh3 Hrel3 Htop3 Hrun3] & Hlen3 & Ha3).
    { intros _. exists (length hs). exact Hact. }
    change (put (negb (PHP_OUTPUT_HANDLER_WRITE =? 0)%Z) bs (default [] (Some (ch :: tx)))) with (put false bs (ch :: tx)) in *.
    unfold php_output_write. rewrite bind_assoc, bind_gets, (page_activated _ _ _ Hp2), bind_assoc, (bind_runs _ _ _ _ _ E3), bind_ret.
    rewrite bind_modify. eexists. split; [done|]. split.
    + destruct s3 as [g [hs0 t a r st0 f] w so e ex]. apply (page_flags _ _ _ _ _ _ _ _ Hp3); [by destruct Hp3|done].
    + exists (hs3 ++ [h']). split; [cbn; by rewrite (right_id_L [] (++))|constructor; [done|by rewrite Hlen3]| |done].
      cbn. rewrite Htop3, length_app. cbn. lia.
    + cbn. rewrite Ha3. rewrite <-(stack_rel_length _ _ Hrel3), Hlen3. exact Hact.
Qed.

(** A buffer leaves the stack, with or without its contents. *)
Lemma pop_run flgs s b bs body :
  outputs s (b :: bs) body →
  let r := if has flgs PHP_OUTPUT_POP_DISCARD then (bs, []) else put false bs (text b) in
  ∃ s', php_output_stack_pop cgi call_header_callback call_handler compat_func flgs s = Some (true, s') ∧
    outputs s' r.1 (body ++ r.2).
Proof.
  intros (hs & h & Hs & Hrel & Hh & Htop & Hrun & Hact & Hp)%outputs_top r. unfold php_output_stack_pop. st_run. rewrite Hact.
  rewrite (bind_runs _ _ _ _ _ (get_handler_run s hs h [] Hs)), (rel_removable _ _ _ Hh), (rel_enabled _ _ _ Hh).
  cbn [negb]. rewrite andb_false_r. cbv zeta. rewrite bind_assoc.
  set (mode := Z.lor _ _).
  assert (Hmode : (mode =? 0)%Z = false).
  { subst mode. apply Z.eqb_neq. intros [E _]%Z.lor_eq_0_iff. by apply Z.lor_eq_0_iff in E as [E _]. }
  destruct (force_run s hs h [] b mode body Hs Hh Hrun Hmode Hp) as (h' & f' & st & c' & E & Hp' & Hh' & Hout).
  rewrite (bind_runs _ _ _ _ _ E), bind_ret. cbn [snd]. rewrite Hout. unfold on_og. rewrite bind_modify.
  set (s1 := set_stack _ _ _) in *. set (s2 := s1 <| og := _ |>).
  assert (Hp2 : page s2 body).
  { subst s2. destruct s1 as [g [hs0 t a q st0 f] w so e ex]. apply (page_flags _ body _ _ _ _ _ _ Hp'); [by destruct Hp'|done]. }
  assert (Hst2 : on_stack s2 bs hs [h']) by (split; [done|done|cbn; rewrite Htop; lia|done]).
  assert (Ha2 : active (og s2) = match bs with [] => None | _ :: bs' => Some (length bs') end).
  { cbn. rewrite Htop. cbn. rewrite Nat.sub_0_r, (stack_rel_length _ _ Hrel). by destruct bs. }
  assert (Hfin : ∀ s3 bs3 body3 hs3, page s3 body3 → on_stack s3 bs3 hs3 [h'] → length hs3 = length hs →
    active (og s3) = active (og s2) →
    ∃ s', (modify (λ s, s <| og := (og s) <| handlers := take (top (og s)) (handlers (og s)) |> |>);; mret true) s3 = Some (true, s') ∧
      outputs s' bs3 body3).
  { intros s3 bs3 body3 hs3 Hp3 [Hh3 Hrel3 Htop3 Hrun3] Hlen3 Ha3. rewrite bind_modify. eexists. split; [done|]. split.
    - destruct s3 as [g [hs0 t a q st0 f] w so e ex]. apply (page_flags _ _ _ _ _ _ _ _ Hp3); [by destruct Hp3|done].
    - exists hs3. split; [|done|done|done]. cbn. rewrite Hh3, Htop3, take_app_length. by rewrite (right_id_L [] (++)).
    - cbn. rewrite Ha3, Ha2. pose proof (stack_rel_length _ _ Hrel3). pose proof (stack_rel_length _ _ Hrel).
      destruct bs, bs3; cbn in *; congruence. }
  subst r. destruct (has flgs PHP_OUTPUT_POP_DISCARD).
  { destruct (some_data (Some (text b))); cbn beta iota; rewrite bind_ret; cbn [fst snd]; rewrite (right_id_L [] (++)); by eapply Hfin. }
  destruct (text b) as [|ch tx] eqn:Et; cbn [some_data].
  { rewrite bind_ret, put_nil. cbn [fst snd]. rewrite (right_id_L [] (++)). by eapply Hfin. }
  destruct (output_op_run PHP_OUTPUT_HANDLER_WRITE (Some (ch :: tx)) s2 bs hs [h'] body Hp2 Hst2)
    as (s3 & hs3 & E3 & Hp3 & Hst3 & Hlen3 & Ha3).
  { intros Hne. rewrite Ha2. by destruct bs. }
  unfold php_output_write. rewrite !bind_assoc, bind_gets, (page_activated _ _ _ Hp2), bind_assoc, (bind_runs _ _ _ _ _ E3), !bind_ret.
  by eapply Hfin.
Qed.

(** ** Headers between the output *)

Definition total {A} (m : O A) : Prop := ∀ s, is_Some (m s).
Lemma total_bind {A B} (m : O A) (k : A → O B) : total m → (∀ a, total (k a)) → total (m ≫= k).
Proof. intros Hm Hk s. unfold mbind, St_bind. destruct (Hm s) as [[a s'] ->]. apply Hk. Qed.
Lemma total_ret {A} (a : A) : total (mret a).
Proof. by intros s. Qed.
Lemma total_modify f : total (modify f).
Proof. by intros s. Qed.
Lemma total_gets {A} (f : srv → A) : total (gets f).
Proof. by intros s. Qed.

Ltac total_step :=
  first [ apply total_ret | apply total_gets | apply total_modify | apply total_bind; [|intros ?] | case_match ].

(** The number of a status line, where there is one, is an [int]. *)
Definition line_code_ok (line : zstr) : Prop :=
  strncasecmp0 (trim_line line) "HTTP/" 5 = true → is_Some (sapi_extract_response_code (trim_line line)).

Lemma header_op_total op line code : line_code_ok line → total (sapi_header_op cgi op line code).
Proof.
  intros Hok.
  assert (Hset : total (set_header cgi op (trim_line line) (to_int code))).
  { unfold set_header. case_match; [repeat total_step|]. case_match eqn:E.
    - apply andb_true_iff in E as [_ E]. destruct (Hok E) as [n ->]. change (lift (Some n)) with (mret (M := O) n).
      repeat total_step.
    - unfold special_header, content_type_header, sapi_header_add_op. cbn [header_handler cgi_sapi_module]. repeat total_step. }
  unfold sapi_header_op, delete_header. cbn [header_handler cgi_sapi_module]. repeat first [exact Hset|total_step].
Qed.

(** The number of a status line that a call sets is an [int]. *)
Definition call_code_ok (c : header_call) : Prop :=
  match c with CallHeader line _ _ => line_code_ok line | CallRemove (Some nm) => line_code_ok nm | _ => True end.

Lemma header_call_total c : call_code_ok c → total (run_header_call cgi c).
Proof.
  intros Hc. destruct c as [line rep code|[nm|]|code]; cbn [run_header_call header_remove call_code_ok] in *;
    apply total_bind; try (by apply header_op_total); try (intros; apply total_ret).
  unfold php_http_response_code. repeat total_step.
Qed.

(** What a header leaves alone in the output layer. *)
Definition kept (s s' : srv) : Prop :=
  og s' = og s ∧ wire s' = wire s ∧ headers_sent (sg s') = headers_sent (sg s) ∧ no_headers (sg s') = no_headers (sg s) ∧
  callback_func (sg s') = callback_func (sg s) ∧ headers_only (sg s') = headers_only (sg s).

Lemma header_call_kept c s r s' : run_header_call cgi c s = Some (r, s') → kept s s'.
Proof.
  intros E. eapply (header_call_frame cgig (kept s)); [..|exact E]; [| | |by repeat split];
    intros; apply preserves_modify; intros t Ht; exact Ht.
Qed.

(** ** Whole scripts *)

Definition action_ok (a : action) : Prop :=
  match a with Header c => call_code_ok c ∧ call_short c | _ => True end.

Abbreviation apply_clean := (php_output_stack_apply_clean cgi call_header_callback call_handler compat_func).
Abbreviation clean_init := (php_output_context_init PHP_OUTPUT_HANDLER_CLEAN).

Lemma stack_clean_run s hs h rest b body :
  handlers (og s) = hs ++ h :: rest → handler_rel (length hs) h b → running (og s) = None → page s body →
  ∃ h' f', apply_clean (length hs) clean_init s = Some ((false, clean_init), set_stack (hs ++ h' :: rest) f' s) ∧
    page (set_stack (hs ++ h' :: rest) f' s) body ∧ handler_rel (length hs) h' (cleared b).
Proof.
  intros Hs Hh Hrun Hp. unfold php_output_stack_apply_clean.
  rewrite (bind_runs _ _ _ _ _ (on_handler_run s hs h rest _ Hs)). set (s1 := set_stack _ _ s).
  assert (Hh1 : handler_rel (length hs) (h <| buffer := [] |>) (cleared b)).
  { destruct Hh. split; try done. cbn [buffer buffer_size upd]. cbn. lia. }
  assert (Hp1 : page s1 body) by (apply page_set_stack; [done|by left]).
  destruct (handler_op_run cgi call_header_callback call_handler compat_func s1 hs _ rest (cleared b) clean_init
    eq_refl Hh1 Hrun) as (h' & f' & st & c' & E & Hf & Hres).
  rewrite (bind_runs _ _ _ _ _ E). exists h', f'. cbn in Hres. destruct Hres as (Hh' & Hop & _).
  split; [|split; [by apply (page_set_stack s1)|done]]. unfold php_output_context_reset. cbn [snd]. by rewrite Hop.
Qed.

Lemma clean_all_run bs : ∀ hs rest s body,
  stack_rel hs bs → handlers (og s) = hs ++ rest → running (og s) = None → page s body →
  ∃ hs' f', apply_topdown apply_clean (length hs) clean_init s = Some (clean_init, set_stack (hs' ++ rest) f' s) ∧
    page (set_stack (hs' ++ rest) f' s) body ∧ stack_rel hs' (cleared <$> bs) ∧ length hs' = length hs.
Proof.
  induction bs as [|b bs IH]; intros hs rest s body Hrel Hs Hrun Hp.
  { inversion Hrel; subst. exists [], (og_flags (og s)). cbn [Datatypes.app] in *. rewrite <-Hs, set_stack_id. split; [done|].
    split; [done|]. split; [constructor|done]. }
  inversion Hrel as [|hs1 bs1 h b1 Hrel1 Hh]; subst hs bs1 b1. rewrite <-(assoc_L (++)) in Hs. cbn [Datatypes.app] in Hs.
  rewrite length_app, Nat.add_1_r. cbn [length apply_topdown fmap list_fmap].
  destruct (stack_clean_run s hs1 h rest b body Hs Hh Hrun Hp) as (h' & f' & E & Hp' & Hh').
  rewrite (bind_runs _ _ _ _ _ E). cbn [fst snd].
  destruct (IH hs1 (h' :: rest) (set_stack (hs1 ++ h' :: rest) f' s) body Hrel1 eq_refl Hrun Hp')
    as (hs2 & f2 & E2 & Hp2 & Hrel2 & Hl2).
  exists (hs2 ++ [h']), f2. rewrite <-(assoc_L (++)). split; [exact E2|]. split; [exact Hp2|].
  split; [constructor; [done|by rewrite Hl2]|]. rewrite length_app, Hl2. cbn. lia.
Qed.

(** No extension objects to the engine's own handler. *)
Context (Hconflict : conflict php_output_default_handler_name = true).

Abbreviation do_act := (act cgi call_header_callback call_handler callable_name compat_func handler_alias conflict).

Lemma start_user_run n s bs body :
  outputs s bs body →
  ∃ s', php_output_start_user cgi call_header_callback callable_name handler_alias conflict None n PHP_OUTPUT_HANDLER_STDFLAGS s =
      Some (true, s') ∧ outputs s' (Ob n [] :: bs) body ∧ sg s' = sg s ∧ wire s' = wire s.
Proof.
  intros [Hp [hs [Hs Hrel Htop Hrun]] Hact]. unfold php_output_start_user, php_output_handler_start. rewrite bind_ret.
  rewrite (bind_runs _ _ _ _ _ (lock_error_run cgi call_header_callback _ s Hrun)).
  set (h := php_output_handler_create_internal _ _ _ _). change (name h) with php_output_default_handler_name.
  rewrite Hconflict. cbn [orb negb]. unfold on_og. rewrite bind_modify. eexists. split; [done|]. split; [|done].
  rewrite (right_id_L [] (++)) in Hs. split.
  - destruct s as [g [hs0 t a r st f] w so e ex]. apply (page_flags _ body _ _ _ _ _ _ Hp); [by destruct Hp|done].
  - exists (hs ++ [h <| level := length hs |>]). split; [|constructor; [done|]| |exact Hrun].
    + cbn. by rewrite Hs, Htop, firstn_all, (right_id_L [] (++)).
    + split; try done. cbn [buffer buffer_size upd]. cbn. pose proof (INITBUF_lt n). lia.
    + cbn. rewrite Htop, length_app. cbn. lia.
  - cbn. by rewrite Htop, (stack_rel_length _ _ Hrel).
Qed.

(** A call for which there is no buffer leaves a notice. *)
Lemma notice_run (t : zstr) (m : O bool) s body :
  outputs s [] body →
  ∃ s', (none ← no_buffer; if none : bool then failed t false;; mret false else m) s = Some (false, s') ∧ outputs s' [] body.
Proof.
  intros [[Hc Ha Hn Hcb Honly Hw] [hs [Hs Hrel Htop Hrun]] Hact]. unfold no_buffer, failed, php_error. rewrite bind_gets, Hact.
  cbn. eexists. split; [done|]. split; [split; try done; by destruct Hc|by exists hs|done].
Qed.

Lemma with_buffer (t : zstr) (m : O bool) s b bs body :
  outputs s (b :: bs) body → (none ← no_buffer; if none : bool then failed t false;; mret false else m) s = m s.
Proof. intros Ho. unfold no_buffer. rewrite bind_gets. by rewrite (outputs_active _ _ _ Ho). Qed.

Lemma clean_run s b bs body :
  outputs s (b :: bs) body →
  ∃ s', php_output_clean cgi call_header_callback call_handler compat_func s = Some (true, s') ∧
    outputs s' (cleared b :: bs) body.
Proof.
  intros (hs & h & Hs & Hrel & Hh & Htop & Hrun & Hact & Hp)%outputs_top. unfold php_output_clean. rewrite bind_gets, Hact.
  rewrite (bind_runs _ _ _ _ _ (get_handler_run s hs h [] Hs)), (rel_cleanable _ _ _ Hh).
  destruct (force_run s hs h [] b PHP_OUTPUT_HANDLER_CLEAN body Hs Hh Hrun eq_refl Hp) as (h' & f' & st & c' & E & Hp' & Hh' & _).
  rewrite (bind_runs _ _ _ _ _ E). eexists. split; [done|]. split; [exact Hp'| |].
  - exists (hs ++ [h']). split; [by rewrite (right_id_L [] (++))|by constructor| |done]. cbn. rewrite Htop, length_app. cbn. lia.
  - cbn. by rewrite Hact, (stack_rel_length _ _ Hrel).
Qed.

Lemma flush_all_run s bs body :
  outputs s bs body → let r := spec_act Flush_all bs in
  ∃ s', php_output_flush_all cgi call_header_callback call_handler compat_func s = Some (tt, s') ∧ outputs s' r.1 (body ++ r.2).
Proof.
  intros Ho r. unfold php_output_flush_all. rewrite bind_gets, (outputs_active _ _ _ Ho). destruct bs as [|b bs].
  { exists s. split; [done|]. subst r. cbn [spec_act fst snd]. by rewrite (right_id_L [] (++)). }
  destruct Ho as [Hp [hs Hst] Hact].
  destruct (output_op_run PHP_OUTPUT_HANDLER_FLUSH None s (b :: bs) hs [] body Hp Hst) as (s' & hs' & E & Hp' & Hst' & Hl & Ha).
  { intros _. by rewrite Hact. }
  change (put (negb (PHP_OUTPUT_HANDLER_FLUSH =? 0)%Z) (b :: bs) (default [] None)) with r in *.
  exists s'. split; [exact E|]. split; [exact Hp'|by exists hs'|]. rewrite Ha, Hact.
  pose proof (stack_rel_length _ _ (on_rel _ _ _ _ Hst')) as H1. pose proof (stack_rel_length _ _ (on_rel _ _ _ _ Hst)) as H2.
  destruct (r.1); cbn in *; congruence.
Qed.

Lemma outputs_clean_all_run s bs body :
  outputs s bs body →
  ∃ s', php_output_clean_all cgi call_header_callback call_handler compat_func s = Some (tt, s') ∧ outputs s' (cleared <$> bs) body.
Proof.
  intros Ho. unfold php_output_clean_all. rewrite bind_gets, (outputs_active _ _ _ Ho).
  destruct bs as [|b bs]; [by exists s|]. destruct Ho as [Hp [hs [Hs Hrel Htop Hrun]] Hact].
  destruct (clean_all_run (b :: bs) hs [] s body Hrel Hs Hrun Hp) as (hs' & f' & E & Hp' & Hrel' & Hl).
  rewrite Htop, (bind_runs _ _ _ _ _ E). eexists. split; [done|]. split; [exact Hp'| |].
  - exists hs'. split; [done|done|cbn; congruence|done].
  - cbn. rewrite Hact. by rewrite length_fmap.
Qed.

(** An action that is no header call does what the specification says, and never fails. *)
Lemma act_run a s bs body :
  (match a with Header _ => False | _ => True end) → outputs s bs body →
  let r := spec_act a bs in ∃ s', do_act a s = Some (tt, s') ∧ outputs s' r.1 (body ++ r.2).
Proof.
  intros Hno Ho.
  assert (Hdone : ∀ {A} (m : O A) x s' bs' out, m s = Some (x, s') → outputs s' bs' (body ++ out) →
    ∃ s', (m;; mret tt) s = Some (tt, s') ∧ outputs s' bs' (body ++ out)).
  { intros A m x s' bs' out E Ho'. exists s'. by rewrite (bind_runs _ _ _ _ _ E). }
  assert (Hsame : ∀ s' bs', outputs s' bs' body → outputs s' bs' (body ++ [])) by (intros; by rewrite (right_id_L [] (++))).
  destruct a as [str|c|n| | | | | |]; cbn [act]; [|done|..].
  - destruct (write_run str s bs body Ho) as (s' & E & Ho'). by eapply Hdone.
  - destruct (start_user_run (Z.to_nat (Z.max 0 n)) s bs body Ho) as (s' & E & Ho' & _).
    eapply (Hdone _ _ true s'); [|by apply Hsame]. unfold ob_start. by rewrite (bind_runs _ _ _ _ _ E).
  - unfold ob_flush. destruct bs as [|b bs].
    + destruct (notice_run "flush buffer. No buffer to flush" (ok ← php_output_flush cgi call_header_callback call_handler compat_func;
        if ok : bool then mret true else failed "flush" true;; mret false) s body Ho) as (s' & E & Ho'). eapply Hdone; [exact E|by apply Hsame].
    + destruct (flush_run s b bs body Ho) as (s' & E & Ho'). eapply (Hdone _ _ true); [|exact Ho'].
      rewrite (with_buffer _ _ s b bs body Ho). by rewrite (bind_runs _ _ _ _ _ E).
  - by apply flush_all_run.
  - unfold ob_clean. destruct bs as [|b bs].
    + destruct (notice_run "delete buffer. No buffer to delete" (ok ← php_output_clean cgi call_header_callback call_handler compat_func;
        if ok : bool then mret true else failed "delete" true;; mret false) s body Ho) as (s' & E & Ho'). eapply Hdone; [exact E|by apply Hsame].
    + destruct (clean_run s b bs body Ho) as (s' & E & Ho'). eapply (Hdone _ _ true); [|by apply Hsame].
      rewrite (with_buffer _ _ s b bs body Ho). by rewrite (bind_runs _ _ _ _ _ E).
  - destruct (outputs_clean_all_run s bs body Ho) as (s' & E & Ho'). exists s'. split; [exact E|by apply Hsame].
  - unfold ob_end_flush. destruct bs as [|b bs].
    + edestruct notice_run as (s' & E & Ho'); [exact Ho|]. eapply Hdone; [exact E|by apply Hsame].
    + destruct (pop_run PHP_OUTPUT_POP_TRY s b bs body Ho) as (s' & E & Ho'). eapply Hdone; [|exact Ho'].
      by rewrite (with_buffer _ _ s b bs body Ho).
  - unfold ob_end_clean. destruct bs as [|b bs].
    + edestruct notice_run as (s' & E & Ho'); [exact Ho|]. eapply Hdone; [exact E|by apply Hsame].
    + destruct (pop_run (Z.lor PHP_OUTPUT_POP_DISCARD PHP_OUTPUT_POP_TRY) s b bs body Ho) as (s' & E & Ho'). eapply Hdone; [|exact Ho'].
      by rewrite (with_buffer _ _ s b bs body Ho).
Qed.

Abbreviation do_script := (run_script cgi call_header_callback call_handler callable_name compat_func handler_alias conflict).
Abbreviation do_finish := (finish cgi call_header_callback call_handler compat_func).

Lemma put_length all bs str : length (put all bs str).1 = length bs.
Proof.
  revert str. induction bs as [|b bs IH]; intros str; [done|]. cbn [put]. case_match; [|done].
  destruct (bool_decide (text b ++ str = [])); [done|]. cbn. by rewrite IH.
Qed.

(** All buffers are ended; the stack is as many rounds high. *)
Lemma end_all_run n : ∀ s bs body,
  outputs s bs body → length bs = n →
  ∃ s', end_all cgi call_header_callback call_handler compat_func n s = Some (tt, s') ∧ outputs s' [] (body ++ spec_end_all n bs).
Proof.
  induction n as [|n IH]; intros s [|b bs] body Ho Hn; try done; cbn [end_all spec_end_all]; rewrite bind_gets, (outputs_active _ _ _ Ho).
  { exists s. split; [done|]. by rewrite (right_id_L [] (++)). }
  destruct (pop_run PHP_OUTPUT_POP_FORCE s b bs body Ho) as (s1 & E1 & Ho1). rewrite (bind_runs _ _ _ _ _ E1).
  destruct (IH s1 _ _ Ho1) as (s2 & E2 & Ho2); [change (length (put false bs (text b)).1 = n); rewrite put_length; by injection Hn|].
  exists s2. split; [exact E2|]. by rewrite (assoc_L (++)).
Qed.

(** The end of a request: everything has been sent. *)
Lemma finish_run s bs body :
  outputs s bs body →
  ∃ s' ls g, do_finish s = Some (tt, s') ∧ P g ∧ head_of cgig (to_send g) = Some ls ∧ Forall line_ok ls ∧
    wire s' = crlf_lines ls ++ CRLF ++ (if ho then [] else body ++ spec_end_all (length bs) bs).
Proof.
  intros Ho. unfold finish, php_output_end_all. rewrite bind_assoc, bind_gets.
  destruct Ho as [Hp [hs Hst] Hact]. pose proof (stack_rel_length _ _ (on_rel _ _ _ _ Hst)) as Hl.
  destruct (end_all_run (length bs) s bs body) as (s1 & E1 & [Hp1 _ _]); [by split; [|exists hs|]|done|].
  rewrite (on_top _ _ _ _ Hst), Hl, (bind_runs _ _ _ _ _ E1). unfold php_output_deactivate.
  rewrite bind_gets, (page_activated _ _ _ Hp1). destruct (header_run s1 _ Hp1) as (s2 & E2 & Hp2 & Hsent & _).
  rewrite (bind_runs _ _ _ _ _ E2). destruct Hp2 as [_ _ _ _ _ Hw]. rewrite Hsent in Hw. destruct Hw as [(ls & g & HPg & Hls & Hok & Hw) _].
  unfold on_og, modify. eexists _, ls, g. by split.
Qed.
End pages.

(** ** The headers behind the head *)

(** What a header call makes of the headers depends on them alone. *)
Definition agrees {A} (m : O A) : Prop :=
  ∀ s t a s', sg s = sg t → m s = Some (a, s') → ∃ t', m t = Some (a, t') ∧ sg s' = sg t'.

Lemma agrees_bind {A B} (m : O A) (k : A → O B) : agrees m → (∀ a, agrees (k a)) → agrees (m ≫= k).
Proof.
  intros Hm Hk s t b s' Hst (a & s1 & E1 & E2)%bind_inv. destruct (Hm _ _ _ _ Hst E1) as (t1 & E1' & Hst1).
  destruct (Hk a _ _ _ _ Hst1 E2) as (t' & E2' & Hst'). exists t'. by rewrite (bind_runs _ _ _ _ _ E1').
Qed.
Lemma agrees_ret {A} (a : A) : agrees (mret a).
Proof. intros s t b s' Hst [= <- <-]. by exists t. Qed.
Lemma agrees_lift {A} (o : option A) : agrees (lift o).
Proof. destruct o; [apply agrees_ret|]. by intros s t b s' _ E. Qed.
Lemma agrees_gets {A} (f : sapi_globals_struct → A) : agrees (gets (λ s, f (sg s))).
Proof. intros s t b s' Hst [= <- <-]. exists t. by rewrite Hst. Qed.
Lemma agrees_sg f : agrees (on_sg f).
Proof. intros s t b s' Hst [= <- <-]. eexists. split; [done|]. cbn. by rewrite Hst. Qed.
Lemma agrees_error text : agrees (php_error text).
Proof. intros s t b s' Hst [= <- <-]. by eexists. Qed.

Ltac agrees_step :=
  first [ apply agrees_ret | apply agrees_lift | apply agrees_sg | apply agrees_error
        | apply agrees_bind; [|intros ?] | apply (agrees_gets id) | apply (agrees_gets (λ g, http_response_code (sapi_headers g)))
        | case_match ].

Section heads.
Context `{Runtime} (cgig : cgi_globals) (call_header_callback : zval → O bool)
  (call_handler : zval → zstr → Z → O (option zval)) (callable_name : zval → zstr + zstr)
  (compat_func : nat → zstr → Z → option zstr) (handler_alias : zstr → option (nat → Z → php_output_handler))
  (conflict : zstr → bool) (ho : bool) (Hconflict : conflict php_output_default_handler_name = true).
Abbreviation cgi := (cgi_sapi_module cgig).
Abbreviation do_act := (act cgi call_header_callback call_handler callable_name compat_func handler_alias conflict).
Abbreviation do_script := (run_script cgi call_header_callback call_handler callable_name compat_func handler_alias conflict).

Lemma header_op_agrees op line code : agrees (sapi_header_op cgi op line code).
Proof.
  intros s t a s' Hst. unfold sapi_header_op. rewrite !bind_gets. unfold id. rewrite Hst. destruct (_ && _).
  { intros [= <- <-]. by eexists. }
  revert s t a s' Hst. change (agrees (match op with
    | SAPI_HEADER_SET_STATUS => sapi_update_response_code (to_int code);; mret true
    | SAPI_HEADER_DELETE_ALL =>
        match header_handler cgi with Some handler => handler None op;; mret tt | None => mret tt end;;
        on_headers (λ h, h <| headers := [] |>);; mret true
    | SAPI_HEADER_DELETE => if bool_decide (line = []) then mret false else delete_header cgi (trim_line line)
    | SAPI_HEADER_ADD | SAPI_HEADER_REPLACE =>
        if bool_decide (line = []) then mret false else set_header cgi op (trim_line line) (to_int code)
    end)).
  unfold set_header, delete_header, special_header, content_type_header, sapi_header_add_op,
    sapi_update_response_code, sapi_remove_header, on_headers. cbn [header_handler cgi_sapi_module]. repeat agrees_step.
Qed.

Lemma header_call_agrees c : agrees (run_header_call cgi c).
Proof.
  destruct c as [line rep code|[nm|]|code]; cbn [run_header_call header_remove];
    apply agrees_bind; try apply header_op_agrees; try (intros; apply agrees_ret).
  unfold php_http_response_code, on_headers. repeat agrees_step.
Qed.

(** A header call between the output: the claim about the headers is one about new headers, or
    stands where the head has been sent. *)
Lemma header_act_run P c s bs body :
  action_ok (Header c) → outputs cgig ho P s bs body →
  ∃ s', run_header_call cgi c s = Some (tt, s') ∧ (body ≠ [] → outputs cgig ho P s' bs body) ∧
    (body = [] → ∀ Q : sapi_globals_struct → Prop, Q (sg s') → outputs cgig ho Q s' bs body).
Proof.
  intros [Hcode Hlen] [[Hc Ha Hn Hcb Honly Hw] [hs [Hs Hrel Htop Hrun]] Hact].
  destruct (header_call_total cgig c Hcode s) as [[[] s'] E]. exists s'. split; [done|].
  pose proof (header_call_kept cgig _ _ _ _ E) as (Hog & Hwire & Hsent & Hn' & Hcb' & Honly').
  assert (Hnew : ∀ Q : sapi_globals_struct → Prop, (if headers_sent (sg s) then ∀ g, P g → Q g else Q (sg s')) →
    outputs cgig ho Q s' bs body).
  { intros Q HQ. split; [split; try congruence|exists hs; split; rewrite ?Hog; done|by rewrite Hog].
    - by eapply (clean_header_call cgi); [..|exact Hc|exact E].
    - rewrite Hsent, Hog, Hwire. destruct (headers_sent (sg s)).
      + destruct Hw as [(ls & g & HPg & Hw) Hd]. split; [|done]. exists ls, g. split; [by apply HQ|done].
      + destruct Hw as (Hb & Hw & Hd & Hsh & _). do 3 (split; [done|]). split; [|done].
        by eapply (short_header_call cgig c Hlen). }
  split; [intros Hne|intros Hnil Q HQ]; apply Hnew; destruct (headers_sent (sg s)); try done; exfalso.
  - by destruct Hw as [-> _].
  - by destruct Hw as (_ & _ & Hne); destruct (Hne eq_refl).
Qed.

(** A script, where the head has been sent or nothing is claimed. *)
Lemma script_run P actions : ∀ s bs body,
  body ≠ [] ∨ (∀ g, P g) → Forall action_ok actions → outputs cgig ho P s bs body →
  let r := spec_script actions bs in ∃ s', do_script actions s = Some (tt, s') ∧ outputs cgig ho P s' r.1 (body ++ r.2).
Proof.
  induction actions as [|a actions IH]; intros s bs body HP Hok Ho.
  { exists s. split; [done|]. cbn [spec_script fst snd]. by rewrite (right_id_L [] (++)). }
  apply Forall_cons in Hok as [Ha Hok].
  assert (∃ s1, do_act a s = Some (tt, s1) ∧ outputs cgig ho P s1 (spec_act a bs).1 (body ++ (spec_act a bs).2))
    as (s1 & E1 & Ho1).
  { assert (Hdec : (match a with Header _ => False | _ => True end) ∨ ∃ c, a = Header c) by (destruct a; eauto).
    destruct Hdec as [Hno|[c ->]].
    - by apply act_run.
    - destruct (header_act_run P c s bs body Ha Ho) as (s1 & E1 & Hsent & Hunsent). exists s1. split; [done|].
      cbn [spec_act fst snd]. rewrite (right_id_L [] (++)).
      destruct (decide (body = [])) as [Hnil|Hne]; [|by apply Hsent]. apply Hunsent; [done|]. by destruct HP as [HP|HP]. }
  destruct (IH s1 (spec_act a bs).1 (body ++ (spec_act a bs).2)) as (s2 & E2 & Ho2); [|done|done|].
  { destruct HP as [HP|HP]; [left|by right]. by intros [? _]%app_eq_nil. }
  exists s2. cbn [run_script spec_script fst snd]. rewrite (bind_runs _ _ _ _ _ E1), (assoc_L (++)). by split.
Qed.

(** The header calls of a script before the first byte of its body gets through. *)
Fixpoint calls_before (actions : list action) (bs : list ob) : list header_call :=
  match actions with
  | [] => []
  | a :: actions' =>
      let r := spec_act a bs in
      if bool_decide (r.2 = []) then
        (match a with Header c => [c] | _ => [] end) ++ calls_before actions' r.1
      else []
  end.

Lemma header_calls_app l k s : header_calls cgi (l ++ k) s = (header_calls cgi l;; header_calls cgi k) s.
Proof.
  revert s. induction l as [|c l IH]; intros s; [done|]. cbn [Datatypes.app header_calls]. rewrite bind_assoc.
  cbv [mbind St_bind]. destruct (run_header_call cgi c s) as [[[] s1]|]; [exact (IH s1)|done].
Qed.

(** The head is made from what these calls leave of the headers. *)
Lemma script_head actions : ∀ s t bs,
  Forall action_ok actions → outputs cgig ho (λ g, g = sg t) s bs [] →
  let r := spec_script actions bs in
  ∃ t' s', header_calls cgi (calls_before actions bs) t = Some (tt, t') ∧ do_script actions s = Some (tt, s') ∧
    outputs cgig ho (λ g, g = sg t') s' r.1 r.2.
Proof.
  induction actions as [|a actions IH]; intros s t bs Hok Ho.
  { by exists t, s. }
  cbn [calls_before]. destruct (decide ((spec_act a bs).2 = [])) as [Enil|Hne].
  - rewrite bool_decide_true by done. apply Forall_cons in Hok as [Ha Hok].
    assert (∃ t1 s1, header_calls cgi (match a with Header c => [c] | _ => [] end) t = Some (tt, t1) ∧
      do_act a s = Some (tt, s1) ∧ outputs cgig ho (λ g, g = sg t1) s1 (spec_act a bs).1 []) as (t1 & s1 & Et & Es & Ho1).
    { assert (Hdec : (match a with Header _ => False | _ => True end) ∨ ∃ c, a = Header c) by (destruct a; eauto).
      destruct Hdec as [Hno|[c ->]].
      - destruct (act_run cgig call_header_callback call_handler callable_name compat_func handler_alias conflict ho _
          Hconflict a s bs [] Hno Ho) as (s1 & E1 & Ho1).
        rewrite Enil in Ho1. exists t, s1. by destruct a.
      - destruct (header_act_run _ c s bs [] Ha Ho) as (s1 & E1 & _ & Hunsent).
        assert (sg s = sg t) as Hst.
        { destruct Ho as [[_ _ _ _ _ Hw] _ _]. destruct (headers_sent (sg s)); [|apply Hw].
          by destruct Hw as (_ & _ & Hne); destruct (Hne eq_refl). }
        destruct (header_call_agrees c _ _ _ _ Hst E1) as (t1 & Et & Hst1). exists t1, s1.
        cbn [header_calls]. rewrite (bind_runs _ _ _ _ _ Et). split; [done|]. split; [done|]. by apply Hunsent. }
    destruct (IH s1 t1 _ Hok Ho1) as (t' & s' & Et' & Es' & Ho'). exists t', s'. split; [|split].
    + by rewrite header_calls_app, (bind_runs _ _ _ _ _ Et).
    + cbn [run_script]. by rewrite (bind_runs _ _ _ _ _ Es).
    + cbn [spec_script fst snd]. by rewrite Enil.
  - rewrite bool_decide_false by done. exists t. apply Forall_cons in Hok as [_ Hok].
    assert (Hno : match a with Header _ => False | _ => True end) by (by destruct a).
    destruct (act_run cgig call_header_callback call_handler callable_name compat_func handler_alias conflict ho _
      Hconflict a s bs [] Hno Ho) as (s1 & E1 & Ho1).
    destruct (script_run _ actions s1 _ _ (or_introl Hne) Hok Ho1) as (s' & E' & Ho'). exists s'.
    split; [done|]. split; [|exact Ho']. cbn [run_script]. by rewrite (bind_runs _ _ _ _ _ E1).
Qed.
End heads.

(** The start of a request, its script and its end. *)
Definition request `{Runtime} (cgig : cgi_globals) (call_header_callback : zval → O bool)
    (call_handler : zval → zstr → Z → O (option zval)) (callable_name : zval → zstr + zstr)
    (compat_func : nat → zstr → Z → option zstr) (handler_alias : zstr → option (nat → Z → php_output_handler))
    (conflict : zstr → bool) (method : option zstr) (actions : list action) : O unit :=
  php_output_activate;;
  sapi_activate method;;
  run_script (cgi_sapi_module cgig) call_header_callback call_handler callable_name compat_func handler_alias conflict actions;;
  finish (cgi_sapi_module cgig) call_header_callback call_handler compat_func.

(** The server before a request: the code is 200, and the configuration holds single lines. *)
Record idle (s : srv) : Prop := Idle {
  idle_code : http_response_code (the_headers s) = 200%Z;
  idle_wire : wire s = [];
  idle_charset : clean (cstr (default SAPI_DEFAULT_CHARSET (default_charset (sg s))));
  idle_mimetype : clean (cstr (default SAPI_DEFAULT_MIMETYPE (default_mimetype (sg s))));
}.

Lemma activate_run cgig (P : sapi_globals_struct → Prop) s method :
  idle s → ∃ s', (php_output_activate;; sapi_activate method) s = Some (tt, s') ∧
    headers (the_headers s') = [] ∧ http_response_code (the_headers s') = 200%Z ∧ http_status_line (the_headers s') = None ∧
    default_charset (sg s') = default_charset (sg s) ∧ default_mimetype (sg s') = default_mimetype (sg s) ∧
    send_default_content_type (the_headers s') = true ∧
    (P (sg s') → outputs cgig (bool_decide (method = Some ("HEAD" : zstr))) P s' [] []).
Proof.
  intros [Hc Hw Hcs Hm]. unfold php_output_activate, sapi_activate, on_og, on_headers, on_sg. st_run.
  eexists. split; [reflexivity|]. split; [done|]. split; [exact Hc|]. do 4 (split; [done|]). intros HP.
  split; [|exists []; by split; try constructor|done].
  split; try done. match goal with |- if ?b then _ else _ => change b with false end. cbv iota.
  split; [done|]. split; [exact Hw|]. split; [done|]. split; [|exact HP]. split; [done|].
  change (- 2 ^ 63 ≤ http_response_code (the_headers s) < 2 ^ 63)%Z. rewrite Hc. lia.
Qed.

