(* ===== verification/Capture.v ===== *)
(** * What is printed and what is captured

    Output buffers from the side of those who use them: nothing that is printed is lost
    unless it is thrown away; the head is the one of the headers that were set before the
    first byte got through; and [yaf_view_exec_tpl] of [views/yaf_view_simple.c] gets what a
    template prints into its result, if the template ends the buffers that it starts and
    leaves the buffer of the result open and unflushed ([above]). *)

From S2P Require Import Prelude Zend Numeric Url Server Output.

Open Scope zs_scope.

(** ** Nothing is lost *)

Definition prints (a : action) : zstr := match a with Echo s => s | _ => [] end.
Definition keeps (a : action) : bool := match a with Clean | Clean_all | Discard => false | _ => true end.

(** What waits in the buffers, from the bottom. *)
Fixpoint pending (bs : list ob) : zstr := match bs with [] => [] | b :: bs' => pending bs' ++ text b end.

Lemma put_keeps all bs s : let r := put all bs s in r.2 ++ pending r.1 = pending bs ++ s.
Proof.
  revert s. induction bs as [|b bs IH]; intros s; cbn [put].
  { cbn. by rewrite (right_id_L [] (++)). }
  destruct (all || _).
  - destruct (bool_decide (text b ++ s = [])) eqn:E.
    + apply bool_decide_eq_true, app_eq_nil in E as [E1 E2]. cbn. by rewrite E1, E2, !(right_id_L [] (++)).
    + cbn [fst snd pending cleared text]. rewrite (right_id_L [] (++)), IH. by rewrite (assoc_L (++)).
  - cbn. by rewrite (assoc_L (++)).
Qed.

Lemma act_keeps a bs : keeps a = true → let r := spec_act a bs in r.2 ++ pending r.1 = pending bs ++ prints a.
Proof.
  intros Hk. destruct a; try done; cbn [spec_act prints]; try (destruct bs as [|b bs]; [done|]).
  - apply put_keeps.
  - cbn. by rewrite (right_id_L [] (++)).
  - cbn [fst snd pending cleared text]. rewrite (right_id_L [] (++)), put_keeps. by rewrite (right_id_L [] (++)).
  - apply put_keeps.
  - rewrite put_keeps. cbn [pending]. by rewrite (right_id_L [] (++)).
Qed.

Lemma script_keeps actions bs :
  Forall (λ a, keeps a = true) actions →
  let r := spec_script actions bs in r.2 ++ pending r.1 = pending bs ++ mjoin (prints <$> actions).
Proof.
  intros Hk. revert bs. induction Hk as [|a actions Ha _ IH]; intros bs; cbn [spec_script].
  { cbn. by rewrite (right_id_L [] (++)). }
  cbn [fst snd]. rewrite <-(assoc_L (++)), IH, (assoc_L (++)), (act_keeps a bs Ha). cbn. by rewrite (assoc_L (++)).
Qed.

Lemma end_all_keeps n : ∀ bs, length bs = n → spec_end_all n bs = pending bs.
Proof.
  induction n as [|n IH]; intros [|b bs] Hn; try done. cbn [spec_end_all]. injection Hn as Hn.
  rewrite IH by (by rewrite put_length). apply put_keeps.
Qed.

Lemma all_printed actions :
  Forall (λ a, keeps a = true) actions → spec_body actions = mjoin (prints <$> actions).
Proof.
  intros Hk. unfold spec_body. rewrite end_all_keeps by done. apply (script_keeps actions [] Hk).
Qed.

(** C2: A script may print, start buffers, flush, clean and end them, and set headers in
    between, whose lines have no more than 1000 bytes and, where they are status lines, an
    [int] for a code; the output handlers are those of the engine.  Then the request ends, no
    buffer is overrun, and what the client gets is one head and behind it the body: the head
    that the server makes, after the header calls of the script before the first byte that
    gets through to it - those that come later change nothing -, line by line, and the
    body that the stack of buffers means, or none for a request for the head alone.  The
    stack is that of the code: flushing all buffers stops at the first empty one, contrary to
    the comment at that function ([flush_all_stops]).  Of a script that throws nothing away
    the body is all that it prints, in order. *)
Theorem request_output `{Runtime} cgig call_header_callback call_handler callable_name compat_func handler_alias conflict
    method actions s :
  idle s → Forall action_ok actions → conflict php_output_default_handler_name = true →
  ∃ s1 ls s', (sapi_activate method;; header_calls (cgi_sapi_module cgig) (calls_before actions [])) s = Some (tt, s1) ∧
    head_of cgig (to_send (sg s1)) = Some ls ∧
    request cgig call_header_callback call_handler callable_name compat_func handler_alias conflict method actions s =
      Some (tt, s') ∧
    read_head [] (wire s') = Some (ls, if bool_decide (method = Some ("HEAD" : zstr)) then [] else spec_body actions) ∧
    (Forall (λ a, keeps a = true) actions → spec_body actions = mjoin (prints <$> actions)).
Proof.
  intros Hs Hok Hconf. assert (∃ t, sapi_activate method s = Some (tt, t)) as [t Et] by (by eexists).
  destruct (activate_run cgig (λ g, g = sg t) s method Hs) as (s1 & E1 & _ & _ & _ & _ & _ & _ & Ho1).
  assert (sg s1 = sg t) as Hst by (by injection E1 as <-; injection Et as <-).
  destruct (script_head cgig call_header_callback call_handler callable_name compat_func handler_alias conflict _ Hconf
    actions s1 t [] Hok (Ho1 Hst)) as (t' & s2 & Ecalls & E2 & Ho2).
  destruct (finish_run cgig call_header_callback call_handler compat_func _ _ s2 _ _ Ho2) as (s3 & ls & g & E3 & -> & Hls & Hok' & Hw).
  exists t', ls, s3. split; [by rewrite (bind_runs _ _ _ _ _ Et)|]. split; [done|]. split; [|split; [|apply all_printed]].
  - unfold request. rewrite <-bind_assoc, (bind_runs _ _ _ _ _ E1), (bind_runs _ _ _ _ _ E2). exact E3.
  - by rewrite Hw, read_head_lines.
Qed.

Definition no_call : zval → zstr → Z → O (option zval) := λ _ _ _, mret None.
Definition sample_script : list action :=
  [Start 0; Echo "draft"; Clean; Echo "page"; Header (CallHeader "X-A: b" true 0); Start 3; Echo "ab"; Echo "cd"; End;
   Flush; Header (CallCode 404)].

(** The second call comes too late for the head. *)
Example sample_calls_before : calls_before sample_script [] = [CallHeader "X-A: b" true 0].
Proof. vm_compute. reflexivity. Qed.

Lemma request_output_witness :
  ∃ s1 ls s', (sapi_activate (Some ("GET" : zstr));;
      header_calls (cgi_sapi_module (CgiGlobals false false)) (calls_before sample_script [])) (start_srv None) = Some (tt, s1) ∧
    head_of (CgiGlobals false false) (to_send (sg s1)) = Some ls ∧
    request (H := plain_runtime) (CgiGlobals false false) (λ _, mret true) no_call (λ _, inr []) (λ _ _ _, None)
      (λ _, None) (λ _, true) (Some ("GET" : zstr)) sample_script (start_srv None) = Some (tt, s') ∧
    read_head [] (wire s') = Some (ls, "pageabcd") ∧
    (Forall (λ a, keeps a = true) sample_script → spec_body sample_script = mjoin (prints <$> sample_script)).
Proof.
  apply (request_output (H := plain_runtime) (CgiGlobals false false) (λ _, mret true) no_call (λ _, inr []) (λ _ _ _, None)
      (λ _, None) (λ _, true) (Some ("GET" : zstr)) sample_script (start_srv None)); [by split| |done].
  repeat constructor; cbn; try done; try lia.
Defined.

(** ** Capturing *)

(** [yaf_view_exec_tpl] with a result; [execute] runs the template and tells whether an
    exception is pending. *)
Section exec.
Context `{Runtime} (sapi_module : sapi_module_struct) (call_header_callback : zval → O bool)
  (call_handler : zval → zstr → Z → O (option zval)) (callable_name : zval → zstr + zstr)
  (compat_func : nat → zstr → Z → option zstr) (handler_alias : zstr → option (nat → Z → php_output_handler))
  (conflict : zstr → bool).

Definition exec_tpl_buffered (execute : O bool) : O (option zstr) :=
  started ← php_output_start_user sapi_module call_header_callback callable_name handler_alias conflict None 0
              PHP_OUTPUT_HANDLER_STDFLAGS;
  if negb started then php_error "failed to create buffer";; mret None
  else
    raised ← execute;
    if raised : bool then
      php_output_discard sapi_module call_header_callback call_handler compat_func;; mret None
    else
      contents ← php_output_get_contents;
      match contents with
      | None =>
          php_output_end sapi_module call_header_callback call_handler compat_func;;
          php_error "Unable to fetch ob content";; mret None
      | Some text =>
          ok ← php_output_discard sapi_module call_header_callback call_handler compat_func;
          mret (if ok : bool then Some text else None)
      end.
End exec.

(** Scripts that find [n] buffers which are theirs and end with the first of them, that of the
    result: they never flush or end it, although they may clean it, and they do not flush or
    clean all buffers, since others lie below. *)
Fixpoint above (n : nat) (actions : list action) : bool :=
  match actions with
  | [] => n =? 1
  | a :: actions' =>
      match a with
      | Echo _ | Header _ | Clean => above n actions'
      | Start _ => above (S n) actions'
      | Flush => (1 <? n) && above n actions'
      | End | Discard => (1 <? n) && above (n - 1) actions'
      | Flush_all | Clean_all => false
      end
  end.

(** What they leave in that buffer. *)
Definition captured (actions : list action) : zstr :=
  match spec_script actions [Ob 0 []] with
  | (b :: _, _) => text b
  | _ => []
  end.

(** A buffer without a limit keeps what gets to it. *)
Lemma put_inner up t base s :
  ∃ up' t', put false (up ++ Ob 0 t :: base) s = (up' ++ Ob 0 t' :: base, []) ∧
    put false (up ++ [Ob 0 t]) s = (up' ++ [Ob 0 t'], []) ∧ length up' = length up.
Proof.
  revert s. induction up as [|b up IH]; intros s; cbn [Datatypes.app put].
  - exists [], (t ++ s). rewrite (bool_decide_false (chunk (Ob 0 t) ≠ 0)) by (cbn; tauto). cbn [orb]. rewrite andb_false_r.
    cbn [andb]. done.
  - destruct (false || _).
    + destruct (bool_decide (text b ++ s = [])); [by exists (b :: up), t|].
      destruct (IH (text b ++ s)) as (up' & t' & E1 & E2 & Hl). exists (cleared b :: up'), t'.
      rewrite E1, E2. cbn. by rewrite Hl.
    + by exists (Ob (chunk b) (text b ++ s) :: up), t.
Qed.

Lemma act_inner a up t base n :
  above (S (length up)) (a :: n) = true →
  ∃ up' t', spec_act a (up ++ Ob 0 t :: base) = (up' ++ Ob 0 t' :: base, []) ∧
    spec_act a (up ++ [Ob 0 t]) = (up' ++ [Ob 0 t'], []) ∧ above (S (length up')) n = true.
Proof.
  destruct a as [s|c|k| | | | | |]; cbn [above]; intros Ha; try done.
  - destruct (put_inner up t base s) as (up' & t' & E1 & E2 & Hl). exists up', t'. cbn [spec_act]. rewrite Hl.
    by destruct up.
  - exists up, t. by destruct up.
  - by exists (Ob (Z.to_nat (Z.max 0 k)) [] :: up), t.
  - destruct up as [|b up]; [done|]. apply andb_true_iff in Ha as [_ Ha]. cbn [spec_act Datatypes.app].
    destruct (put_inner up t base (text b)) as (up' & t' & E1 & E2 & Hl). exists (cleared b :: up'), t'. rewrite E1, E2.
    cbn in *. by rewrite Hl.
  - destruct up as [|b up]; [by exists [], []|]. by exists (cleared b :: up), t.
  - destruct up as [|b up]; [done|]. apply andb_true_iff in Ha as [_ Ha]. cbn [spec_act Datatypes.app].
    destruct (put_inner up t base (text b)) as (up' & t' & E1 & E2 & Hl). exists up', t'. rewrite E1, E2. by rewrite Hl.
  - destruct up as [|b up]; [done|]. apply andb_true_iff in Ha as [_ Ha]. by exists up, t.
Qed.

Lemma script_inner actions : ∀ up t base,
  above (S (length up)) actions = true →
  ∃ t', spec_script actions (up ++ Ob 0 t :: base) = (Ob 0 t' :: base, []) ∧
    spec_script actions (up ++ [Ob 0 t]) = ([Ob 0 t'], []).
Proof.
  induction actions as [|a actions IH]; intros up t base Ha.
  - destruct up as [|b up]; [|done]. by exists t.
  - destruct (act_inner a up t base actions Ha) as (up' & t' & E1 & E2 & Ha').
    destruct (IH up' t' base Ha') as (t2 & E3 & E4). exists t2. cbn [spec_script].
    rewrite E1, E2. cbn [fst snd]. by rewrite E3, E4.
Qed.

Lemma captured_spec actions base :
  above 1 actions = true → spec_script actions (Ob 0 [] :: base) = (Ob 0 (captured actions) :: base, []).
Proof.
  intros Ha. destruct (script_inner actions [] [] base Ha) as (t & E1 & E2). cbn [Datatypes.app] in *.
  unfold captured. by rewrite E1, E2.
Qed.

Lemma captured_all actions :
  above 1 actions = true → Forall (λ a, keeps a = true) actions → captured actions = mjoin (prints <$> actions).
Proof.
  intros Ha Hk. pose proof (script_keeps actions [Ob 0 []] Hk) as E. rewrite captured_spec in E by done.
  cbn in E. exact E.
Qed.

(** C33: A template that prints, sets headers (whose lines have no more than 1000 bytes and, as
    status lines, an [int] for a code), and starts, flushes, cleans and ends buffers of its
    own, all of which it ends, is captured: what is left of its output in the buffer of the
    result, which it may also clean, but neither flush nor end, becomes the result, and none
    of it gets to the buffers below or to the client.  If it throws nothing away this is all
    that it prints; if it raises, there is no result.  The buffers that were there before are
    as they were.  Flushing or cleaning all buffers is excluded, as it reaches those below;
    [open_buffer] and [flushed_result] show what becomes of other templates. *)
Theorem capture_spec `{Runtime} cgig call_header_callback call_handler callable_name compat_func handler_alias conflict
    (raises : bool) actions ho s bs body :
  conflict php_output_default_handler_name = true → outputs cgig ho (λ _, True) s bs body →
  Forall action_ok actions → above 1 actions = true →
  ∃ s', exec_tpl_buffered (cgi_sapi_module cgig) call_header_callback call_handler callable_name compat_func handler_alias conflict
      (run_script (cgi_sapi_module cgig) call_header_callback call_handler callable_name compat_func handler_alias conflict actions;;
       mret raises) s = Some (if raises then None else Some (captured actions), s') ∧
    outputs cgig ho (λ _, True) s' bs body ∧
    (Forall (λ a, keeps a = true) actions → captured actions = mjoin (prints <$> actions)).
Proof.
  intros Hconf Ho Hok Ha. unfold exec_tpl_buffered.
  destruct (start_user_run cgig call_header_callback callable_name handler_alias conflict ho _ Hconf 0 s bs body Ho)
    as (s1 & E1 & Ho1 & _).
  rewrite (bind_runs _ _ _ _ _ E1). cbn [negb].
  destruct (script_run cgig call_header_callback call_handler callable_name compat_func handler_alias conflict ho Hconf
    _ actions s1 _ body (or_intror (λ _, I)) Hok Ho1) as (s2 & E2 & Ho2).
  rewrite captured_spec in Ho2 by done. cbn [fst snd] in Ho2. rewrite (right_id_L [] (++)) in Ho2.
  rewrite bind_assoc, (bind_runs _ _ _ _ _ E2), bind_ret.
  destruct (pop_run cgig call_header_callback call_handler compat_func ho _ (Z.lor PHP_OUTPUT_POP_DISCARD PHP_OUTPUT_POP_TRY)
    s2 _ _ body Ho2) as (s3 & E3 & Ho3).
  change (has (Z.lor PHP_OUTPUT_POP_DISCARD PHP_OUTPUT_POP_TRY) PHP_OUTPUT_POP_DISCARD) with true in Ho3.
  cbn [fst snd] in Ho3. rewrite (right_id_L [] (++)) in Ho3. exists s3.
  split; [|split; [done|by apply captured_all]]. unfold php_output_discard. destruct raises.
  - by rewrite (bind_runs _ _ _ _ _ E3).
  - destruct (outputs_top _ _ _ _ _ _ _ Ho2) as (hs & h & Hs & Hrel & Hh & Htop & Hrun & Hact & Hp).
    unfold php_output_get_contents. rewrite bind_assoc, bind_gets, Hact, bind_assoc.
    rewrite (bind_runs _ _ _ _ _ (get_handler_run s2 hs h [] Hs)), bind_ret, (rel_buffer _ _ _ Hh).
    by rewrite (bind_runs _ _ _ _ _ E3).
Qed.

Lemma start_outputs cgig : outputs cgig false (λ _, True) (start_srv None) [] [].
Proof.
  split; [|exists []; by split; try constructor|done]. split; try done.
Qed.

(** A template with a buffer of its own. *)
Definition template : list action := [Echo "<p>"; Start 0; Echo "text"; End; Echo "</p>"].

Lemma capture_spec_witness :
  ∃ s', exec_tpl_buffered (H := plain_runtime) (cgi_sapi_module (CgiGlobals false false)) (λ _, mret true) no_call (λ _, inr [])
      (λ _ _ _, None) (λ _, None) (λ _, true)
      (run_script (H := plain_runtime) (cgi_sapi_module (CgiGlobals false false)) (λ _, mret true) no_call (λ _, inr [])
        (λ _ _ _, None) (λ _, None) (λ _, true) template;; mret false) (start_srv None) =
      Some (if false then None else Some (captured template), s') ∧
    outputs (CgiGlobals false false) false (λ _, True) s' [] [] ∧
    (Forall (λ a, keeps a = true) template → captured template = mjoin (prints <$> template)).
Proof.
  apply (capture_spec (H := plain_runtime) (CgiGlobals false false) (λ _, mret true) no_call (λ _, inr [])
      (λ _ _ _, None) (λ _, None) (λ _, true) false template false (start_srv None) [] []); [done|apply start_outputs| |done].
  repeat constructor.
Defined.

(** ** What is not promised *)

Section examples.
Abbreviation cgi := (cgi_sapi_module (CgiGlobals false false)).
Abbreviation run header_callback actions :=
  (run_script (H := plain_runtime) cgi header_callback no_call (λ _, inr []) (λ _ _ _, None) (λ _, None) (λ _, true) actions).

(** The result of a template that leaves a buffer open is what is in that buffer; the rest
    of its output stays in the buffer that was meant for the result. *)
Example open_buffer :
  ∃ s, exec_tpl_buffered (H := plain_runtime) cgi (λ _, mret true) no_call (λ _, inr []) (λ _ _ _, None) (λ _, None) (λ _, true)
         (run (λ _, mret true) [Echo "<p>"; Start 0; Echo "text"];; mret false) (start_srv None) = Some (Some ("text" : zstr), s) ∧
    top (og s) = 1 ∧ buffer <$> handlers (og s) = [("<p>" : zstr)].
Proof. eexists. split; [vm_compute; reflexivity|]. by vm_compute. Qed.

(** What a template flushes of the buffer of its result goes to the client instead. *)
Example flushed_result :
  ∃ s, exec_tpl_buffered (H := plain_runtime) cgi (λ _, mret true) no_call (λ _, inr []) (λ _ _ _, None) (λ _, None) (λ _, true)
         (run (λ _, mret true) [Echo "<p>"; Flush; Echo "text"];; mret false) (start_srv None) = Some (Some ("text" : zstr), s) ∧
    snd <$> read_head [] (wire s) = Some ("<p>" : zstr).
Proof. eexists. split; [vm_compute; reflexivity|]. by vm_compute. Qed.

(** [php_output_flush_all] stops at a buffer that is empty, although the comment at that
    function says that it flushes all output buffers. *)
Example flush_all_stops :
  ∃ s, run (λ _, mret true) [Start 0; Echo "page"; Start 0; Flush_all] (start_srv None) = Some (tt, s) ∧
    wire s = [] ∧ buffer <$> handlers (og s) = [("page" : zstr); []].
Proof. eexists. split; [vm_compute; reflexivity|]. by vm_compute. Qed.

(** A header callback that prints has the head sent twice. *)
Example printing_callback :
  ∃ s, (header_register_callback (ZStr "f") true;; run (λ _, run (λ _, mret true) [Echo "a"];; mret true) [Echo "b"])
         (start_srv None) = Some (tt, s) ∧
    read_head [] (wire s) = Some ([("Content-type: text/html; charset=UTF-8" : zstr)],
                                  "aContent-type: text/html; charset=UTF-8" ++ CRLF ++ CRLF ++ "b").
Proof. eexists. split; vm_compute; reflexivity. Qed.
(** A handler that has failed is not run for what is printed, but it is run by a flush. *)
Example failed_handler_runs :
  ∃ s, (ob_start cgi (λ _, mret true) (λ _, inl "f") (λ _, None) (λ _, true) (Some (ZStr "f")) 0 PHP_OUTPUT_HANDLER_STDFLAGS;;
        let flush := ob_flush (H := plain_runtime) cgi (λ _, mret true)
                       (λ _ _ _, php_error "called";; mret (Some (ZBool false))) (λ _ _ _, None) in
        flush;; flush) (start_srv None) = Some (true, s) ∧ errors s = [("called" : zstr); "called"].
Proof. eexists. split; vm_compute; reflexivity. Qed.
End examples.
