(* ===== verification/Engine.v ===== *)
(** * Engine state: module globals, superglobals, exceptions

    The state that every Yaf component shares: the module globals [YAF_G]
    ([php_yaf.h], [yaf.c]), the static property [Yaf_Application::$_app], the
    superglobals, [EG(exception)] and the diagnostics raised so far, and the
    error paths of [yaf_exception.c] that act on it. *)

From S2P Require Import Prelude Zend.

Open Scope zs_scope.

(** ** Module globals *)

Record yaf_globals := YafGlobals {
  ext : zstr;
  base_uri : option zstr;
  directory : option zstr;
  local_library : option zstr;
  local_namespaces : option zstr;
  view_directory : option zstr;
  view_ext : zstr;
  default_module : zstr;
  default_controller : zstr;
  default_action : zstr;
  bootstrap : option zstr;
  global_library : zstr;
  environ_name : zstr;
  name_separator : zstr;
  lowcase_path : bool;
  use_spl_autoload : bool;
  throw_exception : bool;
  action_prefer : bool;
  name_suffix : bool;
  autoload_started : bool;
  running : bool;
  in_exception : bool;
  catch_exception : bool;
  suppressing_warning : bool;
  st_compatible : bool;
  forward_limit : Z;
  modules : option (htab zval);
  default_route : option zval;
  use_namespace : bool;
}.

#[export] Instance yaf_globals_rebuild : Rebuild yaf_globals := λ g,
  YafGlobals (ext g) (base_uri g) (directory g) (local_library g) (local_namespaces g)
    (view_directory g) (view_ext g) (default_module g) (default_controller g)
    (default_action g) (bootstrap g) (global_library g) (environ_name g) (name_separator g)
    (lowcase_path g) (use_spl_autoload g) (throw_exception g) (action_prefer g)
    (name_suffix g) (autoload_started g) (running g) (in_exception g) (catch_exception g)
    (suppressing_warning g) (st_compatible g) (forward_limit g) (modules g)
    (default_route g) (use_namespace g).

(** The globals after [PHP_GINIT] has zeroed them and the INI entries have their
    default values. *)
Definition ginit_globals : yaf_globals :=
  YafGlobals "" None None None None None "" "" "" "" None "" "product" ""
    false false false false true false false false false false false 5 None None false.

Definition YAF_DEFAULT_EXT : zstr := "php".
Definition YAF_DEFAULT_VIEW_EXT : zstr := "phtml".
Definition YAF_ROUTER_DEFAULT_MODULE : zstr := "Index".
Definition YAF_ROUTER_DEFAULT_CONTROLLER : zstr := "Index".
Definition YAF_ROUTER_DEFAULT_ACTION : zstr := "index".

(** [PHP_RINIT_FUNCTION(yaf)] *)
Definition rinit (g : yaf_globals) : yaf_globals :=
  g <| throw_exception := true |>
    <| ext := YAF_DEFAULT_EXT |>
    <| view_ext := YAF_DEFAULT_VIEW_EXT |>
    <| default_module := YAF_ROUTER_DEFAULT_MODULE |>
    <| default_controller := YAF_ROUTER_DEFAULT_CONTROLLER |>
    <| default_action := YAF_ROUTER_DEFAULT_ACTION |>.

(** [PHP_RSHUTDOWN_FUNCTION(yaf)]; the five strings that [rinit] sets are
    released there and not read again before the next [rinit]. *)
Definition rshutdown (g : yaf_globals) : yaf_globals :=
  g <| running := false |>
    <| in_exception := false |>
    <| catch_exception := false |>
    <| directory := None |>
    <| local_library := None |>
    <| local_namespaces := None |>
    <| bootstrap := None |>
    <| modules := None |>
    <| base_uri := None |>
    <| view_directory := None |>
    <| default_route := None |>.

(** ** Exceptions *)

Definition YAF_ERR_BASE : Z := 512.
Definition YAF_ERR_MASK : Z := 127.
Definition YAF_MAX_BUILDIN_EXCEPTION : Z := 10.
Definition YAF_ERR_STARTUP_FAILED : Z := 512.
Definition YAF_ERR_ROUTE_FAILED : Z := 513.
Definition YAF_ERR_DISPATCH_FAILED : Z := 514.
Definition YAF_ERR_NOTFOUND_MODULE : Z := 515.
Definition YAF_ERR_NOTFOUND_CONTROLLER : Z := 516.
Definition YAF_ERR_NOTFOUND_ACTION : Z := 517.
Definition YAF_ERR_NOTFOUND_VIEW : Z := 518.
Definition YAF_ERR_CALL_FAILED : Z := 519.
Definition YAF_ERR_AUTOLOAD_FAILED : Z := 520.
Definition YAF_ERR_TYPE_ERROR : Z := 521.
Definition YAF_EXCEPTION_OFFSET (x : Z) : Z := Z.land x YAF_ERR_MASK.

Inductive exn_class :=
| Yaf_Exception
| Yaf_Exception_StartupError
| Yaf_Exception_RouterFailed
| Yaf_Exception_DispatchFailed
| Yaf_Exception_LoadFailed
| Yaf_Exception_LoadFailed_Module
| Yaf_Exception_LoadFailed_Controller
| Yaf_Exception_LoadFailed_Action
| Yaf_Exception_LoadFailed_View
| Yaf_Exception_TypeError
| Other_Exception (cls : zstr).

#[export] Instance exn_class_eq_dec : EqDecision exn_class.
Proof. solve_decision. Defined.

(** The table [yaf_buildin_exceptions] as the startup function fills it. *)
Definition yaf_buildin_exceptions : list (option exn_class) :=
  [ Some Yaf_Exception_StartupError;
    Some Yaf_Exception_RouterFailed;
    Some Yaf_Exception_DispatchFailed;
    Some Yaf_Exception_LoadFailed_Module;
    Some Yaf_Exception_LoadFailed_Controller;
    Some Yaf_Exception_LoadFailed_Action;
    Some Yaf_Exception_LoadFailed_View;
    None;
    Some Yaf_Exception_LoadFailed;
    Some Yaf_Exception_TypeError ].

(** The parent each class is registered with. *)
Definition exn_parent (c : exn_class) : option exn_class :=
  match c with
  | Yaf_Exception | Other_Exception _ => None
  | Yaf_Exception_LoadFailed_Module | Yaf_Exception_LoadFailed_Controller
  | Yaf_Exception_LoadFailed_Action | Yaf_Exception_LoadFailed_View =>
      Some Yaf_Exception_LoadFailed
  | _ => Some Yaf_Exception
  end.

(** A class and the classes it extends; three levels are registered. *)
Definition exn_ancestors (c : exn_class) : list exn_class :=
  c :: match exn_parent c with
       | Some p => p :: match exn_parent p with Some q => [q] | None => [] end
       | None => []
       end.
(** [instanceof_function] on the registered classes *)
Definition exn_instanceof (c d : exn_class) : bool := bool_decide (d ∈ exn_ancestors c).

Record exn := Exn { exn_cls : exn_class; exn_code : Z; exn_msg : zstr }.

(** ** The application object *)

Record application := Application {
  app_config : zval;
  app_dispatcher : zval;
  app_modules : zval;
  app_running : bool;
  app_environ : zstr;
  app_err_no : Z;
  app_err_msg : zstr;
}.
#[export] Instance application_rebuild : Rebuild application := λ a,
  Application (app_config a) (app_dispatcher a) (app_modules a) (app_running a)
    (app_environ a) (app_err_no a) (app_err_msg a).

(** A new object: the declared defaults. *)
Definition application_init (environ : zstr) : application :=
  Application ZNull ZNull ZNull false (cstr environ) 0 "".

(** ** Superglobals *)

Inductive global_var :=
| YAF_GLOBAL_VARS_POST
| YAF_GLOBAL_VARS_GET
| YAF_GLOBAL_VARS_COOKIE
| YAF_GLOBAL_VARS_SERVER
| YAF_GLOBAL_VARS_ENV
| YAF_GLOBAL_VARS_FILES
| YAF_GLOBAL_VARS_REQUEST.

(** With [auto_globals_jit] the arrays of [_SERVER], [_ENV] and [_REQUEST] are
    built at the first [zend_is_auto_global]; [ag_jit] is what that builds. *)
Record autoglobal := AutoGlobal { ag_cur : zval; ag_jit : option (htab zval) }.

Definition zend_is_auto_global (a : autoglobal) : autoglobal :=
  match ag_jit a with
  | Some ht => AutoGlobal (ZArr ht) None
  | None => a
  end.

Record http_globals := HttpGlobals {
  g_post : zval;
  g_get : zval;
  g_cookie : zval;
  g_files : zval;
  g_server : autoglobal;
  g_env : autoglobal;
  g_request : autoglobal;
  auto_globals_jit : bool;
}.
#[export] Instance http_globals_rebuild : Rebuild http_globals := λ h,
  HttpGlobals (g_post h) (g_get h) (g_cookie h) (g_files h) (g_server h) (g_env h)
    (g_request h) (auto_globals_jit h).

(** ** The engine *)

Inductive level := E_WARNING | E_NOTICE | E_STRICT | E_RECOVERABLE_ERROR | E_ERROR.

Record engine := Engine {
  yaf : yaf_globals;
  app : option application;
  http : http_globals;
  request_method : option zstr;
  sapi_name : zstr;
  eg_exception : list exn;          (** newest first, each the [previous] of the one before it *)
  eg_log : list (level * zstr);     (** [php_error_docref] calls, newest first *)
  output : zstr;                    (** what [php_write] has written *)
  http_response_code : Z;           (** [SG(sapi_headers).http_response_code] *)
}.
#[export] Instance engine_rebuild : Rebuild engine := λ e,
  Engine (yaf e) (app e) (http e) (request_method e) (sapi_name e) (eg_exception e) (eg_log e)
    (output e) (http_response_code e).

Abbreviation M A := (St engine A).

(** [YAF_G(f)] *)
Abbreviation YAF_G f := (gets (S := engine) (λ e, f (yaf e))).

(** [php_write] *)
Definition php_write (s : zstr) : M unit := modify (λ e, e <| output := output e ++ s |>).

Definition php_error (l : level) (msg : zstr) : M unit :=
  modify (λ e, e <| eg_log := (l, msg) :: eg_log e |>).

(** [zend_throw_exception]: the pending exception, if any, becomes the
    [previous] of the new one. *)
Definition zend_throw_exception (c : exn_class) (msg : zstr) (code : Z) : M unit :=
  modify (λ e, e <| eg_exception := Exn c code msg :: eg_exception e |>).

Definition yaf_throw_exception (code : Z) (msg : zstr) : M unit :=
  if (Z.land code YAF_ERR_BASE =? YAF_ERR_BASE)%Z then
    match yaf_buildin_exceptions !! Z.to_nat (YAF_EXCEPTION_OFFSET code) with
    | Some (Some c) => zend_throw_exception c msg code
    | Some None => zend_throw_exception Yaf_Exception msg code
    | None => undefined
    end
  else zend_throw_exception Yaf_Exception msg code.

(** [yaf_trigger_error].  Without an application object the property update
    dereferences a null object. *)
Definition yaf_trigger_error (type : Z) (msg : zstr) : M unit :=
  throw ← YAF_G throw_exception;
  if throw : bool then yaf_throw_exception type msg
  else
    a ← gets app;
    match a with
    | None => undefined
    | Some a =>
        modify (λ e, e <| app := Some (a <| app_err_no := type |> <| app_err_msg := msg |>) |>);;
        php_error E_RECOVERABLE_ERROR msg
    end.

(** The class that an error of each kind raises. *)
Definition exn_of_code (code : Z) : exn_class :=
  if (code =? YAF_ERR_STARTUP_FAILED)%Z then Yaf_Exception_StartupError
  else if (code =? YAF_ERR_ROUTE_FAILED)%Z then Yaf_Exception_RouterFailed
  else if (code =? YAF_ERR_DISPATCH_FAILED)%Z then Yaf_Exception_DispatchFailed
  else if (code =? YAF_ERR_NOTFOUND_MODULE)%Z then Yaf_Exception_LoadFailed_Module
  else if (code =? YAF_ERR_NOTFOUND_CONTROLLER)%Z then Yaf_Exception_LoadFailed_Controller
  else if (code =? YAF_ERR_NOTFOUND_ACTION)%Z then Yaf_Exception_LoadFailed_Action
  else if (code =? YAF_ERR_NOTFOUND_VIEW)%Z then Yaf_Exception_LoadFailed_View
  else if (code =? YAF_ERR_AUTOLOAD_FAILED)%Z then Yaf_Exception_LoadFailed
  else if (code =? YAF_ERR_TYPE_ERROR)%Z then Yaf_Exception_TypeError
  else Yaf_Exception.

Definition yaf_code (code : Z) : Prop := (YAF_ERR_STARTUP_FAILED <= code <= YAF_ERR_TYPE_ERROR)%Z.

Lemma yaf_code_cases code :
  yaf_code code → ∃ i, i < 10 ∧ code = (512 + Z.of_nat i)%Z.
Proof.
  unfold yaf_code, YAF_ERR_STARTUP_FAILED, YAF_ERR_TYPE_ERROR. intros Hc.
  exists (Z.to_nat (code - 512)). lia.
Qed.

Lemma throw_exception_run code msg e :
  yaf_code code →
  yaf_throw_exception code msg e =
    Some (tt, e <| eg_exception := Exn (exn_of_code code) code msg :: eg_exception e |>).
Proof. intros (i & Hi & ->)%yaf_code_cases. do 10 (destruct i as [|i]; [done|]). lia. Qed.

Lemma trigger_error_throws code msg e :
  yaf_code code → throw_exception (yaf e) = true →
  yaf_trigger_error code msg e =
    Some (tt, e <| eg_exception := Exn (exn_of_code code) code msg :: eg_exception e |>).
Proof.
  intros Hc Ht. unfold yaf_trigger_error. st_run. rewrite Ht. by apply throw_exception_run.
Qed.

(** Every error code of the framework raises the exception class of its kind, a
    subclass of [Yaf_Exception], in front of the pending one; with exceptions
    switched off it is recorded in the application and reported as a recoverable
    error instead, and without an application that dereferences NULL. *)
Theorem trigger_error_spec code msg e :
  yaf_code code →
  exn_instanceof (exn_of_code code) Yaf_Exception = true ∧
  yaf_trigger_error code msg e =
    if throw_exception (yaf e) then
      Some (tt, e <| eg_exception := Exn (exn_of_code code) code msg :: eg_exception e |>)
    else
      (λ a, (tt, e <| app := Some (a <| app_err_no := code |> <| app_err_msg := msg |>) |>
                   <| eg_log := (E_RECOVERABLE_ERROR, msg) :: eg_log e |>)) <$> app e.
Proof.
  intros Hc. split.
  - destruct (yaf_code_cases _ Hc) as (i & Hi & ->).
    do 10 (destruct i as [|i]; [done|]). lia.
  - destruct (throw_exception (yaf e)) eqn:Ht; [by apply trigger_error_throws|].
    unfold yaf_trigger_error. st_run. rewrite Ht. st_run. by destruct (app e).
Qed.

(** ** [yaf_application_is_module_name] *)

Definition yaf_application_is_module_name (name : zstr) : M bool :=
  a ← gets app;
  mret match a with
       | None => false
       | Some a =>
           match app_modules a with
           | ZArr ht => existsb (λ kv, match kv.2 with
                                       | ZStr m => zend_string_equals_ci m name
                                       | _ => false
                                       end) ht
           | _ => false
           end
       end.

(** [name] points into a longer buffer, of which [len] bytes are taken. *)
Definition yaf_application_is_module_name_str (name : zstr) (len : nat) : M bool :=
  yaf_application_is_module_name (take len name).

(** The names [yaf_application_is_module_name] accepts in a given state. *)
Definition is_module (e : engine) (name : zstr) : bool :=
  match app e with
  | None => false
  | Some a =>
      match app_modules a with
      | ZArr ht => existsb (λ kv, match kv.2 with
                                  | ZStr m => zend_string_equals_ci m name
                                  | _ => false
                                  end) ht
      | _ => false
      end
  end.

Lemma bind_is_module_name {B} (k : bool → M B) e name :
  (yaf_application_is_module_name name ≫= k) e = k (is_module e name) e.
Proof. done. Qed.
#[export] Hint Rewrite @bind_is_module_name : st.

(** ** An engine at the start of a request, for the examples *)

Definition start_http (get server : htab zval) : http_globals :=
  HttpGlobals (ZArr []) (ZArr get) (ZArr []) (ZArr []) (AutoGlobal (ZArr server) None)
    (AutoGlobal (ZArr []) None) (AutoGlobal (ZArr []) None) false.
Definition start_app (modules : list zstr) : application :=
  Application ZNull ZNull
    (ZArr (imap (λ i m, (KIdx (Z.of_nat i), ZStr m)) modules)) false "product" 0 "".
Definition start_engine (modules : list zstr) (get server : htab zval) : engine :=
  Engine (rinit ginit_globals) (Some (start_app modules)) (start_http get server)
    (Some "GET") "cli" [] [] "" 200.

Lemma trigger_error_spec_witness :
  exn_instanceof (exn_of_code YAF_ERR_NOTFOUND_VIEW) Yaf_Exception = true ∧
  yaf_trigger_error YAF_ERR_NOTFOUND_VIEW "no view" (start_engine [] [] []) =
    Some (tt, (start_engine [] [] [])
                <| eg_exception := [Exn Yaf_Exception_LoadFailed_View YAF_ERR_NOTFOUND_VIEW "no view"] |>).
Proof. apply (trigger_error_spec YAF_ERR_NOTFOUND_VIEW "no view" (start_engine [] [] [])). by vm_compute. Defined.
