(* ===== verification/Request.v ===== *)
(** * Requests

    [yaf_request.c], [requests/yaf_request_http.c] and
    [requests/yaf_request_simple.c]: the request object, the lookup of
    superglobals, the choice of the base URI and of the language, and the two
    constructors. *)

From S2P Require Import Prelude Zend Url Engine.

Open Scope zs_scope.

(** The declared properties of [Yaf_Request_Abstract]. *)
Record request := Request {
  rq_module : zval;
  rq_controller : zval;
  rq_action : zval;
  rq_method : zval;
  rq_params : zval;
  rq_language : zval;
  rq_exception : zval;
  rq_base_uri : zval;
  rq_uri : zval;
  rq_dispatched : bool;
  rq_routed : bool;
}.
#[export] Instance request_rebuild : Rebuild request := λ r,
  Request (rq_module r) (rq_controller r) (rq_action r) (rq_method r) (rq_params r)
    (rq_language r) (rq_exception r) (rq_base_uri r) (rq_uri r) (rq_dispatched r) (rq_routed r).

(** The default values that [YAF_STARTUP_FUNCTION(request)] declares. *)
Definition request_init : request :=
  Request ZNull ZNull ZNull ZNull ZNull ZNull ZNull (ZStr "") (ZStr "") false false.

(** A request as its constructors leave it, for the examples. *)
Definition sample_request (base uri : zstr) : request :=
  request_init <| rq_params := ZArr [] |> <| rq_base_uri := ZStr base |> <| rq_uri := ZStr uri |>.

(** ** Superglobals *)

Definition carrier_of (type : global_var) : M (option zval) :=
  let jit (get : http_globals → autoglobal) (put : http_globals → autoglobal → http_globals)
      : M (option zval) :=
    on ← gets (λ e, auto_globals_jit (http e));
    (if on : bool
     then modify (λ e, e <| http := put (http e) (zend_is_auto_global (get (http e))) |>)
     else mret tt);;
    c ← gets (λ e, ag_cur (get (http e)));
    mret (Some c) in
  match type with
  | YAF_GLOBAL_VARS_POST => gets (λ e, Some (g_post (http e)))
  | YAF_GLOBAL_VARS_GET => gets (λ e, Some (g_get (http e)))
  | YAF_GLOBAL_VARS_FILES => gets (λ e, Some (g_files (http e)))
  | YAF_GLOBAL_VARS_COOKIE => gets (λ e, Some (g_cookie (http e)))
  | YAF_GLOBAL_VARS_ENV => jit g_env (λ h a, h <| g_env := a |>)
  | YAF_GLOBAL_VARS_SERVER => jit g_server (λ h a, h <| g_server := a |>)
  | YAF_GLOBAL_VARS_REQUEST =>
      (* found in the symbol table, where it is absent until it is built *)
      c ← jit g_request (λ h a, h <| g_request := a |>);
      mret match c with
           | Some (ZArr ht) => Some (ZArr ht)
           | _ => None
           end
  end.

(** [yaf_request_query_ex]; [name = None] is the NULL name that asks for the
    whole array. *)
Definition yaf_request_query_ex (type : global_var) (name : option zstr) : M (option zval) :=
  carrier ← carrier_of type;
  match carrier, name with
  | None, _ => mret None
  | Some c, None => mret (Some c)
  | Some c, Some name => ht ← lift (Z_ARR c); mret (hfind (KStr name) ht)
  end.

Abbreviation yaf_request_query type name := (yaf_request_query_ex type (Some name)).
Abbreviation yaf_request_query_str type name := (yaf_request_query_ex type (Some name%zs)).

Lemma bind_query_get {B} (k : option zval → M B) e name get :
  g_get (http e) = ZArr get →
  (yaf_request_query_ex YAF_GLOBAL_VARS_GET (Some name) ≫= k) e = k (hfind (KStr name) get) e.
Proof. intros Hg. unfold yaf_request_query_ex, carrier_of. st_run. rewrite Hg. by st_run. Qed.
Ltac st_conditional ::=
  first [ erewrite bind_lift by eassumption | erewrite bind_query_get by eassumption ].

(** The body of [YAF_REQUEST_METHOD]: [getQuery], [getPost], [getEnv], ... *)
Definition request_getter (type : global_var) (name : option zstr) (def : option zval) : M zval :=
  ret ← yaf_request_query_ex type name;
  match ret, name, def with
  | Some v, _, _ => mret v
  | None, Some _, Some d => mret d
  | None, _, _ => mret ZNull
  end.

(** ** Properties *)

Definition yaf_request_is_routed (r : request) : bool := rq_routed r.
Definition yaf_request_is_dispatched (r : request) : bool := rq_dispatched r.
Definition yaf_request_set_dispatched (r : request) (flag : bool) : request :=
  r <| rq_dispatched := flag |>.
Definition yaf_request_set_routed (r : request) (flag : bool) : request :=
  r <| rq_routed := flag |>.
Definition yaf_request_get_method (r : request) : zval := rq_method r.

Definition yaf_request_set_params_single (r : request) (key : zstr) (value : zval) : M request :=
  ht ← lift (Z_ARR (rq_params r));
  mret (r <| rq_params := ZArr (hupdate (KStr key) value ht) |>).

Definition yaf_request_set_params_multi (r : request) (values : zval) : M (bool * request) :=
  match values with
  | ZArr src =>
      ht ← lift (Z_ARR (rq_params r));
      mret (true, r <| rq_params := ZArr (hcopy ht src) |>)
  | _ => mret (false, r)
  end.

Definition yaf_request_get_param (r : request) (key : zstr) : M (option zval) :=
  ht ← lift (Z_ARR (rq_params r));
  mret (hfind (KStr key) ht).

(** [Yaf_Request_Abstract::setModuleName], [setControllerName],
    [setActionName]: the result is FALSE, or the request itself. *)
Definition set_name (what : zstr) (put : request → zval → request) (r : request) (v : zval)
    : M (bool * request) :=
  match v with
  | ZStr _ => mret (true, put r v)
  | _ => php_error E_WARNING ("Expect a string " ++ what ++ " name");; mret (false, r)
  end.
Definition setModuleName := set_name "module" (λ r v, r <| rq_module := v |>).
Definition setControllerName := set_name "controller" (λ r v, r <| rq_controller := v |>).
Definition setActionName := set_name "action" (λ r v, r <| rq_action := v |>).

(** The getters, [isXmlHttpRequest] of the abstract class, [setDispatched], [setRouted] *)
Definition getModuleName (r : request) : zval := rq_module r.
Definition getControllerName (r : request) : zval := rq_controller r.
Definition getActionName (r : request) : zval := rq_action r.
Definition getParams (r : request) : zval := rq_params r.
Definition getMethod (r : request) : zval := yaf_request_get_method r.
Definition getBaseUri (r : request) : zval := rq_base_uri r.
Definition getRequestUri (r : request) : zval := rq_uri r.
Definition isDispatched (r : request) : bool := yaf_request_is_dispatched r.
Definition isRouted (r : request) : bool := yaf_request_is_routed r.
Definition setDispatched (r : request) : request := yaf_request_set_dispatched r true.
Definition setRouted (r : request) : request := yaf_request_set_routed r true.
Definition isXmlHttpRequest (_ : request) : bool := false.

(** [setParam] with one argument (an array) and with two. *)
Definition setParam1 (r : request) (value : zval) : M (bool * request) :=
  yaf_request_set_params_multi r value.
Definition setParam2 (r : request) (name : zstr) (value : zval) : M (bool * request) :=
  r' ← yaf_request_set_params_single r name value;
  mret (true, r').

Definition getParam (r : request) (name : zstr) (def : option zval) : M zval :=
  v ← yaf_request_get_param r name;
  mret (match v, def with
        | Some v, _ => v
        | None, Some d => d
        | None, None => ZNull
        end).

Section with_runtime.
Context `{Runtime}.

Definition getException (r : request) : zval :=
  match rq_exception r with
  | ZObj c h => if rt_instanceof c "Exception" then ZObj c h else ZNull
  | _ => ZNull
  end.

(** The methods [isGet], [isPost], ... generated by [YAF_REQUEST_IS_METHOD]. *)
Definition is_method (r : request) (x : zstr) : option bool :=
  m ← Z_STR (rq_method r);
  Some (zend_string_equals_ci m x).

(** ** Base URI *)

(** Does the base name of the string [v] start with [file_name]? *)
Definition base_matches (file_name : zstr) (v : option zval) : option zstr :=
  match v with
  | Some (ZStr s) =>
      if strncmp0 file_name (php_basename s None) (length file_name) then Some s else None
  | _ => None
  end.

(** The first of SCRIPT_NAME, PHP_SELF and ORIG_SCRIPT_NAME whose base name
    starts with the base name of SCRIPT_FILENAME without its extension. *)
Definition find_basename : M (option zstr) :=
  script_filename ← yaf_request_query_str YAF_GLOBAL_VARS_SERVER "SCRIPT_FILENAME";
  match script_filename with
  | Some (ZStr sf) =>
      ext ← YAF_G ext;
      let file_name := php_basename sf (Some ext) in
      script_name ← yaf_request_query_str YAF_GLOBAL_VARS_SERVER "SCRIPT_NAME";
      match base_matches file_name script_name with
      | Some b => mret (Some b)
      | None =>
          phpself ← yaf_request_query_str YAF_GLOBAL_VARS_SERVER "PHP_SELF";
          match base_matches file_name phpself with
          | Some b => mret (Some b)
          | None =>
              orig ← yaf_request_query_str YAF_GLOBAL_VARS_SERVER "ORIG_SCRIPT_NAME";
              mret (base_matches file_name orig)
          end
      end
  | _ => mret None
  end.

(** [*(s + len - 1) == '/'], which reads before the buffer when [s] is empty *)
Definition ends_with_slash (s : zstr) : option bool := ceq SLASH <$> last s.
Definition chop (s : zstr) : zstr := take (length s - 1) s.

(** The base URI that the script name [b] gives for [request_uri]. *)
Definition base_of (b request_uri : zstr) : option zstr :=
  if strncmp0 request_uri b (length b) then
    sl ← ends_with_slash b;
    Some (if sl : bool then chop b else b)
  else
    let dir := php_dirname b in
    sl ← ends_with_slash dir;
    let dir := if sl : bool then chop dir else dir in
    Some (match dir with
          | [] => ""
          | _ => if strncmp0 request_uri dir (length dir) then dir else ""
          end).

Definition yaf_request_set_base_uri (r : request) (base_uri request_uri : option zstr)
    : M request :=
  match base_uri with
  | Some b => mret (r <| rq_base_uri := ZStr b |>)
  | None =>
      basename ← find_basename;
      match basename with
      | Some b =>
          uri ← lift request_uri;
          base ← lift (base_of b uri);
          mret (r <| rq_base_uri := ZStr base |>)
      | None => mret (r <| rq_base_uri := ZStr "" |>)
      end
  end.

Definition setBaseUri (r : request) (uri : zstr) : M (bool * request) :=
  match uri with
  | [] => mret (false, r)
  | _ => r' ← yaf_request_set_base_uri r (Some uri) None; mret (true, r')
  end.

Definition setRequestUri (r : request) (uri : zstr) : request := r <| rq_uri := ZStr uri |>.

(** ** Language *)

(** 1.0 as [rt_strtof] counts *)
Definition ONE : Z := 2 ^ 149.

(** One segment of the header: the largest weight so far and the preferred
    language.  [qvalue - seg - 1] is an unsigned int: at offset 0 it is 2^32 - 1
    and the copy runs past the buffer. *)
Definition lang_step (st : Z * option zstr) (seg : zstr) : option (Z * option zstr) :=
  let seg := drop_while (ceq " "%char) seg in
  match strstr seg "q=" with
  | Some i =>
      let qval := rt_strtof (drop (i + 2) seg) in
      if (st.1 <? qval)%Z then
        match i with
        | 0 => None
        | S i' => Some (qval, Some (take i' seg))
        end
      else Some st
  | None =>
      if (st.1 <? ONE)%Z then Some (ONE, Some seg) else Some st
  end.

(** The loop over the comma-separated segments. *)
Fixpoint lang_loop (fuel : nat) (cur : option zstr * option zstr) (st : Z * option zstr)
    : option (Z * option zstr) :=
  match fuel, cur with
  | S fuel', (Some seg, rest) =>
      st' ← lang_step st seg;
      lang_loop fuel' (php_strtok_r rest ","%char) st'
  | _, _ => Some st
  end.

Definition prefer_language (langs : zstr) : option (option zstr) :=
  snd <$> lang_loop (S (S (length langs))) (php_strtok_r (Some (cstr langs)) ","%char) (0%Z, None).

Definition yaf_request_get_language (r : request) : M (option zval * request) :=
  match rq_language r with
  | ZStr l => mret (Some (ZStr l), r)
  | lang =>
      accept ← yaf_request_query_str YAF_GLOBAL_VARS_SERVER "HTTP_ACCEPT_LANGUAGE";
      match accept with
      | Some (ZStr ((_ :: _) as langs)) =>
          prefer ← lift (prefer_language langs);
          mret (match prefer with
                | Some p => (Some (ZStr p), r <| rq_language := ZStr p |>)
                | None => (Some lang, r)
                end)
      | _ => mret (None, r)
      end
  end.

Definition getLanguage (r : request) : M (zval * request) :=
  res ← yaf_request_get_language r; mret (default ZNull res.1, res.2).

(** ** [Yaf_Request_Http] *)

Definition method_of_sapi (cli unknown : zstr) : M zstr :=
  m ← gets request_method;
  name ← gets sapi_name;
  mret (match m with
        | Some m => cstr m
        | None => if strncasecmp0 name "cli" 3 then cli else unknown
        end).

(** The REQUEST_URI: only the path of an absolute URL, nothing after a '?'.
    When the URL does not parse, [php_url_free(NULL)] dereferences NULL. *)
Definition settle_request_uri (uri : zstr) : option (option zstr) :=
  if strncasecmp0 uri "http" 4 then u_path <$> php_url_parse uri
  else Some (Some (match strstr uri "?" with
                   | Some i => take i uri
                   | None => uri
                   end)).

Definition settled_uri_of_server : M (option zstr) :=
  uri ← yaf_request_query_str YAF_GLOBAL_VARS_SERVER "PATH_INFO";
  match uri with
  | Some (ZStr u) => mret (Some u)
  | _ =>
      uri ← yaf_request_query_str YAF_GLOBAL_VARS_SERVER "REQUEST_URI";
      match uri with
      | Some (ZStr u) => lift (settle_request_uri u)
      | _ =>
          uri ← yaf_request_query_str YAF_GLOBAL_VARS_SERVER "ORIG_PATH_INFO";
          mret (match uri with Some (ZStr u) => Some u | _ => None end)
      end
  end.

(** [while ( *p == '/' && *(p + 1) == '/') p++] *)
Fixpoint skip_double_slash (p : zstr) : zstr :=
  match p with
  | c :: ((d :: _) as p') => if ceq c SLASH && ceq d SLASH then skip_double_slash p' else p
  | _ => p
  end.

Definition yaf_request_http_instance (r : request) (request_uri base_uri : option zstr)
    : M request :=
  method ← method_of_sapi "Cli" "Unknow";
  let r := r <| rq_method := ZStr method |> in
  settled ← (match request_uri with
             | Some u => mret (Some u)
             | None => settled_uri_of_server
             end : M (option zstr));
  r ← (match settled with
       | Some u =>
           let u := skip_double_slash u in
           yaf_request_set_base_uri (r <| rq_uri := ZStr u |>) base_uri (Some u)
       | None => mret r
       end : M request);
  mret (r <| rq_params := ZArr [] |>).

(** [yaf_request_instance]: its only string argument is the base URI. *)
Definition yaf_request_instance (r : request) (uri : option zstr) : M request :=
  yaf_request_http_instance r None uri.

(** [isXmlHttpRequest] of the two classes; [header] is the key they read. *)
Definition is_xml_http_request (header : zstr) : M bool :=
  h ← yaf_request_query YAF_GLOBAL_VARS_SERVER header;
  mret (match h with
        | Some (ZStr s) => strncasecmp0 "XMLHttpRequest" s (length s)
        | _ => false
        end).
Definition http_isXmlHttpRequest := is_xml_http_request "HTTP_X_REQUESTED_WITH".
Definition simple_isXmlHttpRequest := is_xml_http_request "X-Requested-With".

(** [Yaf_Request_Http::get], [Yaf_Request_Simple::get]: the four arrays are read
    without building an autoglobal. *)
Definition find_in (name : zstr) (v : zval) : option zval :=
  match v with ZArr ht => hfind (KStr name) ht | _ => None end.

Definition request_get (r : request) (name : zstr) (def : option zval) : M zval :=
  value ← yaf_request_get_param r name;
  match value with
  | Some v => mret v
  | None =>
      h ← gets http;
      let found := list_find is_Some
                     (map (find_in name) [g_post h; g_get h; g_cookie h; ag_cur (g_server h)]) in
      mret (match found, def with
            | Some (_, Some v), _ => v
            | _, Some d => d
            | _, None => ZNull
            end)
  end.

(** [Yaf_Request_Simple::get], the same code once more. *)
Definition request_simple_get := request_get.

(** [Yaf_Request_Http::__construct] *)
Definition request_http_construct (r : request) (request_uri base_uri : option zstr) : M request :=
  yaf_request_http_instance r request_uri base_uri.

(** ** [Yaf_Request_Simple] *)

Definition YAF_REQUEST_SERVER_URI : zstr := "request_uri=".

(** The URI of the first [request_uri=...] argument.  The copy starts at
    [sizeof(YAF_REQUEST_SERVER_URI)], one byte past the '=': after the end of
    the buffer when nothing follows it. *)
Fixpoint argv_query (argv : htab zval) : option (option zstr) :=
  match argv with
  | [] => Some None
  | (_, ZStr s) :: argv' =>
      if strncasecmp0 s YAF_REQUEST_SERVER_URI (length YAF_REQUEST_SERVER_URI) then
        if bool_decide (length s < S (length YAF_REQUEST_SERVER_URI)) then None
        else Some (Some (cstr (drop (S (length YAF_REQUEST_SERVER_URI)) s)))
      else argv_query argv'
  | _ :: argv' => argv_query argv'
  end.

Definition str_or (v : option zval) (def : zstr) : zval :=
  match v with Some (ZStr s) => ZStr s | _ => ZStr def end.

Definition yaf_request_simple_instance (r : request)
    (module controller action method params : option zval) : M request :=
  m ← (match method with
       | Some (ZStr m) => mret m
       | _ => method_of_sapi "CLI" "Unknow"
       end : M zstr);
  let r := r <| rq_method := ZStr m |> in
  r ← (match module, controller, action with
       | None, None, None =>
           argv ← yaf_request_query_str YAF_GLOBAL_VARS_SERVER "argv";
           query ← (match argv with
                    | Some (ZArr ht) => lift (argv_query ht)
                    | _ => mret None
                    end : M (option zstr));
           mret (r <| rq_uri := ZStr (default "" query) |>)
       | _, _, _ =>
           g ← gets yaf;
           mret (r <| rq_module := str_or module (default_module g) |>
                   <| rq_controller := str_or controller (default_controller g) |>
                   <| rq_action := str_or action (default_action g) |>
                   <| rq_routed := true |>)
       end : M request);
  mret (r <| rq_params := default (ZArr []) params |>).

(** [Yaf_Request_Simple::__construct]: the method comes first. *)
Definition request_simple_construct (r : request) (method module controller action : option zval)
    (params : option (htab zval)) : M request :=
  yaf_request_simple_instance r module controller action method (ZArr <$> params).

(** ** Base URI: correctness *)

Lemma chop_prefix s : ∃ t, s = chop s ++ t.
Proof. exists (drop (length s - 1) s). unfold chop. by rewrite take_drop. Qed.

Lemma no_nul_prefix s t : no_nul (s ++ t) → no_nul s.
Proof. by intros [? _]%no_nul_app. Qed.

Lemma drop_end_no_nul p s : no_nul s → no_nul (drop_end p s).
Proof. destruct (drop_end_app p s) as (t & Ht & _). rewrite Ht at 1. apply no_nul_prefix. Qed.

Lemma dirname_no_nul s : no_nul s → no_nul (php_dirname s).
Proof.
  intros Hs. unfold php_dirname. destruct s as [|c s]; [constructor|].
  assert (H1 := drop_end_no_nul (ceq SLASH) _ Hs).
  destruct (drop_end (ceq SLASH) (c :: s)) as [|c1 s1]; [by repeat constructor|].
  assert (H2 := drop_end_no_nul (λ c, negb (ceq SLASH c)) _ H1).
  destruct (drop_end _ (c1 :: s1)) as [|c2 s2]; [by repeat constructor|].
  assert (H3 := drop_end_no_nul (ceq SLASH) _ H2).
  destruct (drop_end _ (c2 :: s2)); [by repeat constructor|done].
Qed.

Lemma chop_no_nul s : no_nul s → no_nul (chop s).
Proof. destruct (chop_prefix s) as [t Ht]. rewrite Ht at 1. apply no_nul_prefix. Qed.

(** The base URI derived from a script name is a prefix of the request URI. *)
Lemma base_of_prefix b uri base :
  no_nul b → base_of b uri = Some base → no_nul base ∧ ∃ u, uri = base ++ u.
Proof.
  intros Hb. unfold base_of. destruct (strncmp0 uri b (length b)) eqn:E.
  - destruct (ends_with_slash b) as [sl|]; [|done]. intros [= <-].
    destruct (strncmp0_prefix _ _ Hb E) as [u ->]. destruct sl; [|by eauto].
    destruct (chop_prefix b) as [t Ht]. split; [by apply chop_no_nul|].
    exists (t ++ u). by rewrite app_assoc, <-Ht.
  - assert (Hd := dirname_no_nul _ Hb).
    destruct (ends_with_slash (php_dirname b)) as [sl|]; [|done]. intros [= <-].
    assert (Hd' : no_nul (if sl then chop (php_dirname b) else php_dirname b))
      by (destruct sl; [by apply chop_no_nul|done]).
    destruct (if sl then chop (php_dirname b) else php_dirname b) as [|c d];
      [by split; [constructor|exists uri]|].
    destruct (strncmp0 uri (c :: d) _) eqn:E2; [|by split; [constructor|exists uri]].
    destruct (strncmp0_prefix _ _ Hd' E2) as [u ->]. by eauto.
Qed.

(** The engine once SERVER has been built, and SERVER then. *)
Definition jit_server (e : engine) : engine :=
  if auto_globals_jit (http e)
  then e <| http := (http e) <| g_server := zend_is_auto_global (g_server (http e)) |> |> else e.
Definition server_of (e : engine) : zval := ag_cur (g_server (http (jit_server e))).

Lemma jit_server_idem e : jit_server (jit_server e) = jit_server e.
Proof.
  destruct e as [g a h rm sn ee el out code], h as [po ge co fi [cur [j|]] en rq on]; by destruct on.
Qed.

Lemma query_server e name ht :
  server_of e = ZArr ht →
  yaf_request_query_ex YAF_GLOBAL_VARS_SERVER (Some name) e =
    Some (hfind (KStr name) ht, jit_server e).
Proof.
  unfold server_of, jit_server, yaf_request_query_ex, carrier_of. st_run.
  destruct (auto_globals_jit (http e)); st_run; intros ->; by st_run.
Qed.

Lemma yaf_jit_server e : yaf (jit_server e) = yaf e.
Proof. unfold jit_server. by destruct (auto_globals_jit (http e)). Qed.

(** What [find_basename] looks for, given SERVER. *)
Definition script_base (ext : zstr) (server : htab zval) : option zstr :=
  match hfind_str "SCRIPT_FILENAME" server with
  | Some (ZStr sf) =>
      let file_name := php_basename sf (Some ext) in
      match base_matches file_name (hfind_str "SCRIPT_NAME" server) with
      | Some b => Some b
      | None =>
          match base_matches file_name (hfind_str "PHP_SELF" server) with
          | Some b => Some b
          | None => base_matches file_name (hfind_str "ORIG_SCRIPT_NAME" server)
          end
      end
  | _ => None
  end.

Lemma find_basename_spec e server :
  server_of e = ZArr server →
  find_basename e = Some (script_base (ext (yaf e)) server, jit_server e).
Proof.
  intros Hs. assert (Hs' : server_of (jit_server e) = ZArr server)
    by (unfold server_of; by rewrite jit_server_idem).
  unfold find_basename, script_base.
  rewrite (bind_runs _ _ _ _ _ (query_server e _ _ Hs)).
  destruct (hfind_str "SCRIPT_FILENAME" server) as [[]|]; st_run; try done.
  rewrite yaf_jit_server.
  rewrite (bind_runs _ _ _ _ _ (query_server _ _ _ Hs')), jit_server_idem.
  destruct (base_matches _ (hfind_str "SCRIPT_NAME" server)); [done|].
  rewrite (bind_runs _ _ _ _ _ (query_server _ _ _ Hs')), jit_server_idem.
  destruct (base_matches _ (hfind_str "PHP_SELF" server)); [done|].
  rewrite (bind_runs _ _ _ _ _ (query_server _ _ _ Hs')), jit_server_idem. done.
Qed.

Lemma script_base_in ext server b :
  script_base ext server = Some b → ∃ k, hfind (KStr k) server = Some (ZStr b).
Proof.
  assert (Hm : ∀ f k, base_matches f (hfind (KStr k) server) = Some b →
            ∃ k, hfind (KStr k) server = Some (ZStr b)).
  { intros f k. unfold base_matches. destruct (hfind (KStr k) server) as [[]|] eqn:E; try done.
    destruct (strncmp0 _ _ _); [|done]. intros [= <-]. by exists k. }
  unfold script_base. destruct (hfind_str "SCRIPT_FILENAME" server) as [[]|]; try done.
  destruct (base_matches _ (hfind_str "SCRIPT_NAME" server)) eqn:E1; [intros [= ->]; eauto|].
  destruct (base_matches _ (hfind_str "PHP_SELF" server)) eqn:E2; [intros [= ->]; eauto|]. eauto.
Qed.

(** ** Language: correctness *)

Definition COMMA : ascii := ","%char.

(** The weight and the language of one segment. *)
Definition lang_weight (seg : zstr) : Z :=
  let seg := drop_while (ceq " "%char) seg in
  match strstr seg "q=" with
  | Some i => rt_strtof (drop (i + 2) seg)
  | None => ONE
  end.
Definition lang_name (seg : zstr) : zstr :=
  let seg := drop_while (ceq " "%char) seg in
  match strstr seg "q=" with
  | Some i => take (i - 1) seg
  | None => seg
  end.
(** A segment that starts with its quality value. *)
Definition bare_quality (seg : zstr) : Prop :=
  strstr (drop_while (ceq " "%char) seg) "q=" = Some 0.
#[export] Instance bare_quality_dec seg : Decision (bare_quality seg).
Proof. unfold bare_quality. apply _. Defined.

Lemma lang_step_eq st seg :
  lang_step st seg =
    if (st.1 <? lang_weight seg)%Z then
      if decide (bare_quality seg) then None else Some (lang_weight seg, Some (lang_name seg))
    else Some st.
Proof.
  unfold lang_step, lang_weight, lang_name.
  assert (Hq : bare_quality seg ↔ strstr (drop_while (ceq " "%char) seg) "q=" = Some 0) by done.
  destruct (strstr _ "q=") as [[|i]|]; destruct (decide (bare_quality seg)) as [d|d];
    rewrite Hq in d; try done; destruct (st.1 <? _)%Z; try done.
  simpl. by rewrite Nat.sub_0_r.
Qed.

Lemma lang_loop_spec fuel o st :
  olen o < fuel →
  lang_loop fuel (php_strtok_r o COMMA) st = foldM lang_step st (otokens COMMA o).
Proof.
  revert o st. induction fuel as [|fuel IH]; intros o st Hf; [lia|].
  assert (Ht := strtok_spec COMMA o).
  destruct (otokens COMMA o) as [|w ws]; [by rewrite Ht|].
  destruct Ht as (l & -> & Hl & Hlt). cbn [lang_loop foldM].
  destruct (lang_step st w) as [st'|]; [|done]. cbn. fold COMMA. rewrite IH by lia. by rewrite Hl.
Qed.

Lemma prefer_language_fold langs :
  prefer_language langs = snd <$> foldM lang_step (0%Z, None) (tokens COMMA (cstr langs)).
Proof.
  unfold prefer_language. fold COMMA. rewrite lang_loop_spec; [done|].
  simpl. assert (Hl := cstr_length langs). lia.
Qed.

(** [st] is the first heaviest segment of [ws] among those of positive weight. *)
Definition best_of (ws : list zstr) (st : Z * option zstr) : Prop :=
  match st.2 with
  | None => st.1 = 0%Z ∧ Forall (λ w, (lang_weight w <= 0)%Z) ws
  | Some p =>
      ∃ pre w post, ws = pre ++ w :: post ∧ p = lang_name w ∧ st.1 = lang_weight w ∧
        (0 < st.1)%Z ∧ Forall (λ v, (lang_weight v < st.1)%Z) pre ∧
        Forall (λ v, (lang_weight v <= st.1)%Z) post
  end.

Lemma best_of_bound ws st : best_of ws st → Forall (λ v, (lang_weight v <= st.1)%Z) ws.
Proof.
  unfold best_of. destruct st as [m [p|]]; cbn.
  - intros (pre & w & post & -> & _ & -> & _ & Hpre & Hpost). apply Forall_app. split.
    + eapply Forall_impl; [exact Hpre|]. intros v. cbn. lia.
    + constructor; [lia|done].
  - by intros [-> ?].
Qed.

Lemma best_of_step ws st seg :
  best_of ws st → ¬ bare_quality seg →
  ∃ st', lang_step st seg = Some st' ∧ best_of (ws ++ [seg]) st'.
Proof.
  intros Hb Hq. rewrite lang_step_eq. assert (Hbd := best_of_bound _ _ Hb).
  destruct (Z.ltb_spec st.1 (lang_weight seg)) as [Hlt|Hge].
  - rewrite decide_False by done. eexists. split; [done|].
    exists ws, seg, []. repeat split; cbn.
    + destruct st as [m [p|]]; cbn in *; [|destruct Hb as [-> _]; lia].
      destruct Hb as (? & ? & ? & _ & _ & _ & ? & _). lia.
    + eapply Forall_impl; [exact Hbd|]. intros v. cbn. lia.
    + constructor.
  - exists st. split; [done|]. destruct st as [m [p|]]; unfold best_of in *; cbn in *.
    + destruct Hb as (pre & w & post & -> & Hp & Hw & Hpos & Hpre & Hpost).
      exists pre, w, (post ++ [seg]). rewrite <-app_assoc. repeat split; try done.
      apply Forall_app. split; [done|]. by constructor.
    + destruct Hb as [-> Hb]. split; [done|]. apply Forall_app. split; [done|]. by constructor.
Qed.

(** When no segment of an Accept-Language header starts with its quality value,
    the preferred language is the name of the first segment of largest positive
    weight, and there is none exactly when no segment has a positive weight. *)
Theorem prefer_language_best langs :
  Forall (λ w, ¬ bare_quality w) (tokens COMMA (cstr langs)) →
  ∃ st, best_of (tokens COMMA (cstr langs)) st ∧ prefer_language langs = Some st.2.
Proof.
  rewrite prefer_language_fold. generalize (tokens COMMA (cstr langs)). clear langs. intros ws Hq.
  cut (∃ st, foldM lang_step (0%Z, None) ws = Some st ∧ best_of ws st).
  { intros (st & -> & Hb). by exists st. }
  induction ws as [|w ws IH] using rev_ind; [exists (0%Z, None); by repeat constructor|].
  apply Forall_app in Hq as [Hq Hw]. apply Forall_cons in Hw as [Hw _].
  destruct (IH Hq) as (st & Hst & Hb). destruct (best_of_step _ _ _ Hb Hw) as (st' & Hs & Hb').
  exists st'. split; [|done]. rewrite foldM_app, Hst. cbn. by rewrite Hs.
Qed.

(** A header whose only segment is a bare positive quality value makes the copy
    of the language run over the end of the buffer. *)
Theorem prefer_language_undefined langs seg :
  tokens COMMA (cstr langs) = [seg] → bare_quality seg → (0 < lang_weight seg)%Z →
  prefer_language langs = None.
Proof.
  intros Ht Hq Hw. rewrite prefer_language_fold, Ht. cbn [foldM]. rewrite lang_step_eq.
  cbn [fst]. rewrite (proj2 (Z.ltb_lt _ _)) by done. by rewrite decide_True.
Qed.

(** ** Parameters: correctness *)

(** The parameters of a request behave as a map: a single assignment is read
    back and hides nothing else; assigning an array overrides exactly the keys the
    array has; the default is returned exactly for the names that are absent. *)
Theorem params_spec r ht src name value other def e :
  rq_params r = ZArr ht → hwf src →
  (∃ r', setParam2 r name value e = Some ((true, r'), e) ∧
     getParam r' other def e =
       Some (if bool_decide (other = name) then value
             else default (default ZNull def) (hfind (KStr other) ht), e)) ∧
  (∃ r', setParam1 r (ZArr src) e = Some ((true, r'), e) ∧
     getParam r' other def e =
       Some (match hfind (KStr other) src with
             | Some v => v
             | None => default (default ZNull def) (hfind (KStr other) ht)
             end, e)).
Proof.
  intros Hp Hwf. unfold setParam1, setParam2, getParam, yaf_request_get_param,
    yaf_request_set_params_single, yaf_request_set_params_multi. rewrite Hp. split; st_run.
  - eexists. split; [done|]. cbn -[hfind hupdate hcopy]. st_run. rewrite hfind_hupdate.
    rewrite (bool_decide_ext (KStr other = KStr name) (other = name)) by naive_solver.
    case_bool_decide; [done|]. by destruct (hfind (KStr other) ht), def.
  - eexists. split; [done|]. cbn -[hfind hupdate hcopy]. st_run. rewrite hfind_hcopy by done.
    destruct (hfind (KStr other) src); [done|]. by destruct (hfind (KStr other) ht), def.
Qed.

(** [get] looks a name up in the parameters, then in POST, GET, COOKIE and
    SERVER, in this order, and falls back on the default. *)
Theorem request_get_spec r ht name def e post get cookie server :
  rq_params r = ZArr ht →
  g_post (http e) = ZArr post → g_get (http e) = ZArr get →
  g_cookie (http e) = ZArr cookie → ag_cur (g_server (http e)) = ZArr server →
  request_get r name def e =
    Some (default (default ZNull def)
            (hfind (KStr name) ht ∪ hfind (KStr name) post ∪ hfind (KStr name) get ∪
             hfind (KStr name) cookie ∪ hfind (KStr name) server), e).
Proof.
  intros Hp Hpo Hg Hc Hs. unfold request_get, yaf_request_get_param. rewrite Hp. st_run.
  destruct (hfind (KStr name) ht) as [v|]; st_run; rewrite ?Hpo, ?Hg, ?Hc, ?Hs;
    [by destruct (hfind (KStr name) post), (hfind (KStr name) get), (hfind (KStr name) cookie),
      (hfind (KStr name) server)|].
  unfold find_in. cbn [map].
  destruct (hfind (KStr name) post), (hfind (KStr name) get), (hfind (KStr name) cookie),
    (hfind (KStr name) server), def; done.
Qed.

(** ** Construction: correctness *)

Lemma skip_double_slash_spec n c s :
  c ≠ SLASH → skip_double_slash (SLASH :: replicate n SLASH ++ c :: s) = SLASH :: c :: s.
Proof.
  intros Hc. induction n as [|n IH].
  - cbn. rewrite (proj2 (ceq_false c SLASH)) by done. by rewrite andb_false_r.
  - exact IH.
Qed.

(** The HTTP constructor with a URI and a base URI: the run of slashes the URI
    starts with is reduced to one, the base URI is taken as given, the parameters
    start empty, and the method is the one of the server. *)
Theorem http_instance_spec r n c u base m e :
  c ≠ SLASH → request_method e = Some m → no_nul m →
  yaf_request_http_instance r (Some (SLASH :: replicate n SLASH ++ c :: u)) (Some base) e =
    Some (r <| rq_method := ZStr m |> <| rq_uri := ZStr (SLASH :: c :: u) |>
            <| rq_base_uri := ZStr base |> <| rq_params := ZArr [] |>, e).
Proof.
  intros Hc Hm Hn. unfold yaf_request_http_instance, method_of_sapi. st_run. rewrite Hm.
  unfold yaf_request_set_base_uri. rewrite cstr_no_nul by done.
  rewrite skip_double_slash_spec by done. by st_run.
Qed.

(** An absolute request URI, as a proxy passes it on, is cut down to its path: the
    scheme, login, host, port, query and fragment have no influence on routing; a URL
    without a path settles no URI. *)
Theorem absolute_uri_spec u server e :
  parts_ok u → strncasecmp0 (print_url u) "http" 4 = true → auto_globals_jit (http e) = false →
  ag_cur (g_server (http e)) = ZArr server →
  (∀ s, hfind_str "PATH_INFO" server ≠ Some (ZStr s)) →
  hfind_str "REQUEST_URI" server = Some (ZStr (print_url u)) →
  settled_uri_of_server e = Some (p_path u, e).
Proof.
  intros Hu Hhttp Hjit Hs Hp Hr. unfold settled_uri_of_server.
  assert (Hq : ∀ name, yaf_request_query_str YAF_GLOBAL_VARS_SERVER name e = Some (hfind (KStr name) server, e)).
  { intros name. unfold yaf_request_query_ex, carrier_of. st_run. rewrite Hjit. st_run. by rewrite Hs. }
  rewrite (bind_runs _ _ _ _ _ (Hq _)).
  destruct (hfind_str "PATH_INFO" server) as [v|]; [destruct v; try (by edestruct Hp)|];
    rewrite (bind_runs _ _ _ _ _ (Hq _)), Hr; unfold settle_request_uri; rewrite Hhttp, (parse_print _ Hu); done.
Qed.

(** The command-line constructor looks for the first argument
    [request_uri=URI].  It drops the first byte of the URI, and reads past the end
    of the argument when the URI is empty. *)
Theorem argv_query_spec before i uri after :
  Forall (λ kv, match kv.2 with
                | ZStr s => strncasecmp0 s YAF_REQUEST_SERVER_URI (length YAF_REQUEST_SERVER_URI) = false
                | _ => True
                end) before →
  argv_query (before ++ (i, ZStr (YAF_REQUEST_SERVER_URI ++ uri)) :: after) =
    match uri with [] => None | _ :: uri' => Some (Some (cstr uri')) end.
Proof.
  intros Hb. induction Hb as [|[k v] before Hv _ IH].
  - assert (Hm := strncasecmp0_app YAF_REQUEST_SERVER_URI uri ltac:(decided)).
    change (argv_query ([] ++ ?l)) with (argv_query l). cbn -[strncasecmp0 YAF_REQUEST_SERVER_URI].
    rewrite Hm. destruct uri as [|c uri]; [done|].
    rewrite bool_decide_false by (rewrite length_app; simpl; lia). done.
  - destruct v; try exact IH. cbn -[strncasecmp0 length YAF_REQUEST_SERVER_URI] in Hv |- *.
    by rewrite Hv.
Qed.

End with_runtime.

(** ** Examples *)

(** Reads the two weights that the example has. *)
Definition weights_runtime : Runtime :=
  {| rt_double_to_str := λ _, "0"; rt_object_to_str := λ _ _, "";
     rt_instanceof := λ c d, bool_decide (c = d); rt_pcre_match := λ _ _, Some [];
     rt_strtof := λ s, if is_prefix "0.5" s then (2 ^ 148)%Z else 0%Z |}.

Lemma prefer_language_best_witness :
  ∃ st, @best_of weights_runtime ["de;q=0.5"; " en"; "fr"] st ∧
    @prefer_language weights_runtime "de;q=0.5, en,fr" = Some st.2.
Proof.
  apply (@prefer_language_best weights_runtime "de;q=0.5, en,fr"). decided.
Defined.

Lemma prefer_language_undefined_witness : @prefer_language weights_runtime "q=0.5" = None.
Proof. apply (@prefer_language_undefined weights_runtime "q=0.5" "q=0.5"); by vm_compute. Defined.

Lemma params_spec_witness :
  (∃ r', setParam2 (sample_request [] []) "k" (ZLong 1) (start_engine [] [] []) =
     Some ((true, r'), start_engine [] [] []) ∧
     getParam r' "k" None (start_engine [] [] []) = Some (ZLong 1, start_engine [] [] [])) ∧
  (∃ r', setParam1 (sample_request [] []) (ZArr [(KStr "a", ZLong 2)]) (start_engine [] [] []) =
     Some ((true, r'), start_engine [] [] []) ∧
     getParam r' "k" None (start_engine [] [] []) = Some (ZNull, start_engine [] [] [])).
Proof.
  apply (params_spec (sample_request [] []) [] [(KStr "a", ZLong 2)] "k" (ZLong 1) "k" None
           (start_engine [] [] [])); [done|decided].
Defined.

Lemma request_get_spec_witness :
  request_get (sample_request [] []) "k" None (start_engine [] [(KStr "k", ZLong 1)] [(KStr "k", ZLong 2)])
    = Some (ZLong 1, start_engine [] [(KStr "k", ZLong 1)] [(KStr "k", ZLong 2)]).
Proof.
  by rewrite (request_get_spec (sample_request [] []) [] "k" None
             (start_engine [] [(KStr "k", ZLong 1)] [(KStr "k", ZLong 2)]) [] [(KStr "k", ZLong 1)] []
             [(KStr "k", ZLong 2)]).
Defined.

Lemma http_instance_spec_witness :
  yaf_request_http_instance request_init (Some ("///x" : zstr)) (Some ("/b" : zstr))
    (start_engine [] [] []) =
  Some ((sample_request "/b" "/x") <| rq_method := ZStr "GET" |>, start_engine [] [] []).
Proof.
  etransitivity; [apply (http_instance_spec request_init 2 "x"%char "" "/b" "GET"
             (start_engine [] [] [])); first [by vm_compute | decided]|by vm_compute].
Defined.

Definition proxied_engine : engine :=
  start_engine [] [] [(KStr "REQUEST_URI", ZStr (print_url demo_url))].

Lemma absolute_uri_spec_witness :
  settled_uri_of_server (proxied_engine <| http := (http proxied_engine) <| auto_globals_jit := false |> |>) =
  Some (Some ("/index/x" : zstr), proxied_engine <| http := (http proxied_engine) <| auto_globals_jit := false |> |>).
Proof.
  apply (absolute_uri_spec demo_url [(KStr "REQUEST_URI", ZStr (print_url demo_url))]); try (by vm_compute).
  exact demo_url_ok.
Defined.

Lemma argv_query_spec_witness :
  argv_query [(KIdx 0, ZStr "index.php"); (KIdx 1, ZStr "request_uri=/news")] = Some (Some ("news" : zstr)).
Proof.
  apply (argv_query_spec [(KIdx 0, ZStr "index.php")] (KIdx 1) "/news" []).
  repeat constructor; by vm_compute.
Defined.
