(* ===== verification/QueryText.v ===== *)
(** * Arrays as query strings

    What [http_build_query] writes, [php_default_treat_data] reads: the same array, nested
    as deep as the settings allow; and what the request then finds of it. *)

From S2P Require Import Prelude Zend Numeric UrlCode Query Engine Request.

Open Scope zs_scope.

(** ** Arrays that can be written *)

Definition key_text (k : hkey) : zstr := match k with KStr s => s | KIdx n => dec_of_Z n end.

(** A key that is read as it is written: an integer, or a string that stands for none,
    without NUL and without what ends a key; at the top blanks and dots become
    underscores, and a single blank in brackets counts as no key. *)
Definition key_ok (stop : zstr) (k : hkey) : Prop :=
  match k with
  | KIdx n => (- 2 ^ 63 ≤ n < 2 ^ 63)%Z
  | KStr s => s ≠ [] ∧ zend_handle_numeric_str s = None ∧ Forall (λ c, c ∉ NUL :: stop) s
  end.
Definition top_key (k : hkey) : Prop := key_ok [" "%char; "."%char; LBRACKET] k.
Definition inner_key (k : hkey) : Prop := key_ok [RBRACKET] k ∧ match k with KStr [c] => is_space c = false | _ => True end.

(** Strings and arrays of them that are not empty, nested at most [d] deep. *)
Fixpoint value_ok (d : nat) (v : zval) : Prop :=
  match v, d with
  | ZStr _, _ => True
  | ZArr ht, S d' => ht ≠ [] ∧ hwf ht ∧ Forall (λ kv, inner_key kv.1 ∧ value_ok d' kv.2) ht
  | _, _ => False
  end.
Definition array_ok (d : nat) (ht : htab zval) : Prop := hwf ht ∧ Forall (λ kv, top_key kv.1 ∧ value_ok d kv.2) ht.

(** The strings with the keys that lead to them. *)
Fixpoint paths (v : zval) : list (list hkey * zstr) :=
  match v with
  | ZStr s => [([], s)]
  | ZArr ht => flat_map (λ kv, map (λ p, (kv.1 :: p.1, p.2)) (paths kv.2)) ht
  | _ => []
  end.
Definition bucket_paths (kv : hkey * zval) : list (list hkey * zstr) := map (λ p, (kv.1 :: p.1, p.2)) (paths kv.2).
Definition table_paths (ht : htab zval) : list (list hkey * zstr) := flat_map bucket_paths ht.

Lemma value_ok_ind (P : nat → zval → Prop) :
  (∀ d s, P d (ZStr s)) →
  (∀ d ht, ht ≠ [] → hwf ht → Forall (λ kv, inner_key kv.1 ∧ value_ok d kv.2 ∧ P d kv.2) ht → P (S d) (ZArr ht)) →
  ∀ d v, value_ok d v → P d v.
Proof.
  intros Hstr Harr. induction d as [|d IH]; intros v Hv; destruct v; try done; [apply Hstr..|].
  destruct Hv as (Hne & Hwf & Hall). apply Harr; [done..|]. eapply Forall_impl; [exact Hall|]. cbn. intros kv [? ?]. auto.
Qed.

(** ** Writing *)

Section writing.
Context `{Runtime} (enc : enc_type).

Abbreviation key_code := (key_code enc []).

Definition bracketed (f : hkey → zstr) (opening closing : zstr) (ks : list hkey) : zstr :=
  mjoin (map (λ k, opening ++ f k ++ closing) ks).
Definition path_code (ks : list hkey) : zstr :=
  match ks with k :: ks' => key_code k ++ bracketed key_code "%5B" "%5D" ks' | [] => [] end.
Definition pair_code (p : list hkey * zstr) : zstr := path_code p.1 ++ EQUALS :: encode enc p.2.

Definition add_pair (formstr : option zstr) (w : zstr) : option zstr :=
  Some (match formstr with Some t => t ++ AMPERSAND :: w | None => w end).

Lemma encode_bucket_ok d v : value_ok d v → ∀ prefix suffix k f,
  encode_bucket enc [AMPERSAND] [] prefix suffix k v f =
    Some (foldl add_pair f (map (λ p, prefix ++ key_code k ++ suffix ++ bracketed key_code "%5B" "%5D" p.1 ++ EQUALS :: encode enc p.2)
                              (paths v))).
Proof.
  revert d v. apply (value_ok_ind (λ d v, ∀ prefix suffix k f, _)).
  - intros _ s prefix suffix k f. cbn. unfold append, add_pair. do 2 f_equal. destruct f; cbn; [by rewrite <-!(assoc_L (++))|done].
  - intros d ht _ _ Hall prefix suffix k f. cbn [encode_bucket paths]. revert f. induction Hall as [|[k' v] ht (_ & _ & IHv) _ IH]; intros f; [done|].
    cbn [flat_map fst snd]. rewrite map_app, foldl_app, IHv, IH. do 3 f_equal. rewrite map_map. apply map_ext. intros [p s]. cbn [fst snd].
    change (bracketed key_code "%5B" "%5D" (k' :: p)) with (("%5B" ++ key_code k' ++ "%5D") ++ bracketed key_code "%5B" "%5D" p).
    by rewrite <-!(assoc_L (++)).
Qed.

Lemma encode_hash_ok d ht f : Forall (λ kv, value_ok d kv.2) ht →
  php_url_encode_hash_ex enc [AMPERSAND] [] [] [] ht f = Some (foldl add_pair f (map pair_code (table_paths ht))).
Proof.
  intros Hall. revert f. induction Hall as [|[k v] ht Hv _ IH]; intros f; [done|]. cbn [php_url_encode_hash_ex].
  rewrite (encode_bucket_ok d) by done. rewrite IH. unfold table_paths. cbn [flat_map]. rewrite map_app, foldl_app. do 3 f_equal.
  unfold bucket_paths. cbn [fst snd]. rewrite map_map. apply map_ext. intros [p s]. unfold pair_code. cbn. by rewrite <-(assoc_L (++)).
Qed.

Lemma add_pairs ws f : foldl add_pair (Some f) ws = Some (join AMPERSAND (f :: ws)).
Proof.
  revert f. induction ws as [|w ws IH]; intros f; [done|]. cbn [foldl]. unfold add_pair at 2. rewrite IH. f_equal.
  destruct ws as [|w' ws]; cbn [join]; [done|]. by rewrite <-(assoc_L (++)).
Qed.

Lemma build_ok d ht : Forall (λ kv, value_ok d kv.2) ht →
  http_build_query enc [AMPERSAND] ht [] = Some (join AMPERSAND (map pair_code (table_paths ht))).
Proof.
  intros Hall. unfold http_build_query. rewrite (encode_hash_ok d) by done. cbn [fmap option_fmap option_map]. f_equal.
  destruct (map pair_code _) as [|w ws]; [done|]. cbn [foldl]. unfold add_pair at 2. by rewrite add_pairs.
Qed.

(** ** Bytes of the codes *)

Lemma encode_decoded s t : php_url_decode (encode enc s ++ t) = s ++ php_url_decode t.
Proof. unfold encode. destruct enc; [apply form_decoded|apply raw_decoded]. Qed.

Lemma encode_chars s : Forall (λ c, url_char c = true) (encode enc s).
Proof.
  apply Forall_forall. intros c Hc. apply (url_chars s). unfold encode in Hc. destruct enc; auto.
Qed.

Lemma plain_decoded s t : Forall (λ c, c ≠ PERCENT ∧ c ≠ "+"%char) s → php_url_decode (s ++ t) = s ++ php_url_decode t.
Proof.
  unfold php_url_decode. induction 1 as [|c s [H1 H2] _ IH]; [done|]. cbn [app Datatypes.app url_decode].
  rewrite (proj2 (ceq_false c _) H1), (proj2 (ceq_false c _) H2). cbn [andb]. by rewrite IH.
Qed.

Lemma dec_char_facts c : is_digit c = true ∨ c = MINUS →
  url_char c = true ∧ c ∉ [PERCENT; "+"%char; NUL; " "%char; "."%char; LBRACKET; RBRACKET].
Proof.
  intros Hc. assert (Hb : is_digit c || ceq c MINUS = true) by (destruct Hc as [->| ->]; [done|by rewrite orb_true_r]). clear Hc.
  assert (Hall : url_char c && negb (existsb (ceq c) [PERCENT; "+"%char; NUL; " "%char; "."%char; LBRACKET; RBRACKET]) = true).
  { revert Hb. by destruct c as [[] [] [] [] [] [] [] []]; vm_compute. }
  apply andb_true_iff in Hall as [-> Hall%negb_true_iff]. split; [done|]. intros Hin. apply not_true_iff_false in Hall. apply Hall.
  apply existsb_exists. exists c. split; [by apply list_elem_of_In|apply ceq_refl].
Qed.

Lemma key_code_decoded k t : php_url_decode (key_code k ++ t) = key_text k ++ php_url_decode t.
Proof.
  destruct k as [s|n]; cbn [Query.key_code key_text]; [apply encode_decoded|]. apply plain_decoded.
  eapply Forall_impl; [apply dec_chars|]. intros c [_ Hc]%dec_char_facts. set_solver.
Qed.

Lemma brackets_decoded ks t :
  php_url_decode (bracketed key_code "%5B" "%5D" ks ++ t) = bracketed key_text "[" "]" ks ++ php_url_decode t.
Proof.
  assert (Hcode : ∀ x y, php_url_decode ("%5B" ++ x) = "[" ++ php_url_decode x ∧ php_url_decode ("%5D" ++ y) = "]" ++ php_url_decode y) by done.
  unfold bracketed. induction ks as [|k ks IH]; [done|]. cbn [map].
  change (mjoin (?a :: ?b)) with (a ++ mjoin b). rewrite <-!(assoc_L (++)). rewrite (proj1 (Hcode _ [])), key_code_decoded, (proj2 (Hcode [] _)), IH.
  done.
Qed.

(** What is written for the keys is read as the name with brackets. *)
Definition path_name (ks : list hkey) : zstr :=
  match ks with k :: ks' => key_text k ++ bracketed key_text "[" "]" ks' | [] => [] end.

Lemma path_decoded ks : php_url_decode (path_code ks) = path_name ks.
Proof.
  destruct ks as [|k ks]; [done|]. cbn [path_code path_name]. rewrite key_code_decoded. f_equal.
  rewrite <-(app_nil_r (bracketed key_code _ _ ks)), brackets_decoded. apply app_nil_r.
Qed.

Lemma key_code_chars k : Forall (λ c, url_char c = true) (key_code k).
Proof.
  destruct k as [s|n]; [apply encode_chars|]. eapply Forall_impl; [apply dec_chars|]. by intros c [? _]%dec_char_facts.
Qed.

Lemma path_code_chars ks : Forall (λ c, url_char c = true) (path_code ks).
Proof.
  assert (Hb : ∀ ks, Forall (λ c, url_char c = true) (bracketed key_code "%5B" "%5D" ks)).
  { unfold bracketed. induction ks0 as [|k ks0 IH]; [constructor|]. cbn [map]. change (mjoin (?a :: ?b)) with (a ++ mjoin b).
    rewrite !Forall_app. split_and!; [decided|apply key_code_chars|decided|exact IH]. }
  destruct ks as [|k ks]; [constructor|]. apply Forall_app. split; [apply key_code_chars|apply Hb].
Qed.

Lemma pair_decoded p : query_pair (pair_code p) = (path_name p.1, p.2).
Proof.
  unfold query_pair, pair_code. rewrite break_at; [|eapply Forall_impl; [apply path_code_chars|]|by apply ceq_refl].
  - rewrite path_decoded. f_equal. rewrite <-(app_nil_r (encode enc p.2)), encode_decoded. apply app_nil_r.
  - intros c Hc. apply ceq_false. intros <-. by vm_compute in Hc.
Qed.

Lemma pair_code_token p : nonempty (pair_code p) ∧ free_of AMPERSAND (pair_code p) ∧ no_nul (pair_code p).
Proof.
  assert (Hall : Forall (λ c, c ≠ AMPERSAND ∧ c ≠ NUL) (pair_code p)).
  { unfold pair_code. apply Forall_app. split; [|apply Forall_cons; split; [done|]].
    - eapply Forall_impl; [apply path_code_chars|]. intros c Hc. split; intros ->; by vm_compute in Hc.
    - eapply Forall_impl; [apply encode_chars|]. intros c Hc. split; intros ->; by vm_compute in Hc. }
  split_and!.
  - unfold nonempty, pair_code. by destruct (path_code p.1).
  - eapply Forall_impl; [exact Hall|]. intros c [Hc _]. apply ceq_false. congruence.
  - eapply Forall_impl; [exact Hall|]. by intros c [_ Hc].
Qed.
End writing.

(** ** Storing along a path *)

Definition sub_table (k : hkey) (ht : htab zval) : htab zval := match hfind k ht with Some (ZArr sub) => sub | _ => [] end.

(** The value under nested keys, arrays made where they are missing. *)
Fixpoint put (k : hkey) (ks : list hkey) (v : zval) (ht : htab zval) : htab zval :=
  hupdate k (match ks with [] => v | k' :: ks' => ZArr (put k' ks' v (sub_table k ht)) end) ht.
Definition put_path (ht : htab zval) (p : list hkey * zstr) : htab zval :=
  match p.1 with k :: ks => put k ks (ZStr p.2) ht | [] => ht end.

Lemma key_text_key stop k : key_ok stop k → symtable_key (key_text k) = k.
Proof.
  unfold symtable_key. destruct k as [s|n]; cbn [key_ok key_text]; [by intros (_ & -> & _)|].
  intros Hn. by rewrite numeric_complete.
Qed.

Lemma key_text_chars stop k : key_ok stop k → (∀ c, c ∈ stop → c ∈ [" "%char; "."%char; LBRACKET; RBRACKET]) →
  key_text k ≠ [] ∧ Forall (λ c, c ∉ NUL :: stop) (key_text k).
Proof.
  intros Hk Hstop. destruct k as [s|n]; [split; apply Hk|]. cbn [key_text]. split.
  - intros E. assert (Hnum := numeric_complete n Hk). by rewrite E in Hnum.
  - eapply Forall_impl; [apply dec_chars|]. intros c [_ Hc]%dec_char_facts [->|Hin]%elem_of_cons; [set_solver|].
    apply Hstop in Hin. set_solver.
Qed.

Lemma next_bracket_key k rest : inner_key k → next_bracket (key_text k ++ "]" ++ rest) = Some (Some (key_text k), rest).
Proof.
  intros [Hk Hone]. destruct (key_text_chars _ _ Hk) as [Hne Hchars]; [set_solver|].
  assert (Hfree : Forall (λ c, ceq RBRACKET c = false) (key_text k)).
  { eapply Forall_impl; [exact Hchars|]. intros c Hc. apply ceq_false. set_solver. }
  assert (Hblank : ∀ c, key_text k = [c] → is_space c = false).
  { destruct k as [s|n]; cbn [key_text]; [intros c ->; done|]. intros c E. pose proof (dec_chars n) as Hd. rewrite E in Hd.
    apply Forall_cons in Hd as [[Hd|Hd] _]; [|by subst c]. revert Hd. by destruct c as [[] [] [] [] [] [] [] []]. }
  destruct (key_text k) as [|c s] eqn:E; [done|]. apply Forall_cons in Hfree as [Hc Hs]. unfold next_bracket.
  assert (Hbreak : ∀ w, Forall (λ c, ceq RBRACKET c = false) w → break (ceq RBRACKET) (w ++ RBRACKET :: rest) = (w, RBRACKET :: rest)).
  { intros w Hw. apply break_at; [done|apply ceq_refl]. }
  assert (Hnot : ∀ d, ceq RBRACKET d = false → ceq d RBRACKET = false) by (intros d ?%ceq_false; apply ceq_false; congruence).
  pose proof (Hbreak (c :: s) (Forall_cons_2 _ _ _ Hc Hs)) as Hall.
  change ((c :: s) ++ "]" ++ rest) with (c :: s ++ RBRACKET :: rest). change ((c :: s) ++ RBRACKET :: rest) with (c :: s ++ RBRACKET :: rest) in Hall.
  cbv beta iota. rewrite Hall. cbn [fst]. destruct (is_space c) eqn:Hsp.
  - destruct s as [|d s]; [by rewrite Hblank in Hsp|]. pose proof (Hbreak (d :: s) Hs) as Hrest. apply Forall_cons in Hs as [Hd _].
    change ((d :: s) ++ RBRACKET :: rest) with (d :: s ++ RBRACKET :: rest) in *. cbv beta iota. by rewrite (Hnot d Hd), Hrest.
  - by rewrite (Hnot c Hc), Hall.
Qed.

Section storing.
Context (settings : input_settings).

Lemma place_path t val : ∀ ks fuel lvl top index ht,
  Forall inner_key ks → ks ≠ [] → length (bracketed key_text "[" "]" ks) ≤ fuel →
  (lvl + Z.of_nat (length ks) ≤ max_input_nesting_level settings)%Z →
  place settings fuel t lvl top (Some index) (tail (bracketed key_text "[" "]" ks)) val ht =
    Some (put (symtable_key index) ks val ht).
Proof.
  intros ks. induction ks as [|k ks IH]; intros fuel lvl top index ht; [done|]. intros [Hk Hks]%Forall_cons _ Hf Hl.
  change (bracketed key_text "[" "]" (k :: ks)) with (("[" ++ key_text k ++ "]") ++ bracketed key_text "[" "]" ks) in *.
  cbn [length] in Hl. destruct fuel as [|fuel]; [cbn in Hf; lia|]. cbn [place].
  replace (_ <? _)%Z with false by (symmetry; apply Z.ltb_ge; lia).
  change (tail ((?a ++ ?b) ++ ?c)) with ((key_text k ++ "]") ++ c). rewrite <-(assoc_L (++)), next_bracket_key by done.
  cbn [enter_index]. fold (sub_table (symtable_key index) ht).
  assert (Hsk : symtable_key (key_text k) = k) by (eapply key_text_key, (proj1 Hk)).
  assert (Hend : ∀ sub, plain_var t false (Some (key_text k)) val sub = put k [] val sub).
  { intros sub. unfold plain_var. by rewrite andb_false_r, Hsk. }
  destruct ks as [|k' ks].
  - cbn [bracketed map]. change (mjoin []) with (@nil ascii). by rewrite Hend.
  - specialize (IH fuel (lvl + 1)%Z false (key_text k) (sub_table (symtable_key index) ht) Hks ltac:(done)).
    rewrite Hsk in IH. revert IH. rewrite !length_app in Hf. cbn [length] in Hf.
    destruct (bracketed key_text "[" "]" (k' :: ks)) as [|c s] eqn:Eb; [by apply (f_equal (@length _)) in Eb|].
    assert (c = LBRACKET) as -> by (change (bracketed key_text "[" "]" (k' :: ks)) with
      (LBRACKET :: (key_text k' ++ "]") ++ bracketed key_text "[" "]" ks) in Eb; congruence).
    cbn [tail length]. rewrite ceq_refl. intros IH. rewrite IH by (cbn [length] in *; lia). done.
Qed.

Lemma register_value t k ks v ht : is_scope t = false → is_globals t = false → is_cookie t = false →
  top_key k → Forall inner_key ks → (Z.of_nat (length ks) ≤ max_input_nesting_level settings)%Z →
  php_register_variable_ex settings t (path_name (k :: ks)) v ht = (put k ks v ht, []).
Proof.
  intros Hsc Hgl Hck Hk Hin Hl.
  destruct (key_text_chars _ _ Hk) as [Hne Hchars]; [set_solver|]. unfold php_register_variable_ex, path_name.
  assert (Hnul : no_nul (key_text k ++ bracketed key_text "[" "]" ks)).
  { apply Forall_app. split; [eapply Forall_impl; [exact Hchars|]; set_solver|]. unfold bracketed. clear -Hin.
    induction Hin as [|k' ks [Hk' _] _ IH]; [constructor|]. cbn [map]. change (mjoin (?a :: ?b)) with (a ++ mjoin b).
    destruct (key_text_chars _ _ Hk') as [_ Hc]; [set_solver|].
    rewrite !Forall_app. split_and!; [decided|eapply Forall_impl; [exact Hc|]; set_solver|decided|exact IH]. }
  rewrite cstr_no_nul by done.
  assert (Hdrop : ∀ x, drop_while (ceq " "%char) (key_text k ++ x) = key_text k ++ x).
  { intros x. destruct (key_text k) as [|c w]; [done|]. apply Forall_cons in Hchars as [Hc _]. apply drop_while_false, ceq_false. set_solver. }
  rewrite Hdrop. assert (Hb : break (ceq LBRACKET) (key_text k ++ bracketed key_text "[" "]" ks) = (key_text k, bracketed key_text "[" "]" ks)).
  { assert (Hfree : Forall (λ c, ceq LBRACKET c = false) (key_text k)) by (eapply Forall_impl; [exact Hchars|]; intros c Hc; apply ceq_false; set_solver).
    destruct ks as [|k' ks]; [change (bracketed key_text "[" "]" []) with (@nil ascii); rewrite app_nil_r; by apply break_none|].
    apply break_at; [done|apply ceq_refl]. }
  rewrite Hb. assert (Hmap : map (λ c, if ceq c " " || ceq c "." then "_"%char else c) (key_text k) = key_text k).
  { rewrite <-(map_id (key_text k)) at 2. apply map_ext_Forall. eapply Forall_impl; [exact Hchars|]. intros c Hc.
    rewrite !(proj2 (ceq_false c _)); [done|set_solver..]. }
  rewrite Hmap, bool_decide_false, Hsc, Hgl by done. cbn [andb]. assert (Hsk : symtable_key (key_text k) = k) by (by eapply key_text_key).
  destruct ks as [|k' ks].
  - change (bracketed key_text "[" "]" []) with (@nil ascii). unfold plain_var. by rewrite Hck, Hsk.
  - pose proof (place_path t v (k' :: ks) (S (length (tail (bracketed key_text "[" "]" (k' :: ks))))) 0 true (key_text k) ht
      Hin ltac:(done)) as Hp. rewrite Hsk in Hp.
    change (bracketed key_text "[" "]" (k' :: ks)) with (LBRACKET :: (key_text k' ++ "]") ++ bracketed key_text "[" "]" ks) in *.
    cbn [tail] in Hp. cbv beta iota. rewrite Hp; [done|cbn [length]; lia|lia].
Qed.

Lemma register_path t ks s ht : ks ≠ [] → is_scope t = false → is_globals t = false → is_cookie t = false →
  (∀ k ks', ks = k :: ks' → top_key k ∧ Forall inner_key ks' ∧ (Z.of_nat (length ks') ≤ max_input_nesting_level settings)%Z) →
  php_register_variable_safe settings t (path_name ks) s ht = (put_path ht (ks, s), []).
Proof.
  intros Hne Hsc Hgl Hck Hks. destruct ks as [|k ks]; [done|]. destruct (Hks k ks eq_refl) as (Hk & Hin & Hl).
  by apply register_value.
Qed.
End storing.

(** ** Storing every string again *)

Lemma hupdate_twice {A} k (v w : A) ht : hupdate k w (hupdate k v ht) = hupdate k w ht.
Proof.
  induction ht as [|[k' v'] ht IH]; cbn [hupdate]; [by rewrite bool_decide_true|].
  case_bool_decide; cbn [hupdate]; [by rewrite bool_decide_true|]. by rewrite bool_decide_false, IH by done.
Qed.

(** The strings of an array under a key, stored one after the other. *)
Lemma put_below k l : ∀ d, l ≠ [] → Forall (λ p : list hkey * zstr, p.1 ≠ []) l →
  foldl put_path d (map (λ p, (k :: p.1, p.2)) l) = hupdate k (ZArr (foldl put_path (sub_table k d) l)) d.
Proof.
  assert (Hone : ∀ p d, p.1 ≠ [] → put_path d (k :: p.1, p.2) = hupdate k (ZArr (put_path (sub_table k d) p)) d).
  { intros [[|k' ks] s] d Hp; [done|]. reflexivity. }
  induction l as [|p l IH]; intros d; [done|]. intros _ [Hp Hl]%Forall_cons. cbn [map foldl]. rewrite Hone by done.
  destruct l as [|p' l]; [done|]. rewrite IH by done. rewrite hupdate_twice. unfold sub_table at 1. by rewrite hfind_hupdate_eq.
Qed.

Lemma paths_nonempty d v : value_ok d v → paths v ≠ [].
Proof.
  revert d v. apply (value_ok_ind (λ _ v, paths v ≠ [])); [done|]. intros d ht Hne _ Hall.
  destruct Hall as [|[k v] ht (_ & _ & Hv) _]; [done|]. cbn [paths flat_map fst snd] in *. by destruct (paths v).
Qed.

Lemma table_paths_keys ht : Forall (λ p, p.1 ≠ []) (table_paths ht).
Proof.
  unfold table_paths. induction ht as [|[k v] ht IH]; [constructor|]. cbn [flat_map]. apply Forall_app. split; [|exact IH].
  unfold bucket_paths. cbn [fst snd]. clear. induction (paths v) as [|p l IHl]; constructor; done.
Qed.

Lemma put_table d ht : hwf (d ++ ht) →
  Forall (λ kv, match kv.2 with ZStr _ => True | ZArr sub => table_paths sub ≠ [] ∧ foldl put_path [] (table_paths sub) = sub | _ => False end) ht →
  foldl put_path d (table_paths ht) = d ++ ht.
Proof.
  intros Hwf Hall. revert d Hwf. induction Hall as [|[k v] ht Hv _ IH]; intros d Hwf; [by rewrite app_nil_r|].
  unfold table_paths. cbn [flat_map]. rewrite foldl_app. fold (table_paths ht).
  assert (Hk : k ∉ hkeys d).
  { unfold hwf, hkeys in Hwf. rewrite fmap_app in Hwf. apply NoDup_app in Hwf as (_ & Hd & _). intros Hin. apply (Hd k Hin). by left. }
  assert (Hb : foldl put_path d (bucket_paths (k, v)) = d ++ [(k, v)]).
  { unfold bucket_paths. cbn [fst snd] in *. destruct v as [| | | |s|sub|]; try done.
    - cbn. by rewrite hupdate_new.
    - destruct Hv as [Hne Hsub]. change (paths (ZArr sub)) with (table_paths sub). rewrite put_below by (done || apply table_paths_keys).
      unfold sub_table. rewrite (proj2 (hfind_None k d) Hk), Hsub. by rewrite hupdate_new. }
  rewrite Hb, IH; by rewrite <-(assoc_L (++)).
Qed.

Lemma value_stored d v : value_ok d v →
  match v with ZStr _ => True | ZArr sub => table_paths sub ≠ [] ∧ foldl put_path [] (table_paths sub) = sub | _ => False end.
Proof.
  intros Hv. assert (Hp := paths_nonempty d v Hv). revert Hp. revert d v Hv.
  apply (value_ok_ind (λ _ v, paths v ≠ [] → _)); [done|]. intros d ht Hne Hwf Hall Hp. split; [exact Hp|].
  apply put_table; [done|]. eapply Forall_impl; [exact Hall|]. intros kv (_ & Hv & Hst). apply Hst. by eapply paths_nonempty.
Qed.

Lemma table_stored d ht : array_ok d ht → foldl put_path [] (table_paths ht) = ht.
Proof.
  intros [Hwf Hall]. apply put_table; [done|]. eapply Forall_impl; [exact Hall|]. intros kv [_ Hv]. exact (value_stored d kv.2 Hv).
Qed.

(** ** Reading *)

Section reading.
Context `{Runtime} (settings : input_settings) (enc : enc_type).

Definition path_ok (p : list hkey * zstr) : Prop :=
  match p.1 with
  | k :: ks => top_key k ∧ Forall inner_key ks ∧ (Z.of_nat (length ks) ≤ max_input_nesting_level settings)%Z
  | [] => False
  end.

Lemma treat_paths arg t : is_scope t = false → is_globals t = false → is_cookie t = false → arg ≠ PARSE_COOKIE →
  ∀ l fuel o count ht, olen o < fuel → otokens AMPERSAND o = map (pair_code enc) l → Forall path_ok l →
  (count + Z.of_nat (length l) ≤ max_input_vars settings)%Z →
  treat_loop settings fuel arg t AMPERSAND (php_strtok_r o AMPERSAND) count ht = (foldl put_path ht l, []).
Proof.
  intros Hsc Hgl Hck Harg. induction l as [|p l IH]; intros fuel o count ht Hf Ho Hl Hc; (destruct fuel as [|fuel]; [lia|]);
    pose proof (strtok_spec AMPERSAND o) as Hs; rewrite Ho in Hs; cbn [map] in Hs.
  { rewrite Hs. done. }
  destruct Hs as (o' & -> & Ho' & Hlen). cbn [treat_loop]. apply Forall_cons in Hl as [Hp Hl].
  assert (Harg' : match arg with PARSE_COOKIE => cookie_name (pair_code enc p) | _ => Some (pair_code enc p) end = Some (pair_code enc p)) by (by destruct arg).
  rewrite Harg'. cbn [length] in Hc. replace (_ <? _)%Z with false by (symmetry; apply Z.ltb_ge; lia).
  rewrite pair_decoded. unfold path_ok in Hp. destruct p as [[|k ks] s]; [done|]. cbn [fst snd] in *.
  rewrite register_path; [|done..|by intros k' ks' [= <- <-]]. rewrite (IH fuel o' (count + 1)%Z); [|lia|done|done|lia]. done.
Qed.

Lemma value_paths d v : value_ok d v → (Z.of_nat d ≤ max_input_nesting_level settings)%Z →
  Forall (λ p, Forall inner_key p.1 ∧ (Z.of_nat (length p.1) ≤ Z.of_nat d)%Z) (paths v).
Proof.
  intros Hv. assert (Hall : Forall (λ p, Forall inner_key p.1 ∧ length p.1 ≤ d) (paths v)).
  { revert d v Hv. apply (value_ok_ind (λ d v, Forall (λ p, Forall inner_key p.1 ∧ length p.1 ≤ d) (paths v))).
    - intros d s. repeat constructor. cbn. lia.
    - intros d ht _ _ Hall. cbn [paths]. induction Hall as [|[k v] ht (Hk & _ & Hv) _ IH]; [constructor|]. cbn [flat_map fst snd] in *.
      apply Forall_app. split; [|exact IH]. clear IH. induction Hv as [|p l [Hp Hl] _ IHl]; constructor; [|done].
      cbn [fst length]. split; [by constructor|lia]. }
  intros _. eapply Forall_impl; [exact Hall|]. cbn. intros p [? ?]. split; [done|lia].
Qed.

Lemma table_paths_ok d ht : array_ok d ht → (Z.of_nat d ≤ max_input_nesting_level settings)%Z → Forall path_ok (table_paths ht).
Proof.
  intros [_ Hall] Hd. unfold table_paths. induction Hall as [|[k v] ht [Hk Hv] _ IH]; [constructor|]. cbn [flat_map].
  apply Forall_app. split; [|exact IH]. pose proof (value_paths d v Hv Hd) as Hps. unfold bucket_paths. cbn [fst snd] in *.
  induction Hps as [|p l [Hin Hlen] _ IHl]; constructor; [|done]. unfold path_ok. cbn [fst]. split_and!; [done|done|lia].
Qed.

Lemma query_read d ht : array_ok d ht → (Z.of_nat d ≤ max_input_nesting_level settings)%Z →
  (Z.of_nat (length (table_paths ht)) ≤ max_input_vars settings)%Z → arg_separator settings = AMPERSAND →
  ∃ q, http_build_query enc [AMPERSAND] ht [] = Some q ∧ php_default_treat_data settings PARSE_GET plain_track q [] = (ht, []).
Proof.
  intros Hht Hd Hn Hsep. assert (Hvals : Forall (λ kv, value_ok d kv.2) ht).
  { eapply Forall_impl; [exact (proj2 Hht)|]. by intros kv [_ ?]. }
  eexists. split; [by apply (build_ok enc d)|]. unfold php_default_treat_data. rewrite Hsep.
  set (l := map (pair_code enc) (table_paths ht)).
  assert (Hl : Forall nonempty l ∧ Forall (free_of AMPERSAND) l ∧ no_nul (join AMPERSAND l)).
  { assert (Hall : Forall (λ w, nonempty w ∧ free_of AMPERSAND w ∧ no_nul w) l).
    { apply List.Forall_map, Forall_forall. intros p _. apply pair_code_token. }
    clearbody l. split_and!; [eapply Forall_impl; [exact Hall|]; by intros w (? & _)|eapply Forall_impl; [exact Hall|]; by intros w (_ & ? & _)|].
    induction Hall as [|w l (_ & _ & Hw) Hl IH]; [constructor|]. cbn [join]. destruct l as [|w' l]; [done|].
    apply Forall_app. split; [done|]. apply Forall_cons. split; [done|exact IH]. }
  destruct Hl as (Hne & Hfree & Hnul). rewrite cstr_no_nul by done.
  rewrite (treat_paths PARSE_GET plain_track eq_refl eq_refl eq_refl ltac:(done) (table_paths ht)); [|cbn; lia|by apply tokens_join| |lia].
  - f_equal. by eapply table_stored.
  - by eapply table_paths_ok.
Qed.
End reading.

(** ** The claims *)

(** C23: A query string that is written for an array is read as that array: strings and arrays of
    them under any keys that the syntax can hold, in either encoding, in the same order and
    as deep and as large as the settings allow, without a notice. *)
Theorem query_roundtrip `{Runtime} settings enc d ht :
  array_ok d ht → (Z.of_nat d ≤ max_input_nesting_level settings)%Z →
  (Z.of_nat (length (table_paths ht)) ≤ max_input_vars settings)%Z → arg_separator settings = AMPERSAND →
  ∃ q, http_build_query enc [AMPERSAND] ht [] = Some q ∧ php_default_treat_data settings PARSE_GET plain_track q [] = (ht, []).
Proof. apply query_read. Qed.

Definition demo_table : htab zval :=
  [ (KStr "na-me&", ZStr "a b"); (KIdx (-3), ZStr "=%");
    (KStr "list", ZArr [(KIdx 0, ZStr "x"); (KStr "a.[b", ZArr [(KStr "c", ZStr [])])]) ].

Lemma demo_table_ok : array_ok 2 demo_table.
Proof.
  split; [decided|]. unfold demo_table, top_key, inner_key.
  repeat (apply Forall_cons; split); cbn [fst snd value_ok key_ok]; try (apply Forall_nil_2); split_and!; try done; try decided; try lia.
  repeat (apply Forall_cons; split); cbn [fst snd value_ok key_ok inner_key]; try (apply Forall_nil_2);
    unfold inner_key; cbn [key_ok]; split_and!; try done; try decided; try lia.
  repeat (apply Forall_cons; split); cbn [fst snd]; try (apply Forall_nil_2); unfold inner_key; cbn [key_ok]; split_and!; try done; try decided.
Qed.

Lemma query_roundtrip_witness :
  ∃ q, @http_build_query plain_runtime PHP_QUERY_RFC1738 [AMPERSAND] demo_table [] = Some q ∧
    q = "na-me%26=a+b&-3=%3D%25&list%5B0%5D=x&list%5Ba.%5Bb%5D%5Bc%5D=" ∧
    php_default_treat_data default_input PARSE_GET plain_track q [] = (demo_table, []).
Proof.
  destruct (@query_roundtrip plain_runtime default_input PHP_QUERY_RFC1738 2 demo_table demo_table_ok) as (q & Hq & Hr);
    [cbn; lia|vm_compute; discriminate|reflexivity|].
  exists q. split; [exact Hq|]. split; [|exact Hr]. vm_compute in Hq. by injection Hq as <-.
Defined.

(** C24: From the address to the application: of the array that an address was written for the
    request finds under the name of a parameter its value, whatever its bytes are; but a
    parameter whose name is an integer is stored under the integer, where the request does
    not look for it, and the default is what it gives. *)
Theorem query_reaches_request `{Runtime} settings enc d ht q e k v def :
  array_ok d ht → (Z.of_nat d ≤ max_input_nesting_level settings)%Z →
  (Z.of_nat (length (table_paths ht)) ≤ max_input_vars settings)%Z → arg_separator settings = AMPERSAND →
  http_build_query enc [AMPERSAND] ht [] = Some q →
  g_get (http e) = ZArr (php_default_treat_data settings PARSE_GET plain_track q []).1 → (k, v) ∈ ht →
  request_getter YAF_GLOBAL_VARS_GET (Some (key_text k)) (Some def) e =
    Some (match k with KStr _ => v | KIdx _ => def end, e).
Proof.
  intros Hht Hd Hn Hsep Hq Hget Hin. destruct (query_read settings enc d ht Hht Hd Hn Hsep) as (q' & Hq' & Hr).
  rewrite Hq in Hq'. injection Hq' as <-. rewrite Hr in Hget. cbn [fst] in Hget.
  unfold request_getter. rewrite (bind_query_get _ _ _ ht Hget). destruct Hht as [Hwf Hall].
  assert (Hfind : ∀ ht, hwf ht → (k, v) ∈ ht → hfind k ht = Some v).
  { clear. induction ht as [|[k' v'] ht IH]; [by intros _ ?%elem_of_nil|]. unfold hwf, hkeys. csimpl. intros [Hni Hwf]%NoDup_cons.
    intros [[= <- <-]|Hin]%elem_of_cons; [by rewrite bool_decide_true|]. rewrite bool_decide_false; [by apply IH|].
    intros ->. apply Hni, list_elem_of_fmap. by exists (k', v). }
  destruct k as [s|n]; cbn [key_text]; [by rewrite (Hfind ht)|].
  assert (Hnone : hfind (KStr (dec_of_Z n)) ht = None); [|by rewrite Hnone].
  rewrite Forall_forall in Hall. destruct (Hall _ Hin) as [Hk _]. cbn in Hk.
  apply hfind_None. intros ([k' v'] & Hk' & Hin')%list_elem_of_fmap. cbn in Hk'. subst k'.
  destruct (Hall _ Hin') as [(_ & Hnum & _) _]. by rewrite (numeric_complete n Hk) in Hnum.
Qed.

Lemma query_reaches_request_witness :
  let q := "na-me%26=a+b&-3=%3D%25&list%5B0%5D=x&list%5Ba.%5Bb%5D%5Bc%5D=" : zstr in
  let e := start_engine [] (php_default_treat_data default_input PARSE_GET plain_track q []).1 [] in
  request_getter YAF_GLOBAL_VARS_GET (Some ("na-me&" : zstr)) (Some ZNull) e = Some (ZStr "a b", e) ∧
  request_getter YAF_GLOBAL_VARS_GET (Some ("-3" : zstr)) (Some ZNull) e = Some (ZNull, e).
Proof.
  intros q e. split.
  - refine (@query_reaches_request plain_runtime default_input PHP_QUERY_RFC1738 2 demo_table q e (KStr "na-me&") (ZStr "a b") ZNull
      demo_table_ok _ _ _ _ _ _); [cbn; lia|vm_compute; discriminate|reflexivity|by vm_compute|by vm_compute|by left].
  - refine (@query_reaches_request plain_runtime default_input PHP_QUERY_RFC1738 2 demo_table q e (KIdx (-3)) (ZStr "=%") ZNull
      demo_table_ok _ _ _ _ _ _); [cbn; lia|vm_compute; discriminate|reflexivity|by vm_compute|by vm_compute|right; by left].
Defined.
