(* ===== verification/Multipart.v ===== *)
(** * Bodies of several parts

    [main/rfc1867.c]: the reader of [multipart/form-data], which sees the body through a
    buffer that it fills again and again, takes variables and files from its parts, and
    writes what becomes of a file into [_FILES].  No extension is taken to have set a
    callback for the progress of uploads or a translation of encodings, which are NULL and
    off until one does. *)

From S2P Require Import Prelude Zend Numeric Url UrlCode Query Server.

Open Scope zs_scope.

Definition NEWLINE : ascii := ascii_of_nat 10.
Definition RETURN : ascii := ascii_of_nat 13.
Definition QUOTE : ascii := ascii_of_nat 34.
Definition APOSTROPHE : ascii := ascii_of_nat 39.
Definition BACKSLASH : ascii := ascii_of_nat 92.

(** ** The buffer *)

Definition FILLUNIT : nat := 1024 * 5.

(** [mb_data] are the bytes from [buf_begin] on, [mb_input] what the calls of
    [sapi_module.read_post] have not given yet: a call gives one of them, or as much of it as
    there is room for, and an empty one is the end. *)
Record multipart_buffer := MultipartBuffer {
  mb_bufsize : nat;
  mb_data : zstr;
  mb_input : list zstr;
  mb_boundary : zstr;
  mb_boundary_next : zstr;
}.
#[export] Instance multipart_buffer_rebuild : Rebuild multipart_buffer := λ b,
  MultipartBuffer (mb_bufsize b) (mb_data b) (mb_input b) (mb_boundary b) (mb_boundary_next b).

(** The loop of [fill_buffer]: what is read, and what is left. *)
Fixpoint read_post (bytes_to_read : nat) (input : list zstr) : zstr * list zstr :=
  match bytes_to_read, input with
  | 0, _ => ([], input)
  | _, [] => ([], [])
  | _, [] :: input' => ([], input')
  | _, chunk :: input' =>
      if bool_decide (length chunk ≤ bytes_to_read) then
        let '(data, rest) := read_post (bytes_to_read - length chunk) input' in (chunk ++ data, rest)
      else (take bytes_to_read chunk, drop bytes_to_read chunk :: input')
  end.

Definition fill_buffer (self : multipart_buffer) : multipart_buffer :=
  let '(data, input) := read_post (mb_bufsize self - length (mb_data self)) (mb_input self) in
  self <| mb_data := mb_data self ++ data |> <| mb_input := input |>.

Definition multipart_buffer_eof (self : multipart_buffer) : bool * multipart_buffer :=
  match mb_data self with
  | [] => let self := fill_buffer self in (bool_decide (mb_data self = []), self)
  | _ => (false, self)
  end.

Definition multipart_buffer_new (boundary : zstr) (boundary_len : nat) (input : list zstr) : multipart_buffer :=
  MultipartBuffer (Nat.max FILLUNIT (boundary_len + 6)) [] input ("--" ++ boundary) (NEWLINE :: "--" ++ boundary).

(** The line ends where its line feed, and a carriage return before it, is overwritten; it is
    read as a string from then on. *)
Definition chomp (line : zstr) : zstr :=
  match rev line with c :: l => if ceq c RETURN then rev l else line | [] => line end.

Definition next_line (self : multipart_buffer) : option (zstr * multipart_buffer) :=
  match break (ceq NEWLINE) (mb_data self) with
  | (line, _ :: rest) => Some (cstr (chomp line), self <| mb_data := rest |>)
  | (line, []) =>
      if bool_decide (length line < mb_bufsize self) then None
      else Some (cstr line, self <| mb_data := [] |>)
  end.

Definition get_line (self : multipart_buffer) : option zstr * multipart_buffer :=
  match next_line self with
  | Some (line, self) => (Some line, self)
  | None =>
      let self := fill_buffer self in
      match next_line self with
      | Some (line, self) => (Some line, self)
      | None => (None, self)
      end
  end.

(** What has not been looked at yet, which every line and every read shortens. *)
Definition pending (self : multipart_buffer) : nat := length (mb_data self) + length (mjoin (mb_input self)).

Fixpoint find_boundary_loop (fuel : nat) (self : multipart_buffer) (boundary : zstr) : option (bool * multipart_buffer) :=
  match fuel with
  | 0 => None
  | S fuel' =>
      match get_line self with
      | (Some line, self) =>
          if bool_decide (line = cstr boundary) then Some (true, self) else find_boundary_loop fuel' self boundary
      | (None, self) => Some (false, self)
      end
  end.
Definition find_boundary (self : multipart_buffer) (boundary : zstr) : option (bool * multipart_buffer) :=
  find_boundary_loop (S (pending self)) self boundary.

(** ** The headers of a part *)

Abbreviation mime_header_entry := (zstr * zstr)%type.

(** The loop over the lines: [entry] is the header that is being put together. *)
Fixpoint header_lines (fuel : nat) (self : multipart_buffer) (header : list mime_header_entry) (entry : option mime_header_entry)
    : option (list mime_header_entry * multipart_buffer) :=
  let done h := match entry with Some e => h ++ [e] | None => h end in
  match fuel with
  | 0 => None
  | S fuel' =>
      match get_line self with
      | (None, self) | (Some [], self) => Some (done header, self)
      | (Some ((c :: _) as line), self) =>
          match (if is_space c then [] else (break (ceq COLON) line).2), entry with
          | _ :: value, _ =>
              header_lines fuel' self (done header) (Some ((break (ceq COLON) line).1, drop_while is_space value))
          | [], Some (key, value) => header_lines fuel' self header (Some (key, value ++ line))
          | [], None => header_lines fuel' self header None
          end
      end
  end.

Definition multipart_buffer_headers (self : multipart_buffer)
    : option (option (list mime_header_entry) * multipart_buffer) :=
  r ← find_boundary self (mb_boundary self);
  let '(found, self) := r in
  if found : bool then
    h ← header_lines (S (pending self)) self [] None;
    Some (Some h.1, h.2)
  else Some (None, self).

Definition php_mime_get_hdr_value (header : list mime_header_entry) (key : zstr) : option zstr :=
  (λ e, e.2.2) <$> list_find (λ e, zend_string_equals_ci e.1 key = true) header.

(** ** Words *)

(** How far a word reaches, in quotes or not. *)
Fixpoint word_length (quote : option ascii) (stop : ascii) (s : zstr) : nat :=
  match s with
  | [] => 0
  | c :: s' =>
      match quote with
      | None =>
          if ceq c stop then 0
          else S (word_length (if ceq c QUOTE || ceq c APOSTROPHE then Some c else None) stop s')
      | Some q =>
          if ceq c q then S (word_length None stop s')
          else match s' with
               | d :: s'' => if ceq c BACKSLASH && ceq d q then S (S (word_length quote stop s'')) else S (word_length quote stop s')
               | [] => 1
               end
      end
  end.

(** The word, and the line from behind the stops that follow it. *)
Definition php_ap_getword (line : zstr) (stop : ascii) : zstr * zstr :=
  let n := word_length None stop line in (take n line, drop_while (ceq stop) (drop n line)).

Fixpoint substring_conf (quote : option ascii) (s : zstr) : zstr :=
  match s with
  | [] => []
  | c :: s' =>
      if bool_decide (Some c = quote) then []
      else match s' with
           | d :: s'' =>
               if ceq c BACKSLASH && (ceq d BACKSLASH || bool_decide (Some d = quote)) then d :: substring_conf quote s''
               else c :: substring_conf quote s'
           | [] => [c]
           end
  end.

Definition php_ap_getword_conf (str : zstr) : zstr :=
  match drop_while is_space str with
  | [] => []
  | (c :: s) as str =>
      if ceq c QUOTE || ceq c APOSTROPHE then substring_conf (Some c) s
      else substring_conf None (break is_space str).1
  end.

(** What is behind the last slash or backslash. *)
Definition php_ap_basename (path : zstr) : zstr :=
  rev (break (λ c, ceq c BACKSLASH || ceq c "/"%char) (rev path)).1.

(** ** Bodies *)

(** [partial] takes a match that is cut off by the end. *)
Fixpoint php_ap_memstr (haystack needle : zstr) (partial : bool) : option nat :=
  match haystack with
  | [] => None
  | _ :: haystack' =>
      if bool_decide (take (length haystack) needle = take (length needle) haystack) &&
         (partial || bool_decide (length needle ≤ length haystack)) then Some 0
      else S <$> php_ap_memstr haystack' needle partial
  end.

(** Up to [bytes - 1] bytes before what may be a boundary, without the carriage return in
    front of it; and whether there is one ([end]). *)
Definition multipart_buffer_read (self : multipart_buffer) (bytes : nat) : zstr * bool * multipart_buffer :=
  let self := if bool_decide (length (mb_data self) < bytes) then fill_buffer self else self in
  let bound := php_ap_memstr (mb_data self) (mb_boundary_next self) true in
  let found := match bound with
               | Some _ => bool_decide (is_Some (php_ap_memstr (mb_data self) (mb_boundary_next self) false))
               | None => false
               end in
  let max := default (length (mb_data self)) bound in
  let buf := take (Nat.min max (bytes - 1)) (mb_data self) in
  let buf := match bound with Some _ => chomp buf | None => buf end in
  (buf, found, self <| mb_data := drop (length buf) (mb_data self) |>).

Fixpoint read_body_loop (fuel : nat) (self : multipart_buffer) (out : zstr) : option (zstr * multipart_buffer) :=
  match fuel with
  | 0 => None
  | S fuel' =>
      let '(buf, _, self) := multipart_buffer_read self FILLUNIT in
      match buf with
      | [] => Some (out, self)
      | _ => read_body_loop fuel' self (out ++ buf)
      end
  end.
Definition multipart_buffer_read_body (self : multipart_buffer) : option (zstr * multipart_buffer) :=
  read_body_loop (S (pending self)) self [].

(** ** Protected names

    The name of a file may not be taken by a later variable. *)

(** From an opening bracket on. *)
Definition index_blank (c : ascii) : bool := ceq c " "%char || ceq c RETURN || ceq c NEWLINE || ceq c (ascii_of_nat 9).
Fixpoint normalize_index (fuel : nat) (index : zstr) : zstr :=
  match fuel with
  | 0 => []
  | S fuel' =>
      match break (ceq RBRACKET) (drop_while index_blank index) with
      | (i, _ :: c :: rest) => if ceq c LBRACKET then i ++ RBRACKET :: LBRACKET :: normalize_index fuel' rest else i ++ [RBRACKET]
      | (i, [_]) => i ++ [RBRACKET]
      | (i, []) => i
      end
  end.

Definition normalize_protected_variable (varname : zstr) : zstr :=
  let varname := drop_while (ceq " "%char) varname in
  let '(base, index) := break (ceq LBRACKET) varname in
  map (λ c, if ceq c " "%char || ceq c "."%char then "_"%char else c) base ++
  match index with
  | _ :: index => LBRACKET :: normalize_index (S (length index)) index
  | [] => []
  end.

(** ** The files of the server *)

Record disk := Disk { dk_files : list (zstr * zstr) }.

Definition unlink (name : zstr) (d : disk) : disk := Disk (filter (λ f, f.1 ≠ name) (dk_files d)).

Record upload_settings := UploadSettings {
  up_file_uploads : bool;
  up_max_file_uploads : Z;
  up_max_filesize : Z;        (** [upload_max_filesize] *)
  up_post_max_size : Z;
}.

Inductive upload_notice :=
| NVar (n : notice)
| NSapi (text : zstr).

Definition UPLOAD_ERROR_OK : Z := 0.
Definition UPLOAD_ERROR_A : Z := 1.
Definition UPLOAD_ERROR_B : Z := 2.
Definition UPLOAD_ERROR_C : Z := 3.
Definition UPLOAD_ERROR_D : Z := 4.
Definition UPLOAD_ERROR_E : Z := 6.
Definition UPLOAD_ERROR_F : Z := 7.

(** [sizeof("[tmp_name]")] *)
Definition MAX_SIZE_OF_INDEX : nat := 11.

(** The variables of the handler and what it writes: the array that is given, the array of
    files, the protected names, the names of the temporary files. *)
Record upload_state := UploadState {
  us_buffer : multipart_buffer;
  us_array : htab zval;
  us_files : htab zval;
  us_protected : list zstr;
  us_uploaded : list zstr;
  us_disk : disk;
  us_upload_cnt : Z;
  us_max_file_size : Z;
  us_count : Z;
  us_anonindex : Z;
  us_skip_upload : bool;
  us_llen : nat;
  us_notices : list upload_notice;
}.
#[export] Instance upload_state_rebuild : Rebuild upload_state := λ s,
  UploadState (us_buffer s) (us_array s) (us_files s) (us_protected s) (us_uploaded s) (us_disk s) (us_upload_cnt s)
    (us_max_file_size s) (us_count s) (us_anonindex s) (us_skip_upload s) (us_llen s) (us_notices s).

(** A computation of the handler; [None] is a loop that goes on for longer than its fuel. *)
Abbreviation U := (St upload_state).

Section handler.
(** [php_open_temporary_fd_ex] makes an empty file and gives its name; [write] gives how many
    bytes it has written, or -1. *)
Context (settings : input_settings) (ini : upload_settings).
Context (php_open_temporary_fd_ex : disk → option zstr) (write : disk → zstr → zstr → Z).

Definition report (n : upload_notice) : U unit := modify (λ s, s <| us_notices := us_notices s ++ [n] |>).
Definition sapi_error (text : zstr) : U unit := report (NSapi text).

(** A computation on the buffer. *)
Definition on_buffer {A} (f : multipart_buffer → option (A * multipart_buffer)) : U A := λ s,
  r ← f (us_buffer s); Some (r.1, s <| us_buffer := r.2 |>).

Definition is_protected_variable (varname : zstr) : U bool := gets (λ s, bool_decide (varname ∈ us_protected s)).
Definition add_protected_variable (varname : zstr) : U zstr :=
  let varname := normalize_protected_variable varname in
  modify (λ s, s <| us_protected := if decide (varname ∈ us_protected s) then us_protected s else us_protected s ++ [varname] |>);;
  mret varname.

(** [safe_php_register_variable_ex]: unless it overrides, the name is normalised in place,
    and this is what the caller has then. *)
Definition safe_php_register_variable_ex (files : bool) (var : zstr) (val : zval) (override_protection : bool) : U zstr :=
  let var' := if override_protection then var else normalize_protected_variable var in
  protected ← is_protected_variable var';
  (if override_protection || negb protected then
     s ← gets id;
     let '(ht, ns) := php_register_variable_ex settings plain_track var' val (if files then us_files s else us_array s) in
     modify (λ s, (if files then s <| us_files := ht |> else s <| us_array := ht |>) <| us_notices := us_notices s ++ map NVar ns |>)
   else mret tt);;
  mret var'.

(** ** A variable *)

Definition form_variable (param : zstr) : U unit :=
  value ← on_buffer multipart_buffer_read_body;
  modify (λ s, s <| us_count := (us_count s + 1)%Z |>);;
  count ← gets us_count;
  param ← (if (count <=? max_input_vars settings)%Z then safe_php_register_variable_ex false param (ZStr value) false
           else (if (count =? max_input_vars settings + 1)%Z then report (NVar VarsExceeded) else mret tt);; mret param);
  if zend_string_equals_ci param "MAX_FILE_SIZE" then
    (* [atoll], or [strtoll], which is defined beyond 64 bits too *)
    modify (λ s, s <| us_max_file_size := Z.max (- 2 ^ 63) (Z.min ZEND_LONG_MAX (strtol (cstr value))) |>)
  else mret tt.

(** ** A file *)

(** The brackets of a name: closed in pairs, with nothing between them. *)
Fixpoint brackets_ok (c : Z) (s : zstr) : bool :=
  match s with
  | [] => (c =? 0)%Z
  | d :: s' =>
      let c := if ceq d LBRACKET then (c + 1)%Z else if ceq d RBRACKET then (c - 1)%Z else c in
      if ceq d RBRACKET && match s' with e :: _ => negb (ceq e LBRACKET) | [] => false end then false
      else if (c <? 0)%Z then false
      else brackets_ok c s'
  end.

(** The bytes of a file, from the first read [blen] on: how many were written, or the error. *)
Fixpoint write_loop (fuel : nat) (temp_filename : zstr) (buff : zstr) (fin : bool) (total_bytes : Z) : U (Z * Z * bool) :=
  match fuel, buff with
  | 0, _ => λ _, None
  | _, [] => mret (total_bytes, 0%Z, fin)
  | S fuel', _ =>
      s ← gets id;
      let blen := Z.of_nat (length buff) in
      let too_large := (0 <? up_max_filesize ini)%Z && (up_max_filesize ini <? total_bytes + blen)%Z in
      let too_large_form := negb (us_max_file_size s =? 0)%Z && (us_max_file_size s <? total_bytes + blen)%Z in
      wrote ← (if too_large then mret (UPLOAD_ERROR_A, 0%Z)
               else if too_large_form then mret (UPLOAD_ERROR_B, 0%Z)
               else
                  let wlen := write (us_disk s) temp_filename buff in
                  (if (0 <? wlen)%Z then
                     modify (λ s, s <| us_disk :=
                       Disk (map (λ f, if bool_decide (f.1 = temp_filename) then (f.1, f.2 ++ take (Z.to_nat wlen) buff) else f)
                                 (dk_files (us_disk s))) |>)
                   else mret tt);;
                  mret (if (wlen <? blen)%Z then (UPLOAD_ERROR_F, 0%Z) else (0%Z, wlen)));
      next ← on_buffer (λ b, Some (multipart_buffer_read b FILLUNIT));
      let fin := fin || next.2 in
      if (wrote.1 =? 0)%Z then write_loop fuel' temp_filename next.1 fin (total_bytes + wrote.2)
      else mret (total_bytes, wrote.1, fin)
  end.

(** Up to the end of the data: the temporary file, its size and the error. *)
Definition receive_file (filename : zstr) : U (option zstr * Z * Z) :=
  match filename with
  | [] => mret (None, 0%Z, UPLOAD_ERROR_D)
  | _ =>
      first ← on_buffer (λ b, Some (multipart_buffer_read b FILLUNIT));
      d ← gets us_disk;
      modify (λ s, s <| us_upload_cnt := (us_upload_cnt s - 1)%Z |>);;
      match php_open_temporary_fd_ex d with
      | None => sapi_error "File upload error - unable to create a temporary file";; mret (None, 0%Z, UPLOAD_ERROR_E)
      | Some name =>
          modify (λ s, s <| us_disk := Disk (dk_files (us_disk s) ++ [(name, [])]) |>);;
          n ← gets (λ s, pending (us_buffer s));
          r ← write_loop (S (S n)) name first.1 first.2 0;
          let '(total_bytes, cancel_upload, fin) := r in
          let cancel_upload := if (cancel_upload =? 0)%Z && negb fin then UPLOAD_ERROR_C else cancel_upload in
          if (cancel_upload =? 0)%Z then
            modify (λ s, s <| us_uploaded := if decide (name ∈ us_uploaded s) then us_uploaded s else us_uploaded s ++ [name] |>);;
            mret (Some name, total_bytes, 0%Z)
          else
            modify (λ s, s <| us_disk := unlink name (us_disk s) |>);;
            mret (None, total_bytes, cancel_upload)
      end
  end.

(** The name of an entry in [_FILES]: before the first bracket of a name that ends in one. *)
Definition entry_name (llen : nat) (arr : option (zstr * zstr)) (param key : zstr) : zstr :=
  slprintf llen (match arr with
                 | Some (abuf, array_index) => abuf ++ "[" ++ key ++ "][" ++ array_index ++ "]"
                 | None => param ++ "[" ++ key ++ "]"
                 end).
Definition array_upload (param : zstr) : option (zstr * zstr) :=
  match break (ceq LBRACKET) param with
  | (_, []) => None
  | (abuf, _ :: rest) =>
      match rev param with
      | c :: _ => if ceq c RBRACKET then Some (abuf, take (length rest - 1) rest) else None
      | [] => None
      end
  end.

(** What is written of a file.  The variables of the same names with an underscore are
    registered nowhere, as no table is given for them. *)
Definition file_entries (header : list mime_header_entry) (param filename : zstr) (temp_filename : option zstr)
    (total_bytes cancel_upload : Z) : U unit :=
  let arr := array_upload param in
  modify (λ s, if bool_decide (us_llen s < length param + MAX_SIZE_OF_INDEX + 1)
               then s <| us_llen := length param + (MAX_SIZE_OF_INDEX + 1) |> else s);;
  llen ← gets us_llen;
  let tmp_name := ZStr (default [] temp_filename) in
  safe_php_register_variable_ex true (entry_name llen arr param "name") (ZStr (php_ap_basename filename)) false;;
  let type := if (cancel_upload =? 0)%Z
              then (break (ceq ";"%char) (default [] (php_mime_get_hdr_value header "Content-Type"))).1 else [] in
  safe_php_register_variable_ex true (entry_name llen arr param "type") (ZStr type) false;;
  param ← add_protected_variable param;
  lbuf ← add_protected_variable (entry_name llen arr param "tmp_name");
  safe_php_register_variable_ex true lbuf tmp_name true;;
  safe_php_register_variable_ex true (entry_name llen arr param "error") (ZLong cancel_upload) false;;
  safe_php_register_variable_ex true (entry_name llen arr param "size")
    (ZLong (if (cancel_upload =? 0)%Z then total_bytes else 0)) false;;
  mret tt.

(** The answer is whether the handler goes on. *)
Definition file_part (header : list mime_header_entry) (param filename : option zstr) : U bool :=
  s ← gets id;
  (if negb (up_file_uploads ini) then modify (λ s, s <| us_skip_upload := true |>)
   else if (us_upload_cnt s <=? 0)%Z then
     modify (λ s, s <| us_skip_upload := true |>);;
     sapi_error "Maximum number of allowable file uploads has been exceeded"
   else mret tt);;
  match filename with
  | None => sapi_error "File Upload Mime headers garbled";; mret false
  | Some filename =>
      param ← (match param with
               | Some param => mret param
               | None =>
                   i ← gets us_anonindex;
                   modify (λ s, s <| us_anonindex := ((us_anonindex s + 1) mod 2 ^ 32)%Z |>);;
                   mret (dec_of_Z i)
               end);
      modify (λ s, s <| us_skip_upload := us_skip_upload s || negb (brackets_ok 0 param) |>);;
      skip_upload ← gets us_skip_upload;
      if skip_upload : bool then mret true
      else
        r ← receive_file filename;
        file_entries header param filename r.1.1 r.1.2 r.2;;
        mret true
  end.

(** ** The parts *)

(** The pairs of [Content-Disposition]. *)
Fixpoint disposition (fuel : nat) (cd : zstr) (param filename : option zstr) : option zstr * option zstr :=
  match fuel, cd with
  | S fuel', _ :: _ =>
      let '(item, cd) := php_ap_getword cd ";"%char in
      let cd := drop_while is_space cd in
      let '(key, word) := php_ap_getword item EQUALS in
      if negb (bool_decide (EQUALS ∈ item)) then disposition fuel' cd param filename
      else if zend_string_equals_ci key "name" then disposition fuel' cd (Some (php_ap_getword_conf word)) filename
      else if zend_string_equals_ci key "filename" then disposition fuel' cd param (Some (php_ap_getword_conf word))
      else disposition fuel' cd param filename
  | _, _ => (param, filename)
  end.

Fixpoint parts_loop (fuel : nat) : U unit :=
  match fuel with
  | 0 => λ _, None
  | S fuel' =>
      eof ← on_buffer (λ b, Some (multipart_buffer_eof b));
      if eof : bool then mret tt
      else
        header ← on_buffer multipart_buffer_headers;
        match header with
        | None => mret tt
        | Some header =>
            match php_mime_get_hdr_value header "Content-Disposition" with
            | None => parts_loop fuel'
            | Some cd =>
                match disposition (S (length cd)) (drop_while is_space cd) None None with
                | (Some param, None) => form_variable param;; parts_loop fuel'
                | (param, filename) =>
                    go_on ← file_part header param filename;
                    if go_on : bool then parts_loop fuel' else mret tt
                end
            end
        end
  end.

(** ** The handler *)

Definition strstr (haystack needle : zstr) : option nat := php_ap_memstr haystack needle false.

(** The boundary and its length; or the warning. *)
Definition get_boundary (content_type : zstr) : zstr * nat + zstr :=
  let at_word := match strstr content_type "boundary" with
                 | Some p => Some p
                 | None => strstr (zend_str_tolower content_type) "boundary"
                 end in
  match (p ← at_word; list_find (λ c, c = EQUALS) (drop p content_type)), at_word with
  | Some (i, _), Some p =>
      match drop (p + S i) content_type with
      | c :: s =>
          if ceq c QUOTE then
            match break (ceq QUOTE) s with
            | (_, []) => inr ("Invalid boundary in multipart/form-data POST data" : zstr)
            | (boundary, _) => inl (boundary, length boundary)
            end
          else
            let boundary := (break (λ c, ceq c ","%char || ceq c ";"%char) (c :: s)).1 in
            inl (boundary, length boundary)
      | [] => inl ([], 0)
      end
  | _, _ => inr ("Missing boundary in multipart/form-data POST data" : zstr)
  end.

Definition start_upload (buffer : multipart_buffer) (array files : htab zval) (d : disk) : upload_state :=
  UploadState buffer array files [] [] d (up_max_file_uploads ini) 0 0 0 false 0 [].

Definition rfc1867_post_handler (content_type : zstr) (content_length : Z) (input : list zstr) (array files : htab zval) (d : disk)
    : option upload_state :=
  let fails text := Some ((start_upload (multipart_buffer_new [] 0 input) array files d) <| us_notices := [NSapi text] |>) in
  if (0 <? up_post_max_size ini)%Z && (up_post_max_size ini <? content_length)%Z then
    fails ("POST Content-Length of " ++ dec_of_Z content_length ++ " bytes exceeds the limit of " ++
           dec_of_Z (up_post_max_size ini) ++ " bytes")
  else match get_boundary (cstr content_type) with
       | inr text => fails text
       | inl (boundary, boundary_len) =>
           let mbuff := multipart_buffer_new boundary boundary_len input in
           snd <$> parts_loop (S (pending mbuff)) (start_upload mbuff array files d)
       end.
End handler.

(** At the end of the request the temporary files go. *)
Definition destroy_uploaded_files_hash (s : upload_state) : disk := foldl (λ d name, unlink name d) (us_disk s) (us_uploaded s).

(** A form with a variable and a file, in pieces. *)
Definition crlf_text (ls : list zstr) : zstr := mjoin (map (λ l, l ++ [RETURN; NEWLINE]) ls).
Definition tick (s : zstr) : zstr := map (λ c, if ceq c "~"%char then QUOTE else c) s.
Definition sample_body : zstr := crlf_text [
  "--XY"; tick "Content-Disposition: form-data; name=~a.b[x]~"; ""; "1"; "2";
  "--XY"; tick "Content-Disposition: form-data; name=~up~; filename=~C:~"; "Content-Type: text/plain; charset=x"; ""; "hello"; "-XY";
  "--XY--"].
Definition new_name (d : disk) : option zstr := Some ("/tmp/php" ++ dec_of_Z (Z.of_nat (length (dk_files d)))).
Definition write_all (d : disk) (name buff : zstr) : Z := Z.of_nat (length buff).

Example form_read :
  (λ s, (us_array s, us_files s, us_disk s, us_notices s)) <$>
    rfc1867_post_handler default_input (UploadSettings true 20 0 0) new_name write_all
      (tick "multipart/form-data; boundary=~XY~") 300 [take 60 sample_body; drop 60 sample_body] [] [] (Disk []) =
  Some ([(KStr "a_b", ZArr [(KStr "x", ZStr ("1" ++ [RETURN; NEWLINE] ++ "2"))])],
        [(KStr "up", ZArr [(KStr "name", ZStr "C:"); (KStr "type", ZStr "text/plain"); (KStr "tmp_name", ZStr "/tmp/php0");
                           (KStr "error", ZLong 0); (KStr "size", ZLong 10)])],
        Disk [(("/tmp/php0" : zstr), ("hello" ++ [RETURN; NEWLINE] ++ "-XY")%zs)], []).
Proof. by vm_compute. Qed.

(** After one name with a bracket that is not closed no file of the form is received. *)
Definition file_lines (boundary name content : zstr) : list zstr :=
  ["--" ++ boundary; tick ("Content-Disposition: form-data; name=~" ++ name ++ "~; filename=~f~"); ""; content].
Definition received (boundary : zstr) (lines : list zstr) : option (htab zval) :=
  us_files <$> rfc1867_post_handler default_input (UploadSettings true 20 0 0) new_name write_all
    ("multipart/form-data; boundary=" ++ boundary) 300 [crlf_text (lines ++ ["--" ++ boundary ++ "--"])] [] [] (Disk []).

Example skip_sticks :
  hkeys <$> received "XY" (file_lines "XY" "one" "1" ++ file_lines "XY" "a[" "2" ++ file_lines "XY" "two" "3") = Some [KStr "one"].
Proof. by vm_compute. Qed.

(** ** The stream

    What matters of a buffer is the bytes that are still to come, whatever part of them it
    holds: filling it changes nothing. *)

Definition stream (b : multipart_buffer) : zstr := mb_data b ++ mjoin (mb_input b).

(** [b'] is further in the same body. *)
Record advances (b b' : multipart_buffer) : Prop := Advances {
  adv_size : mb_bufsize b' = mb_bufsize b;
  adv_boundary : mb_boundary b' = mb_boundary b;
  adv_next : mb_boundary_next b' = mb_boundary_next b;
  adv_stream : stream b' `suffix_of` stream b;
}.
#[export] Instance advances_preorder : PreOrder advances.
Proof.
  split; [by intros b|]. intros b1 b2 b3 [] []. split; [congruence..|]. by etrans.
Qed.

Lemma pending_stream b : pending b = length (stream b).
Proof. unfold pending, stream. by rewrite length_app. Qed.

Lemma advances_pending b b' : advances b b' → pending b' ≤ pending b.
Proof. intros [_ _ _ [k Hs]]. rewrite !pending_stream, Hs, length_app. lia. Qed.

Lemma read_post_stream n input : (read_post n input).1 ++ mjoin (read_post n input).2 = mjoin input.
Proof.
  revert n. induction input as [|[|c chunk] input IH]; intros [|n]; try done. cbn [read_post].
  case_bool_decide as Hn.
  - specialize (IH (S n - length (c :: chunk))). destruct (read_post _ _) as [data rest]. cbn [fst snd] in *.
    rewrite <-(assoc_L (++)), IH. done.
  - cbn [fst snd]. change (mjoin (?a :: ?b)) with (a ++ mjoin b). by rewrite (assoc_L (++)), take_drop.
Qed.

Lemma fill_stream b : stream (fill_buffer b) = stream b.
Proof.
  unfold fill_buffer, stream. pose proof (read_post_stream (mb_bufsize b - length (mb_data b)) (mb_input b)) as Hr.
  destruct (read_post _ _) as [data rest]. cbn in *. by rewrite <-(assoc_L (++)), Hr.
Qed.

Lemma fill_advances b : advances b (fill_buffer b).
Proof.
  pose proof (fill_stream b) as Hs. unfold fill_buffer in *. destruct (read_post _ _) as [data rest].
  split; [done..|]. by rewrite Hs.
Qed.

Lemma chomp_length l : length (chomp l) ≤ length l.
Proof.
  unfold chomp. pose proof (length_rev l) as Hl. destruct (rev l) as [|c r]; [done|]. cbn [length] in Hl. case_match; rewrite ?length_rev; lia.
Qed.

Lemma next_line_advances b line b' : 0 < mb_bufsize b → next_line b = Some (line, b') → advances b b' ∧ pending b' < pending b.
Proof.
  intros Hsize. unfold next_line. pose proof (break_app (ceq NEWLINE) (mb_data b)) as Hb.
  assert (Hadv : ∀ pre rest, mb_data b = pre ++ rest → 0 < length pre →
    advances b (b <| mb_data := rest |>) ∧ pending (b <| mb_data := rest |>) < pending b).
  { intros pre rest E Hp. split; [split; [done..|]|].
    - exists pre. unfold stream. cbn. by rewrite E, <-(assoc_L (++)).
    - unfold pending. cbn. rewrite E, length_app. lia. }
  destruct (break (ceq NEWLINE) (mb_data b)) as [l [|c rest]]; cbn [fst snd] in Hb.
  - case_bool_decide; [done|]. intros [= _ <-]. rewrite (right_id_L [] (++)) in Hb. apply (Hadv l); [|lia].
    by rewrite (right_id_L [] (++)).
  - intros [= _ <-]. apply (Hadv (l ++ [c])); [by rewrite <-(assoc_L (++))|rewrite length_app; cbn; lia].
Qed.

Lemma get_line_advances b : 0 < mb_bufsize b →
  advances b (get_line b).2 ∧ (is_Some (get_line b).1 → pending (get_line b).2 < pending b).
Proof.
  intros Hsize. unfold get_line. destruct (next_line b) as [[line b']|] eqn:E.
  { destruct (next_line_advances b line b' Hsize E). done. }
  pose proof (fill_advances b) as Hf. assert (Hfs : 0 < mb_bufsize (fill_buffer b)) by by rewrite (adv_size _ _ Hf).
  destruct (next_line (fill_buffer b)) as [[line b']|] eqn:E'.
  - destruct (next_line_advances _ line b' Hfs E') as [Ha Hp]. split; [by etrans|]. intros _. cbn [snd].
    pose proof (advances_pending _ _ Hf). lia.
  - split; [done|]. by intros [? ?].
Qed.

(** ** Every loop ends *)

(** A computation on the buffer that gives a result and goes on in the body. *)
Definition goes_on {A} (f : multipart_buffer → option (A * multipart_buffer)) : Prop :=
  ∀ b, 0 < mb_bufsize b → ∃ a b', f b = Some (a, b') ∧ advances b b'.

Lemma find_boundary_ends fuel boundary : ∀ b, 0 < mb_bufsize b → pending b < fuel →
  ∃ found b', find_boundary_loop fuel b boundary = Some (found, b') ∧ advances b b' ∧ (found = true → pending b' < pending b).
Proof.
  induction fuel as [|fuel IH]; intros b Hs Hf; [lia|]. cbn [find_boundary_loop].
  destruct (get_line_advances b Hs) as [Ha Hp]. destruct (get_line b) as [[line|] b1]; cbn [fst snd] in *.
  2:{ by exists false, b1. }
  specialize (Hp ltac:(eauto)). case_bool_decide; [by exists true, b1|].
  destruct (IH b1) as (found & b2 & E & Ha2 & Hp2); [by rewrite (adv_size _ _ Ha)|lia|].
  exists found, b2. split; [done|]. split; [by etrans|]. intros Hfound. specialize (Hp2 Hfound). lia.
Qed.

Lemma header_lines_end fuel : ∀ b header entry, 0 < mb_bufsize b → pending b < fuel →
  ∃ h b', header_lines fuel b header entry = Some (h, b') ∧ advances b b'.
Proof.
  induction fuel as [|fuel IH]; intros b header entry Hs Hf; [lia|]. cbn [header_lines].
  destruct (get_line_advances b Hs) as [Ha Hp]. destruct (get_line b) as [[[|c line]|] b1]; cbn [fst snd] in *; try (by eexists _, b1).
  specialize (Hp ltac:(eauto)). assert (Hs1 : 0 < mb_bufsize b1) by by rewrite (adv_size _ _ Ha).
  assert (Hnext : ∀ header entry, ∃ h b', header_lines fuel b1 header entry = Some (h, b') ∧ advances b b').
  { intros h e. destruct (IH b1 h e Hs1) as (h' & b2 & E & Ha2); [lia|]. exists h', b2. split; [done|by etrans]. }
  destruct (if is_space c then [] else _) as [|c' value]; [destruct entry as [[key value]|]|]; apply Hnext.
Qed.

Lemma headers_end b : 0 < mb_bufsize b →
  ∃ h b', multipart_buffer_headers b = Some (h, b') ∧ advances b b' ∧ (is_Some h → pending b' < pending b).
Proof.
  intros Hs. unfold multipart_buffer_headers, find_boundary.
  destruct (find_boundary_ends (S (pending b)) (mb_boundary b) b Hs) as (found & b1 & E & Ha & Hp); [lia|].
  rewrite E. cbn [mbind option_bind]. destruct found.
  2:{ exists None, b1. split; [done|]. split; [done|]. by intros [? ?]. }
  destruct (header_lines_end (S (pending b1)) b1 [] None) as (h & b2 & E2 & Ha2); [by rewrite (adv_size _ _ Ha)|lia|].
  rewrite E2. exists (Some h), b2. split; [done|]. split; [by etrans|]. intros _. specialize (Hp eq_refl).
  pose proof (advances_pending _ _ Ha2). lia.
Qed.

Lemma chomp_prefix l : chomp l `prefix_of` l.
Proof.
  unfold chomp. destruct (rev l) as [|c r] eqn:E; [done|]. case_match; [|done]. exists [c].
  by rewrite <-(rev_involutive l), E.
Qed.

Lemma read_advances b bytes : advances b (multipart_buffer_read b bytes).2 ∧
  stream b = (multipart_buffer_read b bytes).1.1 ++ stream (multipart_buffer_read b bytes).2.
Proof.
  unfold multipart_buffer_read. set (b1 := if bool_decide _ then fill_buffer b else b).
  assert (H1 : advances b b1 ∧ stream b1 = stream b).
  { unfold b1. case_bool_decide; [split; [apply fill_advances|apply fill_stream]|done]. }
  destruct H1 as [Ha Hst]. set (bound := php_ap_memstr _ _ _). set (buf := match bound with Some _ => _ | None => _ end).
  assert (Hpre : buf `prefix_of` mb_data b1).
  { unfold buf. destruct bound; [etrans; [apply chomp_prefix|]|]; apply prefix_take. }
  destruct Hpre as [k Hk]. cbn [fst snd].
  assert (Hs : stream b = buf ++ stream (b1 <| mb_data := drop (length buf) (mb_data b1) |>)).
  { rewrite <-Hst. unfold stream. cbn. by rewrite Hk, drop_app_length, <-(assoc_L (++)). }
  split; [|exact Hs]. destruct Ha. split; [done..|]. by exists buf.
Qed.

Lemma read_body_ends fuel : ∀ b out, pending b < fuel →
  ∃ value b', read_body_loop fuel b out = Some (value, b') ∧ advances b b'.
Proof.
  induction fuel as [|fuel IH]; intros b out Hf; [lia|]. cbn [read_body_loop].
  destruct (read_advances b FILLUNIT) as [Ha Hs]. apply (f_equal length) in Hs. rewrite length_app, <-!pending_stream in Hs.
  destruct (multipart_buffer_read b FILLUNIT) as [[[|c buf] found] b1]; cbn [fst snd length] in *; [by eexists _, b1|].
  destruct (IH b1 (out ++ c :: buf)) as (value & b2 & E & Ha2); [lia|]. exists value, b2. split; [done|by etrans].
Qed.

(** ** Files are accounted for *)

Lemma filter_keeps {A} (P : A → Prop) `{∀ x, Decision (P x)} l : Forall P l → filter P l = l.
Proof. induction 1 as [|x l Hx _ IH]; [done|]. by rewrite filter_cons, decide_True, IH. Qed.
Lemma filter_drops {A} (P : A → Prop) `{∀ x, Decision (P x)} l : Forall (λ x, ¬ P x) l → filter P l = [].
Proof. induction 1 as [|x l Hx _ IH]; [done|]. by rewrite filter_cons, decide_False. Qed.

(** A computation that leaves the body and the files alone. *)
Definition quiet {A} (m : U A) : Prop := ∀ s, ∃ a s', m s = Some (a, s') ∧
  us_buffer s' = us_buffer s ∧ us_disk s' = us_disk s ∧ us_uploaded s' = us_uploaded s.

Lemma quiet_ret {A} (a : A) : quiet (mret a).
Proof. intros s. by exists a, s. Qed.
Lemma quiet_gets {A} (f : upload_state → A) : quiet (gets f).
Proof. intros s. by exists (f s), s. Qed.
Lemma quiet_modify f :
  (∀ s, us_buffer (f s) = us_buffer s ∧ us_disk (f s) = us_disk s ∧ us_uploaded (f s) = us_uploaded s) → quiet (modify f).
Proof. intros Hf s. exists tt, (f s). by split. Qed.
Lemma quiet_bind {A B} (m : U A) (k : A → U B) : quiet m → (∀ a, quiet (k a)) → quiet (m ≫= k).
Proof.
  intros Hm Hk s. destruct (Hm s) as (a & s1 & E1 & H1). destruct (Hk a s1) as (b & s2 & E2 & H2).
  exists b, s2. rewrite (bind_runs _ _ _ _ _ E1). split; [done|]. destruct H1 as (-> & -> & ->) in H2. done.
Qed.

Create HintDb quiet.
#[export] Hint Resolve quiet_ret quiet_gets quiet_bind : quiet.
#[export] Hint Extern 5 (quiet (modify _)) => apply quiet_modify; intros ?; repeat case_match; done : quiet.
#[export] Hint Extern 4 (quiet (match ?x with _ => _ end)) => destruct x : quiet.
Ltac quietly := repeat (apply quiet_bind; [|intros ?]); repeat case_match; auto 10 with quiet.

Section ends.
Context (settings : input_settings) (ini : upload_settings).
Context (open_temporary : disk → option zstr) (write : disk → zstr → zstr → Z).

Lemma quiet_report n : quiet (report n).
Proof. unfold report. auto with quiet. Qed.
Lemma quiet_register files var val o : quiet (safe_php_register_variable_ex settings files var val o).
Proof.
  unfold safe_php_register_variable_ex, is_protected_variable. apply quiet_bind; [auto with quiet|intros protected].
  apply quiet_bind; [|auto with quiet]. destruct (o || negb protected); [|auto with quiet].
  apply quiet_bind; [auto with quiet|intros s]. destruct (php_register_variable_ex _ _ _ _ _). destruct files; auto with quiet.
Qed.
Lemma quiet_protect var : quiet (add_protected_variable var).
Proof. unfold add_protected_variable. apply quiet_bind; auto with quiet. Qed.
Lemma quiet_protected var : quiet (is_protected_variable var).
Proof. unfold is_protected_variable. auto with quiet. Qed.
#[local] Hint Resolve quiet_report quiet_register quiet_protect quiet_protected : quiet.

Lemma quiet_entries header param filename temp total cancel : quiet (file_entries settings header param filename temp total cancel).
Proof. unfold file_entries. quietly. Qed.

(** The files that were there, and behind them those that are recorded, none too large. *)
Definition accounted (d : disk) (s : upload_state) : Prop :=
  ∃ kept, dk_files (us_disk s) = dk_files d ++ kept ∧ us_uploaded s = kept.*1 ∧ Forall (λ n, n ∉ (dk_files d).*1) kept.*1 ∧
    Forall (λ f, (0 < up_max_filesize ini)%Z → (Z.of_nat (length f.2) ≤ up_max_filesize ini)%Z) kept.

Lemma quiet_accounted {A} (m : U A) d s : quiet m → accounted d s →
  ∃ a s', m s = Some (a, s') ∧ us_buffer s' = us_buffer s ∧ accounted d s'.
Proof.
  intros Hm Hs. destruct (Hm s) as (a & s' & E & Hb & Hd & Hu). exists a, s'. split; [done|]. split; [done|].
  unfold accounted. by rewrite Hd, Hu.
Qed.

Lemma on_buffer_run {A} (f : multipart_buffer → option (A * multipart_buffer)) s a b :
  f (us_buffer s) = Some (a, b) → on_buffer f s = Some (a, s <| us_buffer := b |>).
Proof. unfold on_buffer. by intros ->. Qed.

(** While the file is written: it is the last one, and as long as is counted. *)
Lemma write_loop_ends name kept d : name ∉ (kept ++ dk_files d).*1 → ∀ fuel buff fin total s content,
  0 < mb_bufsize (us_buffer s) → pending (us_buffer s) + (if bool_decide (buff = []) then 0 else 1) < fuel →
  dk_files (us_disk s) = dk_files d ++ kept ++ [(name, content)] → (Z.of_nat (length content) ≤ total)%Z →
  ((0 < up_max_filesize ini)%Z → (Z.of_nat (length content) ≤ up_max_filesize ini)%Z) →
  ∃ total' cancel fin' s' content', write_loop ini write fuel name buff fin total s = Some (total', cancel, fin', s') ∧
    advances (us_buffer s) (us_buffer s') ∧ us_uploaded s' = us_uploaded s ∧
    dk_files (us_disk s') = dk_files d ++ kept ++ [(name, content')] ∧
    (cancel = 0%Z → (0 < up_max_filesize ini)%Z → (Z.of_nat (length content') ≤ up_max_filesize ini)%Z).
Proof.
  intros Hname. induction fuel as [|fuel IH]; intros buff fin total s content Hs Hf Hd Ht Hmax; [lia|].
  destruct buff as [|c buff].
  { exists total, 0%Z, fin, s, content. by repeat split. }
  cbn [write_loop]. set (blen := Z.of_nat (length (c :: buff))). rewrite bind_gets. unfold id. cbv zeta.
  rewrite bool_decide_false in Hf by done.
  set (large := (0 <? up_max_filesize ini)%Z && (up_max_filesize ini <? total + blen)%Z).
  set (form := negb (us_max_file_size s =? 0)%Z && (us_max_file_size s <? total + blen)%Z).
  set (wlen := write (us_disk s) name (c :: buff)).
  match goal with |- context [(?m ≫= _) s] => set (wrote := m) end.
  assert (Hw : ∃ cancel n content' s1, wrote s = Some ((cancel, n), s1) ∧ us_buffer s1 = us_buffer s ∧ us_uploaded s1 = us_uploaded s ∧
    dk_files (us_disk s1) = dk_files d ++ kept ++ [(name, content')] ∧
    (cancel = 0%Z → (Z.of_nat (length content') ≤ total + n)%Z ∧
      ((0 < up_max_filesize ini)%Z → (Z.of_nat (length content') ≤ up_max_filesize ini)%Z))).
  { unfold wrote. destruct large eqn:El; [by exists UPLOAD_ERROR_A, 0%Z, content, s|].
    destruct form eqn:Ef; [by exists UPLOAD_ERROR_B, 0%Z, content, s|].
    destruct (Z.ltb_spec 0 wlen) as [Hpos|Hneg].
    2:{ rewrite bind_ret. destruct (Z.ltb_spec wlen blen) as [_|Hge]; [by exists UPLOAD_ERROR_F, 0%Z, content, s|]. cbn in *. lia. }
    rewrite bind_modify. set (w := take (Z.to_nat wlen) (c :: buff)).
    exists (if (wlen <? blen)%Z then UPLOAD_ERROR_F else 0%Z), (if (wlen <? blen)%Z then 0%Z else wlen), (content ++ w).
    eexists. split; [by destruct (wlen <? blen)%Z|]. split; [done|]. split; [done|]. split.
    - cbn [us_disk upd]. cbn. rewrite Hd. rewrite !map_app. cbn [map fst snd]. rewrite bool_decide_true by done.
      assert (Hid : ∀ l : list (zstr * zstr), name ∉ l.*1 → map (λ f, if bool_decide (f.1 = name) then (f.1, f.2 ++ w) else f) l = l).
      { clear. induction l as [|[n v] l IH]; [done|]. rewrite fmap_cons. intros [Hne Hl]%not_elem_of_cons. cbn [map fst snd].
        rewrite bool_decide_false by (intros ->; by apply Hne). by rewrite IH. }
      rewrite fmap_app in Hname. apply not_elem_of_app in Hname as [Hk Hn]. by rewrite !Hid.
    - destruct (Z.ltb_spec wlen blen) as [_|Hge]; [done|]. intros _.
      assert (Hlw : Z.of_nat (length (content ++ w)) = (Z.of_nat (length content) + blen)%Z).
      { unfold w. rewrite length_app, take_ge by (unfold blen in Hge; lia). unfold blen. lia. }
      rewrite Hlw. split; [lia|]. intros Hm. unfold large in El. apply andb_false_iff in El as [El|El]; lia. }
  destruct Hw as (cancel & n & content' & s1 & E1 & Hb1 & Hu1 & Hd1 & Hc1). rewrite (bind_runs _ _ _ _ _ E1).
  destruct (read_advances (us_buffer s1) FILLUNIT) as [Ha Hst]. apply (f_equal length) in Hst.
  rewrite length_app, <-!pending_stream in Hst. destruct (multipart_buffer_read (us_buffer s1) FILLUNIT) as [[buff' found] b2] eqn:E2.
  cbn [fst snd] in *. rewrite (bind_runs _ _ s1 (buff', found) (s1 <| us_buffer := b2 |>)) by (apply on_buffer_run; by rewrite E2).
  cbn [fst snd]. rewrite Hb1 in Ha, Hst. destruct (Z.eqb_spec cancel 0) as [->|Hne].
  - destruct (Hc1 eq_refl) as [Hct Hcm].
    destruct (IH buff' (fin || found) (total + n)%Z (s1 <| us_buffer := b2 |>) content') as (t & c' & f & s2 & ct & E & Ha2 & Hu2 & Hd2 & Hc2).
    + cbn. by rewrite (adv_size _ _ Ha).
    + cbn [us_buffer upd]. cbn. case_bool_decide as Eb; [lia|]. destruct buff'; [done|]. cbn in Hst. lia.
    + exact Hd1. + exact Hct. + exact Hcm.
    + exists t, c', f, s2, ct. split; [exact E|]. split; [by etrans|]. split; [by rewrite Hu2|]. done.
  - eexists _, _, _, _, content'. split; [done|]. split; [done|]. split; [done|]. split; [done|]. done.
Qed.

(** New names are new. *)
Context (Hopen : ∀ d name, open_temporary d = Some name → name ∉ (dk_files d).*1).

(** A computation that goes on in the body and keeps the files accounted for. *)
Definition sound {A} (d : disk) (m : U A) : Prop := ∀ s, 0 < mb_bufsize (us_buffer s) → accounted d s →
  ∃ a s', m s = Some (a, s') ∧ advances (us_buffer s) (us_buffer s') ∧ accounted d s'.

Lemma sound_quiet {A} d (m : U A) : quiet m → sound d m.
Proof.
  intros Hm s _ Hs. destruct (quiet_accounted m d s Hm Hs) as (a & s' & E & Hb & Hs'). exists a, s'. by rewrite Hb.
Qed.
Lemma sound_bind {A B} d (m : U A) (k : A → U B) : sound d m → (∀ a, sound d (k a)) → sound d (m ≫= k).
Proof.
  intros Hm Hk s Hz Hs. destruct (Hm s Hz Hs) as (a & s1 & E1 & Ha & Hs1).
  destruct (Hk a s1) as (b & s2 & E2 & Ha2 & Hs2); [by rewrite (adv_size _ _ Ha)|done|].
  exists b, s2. rewrite (bind_runs _ _ _ _ _ E1). split; [done|]. split; [by etrans|done].
Qed.
Lemma sound_buffer {A} d (f : multipart_buffer → option (A * multipart_buffer)) :
  (∀ b, 0 < mb_bufsize b → ∃ a b', f b = Some (a, b') ∧ advances b b') → sound d (on_buffer f).
Proof.
  intros Hf s Hz Hs. destruct (Hf (us_buffer s) Hz) as (a & b' & E & Ha). rewrite (on_buffer_run f s a b' E).
  by exists a, (s <| us_buffer := b' |>).
Qed.

Lemma sound_receive d filename : sound d (receive_file ini open_temporary write filename).
Proof.
  unfold receive_file. destruct filename as [|c filename]; [apply sound_quiet; auto with quiet|].
  apply sound_bind.
  { apply sound_buffer. intros b _. destruct (read_advances b FILLUNIT) as [Ha _]. by eexists _, _. }
  intros first s Hz Hs. rewrite bind_gets, bind_modify. destruct (open_temporary (us_disk s)) as [name|] eqn:Eo.
  2:{ eexists _, _. split; [reflexivity|]. by split. }
  rewrite bind_modify, bind_gets. destruct Hs as (kept & Hd & Hu & Hnew & Hk). specialize (Hopen _ _ Eo). rewrite Hd, fmap_app in Hopen.
  apply not_elem_of_app in Hopen as [Hnd Hnk].
  set (s1 := (s <| us_upload_cnt := _ |>) <| us_disk := _ |>). cbv beta.
  destruct (write_loop_ends name kept d) with (fuel := S (S (pending (us_buffer s1)))) (buff := first.1) (fin := first.2)
    (total := 0%Z) (s := s1) (content := @nil ascii) as (total & cancel & fin & s2 & content & E2 & Ha2 & Hu2 & Hd2 & Hc2).
  { rewrite fmap_app. apply not_elem_of_app. by split. }
  { exact Hz. } { case_bool_decide; lia. } { cbn. by rewrite Hd, <-(assoc_L (++)). } { cbn. lia. } { cbn. lia. }
  rewrite (bind_runs _ _ _ _ _ E2). change (us_uploaded s1) with (us_uploaded s) in Hu2. rewrite Hu in Hu2.
  set (cancel' := if (cancel =? 0)%Z && negb fin then UPLOAD_ERROR_C else cancel). cbv zeta. cbn beta iota. fold cancel'.
  destruct (Z.eqb_spec cancel' 0) as [Hz'|_].
  - eexists _, _. rewrite bind_modify. split; [done|]. split; [done|]. exists (kept ++ [(name, content)]). cbn. split; [done|].
    rewrite Hu2, decide_False by done. rewrite fmap_app. split; [done|].
    split; [apply Forall_app; split; [done|by apply Forall_singleton]|]. apply Forall_app. split; [done|]. apply Forall_singleton.
    apply Hc2. unfold cancel' in Hz'. destruct (_ && _); [done|]. exact Hz'.
  - eexists _, _. rewrite bind_modify. split; [done|]. split; [done|]. exists kept. cbn. rewrite Hd2, Hu2. split; [|done].
    assert (Hid : ∀ l : list (zstr * zstr), name ∉ l.*1 → filter (λ f, f.1 ≠ name) l = l).
    { intros l Hl. apply filter_keeps, Forall_forall. intros f Hf E'. apply Hl. rewrite <-E'. by apply list_elem_of_fmap_2. }
    rewrite !filter_app, !Hid by done. rewrite filter_cons, decide_False by (intros H; by apply H). cbn. by rewrite (right_id_L [] (++)).
Qed.

Lemma sound_file_part d header param filename : sound d (file_part settings ini open_temporary write header param filename).
Proof.
  unfold file_part. apply sound_bind; [apply sound_quiet; auto with quiet|intros s]. apply sound_bind.
  { apply sound_quiet. destruct (negb (up_file_uploads ini)); [auto with quiet|]. case_match; [|auto with quiet].
    apply quiet_bind; [auto with quiet|]. intros _. apply quiet_report. }
  intros _. destruct filename as [filename|]; [|apply sound_quiet; apply quiet_bind; [apply quiet_report|auto with quiet]].
  apply sound_bind; [apply sound_quiet; destruct param; quietly|]. intros name.
  apply sound_bind; [apply sound_quiet; auto with quiet|]. intros _.
  apply sound_bind; [apply sound_quiet; auto with quiet|]. intros [|]; [apply sound_quiet; auto with quiet|].
  apply sound_bind; [apply sound_receive|]. intros r. apply sound_bind; [apply sound_quiet, quiet_entries|].
  intros _. apply sound_quiet. auto with quiet.
Qed.

Lemma sound_variable d param : sound d (form_variable settings param).
Proof.
  unfold form_variable. apply sound_bind.
  { apply sound_buffer. intros b _. apply read_body_ends. lia. }
  intros value. apply sound_quiet. apply quiet_bind; [auto with quiet|intros _]. apply quiet_bind; [auto with quiet|intros count].
  apply quiet_bind; [|intros p; destruct (zend_string_equals_ci p "MAX_FILE_SIZE"); auto with quiet].
  destruct (count <=? _)%Z; [apply quiet_register|]. apply quiet_bind; [|auto with quiet]. destruct (_ =? _)%Z; auto with quiet.
Qed.

Lemma parts_end d fuel : ∀ s, 0 < mb_bufsize (us_buffer s) → pending (us_buffer s) < fuel → accounted d s →
  ∃ s', parts_loop settings ini open_temporary write fuel s = Some (tt, s') ∧ accounted d s'.
Proof.
  induction fuel as [|fuel IH]; intros s Hz Hf Hs; [lia|]. cbn [parts_loop].
  destruct (multipart_buffer_eof (us_buffer s)) as [eof b1] eqn:Eeof.
  assert (Ha1 : advances (us_buffer s) b1).
  { unfold multipart_buffer_eof in Eeof. destruct (mb_data (us_buffer s)); [|by injection Eeof as <- <-].
    injection Eeof as <- <-. apply fill_advances. }
  rewrite (bind_runs _ _ s eof (s <| us_buffer := b1 |>)) by (apply on_buffer_run; by rewrite Eeof).
  destruct eof; [by eexists|]. assert (Hz1 : 0 < mb_bufsize b1) by by rewrite (adv_size _ _ Ha1).
  destruct (headers_end b1 Hz1) as (h & b2 & Eh & Ha2 & Hp2).
  rewrite (bind_runs _ _ _ h (s <| us_buffer := b2 |>)) by (by rewrite (on_buffer_run _ (s <| us_buffer := b1 |>) h b2)).
  destruct h as [header|]; [|by eexists]. specialize (Hp2 ltac:(eauto)).
  pose proof (advances_pending _ _ Ha1). set (s2 := s <| us_buffer := b2 |>).
  assert (Hz2 : 0 < mb_bufsize (us_buffer s2)) by (cbn; by rewrite (adv_size _ _ Ha2)).
  assert (Hs2 : accounted d s2) by exact Hs. assert (Hf2 : pending (us_buffer s2) < fuel) by (cbn; lia). clearbody s2.
  assert (Hnext : ∀ A (m : U A) (k : A → U unit), sound d m →
    (∀ a s', 0 < mb_bufsize (us_buffer s') → pending (us_buffer s') < fuel → accounted d s' → ∃ s'', k a s' = Some (tt, s'') ∧ accounted d s'') →
    ∃ s', (m ≫= k) s2 = Some (tt, s') ∧ accounted d s').
  { intros A m k Hm Hk. destruct (Hm s2 Hz2 Hs2) as (a & s3 & E & Ha & Hs3). rewrite (bind_runs _ _ _ _ _ E).
    pose proof (advances_pending _ _ Ha). apply Hk; [by rewrite (adv_size _ _ Ha)|lia|done]. }
  destruct (php_mime_get_hdr_value header "Content-Disposition") as [cd|]; [|by apply IH].
  destruct (disposition (S (length cd)) (drop_while is_space cd) None None) as [[param|] [filename|]];
    apply Hnext; try apply sound_file_part; try apply sound_variable; intros a s' Hz' Hf' Hs'; try (by apply IH);
    destruct a; (by apply IH) || by eexists.
Qed.
End ends.

Lemma unlink_each names d : foldl (λ d name, unlink name d) d names = Disk (filter (λ f, f.1 ∉ names) (dk_files d)).
Proof.
  revert d. induction names as [|n names IH]; intros [l]; cbn [foldl dk_files].
  - f_equal. induction l as [|f l IHl]; [done|]. rewrite filter_cons, decide_True by apply not_elem_of_nil. by f_equal.
  - rewrite IH. unfold unlink. cbn [dk_files]. rewrite list_filter_filter. f_equal. apply list_filter_iff.
    intros f. rewrite not_elem_of_cons. tauto.
Qed.

Lemma unlink_kept kept d s : dk_files (us_disk s) = dk_files d ++ kept → us_uploaded s = kept.*1 →
  Forall (λ n, n ∉ (dk_files d).*1) kept.*1 → destroy_uploaded_files_hash s = d.
Proof.
  intros Hd Hu Hnew. unfold destroy_uploaded_files_hash. rewrite unlink_each, Hd, Hu, filter_app. destruct d as [l]. cbn [dk_files] in *.
  f_equal. rewrite Forall_forall in Hnew.
  assert (Hl : filter (λ f, f.1 ∉ kept.*1) l = l).
  { apply filter_keeps, Forall_forall. intros f Hf Hin. apply (Hnew _ Hin). by apply list_elem_of_fmap_2. }
  rewrite Hl. etrans; [|apply (right_id_L [] (++))]. f_equal. apply filter_drops, Forall_forall.
  intros f Hf Hin. apply Hin. by apply list_elem_of_fmap_2.
Qed.

(** C7: The reader of a body of several parts ends on every body, in whatever pieces it comes:
    with any limits, any failure of the disk and any bytes.  The files that were on the disk
    are as they were, and what is there besides are the temporary files that are recorded,
    none larger than the limit: a file that is given up leaves nothing behind.  The end of
    the request removes them, and the disk is what it was before. *)
Theorem upload_accounted settings ini open_temporary write content_type content_length input array files d :
  (∀ d name, open_temporary d = Some name → name ∉ (dk_files d).*1) →
  ∃ s kept, rfc1867_post_handler settings ini open_temporary write content_type content_length input array files d = Some s ∧
    dk_files (us_disk s) = dk_files d ++ kept ∧ us_uploaded s = kept.*1 ∧
    Forall (λ f, (0 < up_max_filesize ini)%Z → (Z.of_nat (length f.2) ≤ up_max_filesize ini)%Z) kept ∧
    destroy_uploaded_files_hash s = d.
Proof.
  intros Hopen. assert (Hstart : ∀ b, accounted ini d (start_upload ini b array files d)).
  { intros b. exists []. cbn. by rewrite (right_id_L [] (++)). }
  assert (Hend : ∃ s, rfc1867_post_handler settings ini open_temporary write content_type content_length input array files d = Some s ∧
    accounted ini d s).
  { unfold rfc1867_post_handler. destruct (_ && _); [eexists; split; [done|apply Hstart]|].
    destruct (get_boundary (cstr content_type)) as [[boundary len]|text]; [|eexists; split; [done|apply Hstart]].
    set (mbuff := multipart_buffer_new boundary len input).
    destruct (parts_end settings ini open_temporary write Hopen d (S (pending mbuff)) (start_upload ini mbuff array files d))
      as (s & E & Hs); [cbn; lia|cbn; lia|apply Hstart|]. exists s. by rewrite E. }
  destruct Hend as (s & E & kept & Hd & Hu & Hnew & Hsize). exists s, kept. split_and!; [done..|].
  by apply (unlink_kept kept).
Qed.

(** A name longer than all the others *)
Definition long_name (d : disk) : option zstr := Some (replicate (S (sum_list (length <$> (dk_files d).*1))) "x"%char).
Lemma long_name_new d name : long_name d = Some name → name ∉ (dk_files d).*1.
Proof.
  intros E Hin. unfold long_name in E. generalize dependent ((dk_files d).*1). intros l [= <-].
  enough (H : ∀ w : zstr, w ∈ l → length w ≤ sum_list (length <$> l)).
  { intros Hin. specialize (H _ Hin). cbn [length] in H. rewrite length_replicate in H. lia. }
  induction l as [|v l IH]; intros w; [by intros ?%elem_of_nil|]. rewrite fmap_cons.
  change (sum_list (length v :: ?x)) with (length v + sum_list x). intros [->|Hw]%elem_of_cons; [lia|]. specialize (IH w Hw). lia.
Qed.

Lemma upload_accounted_witness :
  let d := Disk [(("/etc/x" : zstr), ("kept" : zstr))] in
  (∃ s kept, rfc1867_post_handler default_input (UploadSettings true 20 5 0) long_name write_all
      (tick "multipart/form-data; boundary=~XY~") 300 [sample_body] [] [] d = Some s ∧
    dk_files (us_disk s) = dk_files d ++ kept ∧ us_uploaded s = kept.*1 ∧
    Forall (λ f, (0 < 5)%Z → (Z.of_nat (length f.2) ≤ 5)%Z) kept ∧ destroy_uploaded_files_hash s = d) ∧
  (λ s, dk_files (us_disk s)) <$> rfc1867_post_handler default_input (UploadSettings true 20 5 0) long_name write_all
      (tick "multipart/form-data; boundary=~XY~") 300 [sample_body] [] [] d = Some (dk_files d).
Proof.
  split; [|by vm_compute]. apply (upload_accounted default_input (UploadSettings true 20 5 0)), long_name_new.
Defined.
