(* ===== verification/MultipartText.v ===== *)
(** * Forms of several parts, written and read

    What a client writes as [multipart/form-data], the handler of [Multipart] reads: the
    array of the fields, the files and what is said of them, in whatever pieces the body
    arrives. *)

From S2P Require Import Prelude Zend Numeric Url UrlCode Query Server Engine Request QueryText Multipart.

Open Scope zs_scope.

Abbreviation CRLF := [RETURN; NEWLINE].
#[local] Arguments FILLUNIT : simpl never.

(** ** Where a buffer is in the body *)

Record positioned (bd st : zstr) (b : multipart_buffer) : Prop := Positioned {
  ps_size : mb_bufsize b = FILLUNIT;
  ps_data : length (mb_data b) ≤ FILLUNIT;
  ps_input : Forall (λ c, c ≠ []) (mb_input b);
  ps_boundary : mb_boundary b = "--" ++ bd;
  ps_next : mb_boundary_next b = NEWLINE :: "--" ++ bd;
  ps_stream : stream b = st;
}.

Lemma read_post_all n input : Forall (λ c, c ≠ []) input →
  (read_post n input).1 = take n (mjoin input) ∧ Forall (λ c, c ≠ []) (read_post n input).2.
Proof.
  intros Hin. revert n. induction Hin as [|chunk input Hc Hin IH]; intros n; [by destruct n|].
  destruct n as [|n]; [split; [done|by constructor]|]. cbn [read_post]. destruct chunk as [|c chunk]; [done|].
  change (mjoin (?a :: ?b)) with (a ++ mjoin b). case_bool_decide as Hn.
  - specialize (IH (S n - length (c :: chunk))). destruct (read_post _ _) as [data rest]. cbn [fst snd] in *.
    destruct IH as [-> Hr]. split; [|done]. rewrite take_app. by rewrite (take_ge (c :: chunk)) by done.
  - cbn [fst snd]. split; [by rewrite take_app_le by lia|]. constructor; [|done]. intros E. apply (f_equal length) in E.
    rewrite length_drop in E. cbn [length] in *. lia.
Qed.

Lemma take_stream b : length (mb_data b) ≤ FILLUNIT →
  take FILLUNIT (stream b) = mb_data b ++ take (FILLUNIT - length (mb_data b)) (mjoin (mb_input b)).
Proof. intros Hl. unfold stream. rewrite take_app. by rewrite (take_ge (mb_data b)) by done. Qed.

Lemma fill_positioned bd st b : positioned bd st b → positioned bd st (fill_buffer b) ∧ mb_data (fill_buffer b) = take FILLUNIT st.
Proof.
  intros [Hs Hd Hi Hb Hn <-]. pose proof (fill_stream b) as Hst. unfold fill_buffer in *. rewrite Hs in *.
  destruct (read_post_all (FILLUNIT - length (mb_data b)) (mb_input b) Hi) as [E1 Hr].
  destruct (read_post _ _) as [data rest]. cbn [fst snd] in *. subst data. cbn. rewrite (take_stream b Hd).
  split; [|done]. split; cbn; try done. rewrite length_app, length_take. lia.
Qed.

(** The data of a buffer that was just filled, or is full. *)
Lemma data_prefix bd st b : positioned bd st b → mb_data b = take (length (mb_data b)) st.
Proof. intros [_ _ _ _ _ <-]. unfold stream. by rewrite take_app_length. Qed.

(** ** Lines *)

Lemma next_line_found b line more :
  mb_data b = line ++ NEWLINE :: more → NEWLINE ∉ line → next_line b = Some (cstr (chomp line), b <| mb_data := more |>).
Proof.
  intros E Hn. unfold next_line. rewrite E, break_at; [done| |done]. apply Forall_forall. intros c Hc. apply ceq_false. congruence.
Qed.

Lemma get_line_spec bd line rest b :
  positioned bd (line ++ NEWLINE :: rest) b → NEWLINE ∉ line → length line < FILLUNIT →
  ∃ b', get_line b = (Some (cstr (chomp line)), b') ∧ positioned bd rest b'.
Proof.
  intros Hp Hn Hl.
  assert (Hmove : ∀ b more, positioned bd (line ++ NEWLINE :: rest) b → mb_data b = line ++ NEWLINE :: more →
    positioned bd rest (b <| mb_data := more |>)).
  { intros b' more [Hs Hd Hi Hb Hnx Hst] E. split; try done; cbn.
    - rewrite E, length_app in Hd. cbn in Hd. lia.
    - unfold stream in *. cbn. rewrite E, <-(assoc_L (++)) in Hst. apply app_inj_1 in Hst as [_ [= Hst]]; [exact Hst|done]. }
  unfold get_line. destruct (decide (length line < length (mb_data b))) as [Hlong|Hshort].
  - pose proof (data_prefix _ _ _ Hp) as E. rewrite take_app in E. rewrite (take_ge line) in E by lia.
    destruct (length (mb_data b) - length line) as [|n] eqn:En; [lia|]. cbn [take] in E. rewrite (next_line_found b line _ E Hn).
    eexists. split; [done|]. by apply Hmove.
  - assert (next_line b = None) as ->.
    { unfold next_line. rewrite break_none.
      - rewrite bool_decide_true; [done|]. destruct Hp as [-> _ _ _ _ _]. lia.
      - pose proof (data_prefix _ _ _ Hp) as E. rewrite take_app_le in E by lia. rewrite E. apply Forall_take, Forall_forall.
        intros c Hc. apply ceq_false. congruence. }
    destruct (fill_positioned _ _ _ Hp) as [Hp' E]. rewrite take_app in E. rewrite (take_ge line) in E by lia.
    destruct (FILLUNIT - length line) as [|n] eqn:En; [lia|]. cbn [take] in E. cbv zeta.
    rewrite (next_line_found _ line _ E Hn). eexists. split; [done|]. by apply Hmove.
Qed.

Lemma chomp_return l : chomp (l ++ [RETURN]) = l.
Proof. unfold chomp. rewrite rev_app_distr. cbn. apply rev_involutive. Qed.

Lemma clean_chars l : clean l → (NEWLINE ∉ l) ∧ (RETURN ∉ l) ∧ cstr l = l.
Proof.
  intros Hl. split_and!; [| |by apply cstr_clean]; intros Hin; apply clean_forall in Hl; rewrite Forall_forall in Hl;
    specialize (Hl _ Hin); apply Hl; auto.
Qed.

Lemma get_crlf bd l rest b :
  positioned bd (l ++ CRLF ++ rest) b → clean l → S (length l) < FILLUNIT → ∃ b', get_line b = (Some l, b') ∧ positioned bd rest b'.
Proof.
  intros Hp Hc Hl. destruct (clean_chars l Hc) as (Hn & _ & Hcs).
  destruct (get_line_spec bd (l ++ [RETURN]) rest b) as (b' & E & Hp').
  - by rewrite <-(assoc_L (++)).
  - rewrite not_elem_of_app. split; [done|]. decided.
  - rewrite length_app. cbn [length]. lia.
  - exists b'. by rewrite E, chomp_return, Hcs.
Qed.

(** ** Boundaries and headers *)

Record boundary_ok (bd : zstr) : Prop := BoundaryOk {
  bo_clean : clean bd;
  bo_length : length bd ≤ 5 * 1000;
}.

Lemma boundary_line bd : boundary_ok bd → clean ("--" ++ bd) ∧ S (length ("--" ++ bd)) < FILLUNIT.
Proof. intros [Hc Hl]. split; [by apply clean_app|]. cbn [length Datatypes.app]. unfold FILLUNIT. lia. Qed.

Lemma find_boundary_spec bd lead rest b :
  boundary_ok bd → lead = [] ∨ lead = CRLF → positioned bd (lead ++ ("--" ++ bd) ++ CRLF ++ rest) b →
  ∃ b', find_boundary b (mb_boundary b) = Some (true, b') ∧ positioned bd rest b'.
Proof.
  intros Hbd Hlead Hp. destruct (boundary_line bd Hbd) as [Hc Hl]. unfold find_boundary. rewrite (ps_boundary _ _ _ Hp).
  assert (Hlast : ∀ fuel b, positioned bd (("--" ++ bd) ++ CRLF ++ rest) b →
    ∃ b', find_boundary_loop (S fuel) b ("--" ++ bd) = Some (true, b') ∧ positioned bd rest b').
  { intros fuel b0 Hp0. destruct (get_crlf _ _ _ _ Hp0 Hc Hl) as (b' & E & Hp'). exists b'. cbn [find_boundary_loop].
    rewrite E, bool_decide_true; [done|]. symmetry. by apply clean_chars. }
  destruct Hlead as [->| ->]; [by apply Hlast|].
  destruct (get_crlf bd [] _ b Hp) as (b1 & E & Hp1); [done|unfold FILLUNIT; cbn; lia|].
  assert (Hpend : 1 < S (pending b)) by (rewrite pending_stream, (ps_stream _ _ _ Hp); cbn; lia).
  destruct (pending b) as [|n]; [lia|]. cbn [find_boundary_loop]. rewrite E, bool_decide_false.
  - by apply (Hlast n).
  - intros E'. by rewrite (proj2 (proj2 (clean_chars _ Hc))) in E'.
Qed.

(** A header as it is written, and as it is kept. *)
Definition header_text (h : mime_header_entry) : zstr := h.1 ++ ": " ++ h.2.
Record plain_header (h : mime_header_entry) : Prop := PlainHeader {
  ph_clean : clean (header_text h);
  ph_key : COLON ∉ h.1;
  ph_first : ∃ c k, h.1 = c :: k ∧ is_space c = false;
  ph_value : drop_while is_space h.2 = h.2;
  ph_length : S (length (header_text h)) < FILLUNIT;
}.

Definition header_block (hs : list mime_header_entry) : zstr := mjoin (map (λ h, header_text h ++ CRLF) hs).

Lemma header_lines_spec bd rest hs : Forall plain_header hs → ∀ fuel b header entry,
  positioned bd (header_block hs ++ CRLF ++ rest) b → length hs < fuel →
  ∃ b', header_lines fuel b header entry = Some (header ++ from_option (λ e, [e]) [] entry ++ hs, b') ∧ positioned bd rest b'.
Proof.
  induction 1 as [|h hs Hh _ IH]; intros fuel b header entry Hp Hf; (destruct fuel as [|fuel]; [cbn in Hf; lia|]); cbn [header_lines].
  - destruct (get_crlf bd [] rest b Hp) as (b' & E & Hp'); [done|unfold FILLUNIT; cbn; lia|]. rewrite E. exists b'. split; [|done].
    rewrite (right_id_L [] (++)). destruct entry; cbn [from_option]; by rewrite ?(right_id_L [] (++)).
  - change (header_block (h :: hs)) with ((header_text h ++ CRLF) ++ header_block hs) in Hp. rewrite <-!(assoc_L (++)) in Hp.
    destruct Hh as [Hc Hk (c & k & Ek & Hsp) Hv Hl]. destruct (get_crlf _ _ _ _ Hp Hc Hl) as (b1 & E & Hp1). rewrite E.
    assert (Hb : break (ceq COLON) (header_text h) = (h.1, COLON :: " "%char :: h.2)).
    { unfold header_text. change (": " ++ ?x) with (COLON :: " "%char :: x). apply break_at; [|done].
      apply Forall_forall. intros d Hd. apply ceq_false. congruence. }
    assert (Ht : header_text h = c :: k ++ ": " ++ h.2) by (unfold header_text; by rewrite Ek).
    destruct (header_text h) as [|c' l]; [done|]. injection Ht as -> _. cbv beta iota. rewrite Hsp, Hb. cbn [fst snd drop_while].
    change (is_space " ") with true. cbv iota. rewrite Hv.
    destruct (IH fuel b1 (match entry with Some e => header ++ [e] | None => header end) (Some (h.1, h.2)) Hp1) as (b2 & E2 & Hp2); [cbn in Hf; lia|].
    exists b2. split; [|done].
    destruct h as [hk hv]. cbn [fst snd from_option] in *. etrans; [exact E2|]. do 2 f_equal.
    destruct entry as [e|]; cbn [from_option]; by rewrite <-?(assoc_L (++)).
Qed.

Lemma headers_spec bd lead hs rest b :
  boundary_ok bd → lead = [] ∨ lead = CRLF → Forall plain_header hs →
  positioned bd (lead ++ ("--" ++ bd) ++ CRLF ++ header_block hs ++ CRLF ++ rest) b →
  ∃ b', multipart_buffer_headers b = Some (Some hs, b') ∧ positioned bd rest b'.
Proof.
  intros Hbd Hlead Hhs Hp. unfold multipart_buffer_headers.
  destruct (find_boundary_spec bd lead _ b Hbd Hlead Hp) as (b1 & E1 & Hp1). rewrite E1. cbn [mbind option_bind].
  destruct (header_lines_spec bd rest hs Hhs (S (pending b1)) b1 [] None Hp1) as (b2 & E2 & Hp2).
  - rewrite pending_stream, (ps_stream _ _ _ Hp1), length_app. clear. induction hs as [|h hs IH]; [cbn; lia|].
    change (header_block (h :: hs)) with ((header_text h ++ CRLF) ++ header_block hs). rewrite !length_app in *. cbn [length] in *. lia.
  - rewrite E2. by exists b2.
Qed.

(** ** The search for a boundary *)

Definition agrees (needle haystack : zstr) (p : nat) : Prop :=
  take (length (drop p haystack)) needle = take (length needle) (drop p haystack).

Lemma memstr_first haystack needle :
  match php_ap_memstr haystack needle true with
  | Some p => p < length haystack ∧ agrees needle haystack p ∧ ∀ q, q < p → ¬ agrees needle haystack q
  | None => ∀ q, q < length haystack → ¬ agrees needle haystack q
  end.
Proof.
  induction haystack as [|c h IH]; [cbn; lia|]. cbn [php_ap_memstr]. case_bool_decide as Ha; cbn [andb orb].
  { split; [cbn; lia|]. split; [exact Ha|]. lia. }
  destruct (php_ap_memstr h needle true) as [p|]; cbn [fmap option_fmap option_map].
  - destruct IH as (Hp & Hag & Hq). split; [cbn; lia|]. split; [exact Hag|]. intros [|q] Hlt; [exact Ha|]. apply Hq. lia.
  - intros [|q] Hlt; [exact Ha|]. apply IH. cbn in Hlt. lia.
Qed.

Lemma memstr_found a needle c : needle ≠ [] → is_Some (php_ap_memstr (a ++ needle ++ c) needle false).
Proof.
  intros Hne. induction a as [|x a IH].
  - cbn [Datatypes.app]. destruct needle as [|y needle]; [done|]. cbn [Datatypes.app php_ap_memstr].
    change (y :: needle ++ c) with ((y :: needle) ++ c). rewrite bool_decide_true, bool_decide_true; [by eexists| |].
    + rewrite length_app. lia.
    + rewrite take_app_length, take_ge; [done|]. rewrite length_app. lia.
  - cbn [Datatypes.app php_ap_memstr]. destruct (_ && _); [by eexists|]. by apply fmap_is_Some.
Qed.

(** A value in which the boundary does not begin a line. *)
Definition no_boundary (bd v : zstr) : Prop := strstr v (NEWLINE :: "--" ++ bd) = None.

Lemma memstr_inside bd v rest p :
  boundary_ok bd → no_boundary bd v → p ≤ length v →
  ∀ n, p + length (NEWLINE :: "--" ++ bd) ≤ n →
  ¬ agrees (NEWLINE :: "--" ++ bd) (take n (v ++ RETURN :: (NEWLINE :: "--" ++ bd) ++ rest)) p.
Proof.
  intros Hbd Hv Hp n Hn. set (nd := NEWLINE :: "--" ++ bd) in *. set (T := v ++ RETURN :: nd ++ rest).
  intros Ha. assert (HT : p + length nd < length T) by (unfold T; rewrite length_app; cbn [length]; rewrite length_app; lia).
  assert (E : take (length nd) (drop p T) = nd).
  { unfold agrees in Ha. rewrite (take_ge nd) in Ha.
    - etrans; [|symmetry; exact Ha]. rewrite skipn_firstn_comm, take_take. f_equal. lia.
    - rewrite length_drop, length_take. lia. }
  assert (Hpre : v ++ [RETURN] = take (S (length v)) T).
  { unfold T. rewrite take_app. replace (S (length v) - length v) with 1 by lia. by rewrite take_ge by lia. }
  destruct (decide (p + length nd ≤ length v)) as [Hin|Hout].
  - assert (Hs : is_Some (php_ap_memstr v nd false)).
    { assert (v = take p v ++ nd ++ drop (p + length nd) v) as ->; [|apply memstr_found; unfold nd; congruence].
      rewrite <-(take_drop p v) at 1. f_equal. rewrite <-(take_drop (length nd) (drop p v)), drop_drop. f_equal.
      etrans; [|exact E]. unfold T. rewrite drop_app_le by lia. rewrite take_app_le; [done|]. rewrite length_drop. lia. }
    unfold no_boundary, strstr in Hv. fold nd in Hv. rewrite Hv in Hs. by destruct Hs.
  - assert (Hin : RETURN ∈ nd).
    { rewrite <-E. apply list_elem_of_lookup. exists (length v - p). rewrite lookup_take_lt by lia. rewrite lookup_drop.
      replace (p + (length v - p)) with (length v) by lia. unfold T. by rewrite lookup_app_r, Nat.sub_diag by lia. }
    unfold nd in Hin. apply elem_of_cons in Hin as [Hin|Hin]; [done|]. destruct (boundary_line bd Hbd) as [Hc _].
    by destruct (clean_chars _ Hc) as (_ & Hr & _).
Qed.

(** ** Reading up to the boundary *)

Definition ending (bd rest : zstr) : zstr := RETURN :: (NEWLINE :: "--" ++ bd) ++ rest.

(** What one read finds in the first bytes of the stream. *)
Record read_found (bd v rest data : zstr) (bound : option nat) : Prop := ReadFound {
  rf_some : ∀ p, bound = Some p → p ≤ FILLUNIT - 1 ∧ (p = S (length v) ∨ 2 ≤ p ≤ length v);
  rf_none : bound = None → FILLUNIT ≤ S (length v);
}.

Lemma search_spec bd v rest :
  boundary_ok bd → no_boundary bd v →
  let data := take FILLUNIT (v ++ ending bd rest) in
  read_found bd v rest data (php_ap_memstr data (NEWLINE :: "--" ++ bd) true).
Proof.
  intros Hbd Hv data. pose proof (memstr_first data (NEWLINE :: "--" ++ bd)) as Hm.
  assert (Hnd : 1 ≤ length (NEWLINE :: "--" ++ bd) ≤ 5 * 1000 + 3) by (destruct Hbd; cbn [length Datatypes.app]; lia).
  set (nd := NEWLINE :: "--" ++ bd) in *. unfold ending in *. fold nd in data.
  assert (HT : length (v ++ RETURN :: nd ++ rest) = length v + S (length nd + length rest))
    by (rewrite length_app; cbn [length]; by rewrite length_app).
  assert (HL : length data = Nat.min FILLUNIT (length v + S (length nd + length rest))) by (unfold data; by rewrite length_take, HT).
  assert (Hat : S (length v) < length data → agrees nd data (S (length v))).
  { intros _. unfold agrees, data. rewrite skipn_firstn_comm. change (v ++ RETURN :: nd ++ rest) with (v ++ [RETURN] ++ nd ++ rest).
    rewrite (assoc_L (++)). replace (S (length v)) with (length (v ++ [RETURN])) by (rewrite length_app; cbn; lia).
    rewrite drop_app_length, length_take, take_take. set (m := FILLUNIT - _).
    rewrite (Nat.min_comm m), length_app. destruct (decide (m ≤ length nd)).
    - rewrite !Nat.min_r by lia. by rewrite take_app_le by lia.
    - rewrite (Nat.min_l (length nd)) by lia. rewrite take_app_length. apply take_ge. lia. }
  assert (Hno : ∀ p, p ≤ length v → p + length nd ≤ FILLUNIT → ¬ agrees nd data p).
  { intros p Hp Hn. by apply memstr_inside. }
  split; unfold FILLUNIT in *.
  - intros p E. rewrite E in Hm. destruct Hm as (Hp & Ha & Hq). split; [lia|].
    destruct (decide (p ≤ length v)) as [Hle|Hgt].
    + right. split; [|done]. destruct (decide (p + length nd ≤ 1024 * 5)) as [Hin|]; [by destruct (Hno p Hle Hin)|lia].
    + left. destruct (decide (p = S (length v))) as [|Hne]; [done|]. exfalso. apply (Hq (S (length v))); [lia|]. apply Hat. lia.
  - intros E. rewrite E in Hm. destruct (decide (S (length v) < length data)) as [Hlt|]; [by destruct (Hm _ Hlt (Hat Hlt))|lia].
Qed.

Lemma chomp_short l : length l ≤ S (length (chomp l)).
Proof.
  unfold chomp. pose proof (length_rev l) as Hl. destruct (rev l) as [|c r]; [cbn in Hl; lia|]. cbn [length] in Hl.
  case_match; rewrite ?length_rev; lia.
Qed.

Lemma no_boundary_suffix bd a v : no_boundary bd (a ++ v) → no_boundary bd v.
Proof.
  unfold no_boundary, strstr. induction a as [|c a IH]; [done|]. cbn [Datatypes.app php_ap_memstr].
  destruct (_ && _); [done|]. by intros ?%fmap_None%IH.
Qed.

Lemma read_spec bd v rest b :
  boundary_ok bd → no_boundary bd v → positioned bd (v ++ ending bd rest) b →
  ∃ v1 v2 found b', multipart_buffer_read b FILLUNIT = (v1, found, b') ∧ v = v1 ++ v2 ∧ (v1 = [] → v = []) ∧
    (v = [] → found = true) ∧ positioned bd (v2 ++ ending bd rest) b'.
Proof.
  intros Hbd Hv Hp. set (T := v ++ ending bd rest) in *. unfold multipart_buffer_read.
  set (b1 := if bool_decide _ then fill_buffer b else b).
  assert (H1 : positioned bd T b1 ∧ mb_data b1 = take FILLUNIT T).
  { unfold b1. case_bool_decide as Hl; [by apply fill_positioned|]. split; [done|]. rewrite (data_prefix _ _ _ Hp). f_equal.
    pose proof (ps_data _ _ _ Hp). lia. }
  clearbody b1. destruct H1 as [Hp1 Ed]. rewrite Ed, (ps_next _ _ _ Hp1).
  pose proof (search_spec bd v rest Hbd Hv) as Hs. cbv zeta in Hs. fold T in Hs.
  set (bound := php_ap_memstr _ _ true) in *. set (found := match bound with Some _ => bool_decide _ | None => false end).
  destruct Hs as [Hsome Hnone].
  assert (HT : length T = length v + S (length (NEWLINE :: "--" ++ bd) + length rest))
    by (unfold T, ending; rewrite length_app; cbn [length]; by rewrite length_app).
  assert (Htake : ∀ n, n ≤ length v → take n T = take n v) by (intros n Hn; unfold T; by rewrite take_app_le).
  assert (Hmin : length (take FILLUNIT T) = Nat.min FILLUNIT (length T)) by apply length_take.
  assert (Hgo : ∀ v1 v2, v = v1 ++ v2 → length v1 ≤ FILLUNIT → positioned bd (v2 ++ ending bd rest) (b1 <| mb_data := drop (length v1) (take FILLUNIT T) |>)).
  { intros v1 v2 E Hv1. destruct Hp1 as [Hs1 Hd1 Hi1 Hb1 Hn1 Hst]. split; try done; cbn.
    - rewrite length_drop, length_take. lia.
    - unfold stream in *. cbn. rewrite Ed in Hst. unfold T in Hst at 2. rewrite E, <-(assoc_L (++)) in Hst.
      rewrite <-drop_app_le; [by rewrite Hst, drop_app_length|]. rewrite length_take, HT, E, length_app. lia. }
  assert (Hfound : v = [] → found = true).
  { intros ->. unfold found. destruct bound as [p|]; [|specialize (Hnone eq_refl); unfold FILLUNIT in Hnone; cbn in Hnone; lia].
    apply bool_decide_eq_true. unfold T, ending. set (nd := NEWLINE :: "--" ++ bd).
    change ([] ++ RETURN :: nd ++ rest) with ([RETURN] ++ nd ++ rest). rewrite (assoc_L (++)), take_app, take_ge.
    - rewrite <-(assoc_L (++)). apply memstr_found. unfold nd. congruence.
    - rewrite length_app. unfold nd, FILLUNIT. destruct Hbd. cbn [length Datatypes.app]. lia. }
  destruct bound as [p|].
  - destruct (Hsome p eq_refl) as [Hpl Hcase]. cbn [default from_option]. unfold id. rewrite Nat.min_l by lia.
    rewrite take_take, Nat.min_l by lia. destruct Hcase as [->|[Hp2 Hpv]].
    + assert (E : take (S (length v)) T = v ++ [RETURN]).
      { unfold T, ending. rewrite take_app. replace (S (length v) - length v) with 1 by lia. by rewrite take_ge by lia. }
      rewrite E, chomp_return. exists v, [], found. eexists. split; [done|]. split; [by rewrite (right_id_L [] (++))|]. split; [done|].
      split; [done|]. apply Hgo; [by rewrite (right_id_L [] (++))|lia].
    + rewrite Htake by done. destruct (chomp_prefix (take p v)) as [k Hk].
      assert (Hlen : p ≤ S (length (chomp (take p v)))).
      { assert (Hp' : p = length (take p v)) by (rewrite length_take; lia). rewrite Hp' at 1. apply chomp_short. }
      exists (chomp (take p v)), (k ++ drop p v), found. eexists. split; [done|].
      assert (Ev : v = chomp (take p v) ++ k ++ drop p v) by (by rewrite (assoc_L (++)), <-Hk, take_drop).
      split; [done|]. split; [intros E; rewrite E in Hlen; cbn in Hlen; lia|]. split; [done|].
      apply Hgo; [done|]. pose proof (chomp_length (take p v)) as Hc. rewrite length_take in Hc. lia.
  - specialize (Hnone eq_refl). cbn [default from_option]. rewrite take_take.
    replace (Nat.min (Nat.min (length (take FILLUNIT T)) (FILLUNIT - 1)) FILLUNIT) with (FILLUNIT - 1) by lia. rewrite Htake by lia.
    exists (take (FILLUNIT - 1) v), (drop (FILLUNIT - 1) v), found. eexists. split; [done|]. rewrite take_drop. split; [done|].
    assert (Hlt : length (take (FILLUNIT - 1) v) = FILLUNIT - 1) by (rewrite length_take; lia).
    split; [intros E; rewrite E in Hlt; unfold FILLUNIT in Hlt; cbn in Hlt; lia|]. split; [done|].
    apply Hgo; [by rewrite take_drop|lia].
Qed.

Lemma read_body_spec bd rest : boundary_ok bd → ∀ fuel v b out,
  no_boundary bd v → positioned bd (v ++ ending bd rest) b → length v < fuel →
  ∃ b', read_body_loop fuel b out = Some (out ++ v, b') ∧ positioned bd (ending bd rest) b'.
Proof.
  intros Hbd. induction fuel as [|fuel IH]; intros v b out Hv Hp Hf; [lia|]. cbn [read_body_loop].
  destruct (read_spec bd v rest b Hbd Hv Hp) as (v1 & v2 & found & b1 & -> & -> & Hne & _ & Hp1).
  destruct v1 as [|c v1].
  - specialize (Hne eq_refl). cbn in Hne. subst v2. exists b1. by rewrite !(right_id_L [] (++)).
  - destruct (IH v2 b1 (out ++ c :: v1)) as (b2 & E & Hp2); [by eapply no_boundary_suffix|done|rewrite length_app in Hf; cbn in Hf; lia|].
    exists b2. by rewrite E, <-(assoc_L (++)).
Qed.

(** ** What is said of a part *)

Definition quoted (s : zstr) : zstr := QUOTE :: s ++ [QUOTE].
Definition disposition_text (name : zstr) (filename : option zstr) : zstr :=
  "form-data; name=" ++ quoted name ++ match filename with Some f => "; filename=" ++ quoted f | None => [] end.

(** Text that stands for itself in quotes. *)
Definition quotable (s : zstr) : Prop := Forall (λ c, c ≠ QUOTE ∧ c ≠ BACKSLASH) s.

Definition unquoted (stop : ascii) (w : zstr) : bool := forallb (λ c, negb (ceq c stop || ceq c QUOTE || ceq c APOSTROPHE)) w.

Lemma word_plain stop w t : unquoted stop w = true → word_length None stop (w ++ t) = length w + word_length None stop t.
Proof.
  induction w as [|c w IH]; [done|]. cbn [unquoted forallb]. intros [Hc Hw]%andb_true_iff. cbn [Datatypes.app word_length length].
  rewrite !negb_orb in Hc. apply andb_true_iff in Hc as [[Hs%negb_true_iff Hq%negb_true_iff]%andb_true_iff Ha%negb_true_iff].
  rewrite Hs, Hq, Ha. cbn [orb]. by rewrite IH.
Qed.

Lemma word_in_quotes stop s t : quotable s →
  word_length (Some QUOTE) stop (s ++ QUOTE :: t) = S (length s) + word_length None stop t.
Proof.
  induction 1 as [|c s [Hq Hb] _ IH]; [done|]. cbn [Datatypes.app word_length]. rewrite (proj2 (ceq_false c QUOTE) Hq).
  destruct (s ++ QUOTE :: t) as [|d l] eqn:E; [by destruct s|]. rewrite (proj2 (ceq_false c BACKSLASH) Hb). cbn [andb].
  rewrite IH. done.
Qed.

Lemma word_quoted stop s t : stop ≠ QUOTE → quotable s →
  word_length None stop (quoted s ++ t) = length (quoted s) + word_length None stop t.
Proof.
  intros Hstop Hs. unfold quoted. cbn [Datatypes.app word_length]. rewrite (proj2 (ceq_false QUOTE stop)) by done.
  change (ceq QUOTE QUOTE) with true. cbn [orb]. rewrite <-(assoc_L (++)). cbn [Datatypes.app]. rewrite word_in_quotes by done.
  cbn [length]. rewrite length_app. cbn. lia.
Qed.

Lemma getword_at w t stop : word_length None stop (w ++ t) = length w → php_ap_getword (w ++ t) stop = (w, drop_while (ceq stop) t).
Proof. intros E. unfold php_ap_getword. by rewrite E, take_app_length, drop_app_length. Qed.

Lemma conf_quoted s : quotable s → php_ap_getword_conf (quoted s) = s.
Proof.
  intros Hs. unfold php_ap_getword_conf, quoted. cbn [drop_while]. change (is_space QUOTE) with false. cbv iota.
  change (ceq QUOTE QUOTE) with true. cbn [orb]. induction Hs as [|c s [Hq Hb] _ IH]; [done|]. cbn [Datatypes.app substring_conf].
  rewrite bool_decide_false by congruence. destruct (s ++ [QUOTE]) as [|d l] eqn:E; [by destruct s|].
  rewrite (proj2 (ceq_false c BACKSLASH) Hb). cbn [andb]. by f_equal.
Qed.

(** A pair of a key and quoted text *)
Lemma item_read key s t : unquoted ";"%char key = true → unquoted EQUALS key = true → quotable s →
  word_length None ";"%char ((key ++ EQUALS :: quoted s) ++ t) = length (key ++ EQUALS :: quoted s) + word_length None ";"%char t ∧
  php_ap_getword (key ++ EQUALS :: quoted s) EQUALS = (key, quoted s).
Proof.
  intros Hk1 Hk2 Hs. split.
  - rewrite <-(assoc_L (++)). rewrite word_plain by done. rewrite length_app. cbn [length]. rewrite <-Nat.add_assoc. f_equal.
    change ((EQUALS :: quoted s) ++ t) with ([EQUALS] ++ quoted s ++ t). rewrite word_plain, word_quoted by done. done.
  - rewrite getword_at; [done|]. rewrite word_plain by done. cbn [word_length]. rewrite ceq_refl. lia.
Qed.

Lemma disposition_pair fuel key s rest param filename :
  unquoted ";"%char key = true → unquoted EQUALS key = true → quotable s → word_length None ";"%char rest = 0 →
  let cd := drop_while is_space (drop_while (ceq ";"%char) rest) in
  disposition (S fuel) ((key ++ EQUALS :: quoted s) ++ rest) param filename =
  if zend_string_equals_ci key "name" then disposition fuel cd (Some s) filename
  else if zend_string_equals_ci key "filename" then disposition fuel cd param (Some s)
  else disposition fuel cd param filename.
Proof.
  intros Hk1 Hk2 Hs Hr cd. destruct (item_read key s rest Hk1 Hk2 Hs) as [Ew Ek]. rewrite Hr, Nat.add_0_r in Ew.
  assert (Hin : EQUALS ∈ key ++ EQUALS :: quoted s) by (apply elem_of_app; right; left).
  pose proof (getword_at _ _ _ Ew) as Eg. clear Ew.
  destruct ((key ++ EQUALS :: quoted s) ++ rest) as [|c l] eqn:E; [by destruct key|]. cbn [disposition]. rewrite Eg, Ek, bool_decide_true by done. cbn [negb]. by rewrite conf_quoted.
Qed.

Lemma disposition_read fuel name filename :
  quotable name → quotable (default [] filename) → 3 < fuel →
  disposition fuel (disposition_text name filename) None None = (Some name, filename).
Proof.
  intros Hn Hf Hfuel. do 4 (destruct fuel as [|fuel]; [lia|]). unfold disposition_text.
  change ("form-data; name=" ++ ?l) with ("form-data" ++ ("; name=" ++ l)).
  assert (Hfirst : ∀ t, disposition (S (S (S (S fuel)))) ("form-data" ++ ("; name=" ++ t)) None None =
    disposition (S (S (S fuel))) (("name" ++ [EQUALS]) ++ t) None None) by done.
  rewrite Hfirst. rewrite (assoc_L (++) _ (quoted name)).
  change (("name" ++ [EQUALS]) ++ quoted name) with ("name" ++ EQUALS :: quoted name).
  destruct filename as [f|]; rewrite disposition_pair by done.
  - change (zend_string_equals_ci "name" "name") with true. cbv iota.
    change (drop_while is_space (drop_while (ceq ";"%char) ("; filename=" ++ quoted f))) with ("filename" ++ EQUALS :: quoted f).
    rewrite <-(right_id_L [] (++) ("filename" ++ _)), disposition_pair by done. done.
  - done.
Qed.

(** ** Names that are kept *)

(** A path that a form can name: what a query string can, without blanks at the start of a
    key, quotes and backslashes, and not too long for a line. *)
Record form_path (ks : list hkey) : Prop := FormPath {
  fp_keys : match ks with k :: ks' => top_key k ∧ Forall inner_key ks' | [] => False end;
  fp_blank : Forall (λ k, from_option index_blank false (head (key_text k)) = false) (tail ks);
  fp_clean : clean (path_name ks);
  fp_quotable : quotable (path_name ks);
  fp_length : length (path_name ks) ≤ 3 * 1000;
}.

Lemma top_chars k : top_key k → key_text k ≠ [] ∧ Forall (λ c, c ≠ " "%char ∧ c ≠ "."%char ∧ c ≠ LBRACKET) (key_text k).
Proof.
  intros Hk. destruct (key_text_chars _ _ Hk) as [Hne Hc]; [set_solver|]. split; [done|].
  eapply Forall_impl; [exact Hc|]. intros c Hin. set_solver.
Qed.
Lemma inner_chars k : inner_key k → key_text k ≠ [] ∧ Forall (λ c, c ≠ RBRACKET) (key_text k).
Proof.
  intros [Hk _]. destruct (key_text_chars _ _ Hk) as [Hne Hc]; [set_solver|]. split; [done|].
  eapply Forall_impl; [exact Hc|]. intros c Hin. set_solver.
Qed.

Lemma path_break k ks : top_key k →
  break (ceq LBRACKET) (path_name (k :: ks)) = (key_text k, bracketed key_text "[" "]" ks).
Proof.
  intros Hk. destruct (top_chars k Hk) as [_ Hc]. unfold path_name.
  assert (Hfree : Forall (λ c, ceq LBRACKET c = false) (key_text k)).
  { eapply Forall_impl; [exact Hc|]. intros c (_ & _ & H). apply ceq_false. congruence. }
  destruct ks as [|k' ks]; [change (bracketed key_text "[" "]" []) with (@nil ascii); rewrite (right_id_L [] (++)); by apply break_none|].
  by apply break_at.
Qed.

Lemma normalize_index_keeps fuel k ks :
  inner_key k → Forall inner_key ks → Forall (λ k, from_option index_blank false (head (key_text k)) = false) (k :: ks) →
  length ks < fuel →
  normalize_index fuel (key_text k ++ "]" ++ bracketed key_text "[" "]" ks) = key_text k ++ "]" ++ bracketed key_text "[" "]" ks.
Proof.
  revert k ks. induction fuel as [|fuel IH]; intros k ks Hk Hks Hb Hf; [lia|]. apply Forall_cons in Hb as [Hb Hbs].
  destruct (inner_chars k Hk) as [Hne Hc]. cbn [normalize_index].
  assert (drop_while index_blank (key_text k ++ "]" ++ bracketed key_text "[" "]" ks) = key_text k ++ "]" ++ bracketed key_text "[" "]" ks) as ->.
  { destruct (key_text k) as [|c s]; [done|]. by apply drop_while_false. }
  change ("]" ++ ?l) with (RBRACKET :: l). rewrite break_at; [|eapply Forall_impl; [exact Hc|]; intros c Hn; apply ceq_false; congruence|done].
  destruct ks as [|k' ks]; [done|]. apply Forall_cons in Hks as [Hk' Hks].
  change (bracketed key_text "[" "]" (k' :: ks)) with (LBRACKET :: (key_text k' ++ "]") ++ bracketed key_text "[" "]" ks).
  rewrite <-!(assoc_L (++)). rewrite (IH k' ks Hk' Hks Hbs) by (cbn in Hf; lia). done.
Qed.

Lemma normalize_keeps ks : form_path ks → normalize_protected_variable (path_name ks) = path_name ks.
Proof.
  intros [Hks Hb _ _ _]. destruct ks as [|k ks]; [done|]. destruct Hks as [Hk Hks]. cbn [tail] in Hb.
  unfold normalize_protected_variable. destruct (top_chars k Hk) as [Hne Hc].
  assert (drop_while (ceq " "%char) (path_name (k :: ks)) = path_name (k :: ks)) as ->.
  { unfold path_name. destruct (key_text k) as [|c s]; [done|]. apply Forall_cons in Hc as [(Hsp & _) _].
    apply drop_while_false, ceq_false. congruence. }
  rewrite path_break by done.
  assert (map (λ c, if ceq c " " || ceq c "." then "_"%char else c) (key_text k) = key_text k) as ->.
  { rewrite <-(map_id (key_text k)) at 2. apply map_ext_Forall. eapply Forall_impl; [exact Hc|]. intros c (H1 & H2 & _).
    by rewrite !(proj2 (ceq_false c _)). }
  unfold path_name. f_equal. destruct ks as [|k' ks]; [done|]. apply Forall_cons in Hks as [Hk' Hks].
  change (bracketed key_text "[" "]" (k' :: ks)) with (LBRACKET :: (key_text k' ++ "]") ++ bracketed key_text "[" "]" ks).
  rewrite <-!(assoc_L (++)). f_equal. apply normalize_index_keeps; [done..|]. rewrite !length_app. cbn [length].
  clear. induction ks as [|k ks IH]; [cbn; lia|].
  change (bracketed key_text "[" "]" (k :: ks)) with (LBRACKET :: (key_text k ++ "]") ++ bracketed key_text "[" "]" ks).
  cbn [length]. rewrite !length_app. cbn [length]. lia.
Qed.

(** ** Receiving a file *)

Lemma append_last name content w (l : list (zstr * zstr)) : name ∉ l.*1 →
  map (λ f, if bool_decide (f.1 = name) then (f.1, f.2 ++ w) else f) (l ++ [(name, content)]) = l ++ [(name, content ++ w)].
Proof.
  intros Hn. rewrite map_app. cbn [map fst snd]. rewrite bool_decide_true by done. f_equal.
  induction l as [|[n v] l IH]; [done|]. rewrite fmap_cons in Hn. apply not_elem_of_cons in Hn as [Hne Hn].
  cbn [map fst snd]. rewrite bool_decide_false by (cbn in Hne; congruence). by rewrite IH.
Qed.

Section client.
Context (settings : input_settings) (ini : upload_settings).
Context (open_temporary : disk → option zstr) (write : disk → zstr → zstr → Z).
Context (bd : zstr) (Hbd : boundary_ok bd).
(** Every file can be made, under a new name, and written. *)
Context (Hopens : ∀ d, ∃ name, open_temporary d = Some name ∧ name ∉ (dk_files d).*1).
Context (Hwrite : ∀ d name buff, write d name buff = Z.of_nat (length buff)).

(** The size is below the limit, if there is one. *)
Definition size_ok (n : nat) : Prop := (0 < up_max_filesize ini)%Z → (Z.of_nat n ≤ up_max_filesize ini)%Z.

Lemma write_file_run rest name old : name ∉ old.*1 → ∀ fuel v1 v2 fin s content,
  positioned bd (v2 ++ ending bd rest) (us_buffer s) → no_boundary bd v2 → (v1 = [] → v2 = [] ∧ fin = true) →
  (if bool_decide (v1 = []) then 0 else 1) + length v2 < fuel → dk_files (us_disk s) = old ++ [(name, content)] → us_max_file_size s = 0%Z →
  size_ok (length content + length v1 + length v2) →
  ∃ b', write_loop ini write fuel name v1 fin (Z.of_nat (length content)) s =
      Some (Z.of_nat (length content + length v1 + length v2), 0%Z, true,
            (s <| us_buffer := b' |> <| us_disk := Disk (old ++ [(name, content ++ v1 ++ v2)]) |>)) ∧
    positioned bd (ending bd rest) b'.
Proof.
  intros Hname. induction fuel as [|fuel IH]; intros v1 v2 fin s content Hp Hv Hfin Hf Hd Hm Hsize; [lia|].
  destruct v1 as [|c v1].
  { destruct (Hfin eq_refl) as [-> ->]. exists (us_buffer s). cbn [write_loop length Datatypes.app]. rewrite !Nat.add_0_r, !(right_id_L [] (++)).
    split; [|done]. rewrite <-Hd. destruct s as [? ? ? ? ? [?] ? ? ? ? ? ? ?]. done. }
  rewrite bool_decide_false in Hf by done. cbn [write_loop]. rewrite bind_gets. unfold id. cbv zeta. rewrite Hm.
  assert (Hlarge : (0 <? up_max_filesize ini)%Z && (up_max_filesize ini <? Z.of_nat (length content) + Z.of_nat (length (c :: v1)))%Z = false).
  { unfold size_ok in Hsize. destruct (Z.ltb_spec 0 (up_max_filesize ini)); [|done]. apply Z.ltb_ge. specialize (Hsize ltac:(done)). lia. }
  rewrite Hlarge. cbn [negb Z.eqb andb]. rewrite Hwrite, (proj2 (Z.ltb_lt 0 (Z.of_nat (length (c :: v1))))) by (cbn [length]; lia).
  rewrite bind_assoc, bind_modify, Z.ltb_irrefl, bind_ret. cbn [fst snd].
  rewrite Nat2Z.id, firstn_all. set (s1 := s <| us_disk := _ |>).
  assert (Hd1 : dk_files (us_disk s1) = old ++ [(name, content ++ c :: v1)]) by (cbn; by rewrite Hd, append_last).
  destruct (read_spec bd v2 rest (us_buffer s1) Hbd Hv Hp) as (w1 & w2 & found & b2 & E2 & -> & Hne & Hfound & Hp2).
  rewrite (bind_runs _ _ s1 (w1, found) (s1 <| us_buffer := b2 |>)) by (apply on_buffer_run; by rewrite E2).
  cbn [fst snd Z.eqb]. rewrite <-Nat2Z.inj_add, <-length_app. rewrite length_app in Hf, Hsize. cbn [length] in Hf, Hsize.
  destruct (IH w1 w2 (fin || found) (s1 <| us_buffer := b2 |>) (content ++ c :: v1)) as (b3 & E3 & Hp3).
  - exact Hp2.
  - by eapply no_boundary_suffix.
  - intros ->. specialize (Hne eq_refl). cbn in Hne. subst w2. split; [done|]. rewrite (Hfound eq_refl). apply orb_true_r.
  - destruct w1; [specialize (Hne eq_refl); cbn in Hne; subst w2|]; cbn [length] in Hf |- *; case_bool_decide; lia || done.
  - exact Hd1.
  - done.
  - unfold size_ok in *. rewrite length_app. cbn [length]. intros H0. specialize (Hsize H0). lia.
  - exists b3. split; [|exact Hp3]. rewrite E3. rewrite !length_app. cbn [length]. rewrite <-(assoc_L (++)).
    do 2 f_equal. do 3 f_equal. lia.
Qed.

(** A file that is received: its name on the disk. *)
Lemma receive_run rest filename v s :
  filename ≠ [] → positioned bd (v ++ ending bd rest) (us_buffer s) → no_boundary bd v → us_max_file_size s = 0%Z → size_ok (length v) →
  ∃ name b', (name ∉ (dk_files (us_disk s)).*1) ∧
    receive_file ini open_temporary write filename s =
      Some (Some name, Z.of_nat (length v), 0%Z,
            (s <| us_upload_cnt := (us_upload_cnt s - 1)%Z |> <| us_buffer := b' |>
              <| us_disk := Disk (dk_files (us_disk s) ++ [(name, v)]) |>
              <| us_uploaded := if decide (name ∈ us_uploaded s) then us_uploaded s else us_uploaded s ++ [name] |>)) ∧
    positioned bd (ending bd rest) b'.
Proof.
  intros Hne Hp Hv Hm Hsize. destruct (Hopens (us_disk s)) as (name & Eo & Hname).
  destruct (read_spec bd v rest (us_buffer s) Hbd Hv Hp) as (v1 & v2 & found & b1 & E1 & -> & Hv1 & Hfound & Hp1).
  unfold receive_file. destruct filename as [|c filename]; [done|].
  rewrite (bind_runs _ _ s (v1, found) (s <| us_buffer := b1 |>)) by (apply on_buffer_run; by rewrite E1).
  rewrite bind_gets, bind_modify. cbv beta. change (us_disk (s <| us_buffer := b1 |>)) with (us_disk s). rewrite Eo, bind_modify, bind_gets.
  set (s2 := upd _ (upd _ _)). cbv beta. cbn [fst snd].
  destruct (write_file_run rest name (dk_files (us_disk s)) Hname (S (S (pending (us_buffer s2)))) v1 v2 found s2 []) as (b3 & E3 & Hp3).
  - exact Hp1.
  - by eapply no_boundary_suffix.
  - intros ->. specialize (Hv1 eq_refl). cbn in Hv1. subst v2. by rewrite (Hfound eq_refl).
  - change (us_buffer s2) with b1. rewrite pending_stream, (ps_stream _ _ _ Hp1), length_app. case_bool_decide; lia.
  - done.
  - exact Hm.
  - by rewrite length_app in Hsize.
  - exists name, b3. split; [done|]. split; [|exact Hp3]. change (Z.of_nat (length (@nil ascii))) with 0%Z in E3.
    rewrite (bind_runs _ _ _ _ _ E3). cbn [Z.eqb negb andb]. cbv iota. rewrite bind_modify. cbn [length Nat.add]. by rewrite <-length_app.
Qed.

(** ** Registering *)

Context (Hnest : (1 ≤ max_input_nesting_level settings)%Z).

Definition set_table (files : bool) (ht : htab zval) (s : upload_state) : upload_state :=
  if files then s <| us_files := ht |> else s <| us_array := ht |>.
Definition the_table (files : bool) (s : upload_state) : htab zval := if files then us_files s else us_array s.

Lemma register_run files k ks v (o : bool) s :
  form_path (k :: ks) → (Z.of_nat (length ks) ≤ max_input_nesting_level settings)%Z → (o = true ∨ path_name (k :: ks) ∉ us_protected s) →
  safe_php_register_variable_ex settings files (path_name (k :: ks)) v o s =
    Some (path_name (k :: ks), set_table files (put k ks v (the_table files s)) s).
Proof.
  intros Hks Hl Ho. pose proof (normalize_keeps _ Hks) as En. destruct Hks as [[Hk Hks] _ _ _ _].
  assert (E : ∀ ht, php_register_variable_ex settings plain_track (path_name (k :: ks)) v ht = (put k ks v ht, []))
    by (intros ht; by apply register_value).
  unfold safe_php_register_variable_ex, is_protected_variable. rewrite En. replace (if o then path_name (k :: ks) else path_name (k :: ks)) with
    (path_name (k :: ks)) by by destruct o.
  rewrite bind_gets. assert (Hgo : o || negb (bool_decide (path_name (k :: ks) ∈ us_protected s)) = true).
  { destruct Ho as [->|Ho]; [done|]. rewrite bool_decide_false by done. apply orb_true_r. }
  rewrite Hgo, bind_assoc, bind_gets. unfold id. change (if files then us_files s else us_array s) with (the_table files s). rewrite E.
  rewrite bind_modify. cbn [map]. rewrite (right_id_L [] (++)). by destruct files, s.
Qed.

Lemma protect_run ks s : form_path ks → path_name ks ∉ us_protected s →
  add_protected_variable (path_name ks) s = Some (path_name ks, s <| us_protected := us_protected s ++ [path_name ks] |>).
Proof. intros Hks Hn. unfold add_protected_variable. by rewrite normalize_keeps, bind_modify, decide_False by done. Qed.

(** ** The entries of a file *)

Record upload := Upload { ul_key : hkey; ul_filename : zstr; ul_type : zstr; ul_content : zstr }.
Definition ul_name (u : upload) : zstr := key_text (ul_key u).

Definition upload_entry (u : upload) (tmp_name : zstr) : zval :=
  ZArr [(KStr "name", ZStr (php_ap_basename (ul_filename u))); (KStr "type", ZStr (ul_type u)); (KStr "tmp_name", ZStr tmp_name);
        (KStr "error", ZLong 0); (KStr "size", ZLong (Z.of_nat (length (ul_content u))))].

Definition upload_headers (u : upload) : list mime_header_entry :=
  [(("Content-Disposition" : zstr), disposition_text (ul_name u) (Some (ul_filename u))); (("Content-Type" : zstr), ul_type u)].

Record upload_ok (u : upload) : Prop := UploadOk {
  uo_key : top_key (ul_key u);
  uo_name : clean (ul_name u) ∧ quotable (ul_name u) ∧ length (ul_name u) ≤ 2 * 1000 ∧ (RBRACKET ∉ ul_name u);
  uo_filename : ul_filename u ≠ [] ∧ clean (ul_filename u) ∧ quotable (ul_filename u) ∧ length (ul_filename u) ≤ 2 * 1000;
  uo_type : clean (ul_type u) ∧ drop_while is_space (ul_type u) = ul_type u ∧ free_of ";"%char (ul_type u) ∧ length (ul_type u) ≤ 2 * 1000;
  uo_content : no_boundary bd (ul_content u);
  uo_size : size_ok (length (ul_content u));
}.

Definition entry_keys : list zstr := ["name"; "type"; "tmp_name"; "error"; "size"].

Lemma entry_path u x llen : upload_ok u → x ∈ entry_keys → length (ul_name u) + 12 ≤ llen →
  entry_name llen None (ul_name u) x = path_name [ul_key u; KStr x] ∧ form_path [ul_key u; KStr x].
Proof.
  intros Hu Hx Hl. destruct (uo_name u Hu) as (Hc & Hq & Hlen & _).
  assert (Ex : path_name [ul_key u; KStr x] = ul_name u ++ "[" ++ x ++ "]").
  { unfold path_name, bracketed. cbn [map key_text]. change (mjoin [?a]) with (a ++ []). by rewrite (right_id_L [] (++)). }
  assert (Hprop : inner_key (KStr x) ∧ clean x ∧ quotable x ∧ length x ≤ 8 ∧ index_blank (default " "%char (head x)) = false ∧ x ≠ []).
  { clear Ex. revert x Hx. apply Forall_forall. unfold entry_keys. repeat constructor; try done; try decided; cbn; lia. }
  destruct Hprop as (Hin & Hcx & Hqx & Hlx & Hbx & Hnx). split.
  - unfold entry_name. rewrite slprintf_fits; [by rewrite Ex|]. rewrite !length_app. cbn [length]. lia.
  - split.
    + split; [apply Hu|by apply Forall_singleton].
    + cbn [tail]. apply Forall_singleton. cbn [key_text]. by destruct x.
    + rewrite Ex. rewrite !clean_app. split_and!; [done|done|done|done].
    + rewrite Ex. unfold quotable in *. rewrite !Forall_app. split_and!; [done|by repeat constructor|done|by repeat constructor].
    + rewrite Ex, !length_app. cbn [length]. lia.
Qed.

(** What the names of files protect: themselves and where the temporary file is named. *)
Definition protected (names : list zstr) : list zstr := flat_map (λ n, [n; n ++ "[tmp_name]"]) names.

Lemma protected_base names x : Forall (λ n, LBRACKET ∉ n) names → x ∈ protected names → (break (ceq LBRACKET) x).1 ∈ names.
Proof.
  intros Hn. unfold protected. induction Hn as [|n names Hn _ IH]; [by intros ?%elem_of_nil|]. cbn [flat_map].
  assert (Hf : Forall (λ c, ceq LBRACKET c = false) n) by (apply Forall_forall; intros c Hc; apply ceq_false; congruence).
  intros [->|[->|Hx]%elem_of_cons]%elem_of_cons; [|cbn [Datatypes.app]|].
  - rewrite break_none by done. by left.
  - change (n ++ "[tmp_name]") with (n ++ LBRACKET :: "tmp_name]"). rewrite break_at by done. by left.
  - right. by apply IH.
Qed.

Lemma path_not_protected names k ks : Forall (λ n, LBRACKET ∉ n) names → top_key k → key_text k ∉ names →
  path_name (k :: ks) ∉ protected names.
Proof. intros Hn Hk Hin Hp. apply Hin. pose proof (protected_base names _ Hn Hp) as Hb. by rewrite path_break in Hb. Qed.

Lemma own_not_protected k x : top_key k → x ≠ "tmp_name" → path_name [k; KStr x] ∉ [key_text k; path_name [k; KStr "tmp_name"]].
Proof.
  intros Hk Hx. destruct (top_chars k Hk) as [_ Hc]. rewrite not_elem_of_cons, list_elem_of_singleton. split.
  - intros E. pose proof (path_break k [KStr x] Hk) as Hb. rewrite E, break_none in Hb; [by injection Hb|].
    eapply Forall_impl; [exact Hc|]. intros c (_ & _ & H). apply ceq_false. congruence.
  - intros E. unfold path_name, bracketed in E. cbn [map key_text] in E. apply app_inv_head in E.
    change (mjoin [?a]) with (a ++ []) in E. rewrite !(right_id_L [] (++)) in E.
    change ("[" ++ x ++ "]" = "[" ++ "tmp_name" ++ "]") in E. apply app_inv_head in E. by apply app_inv_tail in E.
Qed.

Lemma put_new k x v ht : k ∉ hkeys ht → put k [x] v ht = ht ++ [(k, ZArr [(x, v)])].
Proof.
  intros Hk. cbn [put]. unfold sub_table. rewrite (proj2 (hfind_None k ht) Hk). cbn [hupdate]. by rewrite hupdate_new.
Qed.
Lemma put_again k x v ht sub : k ∉ hkeys ht → x ∉ hkeys sub → put k [x] v (ht ++ [(k, ZArr sub)]) = ht ++ [(k, ZArr (sub ++ [(x, v)]))].
Proof.
  intros Hk Hx. rewrite <-(hupdate_new k (ZArr sub) ht Hk). cbn [put]. unfold sub_table.
  rewrite hfind_hupdate_eq, hupdate_twice, (hupdate_new x v sub Hx). by rewrite hupdate_new.
Qed.

(** The first computation runs as an equation says. *)
Tactic Notation "step_with" uconstr(E) := etransitivity; [eapply bind_runs; refine E|cbv beta].

Lemma entries_run u tmp names s :
  upload_ok u → us_protected s = protected names → Forall (λ n, LBRACKET ∉ n) names → ul_name u ∉ names → ul_key u ∉ hkeys (us_files s) →
  ∃ llen, file_entries settings (upload_headers u) (ul_name u) (ul_filename u) (Some tmp) (Z.of_nat (length (ul_content u))) 0 s =
    Some (tt, s <| us_llen := llen |> <| us_files := us_files s ++ [(ul_key u, upload_entry u tmp)] |>
                <| us_protected := protected (names ++ [ul_name u]) |>).
Proof.
  intros Hu Hprot Hnames Hnew Hkey. pose proof (uo_key u Hu) as Hk. destruct (top_chars _ Hk) as [_ Hchars].
  assert (Hnobr : LBRACKET ∉ ul_name u).
  { intros Hin. unfold ul_name in Hin. rewrite Forall_forall in Hchars. by destruct (Hchars _ Hin) as (_ & _ & ?). }
  assert (Harr : array_upload (ul_name u) = None).
  { unfold array_upload. rewrite break_none; [done|]. apply Forall_forall. intros c Hc. apply ceq_false. congruence. }
  set (llen := if bool_decide (us_llen s < length (ul_name u) + MAX_SIZE_OF_INDEX + 1) then length (ul_name u) + (MAX_SIZE_OF_INDEX + 1) else us_llen s).
  assert (Hllen : length (ul_name u) + 12 ≤ llen) by (unfold llen, MAX_SIZE_OF_INDEX; case_bool_decide; lia).
  assert (Hpath : ∀ x, x ∈ entry_keys → entry_name llen None (ul_name u) x = path_name [ul_key u; KStr x] ∧ form_path [ul_key u; KStr x])
    by (intros x Hx; by apply entry_path).
  destruct (Hpath "name") as [E1 F1]; [decided|]. destruct (Hpath "type") as [E2 F2]; [decided|].
  destruct (Hpath "tmp_name") as [E3 F3]; [decided|]. destruct (Hpath "error") as [E4 F4]; [decided|].
  destruct (Hpath "size") as [E5 F5]; [decided|]. clear Hpath.
  exists llen. unfold file_entries. rewrite Harr, bind_modify, bind_gets. cbv beta.
  set (s1 := if bool_decide _ then _ else _). pose (s0 := s <| us_llen := llen |>).
  assert (Es1 : s1 = s0) by (unfold s1, s0, llen; by destruct (bool_decide _), s).
  rewrite Es1. clear Es1 s1. change (us_llen s0) with llen. cbv zeta. rewrite E1.
  assert (Hbase : ∀ x, path_name [ul_key u; KStr x] ∉ protected names) by (intros x; apply path_not_protected; [exact Hnames|exact Hk|exact Hnew]).
  assert (Hreg : ∀ x v (o : bool) s', form_path [ul_key u; KStr x] → o = true ∨ path_name [ul_key u; KStr x] ∉ us_protected s' →
    safe_php_register_variable_ex settings true (path_name [ul_key u; KStr x]) v o s' =
    Some (path_name [ul_key u; KStr x], s' <| us_files := put (ul_key u) [KStr x] v (us_files s') |>)).
  { intros x v o s' F Ho. by apply (register_run true _ [KStr x] v o s' F Hnest). }
  assert (Hown : ∀ x, x ≠ "tmp_name" → path_name [ul_key u; KStr x] ∉ protected names ++ [ul_name u; path_name [ul_key u; KStr "tmp_name"]]).
  { intros x Hx. rewrite not_elem_of_app. split; [apply Hbase|by apply own_not_protected]. }
  assert (Hin : ∀ x s', us_protected s' = protected names → path_name [ul_key u; KStr x] ∉ us_protected s') by (intros x s' ->; apply Hbase).
  step_with (Hreg "name" _ false s0 F1 (or_intror (Hin "name" s0 Hprot))).
  set (s1 := upd _ s0). change (php_mime_get_hdr_value (upload_headers u) "Content-Type") with (Some (ul_type u)).
  destruct (uo_type u Hu) as (_ & _ & Htype & _). cbn [Z.eqb default from_option]. unfold id. rewrite (break_none _ (ul_type u)).
  2:{ eapply Forall_impl; [exact Htype|]. intros c Hc. apply ceq_false. apply ceq_false in Hc. congruence. }
  rewrite E2. cbn [fst].
  step_with (Hreg "type" _ false s1 F2 (or_intror (Hin "type" s1 Hprot))).
  set (s2 := upd _ s1).
  assert (En : path_name [ul_key u] = ul_name u) by (unfold path_name; apply (right_id_L [] (++))).
  assert (Fn : form_path [ul_key u]).
  { destruct (uo_name u Hu) as (? & ? & ? & _). split; rewrite ?En; try done; lia. }
  assert (Hp2 : us_protected s2 = protected names) by exact Hprot.
  assert (Eadd : add_protected_variable (ul_name u) s2 = Some (ul_name u, s2 <| us_protected := protected names ++ [ul_name u] |>)).
  { rewrite <-Hp2, <-En. apply protect_run; [done|]. rewrite Hp2. apply path_not_protected; [exact Hnames|exact Hk|exact Hnew]. }
  step_with Eadd. set (s3 := upd _ s2). rewrite E3.
  assert (Eadd2 : add_protected_variable (path_name [ul_key u; KStr "tmp_name"]) s3 =
    Some (path_name [ul_key u; KStr "tmp_name"], s3 <| us_protected := protected names ++ [ul_name u; path_name [ul_key u; KStr "tmp_name"]] |>)).
  { change [ul_name u; ?x] with ([ul_name u] ++ [x]). rewrite (assoc_L (++)). apply (protect_run _ s3 F3).
    change (us_protected s3) with (protected names ++ [ul_name u]). rewrite not_elem_of_app, list_elem_of_singleton. split; [apply Hbase|]. intros E. rewrite <-En in E. apply (f_equal (break (ceq LBRACKET))) in E.
    by rewrite !path_break in E. }
  step_with Eadd2. set (s4 := upd _ s3).
  step_with (Hreg "tmp_name" _ true s4 F3 (or_introl eq_refl)). set (s5 := upd _ s4). rewrite E4.
  step_with (Hreg "error" _ false s5 F4 (or_intror (Hown "error" ltac:(done)))). set (s6 := upd _ s5). rewrite E5.
  step_with (Hreg "size" _ false s6 F5 (or_intror (Hown "size" ltac:(done)))).
  match goal with |- mret tt ?s' = _ => assert (Efiles : us_files s' = us_files s ++ [(ul_key u, upload_entry u tmp)]) end.
  { cbn -[put]. rewrite (put_new (ul_key u) (KStr "name") _ (us_files s) Hkey).
    do 4 (rewrite (put_again (ul_key u) _ _ (us_files s) _ Hkey); [|decided]; cbn [Datatypes.app]). done. }
  assert (Hprots : protected (names ++ [ul_name u]) = protected names ++ [ul_name u; path_name [ul_key u; KStr "tmp_name"]]).
  { unfold protected. rewrite flat_map_app. cbn [flat_map Datatypes.app]. do 3 f_equal. }
  rewrite Hprots, <-Efiles. by destruct s.
Qed.

(** ** The parts of a form *)

Inductive form_part := Field (path : list hkey) (value : zstr) | File (u : upload).

Definition part_headers (p : form_part) : list mime_header_entry :=
  match p with
  | Field ks _ => [(("Content-Disposition" : zstr), disposition_text (path_name ks) None)]
  | File u => upload_headers u
  end.
Definition part_content (p : form_part) : zstr := match p with Field _ v => v | File u => ul_content u end.

Record part_ok (p : form_part) : Prop := PartOk {
  po_content : no_boundary bd (part_content p);
  po_kind : match p with
            | Field ks _ => form_path ks ∧ (Z.of_nat (length (tail ks)) ≤ max_input_nesting_level settings)%Z ∧
                            zend_string_equals_ci (path_name ks) "MAX_FILE_SIZE" = false
            | File u => upload_ok u
            end;
}.

(** What a client writes. *)
Fixpoint form_text (ps : list form_part) : zstr :=
  ("--" ++ bd) ++ match ps with
                  | [] => "--" ++ CRLF
                  | p :: ps' => CRLF ++ header_block (part_headers p) ++ CRLF ++ part_content p ++ CRLF ++ form_text ps'
                  end.

Definition field_of (p : form_part) : option (list hkey * zstr) := match p with Field ks v => Some (ks, v) | File _ => None end.
Definition file_of (p : form_part) : option upload := match p with Field _ _ => None | File u => Some u end.

Lemma disposition_header name filename :
  clean name → length name ≤ 3 * 1000 → clean (default [] filename) → length (default [] filename) ≤ 2 * 1000 →
  plain_header (("Content-Disposition" : zstr), disposition_text name filename).
Proof.
  intros Hc Hl Hcf Hlf.
  assert (Hq : ∀ s, clean s → clean (quoted s)) by (intros s Hs; apply (clean_app [QUOTE]); split; [done|]; by apply clean_app).
  split.
  - unfold header_text, disposition_text. cbn [fst snd]. rewrite !clean_app. split_and!; [done..|by apply Hq|].
    destruct filename; [|done]. rewrite clean_app. split; [done|by apply Hq].
  - decided.
  - by eexists _, _.
  - done.
  - unfold header_text, disposition_text, quoted, FILLUNIT. cbn [fst snd]. rewrite !length_app. cbn [length]. rewrite length_app. cbn [length].
    destruct filename as [f|]; cbn [default from_option] in *; unfold id in *; rewrite ?length_app; cbn [length]; rewrite ?length_app; cbn [length]; lia.
Qed.

Lemma type_header u : upload_ok u → plain_header (("Content-Type" : zstr), ul_type u).
Proof.
  intros Hu. destruct (uo_type u Hu) as (Hc & Hsp & _ & Hl). split; [|decided|by eexists _, _|done|].
  - unfold header_text. cbn [fst snd]. by rewrite !clean_app.
  - unfold header_text, FILLUNIT. cbn [fst snd]. rewrite !length_app. cbn [length]. lia.
Qed.

Lemma part_headers_ok p : part_ok p → Forall plain_header (part_headers p).
Proof.
  intros [_ Hk]. destruct p as [ks v|u]; cbn [part_headers].
  - destruct Hk as [[_ _ Hc _ Hl] _]. apply Forall_singleton. apply disposition_header; done || (cbn; lia).
  - destruct (uo_name u Hk) as (Hc & _ & Hl & _), (uo_filename u Hk) as (_ & Hcf & _ & Hlf).
    constructor; [|by apply Forall_singleton, type_header]. apply disposition_header; cbn; unfold id; done || lia.
Qed.

(** ** Going on to the next part *)

Lemma eof_run st b : positioned bd st b → st ≠ [] → ∃ b', multipart_buffer_eof b = (false, b') ∧ positioned bd st b'.
Proof.
  intros Hp Hne. unfold multipart_buffer_eof. destruct (mb_data b); [|by exists b].
  destruct (fill_positioned _ _ _ Hp) as [Hp' E]. exists (fill_buffer b). cbv zeta. rewrite E, bool_decide_false; [done|].
  destruct st; [done|]. unfold FILLUNIT. done.
Qed.

Lemma get_line_end b : positioned bd [] b → (get_line b).1 = None.
Proof.
  assert (Hnone : ∀ b, positioned bd [] b → next_line b = None).
  { intros b' Hp. unfold next_line. rewrite (data_prefix _ _ _ Hp), take_nil. cbn [break]. rewrite bool_decide_true; [done|].
    rewrite (ps_size _ _ _ Hp). unfold FILLUNIT. cbn [length]. lia. }
  intros Hp. unfold get_line. rewrite (Hnone b Hp). cbv zeta. by rewrite (Hnone _ (proj1 (fill_positioned _ _ _ Hp))).
Qed.

(** Behind the last boundary there is no part. *)
Lemma closing_run lead b : lead = [] ∨ lead = CRLF → positioned bd (lead ++ ("--" ++ bd) ++ "--" ++ CRLF) b →
  ∃ b', multipart_buffer_headers b = Some (None, b').
Proof.
  intros Hlead Hp. unfold multipart_buffer_headers. destruct (boundary_line bd Hbd) as [Hc Hl]. destruct Hbd as [Hcb Hlb].
  rewrite (ps_boundary _ _ _ Hp). unfold find_boundary.
  assert (Hlast : ∀ fuel b, positioned bd (("--" ++ bd) ++ "--" ++ CRLF) b →
    ∃ b', find_boundary_loop (S (S fuel)) b ("--" ++ bd) = Some (false, b')).
  { intros fuel b0 Hp0. rewrite (assoc_L (++)), <-(right_id_L [] (++) CRLF) in Hp0.
    destruct (get_crlf bd (("--" ++ bd) ++ "--") [] b0 Hp0) as (b1 & E & Hp1).
    - by rewrite clean_app.
    - rewrite !length_app. cbn [length]. unfold FILLUNIT. lia.
    - cbn [find_boundary_loop]. rewrite E, bool_decide_false.
      + pose proof (get_line_end b1 Hp1) as En. destruct (get_line b1) as [l b2]. cbn [fst] in En. subst l. by exists b2.
      + intros E'. apply (f_equal length) in E'. rewrite (proj2 (proj2 (clean_chars _ Hc))), length_app in E'. cbn [length] in E'. lia. }
  assert (Hpend : 4 < S (pending b)) by (rewrite pending_stream, (ps_stream _ _ _ Hp), !length_app; cbn [length]; lia).
  destruct (pending b) as [|[|[|n]]]; try lia. destruct Hlead as [->| ->].
  - destruct (Hlast (S (S n)) b Hp) as (b' & E). exists b'. by rewrite E.
  - destruct (get_crlf bd [] _ b Hp) as (b1 & E1 & Hp1); [done|unfold FILLUNIT; cbn; lia|].
    destruct (Hlast (S n) b1 Hp1) as (b' & E). exists b'. cbn [find_boundary_loop] in E |- *. rewrite E1, bool_decide_false; [by rewrite E|].
    intros E'. by rewrite (proj2 (proj2 (clean_chars _ Hc))) in E'.
Qed.

(** ** What has been read *)

Record has_read (old : list (zstr * zstr)) (fields : list (list hkey * zstr)) (files : list (upload * zstr)) (s : upload_state) : Prop := HasRead {
  hr_array : us_array s = foldl put_path [] fields;
  hr_files : us_files s = map (λ f, (ul_key f.1, upload_entry f.1 f.2)) files;
  hr_protected : us_protected s = protected (map (λ f, ul_name f.1) files);
  hr_disk : dk_files (us_disk s) = old ++ map (λ f, (f.2, ul_content f.1)) files;
  hr_uploaded : us_uploaded s = files.*2;
  hr_cnt : us_upload_cnt s = (up_max_file_uploads ini - Z.of_nat (length files))%Z;
  hr_max : us_max_file_size s = 0%Z;
  hr_count : us_count s = Z.of_nat (length fields);
  hr_skip : us_skip_upload s = false;
  hr_notices : us_notices s = [];
  hr_ok : Forall (λ f, upload_ok f.1) files;
}.

Lemma names_plain (files : list (upload * zstr)) :
  Forall (λ f, upload_ok f.1) files → Forall (λ n, LBRACKET ∉ n) (map (λ f, ul_name f.1) files).
Proof.
  intros Hall. apply List.Forall_map. eapply Forall_impl; [exact Hall|]. intros f Hf Hin.
  destruct (top_chars _ (uo_key _ Hf)) as [_ Hc]. rewrite Forall_forall in Hc. by destruct (Hc _ Hin) as (_ & _ & ?).
Qed.

Lemma variable_run rest k ks v s old fields files :
  part_ok (Field (k :: ks) v) → key_text k ∉ map (λ f : upload * zstr, ul_name f.1) files →
  (Z.of_nat (S (length fields)) ≤ max_input_vars settings)%Z →
  positioned bd (v ++ ending bd rest) (us_buffer s) → has_read old fields files s →
  ∃ s', form_variable settings (path_name (k :: ks)) s = Some (tt, s') ∧ positioned bd (ending bd rest) (us_buffer s') ∧
    has_read old (fields ++ [(k :: ks, v)]) files s'.
Proof.
  intros [Hv (Hks & Hl & Hmax)] Hk Hc Hp Hr. cbn [part_content tail] in *.
  destruct (read_body_spec bd rest Hbd (S (pending (us_buffer s))) v (us_buffer s) [] Hv Hp) as (b & E & Hp').
  { rewrite pending_stream, (ps_stream _ _ _ Hp), length_app. lia. }
  unfold form_variable. rewrite (bind_runs _ _ s v (s <| us_buffer := b |>)) by (apply on_buffer_run; exact E).
  rewrite bind_modify, bind_gets. set (s1 := upd _ (upd _ s)). cbv beta.
  assert (Hcount : us_count s1 = Z.of_nat (S (length fields))) by (cbn; rewrite (hr_count _ _ _ _ Hr); lia).
  rewrite Hcount. rewrite (proj2 (Z.leb_le _ _) Hc).
  assert (Hreg : safe_php_register_variable_ex settings false (path_name (k :: ks)) (ZStr v) false s1 =
    Some (path_name (k :: ks), set_table false (put k ks (ZStr v) (us_array s1)) s1)).
  { apply (register_run false k ks (ZStr v) false s1 Hks Hl). right. change (us_protected s1) with (us_protected s).
    rewrite (hr_protected _ _ _ _ Hr). apply path_not_protected; [apply names_plain, Hr|by destruct Hks as [[? _] _ _ _ _]|done]. }
  rewrite (bind_runs _ _ _ _ _ Hreg). rewrite Hmax. eexists. split; [done|]. split; [exact Hp'|].
  destruct Hr. split; cbn; try done.
  - rewrite foldl_app. cbn. by rewrite hr_array0.
  - rewrite length_app. cbn. lia.
Qed.

Lemma brackets_none c s : (LBRACKET ∉ s) → (RBRACKET ∉ s) → (0 ≤ c)%Z → brackets_ok c s = (c =? 0)%Z.
Proof.
  revert c. induction s as [|d s IH]; intros c; [done|]. intros [H1 Hs1]%not_elem_of_cons [H2 Hs2]%not_elem_of_cons Hc. cbn [brackets_ok].
  rewrite (proj2 (ceq_false d LBRACKET)), (proj2 (ceq_false d RBRACKET)) by congruence. cbn [andb].
  rewrite (proj2 (Z.ltb_ge c 0) Hc). by apply IH.
Qed.

Lemma file_run rest u s old fields files :
  upload_ok u → up_file_uploads ini = true → (Z.of_nat (S (length files)) ≤ up_max_file_uploads ini)%Z →
  ul_name u ∉ map (λ f : upload * zstr, ul_name f.1) files →
  positioned bd (ul_content u ++ ending bd rest) (us_buffer s) → has_read old fields files s →
  ∃ tmp s', file_part settings ini open_temporary write (upload_headers u) (Some (ul_name u)) (Some (ul_filename u)) s = Some (true, s') ∧
    positioned bd (ending bd rest) (us_buffer s') ∧ has_read old fields (files ++ [(u, tmp)]) s'.
Proof.
  intros Hu Hon Hmax Hnew Hp Hr. unfold file_part. rewrite bind_gets. unfold id. cbv beta. rewrite Hon. cbn [negb].
  rewrite (hr_cnt _ _ _ _ Hr), (proj2 (Z.leb_gt _ _)) by lia. rewrite bind_ret, bind_ret. cbv beta.
  destruct (uo_name u Hu) as (_ & _ & _ & Hrb).
  assert (Hlb : LBRACKET ∉ ul_name u).
  { destruct (top_chars _ (uo_key u Hu)) as [_ Hc]. intros Hb. rewrite Forall_forall in Hc. by destruct (Hc _ Hb) as (_ & _ & ?). }
  rewrite bind_modify, brackets_none by done. cbn [Z.eqb negb]. rewrite (hr_skip _ _ _ _ Hr). cbn [orb].
  set (s1 := s <| us_skip_upload := false |>). rewrite bind_gets. change (us_skip_upload s1) with false. cbv iota beta.
  destruct (receive_run rest (ul_filename u) (ul_content u) s1) as (tmp & b & Htmp & E & Hp2).
  { apply Hu. } { exact Hp. } { apply Hu. } { exact (hr_max _ _ _ _ Hr). } { apply Hu. }
  rewrite (bind_runs _ _ _ _ _ E). set (s2 := upd _ (upd _ (upd _ (upd _ s1)))). cbv beta. cbn [fst snd].
  assert (Hold : tmp ∉ us_uploaded s1).
  { intros Hin. apply Htmp. change (us_disk s1) with (us_disk s). change (us_uploaded s1) with (us_uploaded s) in Hin.
    rewrite (hr_uploaded _ _ _ _ Hr) in Hin. apply list_elem_of_fmap in Hin as ([u' t] & -> & Hin).
    rewrite (hr_disk _ _ _ _ Hr), fmap_app. apply elem_of_app. right. rewrite list_elem_of_fmap. exists (t, ul_content u').
    split; [done|]. apply list_elem_of_In, in_map_iff. exists (u', t). by rewrite <-list_elem_of_In. }
  destruct (entries_run u tmp (map (λ f, ul_name f.1) files) s2 Hu) as [llen E2].
  { exact (hr_protected _ _ _ _ Hr). } { by apply names_plain, Hr. } { done. }
  { change (us_files s2) with (us_files s). rewrite (hr_files _ _ _ _ Hr). intros (f & Hf & Hin)%list_elem_of_fmap. apply Hnew.
    apply list_elem_of_In, in_map_iff in Hin as (g & <- & Hg). apply list_elem_of_In, in_map_iff. exists g. split; [|done].
    unfold ul_name. by rewrite Hf. }
  rewrite (bind_runs _ _ _ _ _ E2). exists tmp. eexists. split; [done|]. split; [exact Hp2|].
  destruct Hr. split; cbn; rewrite ?map_app, ?fmap_app; try done.
  - by rewrite hr_files0.
  - rewrite hr_disk0. by rewrite <-(assoc_L (++)).
  - rewrite decide_False by done. by rewrite hr_uploaded0.
  - rewrite hr_cnt0, length_app. cbn. lia.
  - apply Forall_app. split; [done|]. by apply Forall_singleton.
Qed.

(** ** All parts *)

(** No name is that of two files, or of a file and a field. *)
Definition apart (fields : list (list hkey * zstr)) (files : list upload) : Prop :=
  NoDup (ul_name <$> files) ∧
  Forall (λ f, match f.1 with k :: _ => key_text k ∉ ul_name <$> files | [] => False end) fields.

Record form_fits (fields : list (list hkey * zstr)) (files : list upload) : Prop := FormFits {
  ff_apart : apart fields files;
  ff_fields : (Z.of_nat (length fields) ≤ max_input_vars settings)%Z;
  ff_files : (Z.of_nat (length files) ≤ up_max_file_uploads ini)%Z;
  ff_uploads : files = [] ∨ up_file_uploads ini = true;
}.

Lemma buffer_then {A B} (f : multipart_buffer → option (A * multipart_buffer)) (k : A → U B) s b a b' :
  f b = Some (a, b') → (on_buffer f ≫= k) (s <| us_buffer := b |>) = k a (s <| us_buffer := b' |>).
Proof. intros E. apply bind_runs. rewrite (on_buffer_run _ _ a b') by done. done. Qed.

Lemma names_of x (files : list (upload * zstr)) : x ∈ map (λ f, ul_name f.1) files → x ∈ ul_name <$> files.*1.
Proof. by rewrite <-list_fmap_compose. Qed.

Lemma form_more ps : ∃ more, form_text ps = ("--" ++ bd) ++ more.
Proof. destruct ps; by eexists. Qed.

Lemma headers_read p : ∃ cd, php_mime_get_hdr_value (part_headers p) "Content-Disposition" = Some cd ∧
  cd = match p with Field ks _ => disposition_text (path_name ks) None | File u => disposition_text (ul_name u) (Some (ul_filename u)) end.
Proof. destruct p; by eexists. Qed.

Lemma disposition_part p : part_ok p → ∃ cd, php_mime_get_hdr_value (part_headers p) "Content-Disposition" = Some cd ∧
  disposition (S (length cd)) (drop_while is_space cd) None None =
    match p with Field ks _ => (Some (path_name ks), None) | File u => (Some (ul_name u), Some (ul_filename u)) end.
Proof.
  intros [_ Hk]. destruct (headers_read p) as (cd & E & ->). eexists. split; [exact E|]. destruct p as [ks v|u].
  - destruct Hk as [[_ _ _ Hq _] _]. change (drop_while is_space (disposition_text ?n ?f)) with (disposition_text n f).
    apply disposition_read; [done|by constructor|]. unfold disposition_text. cbn [length Datatypes.app]. lia.
  - change (drop_while is_space (disposition_text ?n ?f)) with (disposition_text n f).
    apply disposition_read; [apply Hk|apply Hk|]. unfold disposition_text. cbn [length Datatypes.app]. lia.
Qed.

Lemma parts_run old ps : Forall part_ok ps → ∀ fuel lead s fields files,
  length ps < fuel → lead = [] ∨ lead = CRLF → positioned bd (lead ++ form_text ps) (us_buffer s) → has_read old fields files s →
  form_fits (fields ++ omap field_of ps) (files.*1 ++ omap file_of ps) →
  ∃ more s', parts_loop settings ini open_temporary write fuel s = Some (tt, s') ∧ more.*1 = omap file_of ps ∧
    has_read old (fields ++ omap field_of ps) (files ++ more) s'.
Proof.
  induction 1 as [|p ps Hpart Hps IH]; intros fuel lead s fields files Hf Hlead Hp Hr Hfit; (destruct fuel as [|fuel]; [lia|]); cbn [parts_loop].
  all: destruct (eof_run _ _ Hp) as (b1 & E1 & Hp1); [by destruct Hlead as [->| ->]|].
  all: rewrite (bind_runs _ _ s false (s <| us_buffer := b1 |>)) by (apply on_buffer_run; by rewrite E1); cbv iota.
  - destruct (closing_run lead b1 Hlead Hp1) as [b2 E2].
    rewrite (buffer_then _ _ _ _ _ _ E2).
    exists [], (s <| us_buffer := b2 |>). split; [done|]. split; [done|]. cbn [omap list_omap].
    rewrite !(right_id_L [] (++)). by destruct Hr.
  - cbn [form_text] in Hp1. destruct (form_more ps) as [more Emore].
    assert (Hend : CRLF ++ form_text ps = ending bd more) by (by rewrite Emore).
    destruct (headers_spec bd lead (part_headers p) (part_content p ++ ending bd more) b1 Hbd Hlead (part_headers_ok p Hpart)) as (b2 & E2 & Hp2).
    { by rewrite <-Hend. }
    rewrite (buffer_then _ _ _ _ _ _ E2).
    assert (Hr2 : has_read old fields files (s <| us_buffer := b2 |>)) by (by destruct Hr).
    set (s2 := s <| us_buffer := b2 |>) in *. change (us_buffer s2) with b2 in Hp2. change b2 with (us_buffer s2) in Hp2. clearbody s2.
    destruct (disposition_part p Hpart) as (cd & -> & ->). cbn [omap list_omap] in Hfit |- *.
    assert (Hnext : ∀ s3 fields' files', positioned bd (ending bd more) (us_buffer s3) → has_read old fields' files' s3 →
      form_fits (fields' ++ omap field_of ps) (files'.*1 ++ omap file_of ps) →
      ∃ more s', parts_loop settings ini open_temporary write fuel s3 = Some (tt, s') ∧ more.*1 = omap file_of ps ∧
        has_read old (fields' ++ omap field_of ps) (files' ++ more) s').
    { intros s3 fields' files' Hp3 Hr3 Hfit3. apply (IH fuel CRLF); [cbn in Hf; lia|by right|by rewrite Hend|done|done]. }
    pose proof Hfit as [[Hnd Hap] Hcf Hcu Hup]. destruct p as [[|k ks] v|u]; cbn [field_of file_of] in *.
    + by destruct Hpart as [_ [[? _ _ _ _] _]].
    + apply Forall_app in Hap as [Hap1 [Hk Hap2]%Forall_cons]. cbn [fst] in Hk. rewrite !length_app in Hcf. cbn [length] in Hcf.
      destruct (variable_run more k ks v s2 old fields files Hpart) as (s3 & E3 & Hp3 & Hr3).
      { rewrite fmap_app in Hk. intros Hin%names_of. by apply Hk, elem_of_app; left. }
      { lia. } { exact Hp2. } { exact Hr2. }
      rewrite (bind_runs _ _ _ _ _ E3). destruct (Hnext s3 _ _ Hp3 Hr3) as (more' & s' & E' & Hm & Hr').
      { rewrite <-(assoc_L (++)). split; try done; [|rewrite !length_app; cbn [length]; lia]. split; [done|]. apply Forall_app. split; [done|].
        by apply Forall_cons. }
      exists more', s'. rewrite <-(assoc_L (++)) in Hr'. done.
    + rewrite length_app in Hcu. cbn [length] in Hcu. rewrite length_fmap in Hcu. destruct Hpart as [_ Hu].
      destruct (file_run more u s2 old fields files Hu) as (tmp & s3 & E3 & Hp3 & Hr3).
      { by destruct Hup as [Hup|]; [destruct files|]. } { lia. }
      { rewrite fmap_app in Hnd. apply NoDup_app in Hnd as (_ & Hd & _). intros Hin%names_of. apply (Hd (ul_name u)); [done|by left]. }
      { exact Hp2. } { exact Hr2. }
      rewrite (bind_runs _ _ _ _ _ E3). cbv iota. destruct (Hnext s3 _ _ Hp3 Hr3) as (more' & s' & E' & Hm & Hr').
      { rewrite fmap_app, <-(assoc_L (++)). done. }
      exists ((u, tmp) :: more'), s'. rewrite <-(assoc_L (++)) in Hr'. split; [done|]. split; [|done]. rewrite fmap_cons. cbn [fst]. by rewrite Hm.
Qed.
End client.

(** ** The claim *)

Definition form_type (bd : zstr) : zstr := "multipart/form-data; boundary=" ++ bd.

(** A boundary that can stand in the header as it is *)
Definition token (bd : zstr) : Prop := Forall (λ c, c ≠ QUOTE ∧ c ≠ ","%char ∧ c ≠ ";"%char) bd.

Lemma boundary_read bd : token bd → get_boundary (form_type bd) = inl (bd, length bd).
Proof.
  intros Hbd. unfold get_boundary, form_type.
  assert (strstr ("multipart/form-data; boundary=" ++ bd) "boundary" = Some 21) as -> by done.
  assert (list_find (λ c, c = EQUALS) (drop 21 ("multipart/form-data; boundary=" ++ bd)) = Some (8, EQUALS)) as E by done.
  cbn [mbind option_bind]. rewrite E. clear E. change (drop _ _) with bd. destruct bd as [|c bd]; [done|].
  pose proof Hbd as [(Hq & _) _]%Forall_cons. rewrite (proj2 (ceq_false c QUOTE) Hq). rewrite break_none; [done|].
  eapply Forall_impl; [exact Hbd|]. intros d (_ & H1 & H2). by rewrite !(proj2 (ceq_false d _)).
Qed.

Lemma form_parts bd ps : length ps ≤ length (form_text bd ps).
Proof.
  induction ps as [|p ps IH]; [cbn; lia|]. cbn [form_text length]. rewrite !length_app in *. cbn [length]. lia.
Qed.

Lemma start_positioned bd input : boundary_ok bd → Forall (λ c, c ≠ []) input →
  positioned bd (mjoin input) (multipart_buffer_new bd (length bd) input).
Proof. intros [_ Hl] Hin. split; cbn [multipart_buffer_new mb_bufsize mb_data]; try done; unfold FILLUNIT; cbn [length]; lia. Qed.

(** C6: A form that a client writes as several parts is read as it was meant, in whatever pieces
    it arrives: the fields are the array that they were written for, with every byte of their
    values, each file is on the disk byte for byte under a new name, and what [_FILES] says of
    it is its name, its type, where it is, and its size, without an error; what was on the
    disk is as it was. *)
Theorem multipart_roundtrip settings ini open_temporary write bd ps d ht content_length input old :
  (∀ d, ∃ name, open_temporary d = Some name ∧ name ∉ (dk_files d).*1) →
  (∀ d name buff, write d name buff = Z.of_nat (length buff)) →
  (1 ≤ max_input_nesting_level settings)%Z → (up_post_max_size ini ≤ 0 ∨ content_length ≤ up_post_max_size ini)%Z →
  boundary_ok bd → token bd → Forall (part_ok settings ini bd) ps →
  form_fits settings ini (omap field_of ps) (omap file_of ps) → array_ok d ht → omap field_of ps = table_paths ht →
  Forall (λ c, c ≠ []) input → mjoin input = form_text bd ps →
  ∃ s files, rfc1867_post_handler settings ini open_temporary write (form_type bd) content_length input [] [] old = Some s ∧
    us_array s = ht ∧ us_notices s = [] ∧ files.*1 = omap file_of ps ∧
    us_files s = map (λ f, (ul_key f.1, upload_entry f.1 f.2)) files ∧
    dk_files (us_disk s) = dk_files old ++ map (λ f, (f.2, ul_content f.1)) files.
Proof.
  intros Hopens Hwrite Hnest Hsize Hbd Htok Hps Hfit Hht Hfields Hin Htext. unfold rfc1867_post_handler.
  assert ((0 <? up_post_max_size ini)%Z && (up_post_max_size ini <? content_length)%Z = false) as -> by lia.
  assert (cstr (form_type bd) = form_type bd) as -> by (apply cstr_clean, clean_app; split; [done|apply Hbd]).
  rewrite boundary_read by done. set (mbuff := multipart_buffer_new bd (length bd) input). cbv zeta.
  pose proof (start_positioned bd input Hbd Hin) as Hp. fold mbuff in Hp. rewrite Htext in Hp.
  destruct (parts_run settings ini open_temporary write bd Hbd Hopens Hwrite Hnest (dk_files old) ps Hps
    (S (pending mbuff)) [] (start_upload ini mbuff [] [] old) [] []) as (files & s & E & Hfiles & Hr).
  - rewrite pending_stream, (ps_stream _ _ _ Hp). pose proof (form_parts bd ps). lia.
  - by left.
  - exact Hp.
  - split; cbn; try done; [by rewrite (right_id_L [] (++))|lia].
  - exact Hfit.
  - rewrite E. exists s, files. destruct Hr. split; [done|]. split; [|done]. rewrite hr_array0. cbn [Datatypes.app].
    rewrite Hfields. by eapply table_stored.
Qed.

Definition demo_form : htab zval :=
  [(KStr "na-me", ZStr "a b"); (KStr "list", ZArr [(KIdx 0, ZStr (CRLF ++ "--X")); (KStr "k.", ZStr [])])].
Definition demo_upload : upload := Upload (KStr "up") "C:x" "text/plain" ("hello" ++ CRLF ++ "-XY").
Definition demo_parts : list form_part :=
  [Field [KStr "na-me"] "a b"; File demo_upload; Field [KStr "list"; KIdx 0] (CRLF ++ "--X"); Field [KStr "list"; KStr "k."] []].
Definition demo_limits : upload_settings := UploadSettings true 1 10 0.

Lemma demo_form_ok : array_ok 1 demo_form.
Proof.
  split; [decided|]. unfold demo_form, top_key, inner_key.
  repeat (apply Forall_cons; split); cbn [fst snd value_ok key_ok]; try (apply Forall_nil_2); split_and!; try done; try decided; try lia.
  repeat (apply Forall_cons; split); cbn [fst snd value_ok key_ok inner_key]; try (apply Forall_nil_2);
    unfold inner_key; cbn [key_ok]; split_and!; try done; try decided; try lia.
Qed.

Lemma demo_path k ks : top_key k → Forall inner_key ks → Forall (λ k, from_option index_blank false (head (key_text k)) = false) ks →
  clean (path_name (k :: ks)) → forallb (λ c, negb (ceq c QUOTE || ceq c BACKSLASH)) (path_name (k :: ks)) = true →
  length (path_name (k :: ks)) ≤ 100 → form_path (k :: ks).
Proof.
  intros Hk Hks Hb Hc Hq Hl. split; [done|done|done| |lia]. apply Forall_forall. intros c Hin. rewrite forallb_forall in Hq.
  apply list_elem_of_In, Hq in Hin. apply negb_true_iff, orb_false_iff in Hin as [?%ceq_false ?%ceq_false]. done.
Qed.

Lemma demo_upload_ok : upload_ok demo_limits "XY" demo_upload.
Proof.
  split; unfold demo_upload, size_ok, ul_name, top_key; cbn [ul_key ul_filename ul_type ul_content key_text key_ok]; split_and?; try done; try decided.
Qed.

Lemma demo_parts_ok : Forall (part_ok default_input demo_limits "XY") demo_parts.
Proof.
  assert (Hkeys : top_key (KStr "na-me") ∧ top_key (KStr "list") ∧ inner_key (KIdx 0) ∧ inner_key (KStr "k."))
    by (unfold top_key, inner_key; cbn [key_ok]; split_and!; done || decided || lia).
  destruct Hkeys as (? & ? & ? & ?).
  assert (Hpaths : form_path [KStr "na-me"] ∧ form_path [KStr "list"; KIdx 0] ∧ form_path [KStr "list"; KStr "k."]).
  { split_and!; apply demo_path; try done; try by apply Forall_singleton. all: by apply Nat.leb_le. }
  destruct Hpaths as (? & ? & ?).
  unfold demo_parts. repeat (apply Forall_cons; split); try (apply Forall_nil_2); split; cbn [part_content]; try done.
  exact demo_upload_ok.
Qed.

Lemma demo_fits : form_fits default_input demo_limits (omap field_of demo_parts) (omap file_of demo_parts).
Proof.
  split; [|done|done|by right]. split; [by apply NoDup_singleton|].
  unfold demo_parts. cbn [omap list_omap field_of file_of fmap list_fmap].
  repeat (apply Forall_cons; split); try (apply Forall_nil_2); cbn [fst]; unfold ul_name, demo_upload; cbn [ul_key key_text];
    apply not_elem_of_cons; split; done || apply not_elem_of_nil.
Qed.

Lemma new_long_name d : ∃ name, long_name d = Some name ∧ name ∉ (dk_files d).*1.
Proof. eexists. split; [reflexivity|]. by apply long_name_new. Qed.

Lemma multipart_roundtrip_witness :
  let text := form_text "XY" demo_parts in
  let input := [take 60 text; drop 60 text] in
  let old := Disk [(("/etc/x" : zstr), ("kept" : zstr))] in
  (∃ s files, rfc1867_post_handler default_input demo_limits long_name write_all (form_type "XY") 400 input [] [] old = Some s ∧
    us_array s = demo_form ∧ us_notices s = [] ∧ files.*1 = [demo_upload] ∧
    us_files s = map (λ f, (ul_key f.1, upload_entry f.1 f.2)) files ∧
    dk_files (us_disk s) = dk_files old ++ map (λ f, (f.2, ul_content f.1)) files) ∧
  length text = 294.
Proof.
  intros text input old. split; [|by vm_compute].
  apply (multipart_roundtrip default_input demo_limits long_name write_all "XY" demo_parts 1 demo_form 400 input old).
  - apply new_long_name.
  - reflexivity.
  - cbn. lia.
  - left. cbn. lia.
  - split; [reflexivity|cbn; lia].
  - unfold token. repeat constructor; discriminate.
  - apply demo_parts_ok.
  - apply demo_fits.
  - apply demo_form_ok.
  - reflexivity.
  - unfold input. repeat constructor; discriminate.
  - unfold input. change (mjoin [?a; ?b]) with (a ++ b ++ []). by rewrite (right_id_L [] (++)), take_drop.
Defined.
