(* ===== verification/Route.v ===== *)
(** * Routes: data, construction, shared parts

    The route objects of [routes/], their constructors and the factory
    [yaf_route_instance] of [routes/yaf_route_interface.c]; the parsing of
    [/key/value] parameters of [yaf_router.c]; and the code that every route
    repeats: cutting the base URI off the request URI, and printing a query. *)

From S2P Require Import Prelude Zend Engine Request.

Open Scope zs_scope.

Definition YAF_ROUTER_URL_DELIMIETER : ascii := SLASH.
Definition YAF_ROUTE_ASSEMBLE_MOUDLE_FORMAT : zstr := ":m".
Definition YAF_ROUTE_ASSEMBLE_CONTROLLER_FORMAT : zstr := ":c".
Definition YAF_ROUTE_ASSEMBLE_ACTION_FORMAT : zstr := ":a".

(** A route object; the arguments are its properties.  A class of the
    application that implements [Yaf_Route_Interface] is [RouteUser]. *)
Inductive route :=
| RouteStatic
| RouteSimple (module controller action : zval)
| RouteSupervar (var_name : zval)
| RouteMap (ctl_router delimiter : zval)
| RouteRewrite (match_ def verify : zval)
| RouteRegex (match_ def maps verify reverse : zval)
| RouteUser (handle : Z).

(** What the [route] and [assemble] methods return: a truth value, a string or NULL. *)
Definition ret_bool (res : bool * request) : zval * request := (ZBool res.1, res.2).
Definition ret_str (none : zval) (s : option zstr) : zval := from_option ZStr none s.

(** ** Construction *)

Definition yaf_route_simple_instance (module controller action : zval) : route :=
  RouteSimple module controller action.

Definition yaf_route_supervar_instance (name : option zval) : option route :=
  match name with
  | Some (ZStr ((_ :: _) as s)) => Some (RouteSupervar (ZStr s))
  | _ => None
  end.

Definition yaf_route_map_instance (controller_prefer : bool) (delim : option zstr) : route :=
  RouteMap (ZBool controller_prefer)
    (match delim with Some ((_ :: _) as d) => ZStr d | _ => ZNull end).

Definition yaf_route_rewrite_instance (match_ def : zval) (verify : option zval) : route :=
  RouteRewrite match_ def (default ZNull verify).

Definition yaf_route_regex_instance (match_ def : zval) (maps verify reverse : option zval)
    : route :=
  RouteRegex match_ def (default ZNull maps) (default ZNull verify)
    (match reverse with Some (ZStr s) => ZStr s | _ => ZNull end).

(** Is the configured type [t] the name [n], in any case? *)
Definition type_is (t n : zstr) : bool :=
  bool_decide (length t = length n) && strncasecmp0 t n (length n).

Definition get_string (config : htab zval) (key : zstr) : option zval :=
  match hfind (KStr key) config with Some (ZStr s) => Some (ZStr s) | _ => None end.
Definition get_array (config : htab zval) (key : zstr) : option zval :=
  match hfind (KStr key) config with Some (ZArr h) => Some (ZArr h) | _ => None end.

Definition yaf_route_instance (config : option zval) : option route :=
  match config with
  | Some (ZArr config) =>
      match hfind (KStr "type") config with
      | Some (ZStr t) =>
          if type_is t "rewrite" then
            m ← get_string config "match";
            def ← get_array config "route";
            Some (yaf_route_rewrite_instance m def (get_array config "route"))
          else if type_is t "regex" then
            m ← get_string config "match";
            def ← get_array config "route";
            Some (yaf_route_regex_instance m def (get_array config "map")
                    (get_array config "route") (get_string config "route"))
          else if type_is t "map" then
            let prefer := match hfind (KStr "controllerPrefer") config with
                          | Some v => zend_is_true v
                          | None => false
                          end in
            let delim := match hfind (KStr "delimiter") config with
                         | Some (ZStr d) => Some d
                         | _ => None
                         end in
            Some (yaf_route_map_instance prefer delim)
          else if type_is t "simple" then
            m ← get_string config "module";
            c ← get_string config "controller";
            a ← get_string config "action";
            Some (yaf_route_simple_instance m c a)
          else if type_is t "supervar" then
            v ← get_string config "varname";
            yaf_route_supervar_instance (Some v)
          else None
      | _ => None
      end
  | _ => None
  end.

(** The PHP constructors; [None] is an object whose construction raised. *)
Definition simple_construct (module controller action : zval) : M (option route) :=
  if is_string module && is_string controller && is_string action
  then mret (Some (yaf_route_simple_instance module controller action))
  else yaf_trigger_error YAF_ERR_TYPE_ERROR "Expect 3 string parameters";; mret None.

Definition supervar_construct (var : zval) : M (option route) :=
  match var with
  | ZStr (_ :: _) => mret (Some (RouteSupervar var))
  | _ => yaf_trigger_error YAF_ERR_TYPE_ERROR "Expects a valid string super var name";; mret None
  end.

Definition map_construct (controller_prefer : bool) (delim : option zstr) : M (option route) :=
  mret (Some (yaf_route_map_instance controller_prefer delim)).

Definition rewrite_construct (match_ def : zval) (verify : option zval) : M (option route) :=
  match match_ with
  | ZStr (_ :: _) =>
      match verify with
      | Some (ZArr _) | None => mret (Some (yaf_route_rewrite_instance match_ def verify))
      | Some _ => yaf_trigger_error YAF_ERR_TYPE_ERROR "Expects an array as third parameter";;
                  mret None
      end
  | _ => yaf_trigger_error YAF_ERR_TYPE_ERROR
           "Expects a valid string match as the first parameter";; mret None
  end.

Definition regex_construct (match_ def : zval) (maps verify reverse : option zval)
    : M (option route) :=
  match match_ with
  | ZStr (_ :: _) =>
      match verify with
      | Some (ZArr _) | None =>
          match reverse with
          | Some (ZStr _) | None =>
              mret (Some (yaf_route_regex_instance match_ def maps verify reverse))
          | Some _ => yaf_trigger_error YAF_ERR_TYPE_ERROR
                        "Expects a valid string reverse as fourth parameter";; mret None
          end
      | Some _ => yaf_trigger_error YAF_ERR_TYPE_ERROR "Expects an array as third parameter";;
                  mret None
      end
  | _ => yaf_trigger_error YAF_ERR_TYPE_ERROR
           "Expects a valid string as the first parameter";; mret None
  end.

(** ** Parameters *)

Fixpoint params_loop (fuel : nat) (cur : option zstr * option zstr) (params : htab zval)
    : htab zval :=
  match fuel, cur with
  | S fuel', (Some key, last) =>
      match key with
      | [] => params_loop fuel' (php_strtok_r last YAF_ROUTER_URL_DELIMIETER) params
      | _ =>
          let '(value, last) := php_strtok_r last YAF_ROUTER_URL_DELIMIETER in
          let val := match value with
                     | Some ((_ :: _) as v) => ZStr v
                     | _ => ZNull
                     end in
          params_loop fuel' (php_strtok_r last YAF_ROUTER_URL_DELIMIETER)
            (hupdate (KStr key) val params)
      end
  | _, _ => params
  end.

(** Every round of the loop consumes at least one byte of [uri] or its
    terminator, so this many rounds are enough ([parse_parameters_tokens]). *)
Definition yaf_router_parse_parameters (uri : zstr) : htab zval :=
  params_loop (S (S (length uri))) (php_strtok_r (Some (cstr uri)) YAF_ROUTER_URL_DELIMIETER) [].

(** What it computes: the tokens, taken in pairs. *)
Fixpoint pairs_of (ws : list zstr) (params : htab zval) : htab zval :=
  match ws with
  | k :: v :: ws' => pairs_of ws' (hupdate (KStr k) (ZStr v) params)
  | [k] => hupdate (KStr k) ZNull params
  | [] => params
  end.

(** ** The request URI without the base URI

    The new string is initialised with the difference of the two lengths, which
    underflows when the base is longer. *)
Definition strip_base_uri (r : request) : option zstr :=
  uri ← Z_STR (rq_uri r);
  match rq_base_uri r with
  | ZStr b =>
      if strncasecmp0 uri b (length b) then
        if bool_decide (length b ≤ length uri) then Some (drop (length b) uri) else None
      else Some uri
  | _ => Some uri
  end.

Section with_runtime.
Context `{Runtime}.

(** [key=value] of a query, and the string-keyed entries of an array. *)
Definition print_pair (kv : zstr * zval) : zstr := kv.1 ++ "=" ++ zval_get_string kv.2.
Definition query_pairs (query : option zval) : list zstr :=
  match query with
  | Some (ZArr ht) => map print_pair (str_entries ht)
  | _ => []
  end.

(** The segment [/value] of an assembled URI. *)
Definition slash_value (v : zval) : zstr := SLASH :: zval_get_string v.

End with_runtime.

(** ** Lemmas *)

Lemma params_loop_spec fuel o params :
  olen o < fuel →
  params_loop fuel (php_strtok_r o SLASH) params = pairs_of (otokens SLASH o) params.
Proof.
  revert o params. induction fuel as [|fuel IH]; intros o params Hf; [lia|].
  assert (Ht := strtok_spec SLASH o).
  assert (Hall := otokens_forall SLASH o).
  destruct (otokens SLASH o) as [|k ts]; [by rewrite Ht|].
  destruct Ht as (l & -> & Hl & Hlt). cbn [params_loop].
  apply Forall_cons in Hall as [[Hk _] Hall].
  destruct k as [|c k]; [done|].
  unfold YAF_ROUTER_URL_DELIMIETER.
  assert (Ht := strtok_spec SLASH l). rewrite Hl in Ht.
  destruct ts as [|v ts].
  - rewrite Ht. cbn -[php_strtok_r hupdate]. destruct fuel; done.
  - destruct Ht as (l' & -> & Hl' & Hlt').
    apply Forall_cons in Hall as [[Hv _] _]. destruct v as [|c' v]; [done|].
    rewrite IH by lia. by rewrite Hl'.
Qed.

Lemma parse_parameters_tokens uri :
  yaf_router_parse_parameters uri = pairs_of (tokens SLASH (cstr uri)) [].
Proof.
  unfold yaf_router_parse_parameters, YAF_ROUTER_URL_DELIMIETER.
  rewrite params_loop_spec; [done|]. simpl. assert (Hl := cstr_length uri). lia.
Qed.

(** ** Laws of [strip_base_uri] *)

Lemma strip_base_app r b u :
  no_nul b → rq_base_uri r = ZStr b → rq_uri r = ZStr (b ++ u) → strip_base_uri r = Some u.
Proof.
  intros Hb Hr Hu. unfold strip_base_uri. rewrite Hr, Hu. cbn.
  rewrite strncasecmp0_app, bool_decide_true by (done || rewrite length_app; lia).
  by rewrite drop_app_length.
Qed.

(** No underflow as long as the base URI holds no NUL byte. *)
Lemma strip_base_safe r b u :
  no_nul b → rq_base_uri r = ZStr b → rq_uri r = ZStr u → is_Some (strip_base_uri r).
Proof.
  intros Hb Hr Hu. unfold strip_base_uri. rewrite Hr, Hu. cbn.
  destruct (strncasecmp0 u b (length b)) eqn:E; [|by eexists].
  rewrite bool_decide_true; [by eexists|]. by apply strncasecmp0_length.
Qed.

(** When the base URI is derived from the server's script names, and these hold
    no NUL byte, it is a beginning of the request URI, and what every route matches
    is exactly the rest of the request URI. *)
Theorem base_uri_cut `{Runtime} r uri server e r' e' :
  server_of e = ZArr server →
  (∀ k s, hfind (KStr k) server = Some (ZStr s) → no_nul s) →
  rq_uri r = ZStr uri →
  yaf_request_set_base_uri r None (Some uri) e = Some (r', e') →
  ∃ base u, rq_base_uri r' = ZStr base ∧ uri = base ++ u ∧ strip_base_uri r' = Some u.
Proof.
  intros Hs Hn Hu. unfold yaf_request_set_base_uri.
  rewrite (bind_runs _ _ _ _ _ (find_basename_spec e server Hs)).
  assert (Hcut : ∀ base u, no_nul base → uri = base ++ u → r' = r <| rq_base_uri := ZStr base |> →
            ∃ base u, rq_base_uri r' = ZStr base ∧ uri = base ++ u ∧ strip_base_uri r' = Some u).
  { intros base u Hb -> ->. exists base, u. split; [done|]. split; [done|].
    by apply (strip_base_app _ base). }
  destruct (script_base _ server) as [b|] eqn:Eb.
  - destruct (script_base_in _ _ _ Eb) as [k Hk]. st_run.
    destruct (base_of b uri) as [base|] eqn:Ebase; [|done]. st_run. intros [= <- _].
    destruct (base_of_prefix _ _ _ (Hn _ _ Hk) Ebase) as (Hnb & u & ->). by eapply Hcut.
  - intros [= <- _]. apply (Hcut [] uri); [constructor|done|done].
Qed.

Definition script_server : htab zval :=
  [(KStr "SCRIPT_FILENAME", ZStr "/var/www/app/index.php");
   (KStr "SCRIPT_NAME", ZStr "/app/index.php")].

Lemma base_uri_cut_witness :
  ∃ base u, rq_base_uri (sample_request "/app" "/app/news") = ZStr base ∧
    ("/app/news" : zstr) = base ++ u ∧ strip_base_uri (sample_request "/app" "/app/news") = Some u.
Proof.
  apply (@base_uri_cut plain_runtime (sample_request "" "/app/news") "/app/news" script_server
           (start_engine [] [] script_server) (sample_request "/app" "/app/news")
           (start_engine [] [] script_server)); try by vm_compute.
  intros k s. unfold script_server. cbn. repeat case_bool_decide; intros [= <-]; decided.
Defined.

(** Whatever follows the routed names is read as a list of names and values:
    the segments are taken in pairs, a name without a value gets NULL, and a
    repeated name keeps its last value. *)
Theorem parse_parameters_spec uri :
  yaf_router_parse_parameters uri = pairs_of (tokens SLASH (cstr uri)) [].
Proof. apply parse_parameters_tokens. Qed.
