(* ===== verification/RouteStatic.v ===== *)
(** * The static route and the supervar route

    [routes/yaf_route_static.c] and [routes/yaf_route_supervar.c]: the path
    parser [yaf_route_pathinfo_route] that both use, and their [assemble].
    The parser is shown equal to a table over the path's segments
    ([pathinfo_table]); assembling and routing back is a round trip. *)

From S2P Require Import Prelude Zend Engine Request Route.

Open Scope zs_scope.

(** ** The path parser *)

Definition is_blank (c : ascii) : bool := ceq c " "%char || ceq c SLASH.

(** [strip_slashs(p)] *)
Definition strip_slashs (p : zstr) : zstr := drop_while is_blank p.

(** [strstr(p, "/")]: the bytes before the slash and those after it. *)
Definition until_slash (p : zstr) : option (zstr * zstr) :=
  match break (ceq SLASH) p with
  | (_, []) => None
  | (seg, _ :: rest) => Some (seg, rest)
  end.

(** The loop that overwrites the trailing blanks with NUL keeps the first byte. *)
Definition trim_end (uri : zstr) : zstr :=
  match uri with
  | [] => []
  | c :: s => c :: drop_end is_blank s
  end.

(** The four pointers that the parser computes. *)
Record path_parts := PathParts {
  pp_module : option zstr;
  pp_controller : option zstr;
  pp_action : option zstr;
  pp_rest : option zstr;
}.
Definition no_parts : path_parts := PathParts None None None None.

(** The last segment goes to the first name still missing. *)
Definition place_last (module controller action : option zstr) (p : zstr) : M path_parts :=
  match p with
  | [] => mret (PathParts module controller action None)
  | _ =>
      is_mod ← (match module, controller, action with
                | None, None, None => yaf_application_is_module_name_str p (length p)
                | _, _, _ => mret false
                end : M bool);
      mret (if is_mod : bool then PathParts (Some p) controller action None
            else match controller, action with
                 | None, _ => PathParts module (Some p) action None
                 | Some _, None => PathParts module controller (Some p) None
                 | Some _, Some _ => PathParts module controller action (Some p)
                 end)
  end.

(** Shift the names when there are fewer than three. *)
Definition adjust (action_prefer : bool) (pp : path_parts) : path_parts :=
  let '(PathParts module controller action rest) := pp in
  match module, controller, action with
  | Some m, None, _ => PathParts None (Some m) action rest
  | Some m, c, None => PathParts None (Some m) c rest
  | None, Some c, None => if action_prefer then PathParts None None (Some c) rest else pp
  | _, _, _ => pp
  end.

(** A leading module name and the controller after it, or a controller. *)
Definition leading_names (p : zstr) : M (option zstr * option zstr * zstr) :=
  match until_slash p with
  | None => mret (None, None, p)
  | Some (seg, rest) =>
      is_mod ← yaf_application_is_module_name_str p (length seg);
      mret (if is_mod : bool then
              let p := strip_slashs rest in
              match until_slash p with
              | Some (c, rest) => (Some seg, Some c, rest)
              | None => (Some seg, None, p)
              end
            else (None, Some seg, rest))
  end.

(** The action and whatever comes after the names found so far. *)
Definition trailing_names (module controller : option zstr) (p : zstr) : M path_parts :=
  let p := strip_slashs p in
  let '(action, p) := match until_slash p with
                      | Some (a, rest) => (Some a, rest)
                      | None => (None, p)
                      end in
  place_last module controller action (strip_slashs p).

Definition pathinfo_parts (req_uri : zstr) : M path_parts :=
  if bool_decide (req_uri = []) || bool_decide (req_uri = [SLASH]) then mret no_parts
  else
    st ← leading_names (strip_slashs (cstr (trim_end req_uri)));
    let '(module, controller, p) := st in
    pp ← trailing_names module controller p;
    prefer ← YAF_G action_prefer;
    mret (adjust prefer pp).

Definition set_opt {A} (o : option A) (put : A → request → request) (r : request) : request :=
  match o with Some v => put v r | None => r end.

(** The property updates at the end of the parser. *)
Definition store_parts (r : request) (pp : path_parts) : M request :=
  let r := set_opt (pp_module pp) (λ m r, r <| rq_module := ZStr m |>) r in
  let r := set_opt (pp_controller pp) (λ c r, r <| rq_controller := ZStr c |>) r in
  let r := set_opt (pp_action pp) (λ a r, r <| rq_action := ZStr a |>) r in
  match pp_rest pp with
  | Some rest =>
      res ← yaf_request_set_params_multi r (ZArr (yaf_router_parse_parameters rest));
      mret res.2
  | None => mret r
  end.

Definition yaf_route_pathinfo_route (r : request) (req_uri : zstr) : M (bool * request) :=
  pp ← pathinfo_parts req_uri;
  r' ← store_parts r pp;
  mret (true, r').

(** ** The two routes *)

Definition yaf_route_static_route (r : request) : M (bool * request) :=
  req_uri ← lift (strip_base_uri r);
  yaf_route_pathinfo_route r req_uri.

(** [Yaf_Route_Static::match] *)
Definition static_match (uri : zstr) : bool := true.

(** The superglobal's value is read as a string whatever its type. *)
Definition yaf_route_supervar_route (var_name : zval) (r : request) : M (bool * request) :=
  varname ← lift (Z_STR var_name);
  uri ← yaf_request_query YAF_GLOBAL_VARS_GET varname;
  match uri with
  | None => mret (false, r)
  | Some uri =>
      req_uri ← lift (Z_STR uri);
      yaf_route_pathinfo_route r req_uri
  end.

Section with_runtime.
Context `{Runtime}.

(** The loop of [yaf_route_static_assemble] over the query. *)
Fixpoint static_query (start end_ : bool) (kvs : list (zstr * zval)) : zstr :=
  match kvs with
  | [] => []
  | kv :: kvs' =>
      (if start then [] else "?") ++ (if end_ then "&" else []) ++ print_pair kv ++
      static_query true true kvs'
  end.

Definition array_entries (query : option zval) : list (zstr * zval) :=
  match query with Some (ZArr ht) => str_entries ht | _ => [] end.

Definition yaf_route_static_assemble (info : htab zval) (query : option zval)
    : M (option zstr) :=
  let m := match hfind (KStr YAF_ROUTE_ASSEMBLE_MOUDLE_FORMAT) info with
           | Some v => slash_value v
           | None => []
           end in
  match hfind (KStr YAF_ROUTE_ASSEMBLE_CONTROLLER_FORMAT) info with
  | None => yaf_trigger_error YAF_ERR_TYPE_ERROR "You need to specify the controller by ':c'";;
            mret None
  | Some c =>
      match hfind (KStr YAF_ROUTE_ASSEMBLE_ACTION_FORMAT) info with
      | None => yaf_trigger_error YAF_ERR_TYPE_ERROR "You need to specify the action by ':a'";;
                mret None
      | Some a =>
          mret (Some (m ++ slash_value c ++ slash_value a ++
                      static_query false false (array_entries query)))
      end
  end.

(** The methods [route] and [assemble]; the latter gives FALSE for no string. *)
Definition static_route_method (r : request) : M (zval * request) :=
  res ← yaf_route_static_route r; mret (ret_bool res).
Definition static_assemble_method (info : htab zval) (query : option zval) : M zval :=
  s ← yaf_route_static_assemble info query; mret (ret_str (ZBool false) s).

Definition yaf_route_supervar_assemble (var_name : zval) (info : htab zval)
    (query : option zval) : M (option zstr) :=
  pname ← lift (Z_STR var_name);
  let m := match hfind (KStr YAF_ROUTE_ASSEMBLE_MOUDLE_FORMAT) info with
           | Some v => slash_value v
           | None => []
           end in
  match hfind (KStr YAF_ROUTE_ASSEMBLE_CONTROLLER_FORMAT) info with
  | None => yaf_trigger_error YAF_ERR_TYPE_ERROR "You need to specify the controller by ':c'";;
            mret None
  | Some c =>
      match hfind (KStr YAF_ROUTE_ASSEMBLE_ACTION_FORMAT) info with
      | None => yaf_trigger_error YAF_ERR_TYPE_ERROR "You need to specify the action by ':a'";;
                mret None
      | Some a =>
          mret (Some ("?" ++ pname ++ "=" ++ m ++ slash_value c ++ slash_value a ++
                      mjoin (map (λ kv, "&" ++ print_pair kv) (array_entries query))))
      end
  end.

Definition supervar_route_method (var_name : zval) (r : request) : M (zval * request) :=
  res ← yaf_route_supervar_route var_name r; mret (ret_bool res).
Definition supervar_assemble_method (var_name : zval) (info : htab zval) (query : option zval) : M zval :=
  s ← yaf_route_supervar_assemble var_name info query; mret (ret_str ZNull s).
End with_runtime.

(** ** The table *)

(** What the parser does to a path with the given segments; the rest is given
    as the segments that become parameters. *)
Definition pathinfo_table (is_mod : zstr → bool) (action_prefer : bool) (ws : list zstr)
    : option zstr * option zstr * option zstr * list zstr :=
  match ws with
  | [] => (None, None, None, [])
  | [a] => if is_mod a then (None, Some a, None, [])
           else if action_prefer then (None, None, Some a, []) else (None, Some a, None, [])
  | [a; b] => (None, Some a, Some b, [])
  | a :: b :: c :: ws' =>
      if is_mod a then (Some a, Some b, Some c, ws') else (None, Some a, Some b, c :: ws')
  end.

(** A path with no NUL byte and no space. *)
Definition plain (s : zstr) : Prop := Forall (λ c, c ≠ NUL ∧ c ≠ " "%char) s.
#[export] Instance plain_dec s : Decision (plain s).
Proof. unfold plain. apply _. Defined.

Section parser.
(** The tokens ahead of a pointer, and one step of the parser over them. *)
Lemma blank_slash s : plain s → drop_while is_blank s = drop_while (ceq SLASH) s.
Proof.
  induction 1 as [|c s [_ Hc] _ IH]; simpl; [done|].
  unfold is_blank. apply ceq_false in Hc as ->. simpl.
  replace (ceq c SLASH) with (ceq SLASH c); [by destruct (ceq SLASH c)|].
  unfold ceq. apply bool_decide_ext. split; congruence.
Qed.

Lemma plain_drop_while (f : ascii → bool) s : plain s → plain (drop_while f s).
Proof. induction 1 as [|c s Hc Hs IH]; simpl; [constructor|]. destruct (f c); [done|]. by constructor. Qed.

Lemma strip_tokens p : plain p → tokens SLASH (strip_slashs p) = tokens SLASH p.
Proof. intros Hp. unfold strip_slashs. rewrite blank_slash by done. apply tokens_drop_delims. Qed.

(** After stripping, [strstr] finds the end of the first of several segments. *)
Lemma stripped_cases p :
  plain p →
  match tokens SLASH p with
  | [] => strip_slashs p = []
  | w :: ws =>
      match until_slash (strip_slashs p) with
      | None => strip_slashs p = w ∧ ws = [] ∧ w ≠ []
      | Some (seg, rest) => seg = w ∧ tokens SLASH rest = ws ∧ plain rest ∧
                            take (length seg) (strip_slashs p) = seg
      end
  end.
Proof.
  intros Hp. assert (Hq := plain_drop_while is_blank _ Hp). fold (strip_slashs p) in Hq.
  rewrite <-(strip_tokens p Hp).
  destruct (strip_slashs p) as [|c q] eqn:E; [done|].
  assert (Hc : ceq SLASH c = false).
  { unfold strip_slashs in E. rewrite blank_slash in E by done. by eapply drop_while_head. }
  unfold tokens, until_slash. rewrite split_on_break.
  assert (Hb := break_app (ceq SLASH) (c :: q)).
  simpl in Hb |- *. rewrite Hc in Hb |- *.
  destruct (break (ceq SLASH) q) as [a [|x b]]; cbn -[filter] in Hb |- *;
    rewrite filter_cons_True by done.
  - injection Hb as Hb. rewrite app_nil_r in Hb. by subst.
  - repeat split.
    + rewrite <-Hb in Hq. apply Forall_cons in Hq as [_ Hq].
      apply Forall_app in Hq as [_ Hq]. by apply Forall_cons in Hq as [_ Hq].
    + injection Hb as Hb. rewrite <-Hb. f_equal. by rewrite take_app_length.
Qed.

Lemma strip_idem p : strip_slashs (strip_slashs p) = strip_slashs p.
Proof. apply drop_while_idem. Qed.

Lemma plain_strip p : plain p → plain (strip_slashs p).
Proof. apply plain_drop_while. Qed.

Lemma plain_cstr p : plain p → cstr p = p.
Proof. intros Hp. apply cstr_no_nul. eapply Forall_impl; [exact Hp|]. naive_solver. Qed.

Lemma plain_trim uri : plain uri → plain (trim_end uri) ∧
  tokens SLASH (trim_end uri) = tokens SLASH uri.
Proof.
  destruct uri as [|c s]; [done|]. intros Hp. simpl.
  destruct (drop_end_app is_blank s) as (t & Hs & Ht).
  assert (Hp' := Hp). rewrite Hs in Hp'. change (plain ((c :: drop_end is_blank s) ++ t)) in Hp'.
  apply Forall_app in Hp' as [Hc Hpt]. split; [done|].
  replace (c :: s) with ((c :: drop_end is_blank s) ++ t) by (simpl; by rewrite <-Hs).
  rewrite tokens_app_delims; [done|].
  apply Forall_forall. intros x Hx. rewrite Forall_forall in Hpt, Ht.
  specialize (Hpt x Hx) as [_ Hns]. specialize (Ht x Hx). unfold is_blank in Ht.
  apply orb_true_iff in Ht as [Ht|Ht]; apply ceq_true in Ht; congruence.
Qed.

(** [module, controller, action, rest] as the table gives them *)
Definition view (pp : path_parts) : option zstr * option zstr * option zstr * list zstr :=
  (pp_module pp, pp_controller pp, pp_action pp,
   from_option (λ s, tokens SLASH (cstr s)) [] (pp_rest pp)).

Lemma until_nil : until_slash [] = None.
Proof. done. Qed.

(** Once the controller is known, the next segment is the action. *)
Lemma trailing_with_controller e m c p :
  plain p →
  ∃ pp, trailing_names m (Some c) p e = Some (pp, e) ∧
    view pp = match tokens SLASH p with
              | [] => (m, Some c, None, [])
              | a :: ws => (m, Some c, Some a, ws)
              end.
Proof.
  intros Hp. unfold trailing_names. assert (H := stripped_cases p Hp).
  assert (Hs := plain_strip p Hp).
  destruct (tokens SLASH p) as [|a ws].
  - rewrite H. cbn. eexists. split; [by destruct m|]. done.
  - destruct (until_slash (strip_slashs p)) as [[seg rest]|].
    + destruct H as (-> & Ht & Hr & _). assert (Ht' := strip_tokens rest Hr). rewrite Ht in Ht'.
      assert (Hps := plain_cstr _ (plain_strip _ Hr)).
      destruct (strip_slashs rest) as [|x q];
        (eexists; split; [by destruct m|]); unfold view; cbn -[cstr];
        by rewrite ?Hps, <-Ht'.
    + destruct H as (H & -> & Ha). rewrite strip_idem, H.
      destruct a as [|x q]; [done|]. cbn. eexists. split; [by destruct m|]. done.
Qed.

(** A lone last segment after a module name, or after nothing. *)
Lemma trailing_alone e m p :
  plain p → until_slash (strip_slashs p) = None →
  ∃ pp, trailing_names m None p e = Some (pp, e) ∧
    view pp = match tokens SLASH p with
              | [] => (m, None, None, [])
              | a :: _ =>
                  match m with
                  | Some _ => (m, Some a, None, [])
                  | None => if is_module e a then (Some a, None, None, [])
                            else (None, Some a, None, [])
                  end
              end.
Proof.
  intros Hp Hn. unfold trailing_names. assert (H := stripped_cases p Hp).
  rewrite Hn, strip_idem. destruct (tokens SLASH p) as [|a ws].
  - rewrite H. eexists. by split.
  - rewrite Hn in H. destruct H as (-> & _ & Ha). destruct a as [|x q]; [done|].
    unfold place_last, yaf_application_is_module_name_str. rewrite take_ge by done.
    destruct m as [m|]; [by eexists|].
    st_run. by destruct (is_module e (x :: q)); eexists.
Qed.
End parser.

(** [adjust] on what the two phases produce. *)
Definition shift_names (prefer : bool)
    (v : option zstr * option zstr * option zstr * list zstr) :=
  let '(m, c, a, ws) := v in
  match m, c, a with
  | Some m, None, _ => (None, Some m, a, ws)
  | Some m, c, None => (None, Some m, c, ws)
  | None, Some c, None => if prefer then (None, None, Some c, ws) else (None, Some c, None, ws)
  | _, _, _ => (m, c, a, ws)
  end.

Lemma view_adjust prefer pp : view (adjust prefer pp) = shift_names prefer (view pp).
Proof. destruct pp as [[m|] [c|] [a|] rest], prefer; done. Qed.

(** The two phases on a path, before the shift. *)
Lemma phases_spec e p :
  plain p →
  ∃ m c q v, leading_names (strip_slashs p) e = Some ((m, c, q), e) ∧
    (∃ pp, trailing_names m c q e = Some (pp, e) ∧ view pp = v) ∧
    ∀ prefer, shift_names prefer v = pathinfo_table (is_module e) prefer (tokens SLASH p).
Proof.
  intros Hp. unfold leading_names. assert (H := stripped_cases p Hp).
  assert (Hq := plain_strip p Hp).
  destruct (until_slash (strip_slashs p)) as [[seg rest]|] eqn:Eu.
  - destruct (tokens SLASH p) as [|w ws]; [by rewrite H in Eu|].
    destruct H as (-> & Hrest & Hpr & Htk).
    unfold yaf_application_is_module_name_str. rewrite Htk. st_run.
    destruct (is_module e w) eqn:Em.
    + assert (H := stripped_cases rest Hpr). rewrite Hrest in H.
      destruct (until_slash (strip_slashs rest)) as [[c r2]|] eqn:Eu2.
      * destruct ws as [|b ws]; [by rewrite H in Eu2|].
        destruct H as (-> & Hr2 & Hpr2 & _).
        do 4 eexists. split; [done|].
        split; [exact (trailing_with_controller e (Some w) b r2 Hpr2)|].
        rewrite Hr2. intros prefer. destruct ws as [|b2 ws]; simpl; by rewrite ?Em.
      * do 4 eexists. split; [done|]. split.
        { apply (trailing_alone e (Some w) (strip_slashs rest)); [by apply plain_strip|].
          by rewrite strip_idem. }
        rewrite strip_tokens, Hrest by done. intros prefer.
        destruct ws as [|b ws]; simpl; [by rewrite Em|]. by destruct H as (_ & -> & _).
    + do 4 eexists. split; [done|].
      split; [exact (trailing_with_controller e None w rest Hpr)|].
      rewrite Hrest. intros prefer. destruct ws as [|b [|b2 ws]]; simpl; by rewrite ?Em.
  - do 4 eexists. split; [done|]. split.
    { apply (trailing_alone e None (strip_slashs p)); [done|]. by rewrite strip_idem. }
    rewrite strip_tokens by done. intros prefer.
    destruct (tokens SLASH p) as [|a ws]; [done|]. destruct H as (_ & -> & _).
    simpl. by destruct (is_module e a), prefer.
Qed.

(** The parser, segment by segment. *)
Lemma pathinfo_parts_spec e uri :
  plain uri →
  ∃ pp, pathinfo_parts uri e = Some (pp, e) ∧
    view pp = pathinfo_table (is_module e) (action_prefer (yaf e)) (tokens SLASH uri).
Proof.
  intros Hp. unfold pathinfo_parts.
  destruct (bool_decide (uri = [])) eqn:E1; [apply bool_decide_eq_true in E1 as ->; by eexists|].
  destruct (bool_decide (uri = [SLASH])) eqn:E2; [apply bool_decide_eq_true in E2 as ->; by eexists|].
  cbn [orb]. destruct (plain_trim uri Hp) as [Hpt <-]. rewrite plain_cstr by done.
  destruct (phases_spec e (trim_end uri) Hpt) as (m & c & q & v & Hl & (pp & Ht & <-) & Hs).
  rewrite (bind_runs _ _ _ _ _ Hl). cbn beta iota. rewrite (bind_runs _ _ _ _ _ Ht). st_run.
  eexists. split; [done|]. by rewrite view_adjust, Hs.
Qed.

(** What the route does to the request, from the table. *)
Definition table_update (r : request) (params : htab zval)
    (v : option zstr * option zstr * option zstr * list zstr) : request :=
  let '(m, c, a, ws) := v in
  let r := set_opt m (λ m r, r <| rq_module := ZStr m |>) r in
  let r := set_opt c (λ c r, r <| rq_controller := ZStr c |>) r in
  let r := set_opt a (λ a r, r <| rq_action := ZStr a |>) r in
  r <| rq_params := ZArr (hcopy params (pairs_of ws [])) |>.

Lemma pathinfo_route_run e r params uri :
  plain uri → rq_params r = ZArr params →
  yaf_route_pathinfo_route r uri e =
    Some ((true, table_update r params
             (pathinfo_table (is_module e) (action_prefer (yaf e)) (tokens SLASH uri))), e).
Proof.
  intros Hp Hr. destruct (pathinfo_parts_spec e uri Hp) as (pp & Hpp & Hv).
  unfold yaf_route_pathinfo_route. rewrite (bind_runs _ _ _ _ _ Hpp), <-Hv.
  destruct r as [? ? ? ? rp ? ? ? ? ? ?], pp as [m c a rest]. cbn in Hr. subst rp.
  unfold view, store_parts, table_update, yaf_request_set_params_multi.
  cbn -[yaf_router_parse_parameters cstr].
  destruct rest as [rest|]; [rewrite parse_parameters_tokens | ];
    destruct m, c, a; done.
Qed.

(** ** Assembling and routing back *)

(** A name that can stand between two slashes. *)
Definition segment (w : zstr) : Prop := w ≠ [] ∧ plain w ∧ free_of SLASH w.
#[export] Instance segment_dec w : Decision (segment w).
Proof. unfold segment. apply _. Defined.

Lemma plain_join ws : Forall plain ws → plain (join SLASH ws).
Proof.
  induction 1 as [|w ws Hw Hws IH]; [constructor|]. destruct ws as [|w' ws]; [done|].
  apply Forall_app. split; [done|]. constructor; [by split|done].
Qed.

Lemma tokens_path ws :
  Forall segment ws → tokens SLASH (SLASH :: join SLASH ws) = ws ∧ plain (SLASH :: join SLASH ws).
Proof.
  intros Hws. split.
  - rewrite tokens_delim. apply tokens_join; eapply Forall_impl; try exact Hws; by intros w (? & ? & ?).
  - constructor; [by split|]. apply plain_join. eapply Forall_impl; [exact Hws|]. by intros w (? & ? & ?).
Qed.

Section roundtrip.
Context `{Runtime}.

(** The names that [info] gives for a route with, or without, a module. *)
Definition info_names (info : htab zval) : option (list zstr) :=
  c ← zval_get_string <$> hfind (KStr ":c") info;
  a ← zval_get_string <$> hfind (KStr ":a") info;
  Some (from_option (λ m, [zval_get_string m]) [] (hfind (KStr ":m") info) ++ [c; a]).

Lemma static_assemble_ok info names e :
  info_names info = Some names →
  yaf_route_static_assemble info None e = Some (Some (SLASH :: join SLASH names), e).
Proof.
  unfold info_names, yaf_route_static_assemble, YAF_ROUTE_ASSEMBLE_MOUDLE_FORMAT,
    YAF_ROUTE_ASSEMBLE_CONTROLLER_FORMAT, YAF_ROUTE_ASSEMBLE_ACTION_FORMAT, slash_value.
  destruct (hfind (KStr ":c") info) as [c|]; [|done].
  destruct (hfind (KStr ":a") info) as [a|]; [|done].
  cbn. intros [= <-]. unfold mret, St_ret. do 3 f_equal.
  destruct (hfind (KStr ":m") info) as [m|]; cbn; by rewrite app_nil_r.
Qed.

(** C14: Assembling a URI from names without blanks, slashes or NUL bytes and
    routing it below any base URI gives the names back as the path table
    assigns them, and leaves the engine alone. *)
Theorem static_roundtrip e r params b info names :
  info_names info = Some names → Forall segment names →
  rq_base_uri r = ZStr b → no_nul b → rq_params r = ZArr params →
  ∃ u, yaf_route_static_assemble info None e = Some (Some u, e) ∧
    yaf_route_static_route (r <| rq_uri := ZStr (b ++ u) |>) e =
      Some ((true, table_update (r <| rq_uri := ZStr (b ++ u) |>) params
               (pathinfo_table (is_module e) (action_prefer (yaf e)) names)), e).
Proof.
  intros Hi Hn Hb Hnb Hp. eexists. split; [by apply static_assemble_ok|].
  destruct (tokens_path names Hn) as [Ht Hpl].
  unfold yaf_route_static_route.
  erewrite bind_lift by (apply (strip_base_app _ b); [done | exact Hb | reflexivity]).
  rewrite (pathinfo_route_run _ _ params) by done. by rewrite Ht.
Qed.
End roundtrip.

Lemma static_roundtrip_witness :
  ∃ u, @yaf_route_static_assemble plain_runtime
         [(KStr ":c", ZStr "news"); (KStr ":a", ZStr "show")] None (start_engine ["Index"] [] []) =
         Some (Some u, start_engine ["Index"] [] []) ∧
    yaf_route_static_route ((sample_request "/app" "") <| rq_uri := ZStr ("/app" ++ u) |>)
      (start_engine ["Index"] [] []) =
      Some ((true, table_update ((sample_request "/app" "") <| rq_uri := ZStr ("/app" ++ u) |>) []
                     (None, Some ("news" : zstr), Some ("show" : zstr), [])),
            start_engine ["Index"] [] []).
Proof.
  apply (@static_roundtrip plain_runtime (start_engine ["Index"] [] []) (sample_request "/app" "")
           [] "/app" _ ["news"; "show"]); try done; decided.
Defined.

(** C11: On a URI without NUL bytes and spaces, for every list of modules and
    both settings of [action_prefer], the path parser assigns the segments of
    the path as the table says: a known module first, then controller and
    action, a lone segment by preference, and the remaining segments as pairs of
    parameters. *)
Theorem pathinfo_route_spec e r params uri :
  plain uri → rq_params r = ZArr params →
  yaf_route_pathinfo_route r uri e =
    Some ((true, table_update r params
             (pathinfo_table (is_module e) (action_prefer (yaf e)) (tokens SLASH uri))), e).
Proof. apply pathinfo_route_run. Qed.

Lemma pathinfo_route_spec_witness :
  yaf_route_pathinfo_route (sample_request [] []) "//Admin/user/edit/id/7/"
    (start_engine ["Index"; "Admin"] [] []) =
  Some ((true, (sample_request [] []) <| rq_module := ZStr "Admin" |> <| rq_controller := ZStr "user" |>
                 <| rq_action := ZStr "edit" |> <| rq_params := ZArr [(KStr "id", ZStr "7")] |>),
        start_engine ["Index"; "Admin"] [] []).
Proof.
  rewrite (pathinfo_route_spec (start_engine ["Index"; "Admin"] [] [])
             (sample_request [] []) [] "//Admin/user/edit/id/7/").
  - by vm_compute.
  - decided.
  - done.
Defined.

(** The supervar route declines when the query string does not hold its
    variable, routes the variable's value as a path when it is a string, and
    reads a value of another type as a string, which is undefined. *)
Theorem supervar_route_spec e r params name get :
  g_get (http e) = ZArr get → rq_params r = ZArr params →
  match hfind (KStr name) get with
  | None => yaf_route_supervar_route (ZStr name) r e = Some ((false, r), e)
  | Some (ZStr uri) =>
      plain uri →
      yaf_route_supervar_route (ZStr name) r e =
        Some ((true, table_update r params
                 (pathinfo_table (is_module e) (action_prefer (yaf e)) (tokens SLASH uri))), e)
  | Some _ => yaf_route_supervar_route (ZStr name) r e = None
  end.
Proof.
  intros Hg Hp. unfold yaf_route_supervar_route. st_run.
  destruct (hfind (KStr name) get) as [[]|]; st_run; try done.
  intros Hu. by apply pathinfo_route_run.
Qed.

Lemma supervar_route_spec_witness :
  yaf_route_supervar_route (ZStr "r") (sample_request [] [])
    (start_engine ["Index"] [(KStr "r", ZStr "/a/b")] []) =
  Some ((true, (sample_request [] []) <| rq_controller := ZStr "a" |>
                 <| rq_action := ZStr "b" |>),
        start_engine ["Index"] [(KStr "r", ZStr "/a/b")] []).
Proof.
  apply (supervar_route_spec (start_engine ["Index"] [(KStr "r", ZStr "/a/b")] [])
           (sample_request [] []) [] "r" [(KStr "r", ZStr "/a/b")] eq_refl eq_refl).
  decided.
Defined.
