(* ===== verification/RouteSimple.v ===== *)
(** * The simple route

    [routes/yaf_route_simple.c]: module, controller and action are three
    variables of the query string. *)

From S2P Require Import Prelude Zend Engine Request Route.

Open Scope zs_scope.

Definition yaf_route_simple_route (nmodule ncontroller naction : zval) (r : request)
    : M (bool * request) :=
  nm ← lift (Z_STR nmodule);
  module ← yaf_request_query YAF_GLOBAL_VARS_GET nm;
  nc ← lift (Z_STR ncontroller);
  controller ← yaf_request_query YAF_GLOBAL_VARS_GET nc;
  na ← lift (Z_STR naction);
  action ← yaf_request_query YAF_GLOBAL_VARS_GET na;
  match module, controller, action with
  | None, None, None => mret (false, r)
  | _, _, _ =>
      r ← (match module with
           | Some (ZStr m) =>
               is_mod ← yaf_application_is_module_name m;
               mret (if is_mod : bool then r <| rq_module := ZStr m |> else r)
           | _ => mret r
           end : M request);
      let r := match controller with Some c => r <| rq_controller := c |> | None => r end in
      let r := match action with Some a => r <| rq_action := a |> | None => r end in
      mret (true, r)
  end.

Section with_runtime.
Context `{Runtime}.

(** [name=value] of one of the three variables *)
Definition var_value (name : zstr) (v : zval) : zstr := name ++ "=" ++ zval_get_string v.

Definition yaf_route_simple_assemble (nmodule ncontroller naction : zval)
    (info : htab zval) (query : option zval) : M (option zstr) :=
  m ← (match hfind (KStr YAF_ROUTE_ASSEMBLE_MOUDLE_FORMAT) info with
       | Some v => nm ← lift (Z_STR nmodule); mret (var_value nm v ++ "&")
       | None => mret []
       end : M zstr);
  match hfind (KStr YAF_ROUTE_ASSEMBLE_CONTROLLER_FORMAT) info with
  | None => yaf_trigger_error YAF_ERR_TYPE_ERROR "You need to specify the controller by ':c'";;
            mret None
  | Some c =>
      nc ← lift (Z_STR ncontroller);
      match hfind (KStr YAF_ROUTE_ASSEMBLE_ACTION_FORMAT) info with
      | None => yaf_trigger_error YAF_ERR_TYPE_ERROR "You need to specify the action by ':a'";;
                mret None
      | Some a =>
          na ← lift (Z_STR naction);
          mret (Some ("?" ++ m ++ var_value nc c ++ "&" ++ var_value na a ++
                      mjoin (map (λ p, "&" ++ p) (query_pairs query))))
      end
  end.

(** The methods [route] and [assemble] *)
Definition simple_route_method (nmodule ncontroller naction : zval) (r : request) : M (zval * request) :=
  res ← yaf_route_simple_route nmodule ncontroller naction r; mret (ret_bool res).
Definition simple_assemble_method (nmodule ncontroller naction : zval) (info : htab zval) (query : option zval) : M zval :=
  s ← yaf_route_simple_assemble nmodule ncontroller naction info query; mret (ret_str ZNull s).

(** ** Correctness *)

(** The updates that a GET array with the three variables causes. *)
Definition simple_update (is_mod : zstr → bool) (module controller action : option zval)
    (r : request) : request :=
  let r := match module with
           | Some (ZStr m) => if is_mod m then r <| rq_module := ZStr m |> else r
           | _ => r
           end in
  let r := match controller with Some c => r <| rq_controller := c |> | None => r end in
  match action with Some a => r <| rq_action := a |> | None => r end.

(** The simple route answers exactly when one of its three query variables is
    present: a module is taken only when it is registered, controller and action
    are taken as they are, and the variables that are absent leave the request
    alone. *)
Theorem simple_route_spec e r nm nc na get :
  g_get (http e) = ZArr get →
  yaf_route_simple_route (ZStr nm) (ZStr nc) (ZStr na) r e =
    Some ((match hfind (KStr nm) get, hfind (KStr nc) get, hfind (KStr na) get with
           | None, None, None => (false, r)
           | m, c, a => (true, simple_update (is_module e) m c a r)
           end), e).
Proof.
  intros Hg. unfold yaf_route_simple_route, simple_update. st_run.
  destruct (hfind (KStr nm) get) as [[]|], (hfind (KStr nc) get), (hfind (KStr na) get);
    st_run; try done.
Qed.

End with_runtime.

Lemma simple_route_spec_witness :
  yaf_route_simple_route (ZStr "m") (ZStr "c") (ZStr "a") (sample_request [] [])
    (start_engine ["Index"] [(KStr "m", ZStr "none"); (KStr "a", ZStr "x")] []) =
  Some ((true, (sample_request [] []) <| rq_action := ZStr "x" |>),
        start_engine ["Index"] [(KStr "m", ZStr "none"); (KStr "a", ZStr "x")] []).
Proof.
  rewrite (simple_route_spec
             (start_engine ["Index"] [(KStr "m", ZStr "none"); (KStr "a", ZStr "x")] [])
             (sample_request [] []) "m" "c" "a" [(KStr "m", ZStr "none"); (KStr "a", ZStr "x")]);
    by vm_compute.
Defined.
