(* ===== verification/RouteMap.v ===== *)
(** * The map route

    [routes/yaf_route_map.c]: the segments of the path are joined with
    underscores into the name of a controller or an action, and what follows a
    delimiter segment is read as parameters. *)

From S2P Require Import Prelude Zend Engine Request Route.

Open Scope zs_scope.

Definition UNDERSCORE : ascii := "_"%char.

(** Where the delimiter cuts the path.  [*(query_str - 1)] is read even when
    the delimiter is at the start of the buffer. *)
Definition split_delim (delimer : zval) (req_uri : zstr) : option (zstr * option zstr) :=
  match delimer with
  | ZStr ((_ :: _) as d) =>
      match strstr req_uri d with
      | None => Some (req_uri, None)
      | Some 0 => None
      | Some (S j as i) =>
          if bool_decide (req_uri !! j = Some SLASH) then
            if bool_decide (i + length d ≤ length req_uri) then
              match drop (i + length d) req_uri with
              | [] => Some (take i req_uri, None)
              | (c :: _) as rest =>
                  if ceq c SLASH then Some (take i req_uri, Some rest) else Some (req_uri, None)
              end
            else None
          else Some (req_uri, None)
      end
  | _ => Some (req_uri, None)
  end.

(** The loop that appends every token and an underscore; [None] is the smart
    string that nothing was appended to. *)
Fixpoint join_loop (fuel : nat) (cur : option zstr * option zstr) (acc : option zstr)
    : option zstr :=
  match fuel, cur with
  | S fuel', (Some seg, rest) =>
      join_loop fuel' (php_strtok_r rest YAF_ROUTER_URL_DELIMIETER)
        (Some (default [] acc ++ seg ++ [UNDERSCORE]))
  | _, _ => acc
  end.

Definition map_name (req_uri : zstr) : option zstr :=
  (λ s, take (length s - 1) s) <$>
    join_loop (S (S (length req_uri)))
      (php_strtok_r (Some req_uri) YAF_ROUTER_URL_DELIMIETER) None.

Definition yaf_route_map_route (ctl_prefer delimer : zval) (r : request)
    : M (bool * request) :=
  stripped ← lift (strip_base_uri r);
  cut ← lift (split_delim delimer (cstr stripped));
  let '(req_uri, query_str) := cut in
  let r := match map_name req_uri with
           | Some name =>
               match ctl_prefer with
               | ZBool true => r <| rq_controller := ZStr name |>
               | _ => r <| rq_action := ZStr name |>
               end
           | None => r
           end in
  match query_str with
  | Some q =>
      res ← yaf_request_set_params_multi r (ZArr (yaf_router_parse_parameters q));
      mret (true, res.2)
  | None => mret (true, r)
  end.

Section with_runtime.
Context `{Runtime}.

(** The loop over the pieces of the name between underscores. *)
Fixpoint path_loop (fuel : nat) (cur : option zstr * option zstr) (uri : zstr) : zstr :=
  match fuel, cur with
  | S fuel', (Some seg, rest) =>
      path_loop fuel' (php_strtok_r rest UNDERSCORE) (uri ++ SLASH :: seg)
  | _, _ => uri
  end.

(** The query, as path segments after a delimiter or as a query string. *)
Definition map_query (delim : option zstr) (kvs : list (zstr * zval)) : zstr :=
  match delim with
  | Some d =>
      SLASH :: d ++
      mjoin (map (λ kv, SLASH :: kv.1 ++ SLASH :: zval_get_string kv.2) kvs)
  | None =>
      match kvs with
      | [] => []
      | kv :: kvs => "?" ++ print_pair kv ++ mjoin (map (λ kv, "&" ++ print_pair kv) kvs)
      end
  end.

Definition yaf_route_map_assemble (ctl_prefer delim : zval) (info : htab zval)
    (query : option zval) : M (option zstr) :=
  let has_delim := match delim with ZStr ((_ :: _) as d) => Some d | _ => None end in
  pname ← (match ctl_prefer with
           | ZBool true =>
               match hfind (KStr YAF_ROUTE_ASSEMBLE_ACTION_FORMAT) info with
               | Some (ZStr s) => mret (Some s)
               | _ => yaf_trigger_error YAF_ERR_TYPE_ERROR
                        "Undefined the 'action' parameter for the 1st parameter";; mret None
               end
           | _ =>
               match hfind (KStr YAF_ROUTE_ASSEMBLE_CONTROLLER_FORMAT) info with
               | Some (ZStr s) => mret (Some s)
               | _ => yaf_trigger_error YAF_ERR_TYPE_ERROR
                        "Undefined the 'controller' parameter for the 1st parameter";; mret None
               end
           end : M (option zstr));
  match pname with
  | None => mret None
  | Some pname =>
      let uri := path_loop (S (S (length pname)))
                   (php_strtok_r (Some (cstr pname)) UNDERSCORE) [] in
      let uri := match query with
                 | Some (ZArr ht) => uri ++ map_query has_delim (str_entries ht)
                 | _ => uri
                 end in
      (* a smart string that nothing was appended to is the NULL string *)
      mret (match uri with [] => None | _ => Some uri end)
  end.

(** The methods [route] and [assemble] *)
Definition map_route_method (ctl_prefer delimer : zval) (r : request) : M (zval * request) :=
  res ← yaf_route_map_route ctl_prefer delimer r; mret (ret_bool res).
Definition map_assemble_method (ctl_prefer delim : zval) (info : htab zval) (query : option zval) : M zval :=
  s ← yaf_route_map_assemble ctl_prefer delim info query; mret (ret_str ZNull s).
End with_runtime.

(** ** Lemmas on the loops *)

Lemma join_loop_spec fuel o acc :
  olen o < fuel →
  join_loop fuel (php_strtok_r o SLASH) acc =
    match otokens SLASH o with
    | [] => acc
    | ws => Some (default [] acc ++ join UNDERSCORE ws ++ [UNDERSCORE])
    end.
Proof.
  revert o acc. induction fuel as [|fuel IH]; intros o acc Hf; [lia|].
  assert (Ht := strtok_spec SLASH o).
  destruct (otokens SLASH o) as [|w ws]; [by rewrite Ht|].
  destruct Ht as (l & -> & Hl & Hlt). cbn [join_loop]. unfold YAF_ROUTER_URL_DELIMIETER.
  rewrite IH by lia. rewrite Hl. destruct ws as [|w' ws]; [done|].
  cbn [default from_option id]. f_equal.
  change (join UNDERSCORE (w :: w' :: ws)) with (w ++ UNDERSCORE :: join UNDERSCORE (w' :: ws)).
  by rewrite <-!app_assoc.
Qed.

Lemma map_name_spec req_uri :
  map_name req_uri =
    match tokens SLASH req_uri with [] => None | ws => Some (join UNDERSCORE ws) end.
Proof.
  unfold map_name, YAF_ROUTER_URL_DELIMIETER. rewrite join_loop_spec by (simpl; lia).
  cbn [otokens from_option]. destruct (tokens SLASH req_uri) as [|w ws]; [done|].
  cbn [fmap option_fmap option_map default from_option]. f_equal. simpl ([] ++ _).
  rewrite length_app. by rewrite Nat.add_sub, take_app_length.
Qed.

Lemma path_loop_spec fuel o uri :
  olen o < fuel →
  path_loop fuel (php_strtok_r o UNDERSCORE) uri =
    uri ++ mjoin (map (cons SLASH) (otokens UNDERSCORE o)).
Proof.
  revert o uri. induction fuel as [|fuel IH]; intros o uri Hf; [lia|].
  assert (Ht := strtok_spec UNDERSCORE o).
  destruct (otokens UNDERSCORE o) as [|w ws]; [rewrite Ht; simpl; by rewrite app_nil_r|].
  destruct Ht as (l & -> & Hl & Hlt). cbn [path_loop].
  rewrite IH by lia. rewrite Hl. cbn. by rewrite <-app_assoc.
Qed.

(** ** Correctness *)

(** The request after the route, given the segments and the parameters. *)
Definition map_update (ctl_prefer : bool) (ws : list zstr) (params : option (htab zval))
    (r : request) : request :=
  let r := match ws with
           | [] => r
           | _ => if ctl_prefer then r <| rq_controller := ZStr (join UNDERSCORE ws) |>
                  else r <| rq_action := ZStr (join UNDERSCORE ws) |>
           end in
  match params with Some ht => r <| rq_params := ZArr ht |> | None => r end.

Lemma map_route_cut e r ht ctl delim u path q :
  strip_base_uri r = Some u → split_delim delim (cstr u) = Some (path, q) →
  rq_params r = ZArr ht →
  yaf_route_map_route (ZBool ctl) delim r e =
    Some ((true, map_update ctl (tokens SLASH path)
                   ((λ q, hcopy ht (pairs_of (tokens SLASH (cstr q)) [])) <$> q) r), e).
Proof.
  intros Hu Hc Hp. unfold yaf_route_map_route, map_update, yaf_request_set_params_multi. st_run.
  rewrite map_name_spec. destruct r as [? ? ? ? rp ? ? ? ? ? ?]. cbn in Hp. subst rp.
  destruct (tokens SLASH path) as [|w ws], ctl, q as [q|];
    cbn -[yaf_router_parse_parameters join cstr]; by rewrite ?parse_parameters_tokens.
Qed.

(** A map route without a delimiter turns the path below the base URI into one
    name, its segments joined by underscores, stores it as the controller or the
    action as configured, and touches nothing else; an empty path changes
    nothing. *)
Theorem map_route_plain e r ht b u ctl :
  rq_base_uri r = ZStr b → no_nul b → rq_uri r = ZStr (b ++ u) → no_nul u →
  rq_params r = ZArr ht →
  yaf_route_map_route (ZBool ctl) ZNull r e =
    Some ((true, map_update ctl (tokens SLASH u) None r), e).
Proof.
  intros Hb Hnb Hu Hnu Hp.
  assert (Hs := strip_base_app r b u Hnb Hb Hu).
  rewrite (map_route_cut e r ht ctl ZNull u u None) by (done || by rewrite cstr_no_nul). done.
Qed.

Lemma map_route_plain_witness :
  yaf_route_map_route (ZBool true) ZNull (sample_request "/app" "/app/news/list")
    (start_engine [] [] []) =
  Some ((true, (sample_request "/app" "/app/news/list") <| rq_controller := ZStr "news_list" |>),
        start_engine [] [] []).
Proof.
  rewrite (map_route_plain (start_engine [] [] []) (sample_request "/app" "/app/news/list") []
             "/app" "/news/list" true); first [by vm_compute | decided].
Defined.

Section roundtrip.
Context `{Runtime}.

Definition word (w : zstr) : Prop :=
  w ≠ [] ∧ no_nul w ∧ free_of SLASH w ∧ free_of UNDERSCORE w.
#[export] Instance word_dec w : Decision (word w).
Proof. unfold word. apply _. Defined.
Definition param_ok (kv : zstr * zstr) : Prop :=
  (kv.1 ≠ [] ∧ no_nul kv.1 ∧ free_of SLASH kv.1) ∧ (kv.2 ≠ [] ∧ no_nul kv.2 ∧ free_of SLASH kv.2).
#[export] Instance param_ok_dec kv : Decision (param_ok kv).
Proof. unfold param_ok. apply _. Defined.
Definition query_of (kvs : list (zstr * zstr)) : htab zval :=
  map (λ kv, (KStr kv.1, ZStr kv.2)) kvs.

Lemma pairs_of_flat kvs params :
  pairs_of (mjoin (map (λ kv, [kv.1; kv.2]) kvs)) params = hcopy params (query_of kvs).
Proof.
  revert params. induction kvs as [|[k v] kvs IH]; intros params; [done|]. apply IH.
Qed.

(** The parameters, as segments. *)
Definition param_path (kvs : list (zstr * zstr)) : zstr :=
  mjoin (map (λ kv, SLASH :: kv.1 ++ SLASH :: kv.2) kvs).

Lemma param_path_of kvs : param_path kvs = path_of (mjoin (map (λ kv, [kv.1; kv.2]) kvs)).
Proof.
  induction kvs as [|[k v] kvs IH]; [done|].
  change (param_path ((k, v) :: kvs)) with ((SLASH :: k ++ SLASH :: v) ++ param_path kvs).
  rewrite IH. change (mjoin (map _ ((k, v) :: kvs))) with
    (k :: v :: mjoin (map (λ kv : zstr * zstr, [kv.1; kv.2]) kvs)).
  unfold path_of. simpl. by rewrite <-app_assoc.
Qed.

Lemma str_entries_query kvs : str_entries (query_of kvs) = map (λ kv, (kv.1, ZStr kv.2)) kvs.
Proof. induction kvs as [|kv kvs IH]; [done|]. cbn. by rewrite <-IH. Qed.

Lemma no_nul_join ws : Forall no_nul ws → no_nul (join UNDERSCORE ws).
Proof.
  induction 1 as [|w ws Hw Hws IH]; [constructor|]. destruct ws as [|w' ws]; [done|].
  apply no_nul_app. split; [done|]. by constructor.
Qed.

Lemma param_flat_ok kvs :
  Forall param_ok kvs →
  Forall (λ w, w ≠ [] ∧ no_nul w ∧ free_of SLASH w) (mjoin (map (λ kv, [kv.1; kv.2]) kvs)).
Proof. induction 1 as [|kv kvs [Hk Hv] _ IH]; [constructor|].
  do 2 (constructor; [done|]). exact IH.
Qed.

(** The parameters of an assembled path are read back. *)
Lemma param_path_pairs kvs :
  Forall param_ok kvs → hwf (query_of kvs) →
  pairs_of (tokens SLASH (cstr (param_path kvs))) [] = query_of kvs.
Proof.
  intros Hk Hwf. assert (Hf := param_flat_ok kvs Hk). rewrite param_path_of.
  rewrite cstr_no_nul, tokens_path_of, pairs_of_flat, hcopy_nil; [done|done| |].
  - eapply Forall_impl; [exact Hf|]. by intros ? (? & ? & ?).
  - apply no_nul_path_of. eapply Forall_impl; [exact Hf|]. by intros ? (? & ? & ?).
Qed.

Lemma split_delim_at x d pre rest :
  x ∉ SLASH :: pre → no_nul (x :: d) → no_nul (pre ++ SLASH :: (x :: d) ++ rest) →
  match rest with [] => True | c :: _ => c = SLASH end →
  split_delim (ZStr (x :: d)) (pre ++ SLASH :: (x :: d) ++ rest) =
    Some (pre ++ [SLASH], match rest with [] => None | _ => Some rest end).
Proof.
  intros Hx Hd Hu Hrest. unfold split_delim, strstr. rewrite !cstr_no_nul by done.
  rewrite cons_middle, app_assoc. rewrite find_sub_at by (apply not_elem_of_cons in Hx; set_solver).
  rewrite length_app, Nat.add_1_r. rewrite bool_decide_true.
  2:{ rewrite <-app_assoc. by apply list_lookup_middle. }
  rewrite bool_decide_true by (rewrite !length_app; simpl; lia).
  replace (S (length pre) + length (x :: d)) with (length ((pre ++ [SLASH]) ++ x :: d))
    by (rewrite !length_app; simpl; lia).
  rewrite app_assoc, drop_app_length.
  replace (take (S (length pre)) _) with (pre ++ [SLASH]).
  2:{ rewrite <-app_assoc. by rewrite take_app_length' by (rewrite length_app; simpl; lia). }
  destruct rest as [|c rest]; [done|]. subst c. by rewrite ceq_refl.
Qed.

Lemma map_assemble_ok e ctl d info kvs ws :
  hfind (KStr (if ctl : bool then ":a" else ":c")) info = Some (ZStr (join UNDERSCORE ws)) →
  Forall word ws → d ≠ [] →
  yaf_route_map_assemble (ZBool ctl) (ZStr d) info (Some (ZArr (query_of kvs))) e =
    Some (Some (path_of ws ++ SLASH :: d ++ param_path kvs), e).
Proof.
  intros Hi Hw Hd. unfold yaf_route_map_assemble, YAF_ROUTE_ASSEMBLE_ACTION_FORMAT,
    YAF_ROUTE_ASSEMBLE_CONTROLLER_FORMAT.
  set (pname := join UNDERSCORE ws) in *.
  assert (Hp : path_loop (S (S (length pname))) (php_strtok_r (Some (cstr pname)) UNDERSCORE) []
               = path_of ws).
  { rewrite path_loop_spec by (simpl; assert (Hl := cstr_length pname); lia).
    cbn [otokens from_option]. unfold pname. rewrite cstr_no_nul, tokens_join; [done| | |].
    - eapply Forall_impl; [exact Hw|]. by intros ? (? & ? & ? & ?).
    - eapply Forall_impl; [exact Hw|]. by intros ? (? & ? & ? & ?).
    - apply no_nul_join. eapply Forall_impl; [exact Hw|]. by intros ? (? & ? & ? & ?). }
  assert (Hq : mjoin (map (λ kv : zstr * zval, SLASH :: kv.1 ++ SLASH :: zval_get_string kv.2)
                        (str_entries (query_of kvs))) = param_path kvs).
  { rewrite str_entries_query, map_map. done. }
  destruct d as [|x d]; [done|]. destruct ctl; rewrite Hi; st_run; rewrite Hp;
    unfold map_query; rewrite Hq; by destruct (path_of ws).
Qed.

(** C15: Assembling a URI from a name and parameters and routing it gives the name
    and the parameters back; with [ctl] the name is read from [:a] but stored
    as the controller, and without it read from [:c] but stored as the
    action. *)
Theorem map_roundtrip e r ht b ctl x d info kvs ws :
  hfind (KStr (if ctl : bool then ":a" else ":c")) info = Some (ZStr (join UNDERSCORE ws)) →
  Forall word ws → Forall param_ok kvs → hwf (query_of kvs) →
  no_nul (x :: d) → x ≠ SLASH → Forall (λ w, x ∉ w) ws →
  rq_base_uri r = ZStr b → no_nul b → rq_params r = ZArr ht →
  ∃ u, yaf_route_map_assemble (ZBool ctl) (ZStr (x :: d)) info (Some (ZArr (query_of kvs))) e
         = Some (Some u, e) ∧
    let r' := r <| rq_uri := ZStr (b ++ u) |> in
    yaf_route_map_route (ZBool ctl) (ZStr (x :: d)) r' e =
      Some ((true, map_update ctl ws (Some (hcopy ht (query_of kvs))) r'), e).
Proof.
  intros Hi Hw Hk Hwf Hd Hx Hxw Hb Hnb Hp.
  eexists. split; [by apply map_assemble_ok|]. set (u := path_of ws ++ _). intros r'.
  assert (Hf := param_flat_ok kvs Hk).
  assert (Hnp : no_nul (param_path kvs)).
  { rewrite param_path_of. apply no_nul_path_of. eapply Forall_impl; [exact Hf|].
    by intros ? (? & ? & ?). }
  assert (Hnu : no_nul u).
  { unfold u. rewrite no_nul_app. split.
    - apply no_nul_path_of. eapply Forall_impl; [exact Hw|]. by intros ? (? & ? & ? & ?).
    - constructor; [done|]. by apply no_nul_app. }
  assert (Hxp : x ∉ SLASH :: path_of ws).
  { apply not_elem_of_cons. split; [done|]. clear -Hx Hxw.
    induction Hxw as [|w ws Hw _ IH]; [apply not_elem_of_nil|].
    change (path_of (w :: ws)) with (SLASH :: w ++ path_of ws).
    rewrite not_elem_of_cons, not_elem_of_app. done. }
  assert (Htw : tokens SLASH (path_of ws ++ [SLASH]) = ws).
  { rewrite tokens_app_delims by (by constructor). apply tokens_path_of.
    eapply Forall_impl; [exact Hw|]. by intros ? (? & ? & ? & ?). }
  erewrite map_route_cut; [|by apply (strip_base_app _ b)| |done].
  2:{ rewrite cstr_no_nul by done. apply (split_delim_at x d); try done.
      destruct kvs; [done|]. by destruct p. }
  rewrite Htw. do 3 f_equal. destruct kvs as [|kv kvs].
  - cbn. destruct r, ws, ctl; cbn in *; by subst.
  - assert (Hpp := param_path_pairs (kv :: kvs) Hk Hwf).
    destruct (param_path (kv :: kvs)) as [|c rest] eqn:E; [done|].
    cbn [fmap option_fmap option_map]. by rewrite Hpp.
Qed.
End roundtrip.

Lemma map_roundtrip_witness :
  ∃ u, @yaf_route_map_assemble plain_runtime (ZBool true) (ZStr "#!")
         [(KStr ":a", ZStr "news_list")] (Some (ZArr (query_of [("p", "2")]))) (start_engine [] [] [])
         = Some (Some u, start_engine [] [] []) ∧
    let r' := (sample_request "/app" "") <| rq_uri := ZStr ("/app" ++ u) |> in
    yaf_route_map_route (ZBool true) (ZStr "#!") r' (start_engine [] [] []) =
      Some ((true, map_update true ["news"; "list"] (Some (hcopy [] (query_of [("p", "2")]))) r'),
            start_engine [] [] []).
Proof.
  apply (@map_roundtrip plain_runtime (start_engine [] [] []) (sample_request "/app" "") [] "/app"
           true "#"%char "!"); first [done | decided].
Defined.
