(* ===== verification/RouteRewrite.v ===== *)
(** * The rewrite and the regex route

    [routes/yaf_route_rewrite.c] and [routes/yaf_route_regex.c].  Both match the
    request URI with PCRE, which is the function [rt_pcre_match] of the
    runtime; the pattern that the rewrite route compiles its match string to,
    the use of the subpatterns and the two [assemble] functions are modelled. *)

From S2P Require Import Prelude Zend Engine Request Route.
From S2P Require Url.

Open Scope zs_scope.

Definition COLON : ascii := ":"%char.
Definition STAR : ascii := "*"%char.

(** ** Patterns *)

Definition REST : zstr := "__yaf_route_rest".

(** The loop that translates the segments of the match string. *)
Fixpoint pattern_loop (fuel : nat) (cur : option zstr * option zstr) (pattern : zstr) : zstr :=
  match fuel, cur with
  | S fuel', (Some seg, rest) =>
      match seg with
      | [] => pattern_loop fuel' (php_strtok_r rest YAF_ROUTER_URL_DELIMIETER) pattern
      | c :: name =>
          let pattern := pattern ++ "/" in
          if ceq c STAR then pattern ++ "(?P<__yaf_route_rest>.*)"
          else
            pattern_loop fuel' (php_strtok_r rest YAF_ROUTER_URL_DELIMIETER)
              (if ceq c COLON then pattern ++ "(?P<" ++ name ++ ">[^/]+)" else pattern ++ seg)
      end
  | _, _ => pattern
  end.

Definition rewrite_pattern (match_ : zstr) : zstr :=
  pattern_loop (S (S (length match_)))
    (php_strtok_r (Some (cstr match_)) YAF_ROUTER_URL_DELIMIETER) "#^" ++ "#i".

(** ** Using the subpatterns *)

(** One entry with a string key: the rest of the path is a list of parameters,
    everything else is one parameter. *)
Definition add_subpattern (ret : htab zval) (kv : zstr * zval) : option (htab zval) :=
  if bool_decide (kv.1 = REST) then
    rest ← Z_STR kv.2;
    Some (hcopy ret (yaf_router_parse_parameters rest))
  else Some (hupdate (KStr kv.1) kv.2 ret).

(** One property of the request: a constant, or [:name] for a parameter. *)
Definition routed_name (routes args : htab zval) (key : zstr) : option zval :=
  match hfind (KStr key) routes with
  | Some (ZStr s) =>
      match s with
      | c :: name =>
          if ceq c COLON then
            match hfind (KStr name) args with
            | Some (ZStr v) => Some (ZStr v)
            | _ => None
            end
          else Some (ZStr s)
      | [] => Some (ZStr s)
      end
  | _ => None
  end.

Definition apply_match (routes args : htab zval) (r : request) : M request :=
  let r := match routed_name routes args "module" with
           | Some v => r <| rq_module := v |> | None => r end in
  let r := match routed_name routes args "controller" with
           | Some v => r <| rq_controller := v |> | None => r end in
  let r := match routed_name routes args "action" with
           | Some v => r <| rq_action := v |> | None => r end in
  res ← yaf_request_set_params_multi r (ZArr args);
  mret res.2.

Section with_runtime.
Context `{Runtime}.

(** ** The rewrite route *)

Definition yaf_route_rewrite_match (match_ : zval) (uri : zstr) : M (option (htab zval)) :=
  match uri with
  | [] => mret None
  | _ =>
      m ← lift (Z_STR match_);
      match rt_pcre_match (rewrite_pattern m) uri with
      | None | Some [] => mret None
      | Some subparts =>
          ret ← lift (foldM add_subpattern [] (str_entries subparts));
          mret (Some ret)
      end
  end.

Definition yaf_route_rewrite_route (match_ def : zval) (r : request) : M (bool * request) :=
  request_uri ← lift (strip_base_uri r);
  args ← yaf_route_rewrite_match match_ request_uri;
  match args with
  | None => mret (false, r)
  | Some args =>
      routes ← lift (Z_ARR def);
      r' ← apply_match routes args r;
      mret (true, r')
  end.

(** [Yaf_Route_Rewrite::match] *)
Definition rewrite_match_method (match_ : zval) (uri : zstr) : M zval :=
  match uri with
  | [] => mret (ZBool false)
  | _ =>
      res ← yaf_route_rewrite_match match_ uri;
      mret (match res with Some ht => ZArr ht | None => ZBool false end)
  end.

(** The text that replaces the star: [name/value/] for every string left.  The
    colon of the name is skipped, one byte before the start of an empty key. *)
Fixpoint wildcard_loop (kvs : list (zstr * zval)) (wildcard : option zstr)
    : option (option zstr) :=
  match kvs with
  | [] => Some wildcard
  | (key, ZStr v) :: kvs' =>
      match key with
      | [] => None
      | _ :: name => wildcard_loop kvs' (Some (default [] wildcard ++ name ++ "/" ++ v ++ "/"))
      end
  | _ :: kvs' => wildcard_loop kvs' wildcard
  end.

(** The loop over the segments of the match string.  When nothing was appended
    to the wildcard its string is NULL and is dereferenced all the same. *)
Fixpoint assemble_loop (fuel : nat) (cur : option zstr * option zstr)
    (info pidents : htab zval) (uri : zstr) : option zstr :=
  match fuel, cur with
  | S fuel', (Some seg, rest) =>
      let next := php_strtok_r rest YAF_ROUTER_URL_DELIMIETER in
      match seg with
      | [] => assemble_loop fuel' next info pidents uri
      | c :: _ =>
          if ceq c STAR then
            wildcard ← wildcard_loop (str_entries pidents) None;
            wildcard ← wildcard;
            Some (php_str_to_str uri "*" wildcard)
          else if ceq c COLON then
            match hfind (KStr seg) info with
            | Some v =>
                assemble_loop fuel' next info (hdel (KStr seg) pidents)
                  (php_str_to_str uri seg (zval_get_string v))
            | None => assemble_loop fuel' next info pidents uri
            end
          else assemble_loop fuel' next info pidents uri
      end
  | _, _ => Some uri
  end.

(** [?k=v&...&], without its last byte *)
Definition trailing_query (query : option zval) : zstr :=
  match query with
  | Some (ZArr ht) =>
      let s := "?" ++ mjoin (map (λ kv, print_pair kv ++ "&") (str_entries ht)) in
      take (length s - 1) s
  | _ => []
  end.

Definition yaf_route_rewrite_assemble (match_ : zval) (info : htab zval) (query : option zval)
    : M (option zstr) :=
  m ← lift (Z_STR match_);
  uri ← lift (assemble_loop (S (S (length m)))
                (php_strtok_r (Some (cstr m)) YAF_ROUTER_URL_DELIMIETER)
                info (hcopy [] info) m);
  mret (Some (uri ++ trailing_query query)).

(** The methods [route] and [assemble] *)
Definition rewrite_route_method (match_ def : zval) (r : request) : M (zval * request) :=
  res ← yaf_route_rewrite_route match_ def r; mret (ret_bool res).
Definition rewrite_assemble_method (match_ : zval) (info : htab zval) (query : option zval) : M zval :=
  s ← yaf_route_rewrite_assemble match_ info query; mret (ret_str ZNull s).

(** ** The regex route *)

(** A named subpattern keeps its name; a numbered one gets the one of the map. *)
Definition add_regex_subpattern (maps : zval) (ret : htab zval) (kv : hkey * zval) : htab zval :=
  match kv.1 with
  | KStr key => hupdate (KStr key) kv.2 ret
  | KIdx idx =>
      match maps with
      | ZArr m =>
          match hfind (KIdx idx) m with
          | Some (ZStr name) => hupdate (KStr name) kv.2 ret
          | _ => ret
          end
      | _ => ret
      end
  end.

Definition yaf_route_regex_match (match_ maps : zval) (uri : zstr) : M (option (htab zval)) :=
  match uri with
  | [] => mret None
  | _ =>
      m ← lift (Z_STR match_);
      match rt_pcre_match m uri with
      | None | Some [] => mret None
      | Some subparts => mret (Some (foldl (add_regex_subpattern maps) [] subparts))
      end
  end.

Definition yaf_route_regex_route (match_ def maps : zval) (r : request) : M (bool * request) :=
  request_uri ← lift (strip_base_uri r);
  args ← yaf_route_regex_match match_ maps request_uri;
  match args with
  | None => mret (false, r)
  | Some args =>
      routes ← lift (Z_ARR def);
      r' ← apply_match routes args r;
      mret (true, r')
  end.

Definition replace_info (info : htab zval) (key : zstr) (uri : zstr) : zstr :=
  match hfind (KStr key) info with
  | Some v => php_str_to_str uri key (zval_get_string v)
  | None => uri
  end.

(** The action and the query values are printed from [Z_STRVAL_P], not from the
    converted string. *)
Fixpoint regex_query (kvs : list (zstr * zval)) : option zstr :=
  match kvs with
  | [] => Some []
  | (k, v) :: kvs' =>
      s ← Z_STR v;
      rest ← regex_query kvs';
      Some (k ++ "=" ++ s ++ "&" ++ rest)
  end.

Definition yaf_route_regex_assemble (reverse : zval) (info : htab zval) (query : option zval)
    : M (option zstr) :=
  match reverse with
  | ZStr uri =>
      let uri := replace_info info YAF_ROUTE_ASSEMBLE_MOUDLE_FORMAT uri in
      let uri := replace_info info YAF_ROUTE_ASSEMBLE_CONTROLLER_FORMAT uri in
      uri ← (match hfind (KStr YAF_ROUTE_ASSEMBLE_ACTION_FORMAT) info with
             | Some v => s ← lift (Z_STR v);
                         mret (php_str_to_str uri YAF_ROUTE_ASSEMBLE_ACTION_FORMAT s)
             | None => mret uri
             end : M zstr);
      q ← (match query with
           | Some (ZArr ht) =>
               s ← lift (regex_query (str_entries ht));
               mret (take (length ("?" ++ s) - 1) ("?" ++ s))
           | _ => mret []
           end : M zstr);
      mret (Some (uri ++ q))
  | _ => yaf_trigger_error YAF_ERR_TYPE_ERROR "Reverse property is not a valid string";;
         mret None
  end.

Definition regex_route_method (match_ def maps : zval) (r : request) : M (zval * request) :=
  res ← yaf_route_regex_route match_ def maps r; mret (ret_bool res).
Definition regex_assemble_method (reverse : zval) (info : htab zval) (query : option zval) : M zval :=
  s ← yaf_route_regex_assemble reverse info query; mret (ret_str ZNull s).

End with_runtime.

(** ** The pattern *)

(** What each segment contributes; nothing after a star is looked at. *)
Fixpoint pattern_of (ws : list zstr) : zstr :=
  match ws with
  | [] => []
  | [] :: ws' => pattern_of ws'
  | ((c :: name) as seg) :: ws' =>
      if ceq c STAR then "/(?P<__yaf_route_rest>.*)"
      else (if ceq c COLON then "/(?P<" ++ name ++ ">[^/]+)" else "/" ++ seg) ++ pattern_of ws'
  end.

Lemma pattern_loop_spec fuel o acc :
  olen o < fuel →
  pattern_loop fuel (php_strtok_r o SLASH) acc = acc ++ pattern_of (otokens SLASH o).
Proof.
  revert o acc. induction fuel as [|fuel IH]; intros o acc Hf; [lia|].
  assert (Ht := strtok_spec SLASH o). assert (Hall := otokens_forall SLASH o).
  destruct (otokens SLASH o) as [|w ws]; [rewrite Ht; simpl; by rewrite app_nil_r|].
  destruct Ht as (l & -> & Hl & Hlt). apply Forall_cons in Hall as [[Hw _] _].
  destruct w as [|c name]; [done|]. cbn [pattern_loop pattern_of].
  unfold YAF_ROUTER_URL_DELIMIETER. destruct (ceq c STAR); [by rewrite <-app_assoc|].
  rewrite IH by lia. rewrite Hl. destruct (ceq c COLON); by rewrite <-!app_assoc.
Qed.

Lemma rewrite_pattern_spec m :
  rewrite_pattern m = "#^" ++ pattern_of (tokens SLASH (cstr m)) ++ "#i".
Proof.
  unfold rewrite_pattern, YAF_ROUTER_URL_DELIMIETER.
  rewrite pattern_loop_spec by (simpl; assert (Hl := cstr_length m); lia).
  by rewrite <-app_assoc.
Qed.

(** ** Assembling *)

(** A segment of a match string: a literal, or a colon and a name. *)
Definition literal (w : zstr) : Prop := COLON ∉ w.
Definition placeholder (w : zstr) : Prop :=
  ∃ n, w = COLON :: n ∧ (COLON ∉ n) ∧ (SLASH ∉ n).

(** [seg] is not a proper beginning of [w]. *)
Definition no_overlap (seg w : zstr) : Prop := is_prefix seg w = true → w = seg.

Lemma prefix_before_slash n w rest :
  SLASH ∉ n → is_prefix n (w ++ path_of rest) = true → is_prefix n w = true.
Proof.
  rewrite !is_prefix_spec. intros Hn [t Ht].
  apply app_eq_app in Ht as (k & [[-> Ht]|[-> Ht]]); [by exists k|].
  destruct k as [|c k]; [exists []; by rewrite !app_nil_r|].
  exfalso. destruct rest as [|w' rest]; [done|].
  change (path_of (w' :: rest)) with (SLASH :: w' ++ path_of rest) in Ht.
  injection Ht as <- _. apply Hn, elem_of_app. right. by left.
Qed.

Lemma replace_segments f n r ws :
  SLASH ∉ n → COLON ∉ n →
  Forall (λ w, literal w ∨ (placeholder w ∧ no_overlap (COLON :: n) w)) ws →
  length ws ≤ f →
  replace_fuel f (path_of ws) (COLON :: n) r =
    path_of (map (λ w, if bool_decide (w = COLON :: n) then r else w) ws).
Proof.
  intros Hn Hcn Hws. revert f. induction Hws as [|w ws Hw Hws IH]; intros f Hf.
  - destruct f; done.
  - destruct f as [|f]; [simpl in Hf; lia|]. cbn [map].
    change (path_of (w :: ws)) with ([SLASH] ++ w ++ path_of ws).
    rewrite replace_skip by (by apply not_elem_of_cons; split; [|apply not_elem_of_nil]).
    assert (IHf := IH f ltac:(simpl in Hf; lia)).
    assert (IHSf := IH (S f) ltac:(simpl in Hf; lia)). clear IH.
    set (ws' := map _ ws) in *.
    destruct (bool_decide (w = COLON :: n)) eqn:E.
    + apply bool_decide_eq_true in E as ->. rewrite replace_match, IHf. done.
    + apply bool_decide_eq_false in E.
      change (path_of (w :: ws')) with ([SLASH] ++ w ++ path_of ws'). f_equal.
      destruct Hw as [Hw|[(m & -> & Hm & Hms) Ho]].
      * by rewrite replace_skip, IHSf.
      * change ((COLON :: m) ++ path_of ws) with (COLON :: m ++ path_of ws).
        rewrite replace_head_ne.
        -- by rewrite replace_skip, IHSf.
        -- apply not_true_is_false. intros Hp. apply E, Ho.
           change (COLON :: m ++ path_of ws) with ((COLON :: m) ++ path_of ws) in Hp.
           eapply prefix_before_slash; [|exact Hp]. by apply not_elem_of_cons.
Qed.

Lemma path_of_length ws : length ws ≤ length (path_of ws).
Proof.
  induction ws as [|w ws IH]; [done|].
  change (path_of (w :: ws)) with (SLASH :: w ++ path_of ws). simpl. rewrite length_app. lia.
Qed.

Lemma path_of_length_in w ws : w ∈ ws → length w < length (path_of ws).
Proof.
  induction ws as [|w' ws IH]; [by intros ?%not_elem_of_nil|].
  change (path_of (w' :: ws)) with (SLASH :: w' ++ path_of ws). simpl. rewrite length_app.
  intros [->|Hin]%elem_of_cons; [lia|]. specialize (IH Hin). lia.
Qed.

Definition subst_seg (seg r w : zstr) : zstr := if bool_decide (w = seg) then r else w.

Lemma str_to_str_segments n r ws :
  SLASH ∉ n → COLON ∉ n →
  Forall (λ w, literal w ∨ (placeholder w ∧ no_overlap (COLON :: n) w)) ws →
  php_str_to_str (path_of ws) (COLON :: n) r = path_of (map (subst_seg (COLON :: n) r) ws).
Proof.
  intros Hn Hcn Hws. unfold php_str_to_str.
  destruct (bool_decide (length (COLON :: n) < length (path_of ws))) eqn:E.
  - by apply replace_segments, path_of_length.
  - apply bool_decide_eq_false in E.
    replace (_ || _) with true.
    + f_equal. rewrite <-(map_id ws) at 1. apply map_ext_in. intros w Hin%list_elem_of_In.
      unfold subst_seg. rewrite bool_decide_false; [done|]. intros ->.
      apply path_of_length_in in Hin. lia.
    + symmetry. apply orb_true_iff. right. rewrite bool_decide_false; [done|].
      destruct ws as [|w ws]; done.
Qed.

Section assemble.
Context `{Runtime}.

(** A match string without a star and the values for its names. *)
Record match_ok (info : htab zval) (ws : list zstr) : Prop := {
  mo_segment : Forall (λ w, w ≠ [] ∧ no_nul w ∧ free_of SLASH w) ws;
  mo_star : Forall (λ w, head w ≠ Some STAR) ws;
  mo_kind : Forall (λ w, literal w ∨ placeholder w) ws;
  mo_overlap : ∀ v w, v ∈ ws → w ∈ ws → placeholder v → no_overlap v w;
  mo_value : ∀ w v, w ∈ ws → hfind (KStr w) info = Some v → literal (zval_get_string v);
}.

(** The value of a segment: a name that [info] knows is replaced. *)
Definition fill (info : htab zval) (w : zstr) : zstr :=
  match w with
  | c :: _ =>
      if ceq c COLON then
        match hfind (KStr w) info with Some v => zval_get_string v | None => w end
      else w
  | [] => w
  end.

(** The path when the segments in [dn] have been replaced. *)
Definition partly (info : htab zval) (dn : list zstr) (w : zstr) : zstr :=
  if bool_decide (w ∈ dn) then fill info w else w.

Lemma literal_or_self info ws dn w :
  match_ok info ws → w ∈ ws →
  literal (partly info dn w) ∨ (placeholder w ∧ partly info dn w = w).
Proof.
  intros [_ _ Hk _ Hv] Hw. rewrite Forall_forall in Hk.
  destruct (Hk w Hw) as [Hl|(n & -> & Hn)]; unfold partly, fill.
  - left. destruct w as [|c n]; [by case_bool_decide|].
    rewrite (proj2 (ceq_false c COLON)); [by case_bool_decide|].
    intros ->. apply Hl. by left.
  - rewrite ceq_refl. case_bool_decide; [|right; split; [by exists n|done]].
    destruct (hfind (KStr (COLON :: n)) info) as [v|] eqn:E.
    + left. by eapply Hv.
    + right. split; [by exists n|done].
Qed.

(** Replacing one more name in a partly replaced path. *)
Lemma partly_step info ws dn seg v :
  match_ok info ws → seg ∈ ws → placeholder seg → hfind (KStr seg) info = Some v →
  php_str_to_str (path_of (map (partly info dn) ws)) seg (zval_get_string v) =
    path_of (map (partly info (dn ++ [seg])) ws).
Proof.
  intros Hok Hin Hp Hv. assert (Hp' := Hp). destruct Hp' as (n & -> & Hcn & Hsn).
  assert (Hlv := mo_value _ _ Hok _ _ Hin Hv).
  rewrite str_to_str_segments; [|done|done|].
  - f_equal. rewrite map_map. apply map_ext_in. intros w Hw%list_elem_of_In.
    assert (Hls := literal_or_self info ws dn w Hok Hw). unfold subst_seg, partly in *.
    destruct (decide (w = COLON :: n)) as [->|Hne].
    + rewrite (bool_decide_true (_ ∈ dn ++ _)) by set_solver.
      assert (Hf : fill info (COLON :: n) = zval_get_string v) by (cbn; by rewrite Hv).
      rewrite Hf. destruct (bool_decide (_ ∈ dn)); [|by rewrite bool_decide_true].
      by case_bool_decide.
    + rewrite (bool_decide_ext (w ∈ dn ++ [_]) (w ∈ dn)) by set_solver.
      destruct Hls as [Hl|[Hpw He]].
      * rewrite bool_decide_false; [done|]. intros Heq. rewrite Heq in Hl. apply Hl. by left.
      * rewrite He. by rewrite bool_decide_false.
  - apply Forall_forall. intros w' Hw'. apply list_elem_of_In, in_map_iff in Hw' as (w & <- & Hw).
    apply list_elem_of_In in Hw.
    destruct (literal_or_self info ws dn w Hok Hw) as [|[Hpw ->]]; [by left|].
    right. split; [done|]. by apply (mo_overlap _ _ Hok).
Qed.

Lemma assemble_loop_spec fuel o info ws dn pidents :
  match_ok info ws → olen o < fuel → ws = dn ++ otokens SLASH o →
  assemble_loop fuel (php_strtok_r o SLASH) info pidents (path_of (map (partly info dn) ws)) =
    Some (path_of (map (fill info) ws)).
Proof.
  intros Hok. revert o dn pidents. induction fuel as [|fuel IH]; intros o dn pidents Hf Hws; [lia|].
  assert (Ht := strtok_spec SLASH o). destruct (otokens SLASH o) as [|w rest] eqn:Eo.
  - rewrite Ht. cbn. do 2 f_equal. apply map_ext_in. intros w Hw%list_elem_of_In.
    rewrite app_nil_r in Hws. unfold partly. by rewrite bool_decide_true by (by subst).
  - destruct Ht as (l & -> & Hl & Hlt).
    assert (Hin : w ∈ ws) by (subst ws; set_solver).
    assert (Hnext := IH l (dn ++ [w])). rewrite Hl in Hnext.
    assert (Hws' : ws = (dn ++ [w]) ++ rest) by (by rewrite <-app_assoc).
    destruct Hok as [Hs Hst Hk Ho Hv] eqn:EHok. clear EHok.
    assert (Hok' : match_ok info ws) by done.
    rewrite Forall_forall in Hs, Hst, Hk. destruct (Hs w Hin) as (Hne & _ & _).
    specialize (Hst w Hin). destruct w as [|c n]; [done|]. cbn [assemble_loop].
    unfold YAF_ROUTER_URL_DELIMIETER.
    rewrite (proj2 (ceq_false c STAR)) by (intros ->; by apply Hst).
    assert (Hsame : (ceq c COLON = false ∨ hfind (KStr (c :: n)) info = None) →
              path_of (map (partly info (dn ++ [c :: n])) ws) = path_of (map (partly info dn) ws)).
    { intros Hc. f_equal. apply map_ext. intros w. unfold partly.
      destruct (decide (w = c :: n)) as [->|Hw].
      - replace (fill info (c :: n)) with (c :: n); [by repeat case_bool_decide|].
        unfold fill. destruct Hc as [-> | ->]; [done|]. by destruct (ceq c COLON).
      - rewrite (bool_decide_ext (w ∈ dn ++ [_]) (w ∈ dn)); [done|]. set_solver. }
    destruct (ceq c COLON) eqn:Ec; [|rewrite <-Hsame by auto; apply Hnext; [lia|done]].
    destruct (hfind (KStr (c :: n)) info) as [v|] eqn:Ev;
      [|rewrite <-Hsame by auto; apply Hnext; [lia|done]].
    rewrite (partly_step info ws); [apply Hnext; [lia|done]|done|done| |done].
    apply ceq_true in Ec as ->. destruct (Hk _ Hin) as [Hl'|Hp']; [|done].
    exfalso. apply Hl'. by left.
Qed.

(** Assembling replaces exactly the segments that are names. *)
Lemma rewrite_assemble_run e info ws :
  match_ok info ws →
  yaf_route_rewrite_assemble (ZStr (path_of ws)) info None e =
    Some (Some (path_of (map (fill info) ws)), e).
Proof.
  intros Hok. assert (Hs := mo_segment _ _ Hok).
  assert (Htok : tokens SLASH (cstr (path_of ws)) = ws).
  { rewrite cstr_no_nul.
    - apply tokens_path_of. eapply Forall_impl; [exact Hs|]. by intros ? (? & ? & ?).
    - apply no_nul_path_of. eapply Forall_impl; [exact Hs|]. by intros ? (? & ? & ?). }
  assert (Hl : assemble_loop (S (S (length (path_of ws))))
                 (php_strtok_r (Some (cstr (path_of ws))) SLASH) info (hcopy [] info) (path_of ws)
               = Some (path_of (map (fill info) ws))).
  { rewrite <-(map_id ws) at 3.
    rewrite <-(assemble_loop_spec (S (S (length (path_of ws)))) (Some (cstr (path_of ws))) info ws []
                (hcopy [] info) Hok).
    - done.
    - simpl. assert (H' := cstr_length (path_of ws)). lia.
    - cbn. by rewrite Htok. }
  unfold yaf_route_rewrite_assemble, YAF_ROUTER_URL_DELIMIETER. st_run.
  by rewrite app_nil_r.
Qed.

(** ** Routing an assembled URI *)

(** The names of a match string, and the groups that its pattern should give. *)
Definition name_of (w : zstr) : option zstr :=
  match w with c :: n => if ceq c COLON then Some n else None | [] => None end.
Definition names (ws : list zstr) : list zstr := omap name_of ws.
Definition groups (info : htab zval) (ws : list zstr) : list (zstr * zval) :=
  map (λ n, (n, ZStr (fill info (COLON :: n)))) (names ws).
Definition args_of (kvs : list (zstr * zval)) : htab zval := map (λ kv, (KStr kv.1, kv.2)) kvs.

(** The pattern of a match string, as PCRE reads it: each literal, without regard to case,
    and for each name all that comes before the next slash, but not nothing. *)
Fixpoint match_path (ws : list zstr) (s : zstr) : option (list (zstr * zval)) :=
  match ws with
  | [] => Some []
  | w :: ws' =>
      match s with
      | c :: s' =>
          if ceq c SLASH then
            match name_of w with
            | Some n =>
                let '(v, rest) := break (ceq SLASH) s' in
                match v with
                | [] => None
                | _ => gs ← match_path ws' rest; Some ((n, ZStr v) :: gs)
                end
            | None =>
                if zend_string_equals_ci (take (length w) s') w then match_path ws' (drop (length w) s') else None
            end
          else None
      | [] => None
      end
  end.

(** Literals without special characters, and names that are identifiers and differ. *)
Definition word_char (c : ascii) : bool := Url.isalpha c || is_digit c || ceq c "_"%char.
Definition plain_match (ws : list zstr) : Prop :=
  NoDup (names ws) ∧
  Forall (λ w, match name_of w with
               | Some n => n ≠ REST ∧ length n ≤ 32 ∧ Forall (λ c, word_char c = true) n ∧
                           from_option (λ c, is_digit c = false) False (head n)
               | None => Forall (λ c, word_char c = true ∨ c = "-"%char) w
               end) ws.

(** What PCRE does with such a pattern: no groups where it does not match, and otherwise the
    named groups, among others that have numbers. *)
Definition pcre_path (ws : list zstr) : Prop :=
  plain_match ws → ∀ s, ∃ sub, rt_pcre_match ("#^" ++ pattern_of ws ++ "#i") s = Some sub ∧
    match match_path ws s with
    | Some gs => sub ≠ [] ∧ str_entries sub = gs
    | None => sub = []
    end.

Definition match_update (routes args ht : htab zval) (r : request) : request :=
  let r := match routed_name routes args "module" with
           | Some v => r <| rq_module := v |> | None => r end in
  let r := match routed_name routes args "controller" with
           | Some v => r <| rq_controller := v |> | None => r end in
  let r := match routed_name routes args "action" with
           | Some v => r <| rq_action := v |> | None => r end in
  r <| rq_params := ZArr (hcopy ht args) |>.

Lemma apply_match_run e routes args ht r :
  rq_params r = ZArr ht →
  apply_match routes args r e = Some (match_update routes args ht r, e).
Proof.
  intros Hp. destruct r as [? ? ? ? rp ? ? ? ? ? ?]. cbn in Hp. subst rp.
  unfold apply_match, match_update, yaf_request_set_params_multi.
  by destruct (routed_name routes args "module"), (routed_name routes args "controller"),
    (routed_name routes args "action").
Qed.

Lemma add_subpatterns kvs ret :
  Forall (λ kv, kv.1 ≠ REST) kvs →
  foldM add_subpattern ret kvs = Some (hcopy ret (args_of kvs)).
Proof.
  intros Hk. revert ret. induction Hk as [|kv kvs Hkv _ IH]; intros ret; [done|].
  assert (Ha : add_subpattern ret kv = Some (hupdate (KStr kv.1) kv.2 ret)).
  { unfold add_subpattern. by rewrite bool_decide_false. }
  cbn [foldM]. rewrite Ha. apply IH.
Qed.

Lemma match_path_cons w ws s :
  match_path (w :: ws) (SLASH :: s) =
    match name_of w with
    | Some n =>
        let '(v, rest) := break (ceq SLASH) s in
        match v with [] => None | _ => gs ← match_path ws rest; Some ((n, ZStr v) :: gs) end
    | None => if zend_string_equals_ci (take (length w) s) w then match_path ws (drop (length w) s) else None
    end.
Proof. done. Qed.

Lemma break_path v ws : free_of SLASH v → break (ceq SLASH) (v ++ path_of ws) = (v, path_of ws).
Proof.
  intros Hv. assert (Hf : Forall (λ c, ceq SLASH c = false) v) by exact Hv.
  destruct ws as [|w ws].
  - change (path_of []) with ([] : zstr). rewrite app_nil_r. clear Hv. induction Hf as [|c v Hc _ IH]; [done|].
    cbn [break]. by rewrite Hc, IH.
  - change (path_of (w :: ws)) with (SLASH :: w ++ path_of ws). by apply break_at; [|apply ceq_refl].
Qed.

(** The assembled path gives the groups. *)
Lemma match_filled info ws :
  Forall (λ w, fill info w ≠ [] ∧ free_of SLASH (fill info w)) ws →
  match_path ws (path_of (map (fill info) ws)) = Some (groups info ws).
Proof.
  induction 1 as [|w ws [Hne Hfree] _ IH]; [done|]. cbn [map].
  change (path_of (?x :: ?l)) with (SLASH :: x ++ path_of l). rewrite match_path_cons.
  unfold groups, names in *. cbn [omap list_omap]. destruct (name_of w) as [n|] eqn:En.
  - assert (w = COLON :: n) as ->.
    { destruct w as [|c w]; [done|]. cbn in En. destruct (ceq c COLON) eqn:Ec; [|done]. injection En as ->.
      by apply ceq_true in Ec as ->. }
    rewrite break_path by done. destruct (fill info (COLON :: n)) as [|c v] eqn:Ev; [done|].
    rewrite IH. cbn [mbind option_bind map]. by rewrite Ev.
  - assert (fill info w = w) as ->.
    { destruct w as [|c w]; [done|]. cbn in En |- *. by destruct (ceq c COLON). }
    rewrite take_app_length, drop_app_length. unfold zend_string_equals_ci. by rewrite bool_decide_true.
Qed.

Lemma args_lookup info ws n :
  hfind (KStr n) (args_of (groups info ws)) =
    if decide (n ∈ names ws) then Some (ZStr (fill info (COLON :: n))) else None.
Proof.
  unfold groups, args_of. rewrite map_map. cbn [fst snd]. induction (names ws) as [|m ns IH].
  - by rewrite decide_False by apply not_elem_of_nil.
  - cbn [map hfind]. rewrite IH. destruct (decide (n = m)) as [->|Hne].
    + rewrite bool_decide_true by done. by rewrite decide_True by (by left).
    + rewrite bool_decide_false by congruence. destruct (decide (n ∈ ns)).
      * by rewrite decide_True by (by right).
      * by rewrite decide_False by (by intros [|]%elem_of_cons).
Qed.

(** The value that an assembled path carries for a name. *)
Definition named (info : htab zval) (ws : list zstr) (n : zstr) : option zstr :=
  if decide (n ∈ names ws) then Some (fill info (COLON :: n)) else None.

(** The module, controller or action after routing: a constant of the route, or the value of
    the name that it asks for, or what it was. *)
Definition takes (info : htab zval) (ws : list zstr) (routes : htab zval) (key : zstr) (old new : zval) : Prop :=
  match hfind (KStr key) routes with
  | Some (ZStr []) => new = ZStr []
  | Some (ZStr (c :: n)) =>
      if ceq c COLON then new = default old (ZStr <$> named info ws n) else new = ZStr (c :: n)
  | _ => new = old
  end.

Lemma routed_takes info ws routes key old :
  takes info ws routes key old (default old (routed_name routes (args_of (groups info ws)) key)).
Proof.
  unfold takes, routed_name. destruct (hfind (KStr key) routes) as [[| | | |[|c n]| |]|]; try done.
  destruct (ceq c COLON); [|done]. rewrite args_lookup. unfold named. by destruct (decide _).
Qed.

(** C16: A path that is assembled from values - none of them empty or with a slash, under
    distinct names, between literals of plain characters - is routed back to them: assembling
    puts each value in the place of its name; routing the path accepts it and gives every
    name its value as a parameter of the request, beside the parameters that it had; module,
    controller and action become the constant or the named value that the route asks for, or
    stay; and nothing else of the request changes.  What PCRE is trusted with is the meaning
    of the pattern, for any subject ([pcre_path]). *)
Theorem rewrite_roundtrip e r ht b info ws routes :
  match_ok info ws → ws ≠ [] → plain_match ws → pcre_path ws →
  Forall (λ w, fill info w ≠ [] ∧ free_of SLASH (fill info w)) ws →
  rq_base_uri r = ZStr b → no_nul b → rq_params r = ZArr ht →
  let u := path_of (map (fill info) ws) in
  let r1 := r <| rq_uri := ZStr (b ++ u) |> in
  yaf_route_rewrite_assemble (ZStr (path_of ws)) info None e = Some (Some u, e) ∧
  ∃ m c a ps, yaf_route_rewrite_route (ZStr (path_of ws)) (ZArr routes) r1 e =
      Some ((true, r1 <| rq_module := m |> <| rq_controller := c |> <| rq_action := a |> <| rq_params := ZArr ps |>), e) ∧
    takes info ws routes "module" (rq_module r) m ∧ takes info ws routes "controller" (rq_controller r) c ∧
    takes info ws routes "action" (rq_action r) a ∧
    ∀ k, hfind k ps = match (match k with KStr n => ZStr <$> named info ws n | KIdx _ => None end) with
                      | Some v => Some v
                      | None => hfind k ht
                      end.
Proof.
  intros Hok Hne Hplain Hpcre Hfill Hb Hnb Hp u r1. split; [by apply rewrite_assemble_run|].
  set (args := args_of (groups info ws)).
  exists (default (rq_module r) (routed_name routes args "module")),
    (default (rq_controller r) (routed_name routes args "controller")),
    (default (rq_action r) (routed_name routes args "action")), (hcopy ht args).
  assert (Hkeys : hkeys args = KStr <$> names ws).
  { subst args. unfold args_of, groups. induction (names ws) as [|n ns IH]; [done|]. cbn [map hkeys]. csimpl. by f_equal. }
  assert (Hwf : hwf args).
  { unfold hwf. rewrite Hkeys. apply NoDup_fmap_2; [by intros ? ? [= ->]|]. apply Hplain. }
  split; [|split; [|split; [|split]]]; try apply routed_takes.
  - unfold yaf_route_rewrite_route, yaf_route_rewrite_match.
    erewrite bind_lift by (apply (strip_base_app r1 b); done).
    destruct (Hpcre Hplain u) as (sub & Hm & Hsub). subst u. rewrite match_filled in Hsub by done.
    destruct (path_of (map (fill info) ws)) as [|c u] eqn:Eu; [by destruct ws|].
    st_run. rewrite rewrite_pattern_spec.
    assert (Htok : tokens SLASH (cstr (path_of ws)) = ws).
    { pose proof (mo_segment _ _ Hok) as Hs. rewrite cstr_no_nul.
      - apply tokens_path_of. eapply Forall_impl; [exact Hs|]. by intros ? (? & ? & ?).
      - apply no_nul_path_of. eapply Forall_impl; [exact Hs|]. by intros ? (? & ? & ?). }
    rewrite Htok, Hm. destruct sub as [|kv sub]; [by destruct Hsub|]. destruct Hsub as [_ ->].
    assert (Hrest : Forall (λ kv, kv.1 ≠ REST) (groups info ws)).
    { apply Forall_forall. intros [n v] Hin. unfold groups in Hin.
      apply list_elem_of_In, in_map_iff in Hin as (m & [= <- <-] & Hm').
      apply list_elem_of_In, list_elem_of_omap in Hm' as (w & Hw & Ew). destruct Hplain as [_ Hpl].
      rewrite Forall_forall in Hpl. specialize (Hpl w Hw). rewrite Ew in Hpl. apply Hpl. }
    rewrite add_subpatterns by done. fold args. rewrite hcopy_nil by done. st_run.
    rewrite (bind_runs _ _ _ _ _ (apply_match_run e routes _ ht r1 Hp)). unfold match_update, mret, St_ret.
    do 3 f_equal. destruct r as [? ? ? ? ? ? ? ? ? ? ?].
    by destruct (routed_name routes args "module"), (routed_name routes args "controller"), (routed_name routes args "action").
  - intros k. rewrite hfind_hcopy by done. destruct k as [n|i].
    + subst args. rewrite args_lookup. unfold named. by destruct (decide _).
    + assert (hfind (KIdx i) args = None) as ->; [|done]. apply hfind_None. rewrite Hkeys.
      intros (n & [=] & _)%list_elem_of_fmap.
Qed.
End assemble.

(** For a match string without a star, none of whose names is the beginning of
    another segment, and values that hold no colon, assembling replaces each named
    segment that has a value, leaves every other segment, and never reads out of
    bounds. *)
Theorem rewrite_assemble_spec `{Runtime} e info ws :
  match_ok info ws →
  yaf_route_rewrite_assemble (ZStr (path_of ws)) info None e =
    Some (Some (path_of (map (fill info) ws)), e).
Proof. apply rewrite_assemble_run. Qed.

Definition blog_info : htab zval := [(KStr ":id", ZStr "7"); (KStr ":name", ZLong 42)].
Definition blog_match : list zstr := ["blog"; ":id"; ":name"].

Lemma blog_match_ok (R : Runtime) : @match_ok R blog_info blog_match.
Proof.
  split.
  - decided.
  - decided.
  - unfold blog_match, literal, placeholder. rewrite !Forall_cons. split_and!; [| | |done].
    + left. decided.
    + right. exists "id". split; [done|]. split; decided.
    + right. exists "name". split; [done|]. split; decided.
  - intros v w Hv Hw _. unfold blog_match, no_overlap in *. set_unfold.
    destruct_or!; subst; by vm_compute.
  - intros w v Hw. unfold blog_match, literal in *. set_unfold.
    destruct_or!; subst; try done; intros [= <-]; decided.
Qed.

Lemma rewrite_assemble_spec_witness :
  @yaf_route_rewrite_assemble plain_runtime (ZStr "/blog/:id/:name") blog_info None
    (start_engine [] [] []) = Some (Some ("/blog/7/42" : zstr), start_engine [] [] []).
Proof.
  etransitivity; [exact (@rewrite_assemble_spec plain_runtime (start_engine [] [] []) blog_info
                           blog_match (blog_match_ok _))|by vm_compute].
Defined.

(** Named groups, each with its number. *)
Fixpoint numbered (i : Z) (gs : list (zstr * zval)) : htab zval :=
  match gs with [] => [] | (n, v) :: gs' => (KStr n, v) :: (KIdx i, v) :: numbered (i + 1) gs' end.

(** A matcher that knows the one pattern of the example. *)
Definition blog_runtime : Runtime :=
  {| rt_double_to_str := λ _, "0"; rt_object_to_str := λ _ _, "";
     rt_instanceof := λ c d, bool_decide (c = d);
     rt_pcre_match := λ p s,
       if bool_decide (p = "#^/blog/(?P<id>[^/]+)/(?P<name>[^/]+)#i") then
         match match_path blog_match s with
         | Some gs => Some ((KIdx 0, ZStr s) :: numbered 1 gs)
         | None => Some []
         end
       else None;
     rt_strtof := λ _, 0%Z |}.

Lemma blog_pcre : @pcre_path blog_runtime blog_match.
Proof.
  intros _ s. cbn [rt_pcre_match blog_runtime]. rewrite bool_decide_true by (by vm_compute).
  destruct (match_path blog_match s) as [gs|]; eexists; (split; [done|]); [split; [done|]|done].
  unfold str_entries. csimpl. generalize 1%Z as i. induction gs as [|[n v] gs IH]; intros i; [done|].
  cbn [numbered]. csimpl. by rewrite IH.
Qed.

Lemma rewrite_roundtrip_witness :
  let r1 := (sample_request "/app" "") <| rq_uri := ZStr "/app/blog/7/42" |> in
  @yaf_route_rewrite_assemble blog_runtime (ZStr "/blog/:id/:name") blog_info None (start_engine [] [] []) =
    Some (Some ("/blog/7/42" : zstr), start_engine [] [] []) ∧
  ∃ m c a ps, @yaf_route_rewrite_route blog_runtime (ZStr "/blog/:id/:name") (ZArr [(KStr "controller", ZStr ":name")]) r1
      (start_engine [] [] []) =
      Some ((true, r1 <| rq_module := m |> <| rq_controller := c |> <| rq_action := a |> <| rq_params := ZArr ps |>),
            start_engine [] [] []) ∧
    m = ZNull ∧ c = ZStr "42" ∧ a = ZNull ∧
    ∀ k, hfind k ps = match (match k with
                             | KStr n => ZStr <$> @named blog_runtime blog_info blog_match n
                             | KIdx _ => None
                             end) with
                      | Some v => Some v
                      | None => hfind k []
                      end.
Proof.
  apply (@rewrite_roundtrip blog_runtime (start_engine [] [] []) (sample_request "/app" "") [] "/app"
           blog_info blog_match [(KStr "controller", ZStr ":name")]); try done; try decided.
  - apply blog_match_ok.
  - split; [decided|]. repeat apply Forall_cons_2; [..|apply Forall_nil_2]; try decided.
    + change (name_of ":id") with (Some ("id" : zstr)). cbv iota. split_and!; first [decided|done].
    + change (name_of ":name") with (Some ("name" : zstr)). cbv iota. split_and!; first [decided|done].
  - apply blog_pcre.
Defined.

(** C39: The pattern that a match string is translated to: each segment in turn, a
    named group for a name and a group that takes the rest of the path for a
    star, behind which nothing is looked at. *)
Theorem rewrite_pattern_correct m :
  rewrite_pattern m = "#^" ++ pattern_of (tokens SLASH (cstr m)) ++ "#i".
Proof. apply rewrite_pattern_spec. Qed.
