(* ===== verification/Router.v ===== *)
(** * The router

    [yaf_router.c]: the ordered table of named routes, its construction and
    configuration, and the scan that tries the routes from the last registered
    to the first. *)

From S2P Require Import Prelude Zend Engine Request Route.
From S2P Require Import RouteStatic RouteSimple RouteMap RouteRewrite.

Open Scope zs_scope.

(** The properties [_routes] and [_current] of a constructed router. *)
Record router := Router { routes : htab route; current : zval }.
#[export] Instance router_rebuild : Rebuild router := λ r, Router (routes r) (current r).

(** ** Calling a route

    The [route] method of a class of the application returns any value and may
    change the request and the engine. *)

Class UserRoutes := user_route : Z → request → M (zval * request).

Section router.
Context `{Runtime, UserRoutes}.

Definition route_method (rt : route) (r : request) : M (zval * request) :=
  match rt with
  | RouteStatic => static_route_method r
  | RouteSimple m c a => simple_route_method m c a r
  | RouteSupervar v => supervar_route_method v r
  | RouteMap ctl d => map_route_method ctl d r
  | RouteRewrite m def _ => rewrite_route_method m def r
  | RouteRegex m def maps _ _ => regex_route_method m def maps r
  | RouteUser h => user_route h r
  end.

Definition engine_raised : M bool :=
  gets (λ e, match eg_exception e with [] => false | _ => true end).

(** [zend_call_method]: with an exception pending [zend_call_function] returns at once, and
    it drops what an internal function returns while it leaves an exception; the result is
    undefined then, and [ZNull] stands for it, of which only the type is asked. *)
Definition call_route (rt : route) (r : request) : M (zval * request) :=
  pending ← engine_raised;
  if pending : bool then mret (ZNull, r)
  else
    res ← route_method rt r;
    raised ← engine_raised;
    mret (match rt with RouteUser _ => res.1 | _ => if raised : bool then ZNull else res.1 end, res.2).

(** ** Construction *)

Definition yaf_router_instance : M router :=
  def ← YAF_G default_route;
  route ← (match def with
           | None => mret RouteStatic
           | Some config =>
               match yaf_route_instance (Some config) with
               | Some rt => mret rt
               | None =>
                   php_error E_WARNING
                     "Unable to initialize default route, use Yaf_Route_Static instead";;
                   mret RouteStatic
               end
           end : M route);
  mret (Router (hupdate (KStr "_default") route []) ZNull).

(** ** Routing *)

(** The name of the route in force: [zend_update_property_string] copies a C
    string. *)
Definition key_value (k : hkey) : zval :=
  match k with KStr s => ZStr (cstr s) | KIdx i => ZLong i end.

(** [ZEND_HASH_REVERSE_FOREACH_KEY_VAL] over the buckets, last one first. *)
Fixpoint route_scan (rts : list (hkey * route)) (rtr : router) (r : request)
    : M (bool * router * request) :=
  match rts with
  | [] => mret (false, rtr, r)
  | (k, rt) :: rts' =>
      res ← call_route rt r;
      match res.1 with
      | ZBool true =>
          mret (true, rtr <| current := key_value k |>, yaf_request_set_routed res.2 true)
      | _ => route_scan rts' rtr res.2
      end
  end.

Definition yaf_router_route (rtr : router) (r : request) : M (bool * router * request) :=
  route_scan (reverse (routes rtr)) rtr r.

(** ** Configuration *)

(** [Yaf_Router::route] *)
Definition router_route_method (rtr : router) (r : request) : M (zval * router * request) :=
  '(ok, rtr, r) ← yaf_router_route rtr r; mret (ZBool ok, rtr, r).

Definition key_name (k : hkey) : zstr :=
  match k with
  | KStr s => "route named '" ++ cstr s ++ "'"
  | KIdx i => "route at index '" ++ dec_of_Z i ++ "'"
  end.

(** One entry of the configuration. *)
Definition add_config_entry (rtr : router) (kv : hkey * zval) : M router :=
  match kv.2 with
  | ZArr _ =>
      match yaf_route_instance (Some kv.2) with
      | Some rt => mret (rtr <| routes := hupdate kv.1 rt (routes rtr) |>)
      | None => php_error E_WARNING ("Unable to initialize " ++ key_name kv.1);; mret rtr
      end
  | _ => mret rtr
  end.

Fixpoint add_config_loop (kvs : htab zval) (rtr : router) : M router :=
  match kvs with
  | [] => mret rtr
  | kv :: kvs' => rtr' ← add_config_entry rtr kv; add_config_loop kvs' rtr'
  end.

Definition yaf_router_add_config (rtr : router) (configs : option zval) : M (bool * router) :=
  match configs with
  | Some (ZArr ht) => rtr' ← add_config_loop ht rtr; mret (true, rtr')
  | _ => mret (false, rtr)
  end.

(** The argument of [addConfig]: a [Yaf_Config_Abstract] object, given by its
    [_config] property, or another value. *)
Inductive config_arg := ConfigObject (prop : zval) | ConfigValue (v : zval).

Definition addConfig (rtr : router) (config : config_arg) : M (bool * router) :=
  match config with
  | ConfigObject prop => yaf_router_add_config rtr (Some prop)
  | ConfigValue (ZArr ht) => yaf_router_add_config rtr (Some (ZArr ht))
  | ConfigValue _ =>
      php_error E_WARNING "Expect a Yaf_Config_Abstract instance or an array";;
      mret (false, rtr)
  end.

(** [addRoute]; [None] is a value that is no [Yaf_Route_Interface]. *)
Definition addRoute (rtr : router) (name : zstr) (rt : option route) : M (bool * router) :=
  match rt with
  | None => php_error E_WARNING "Expects a Yaf_Route_Interface instance";; mret (false, rtr)
  | Some rt => mret (true, rtr <| routes := hupdate (KStr name) rt (routes rtr) |>)
  end.

(** [getRoute]: FALSE for the empty name, NULL for an unknown one. *)
Definition getRoute (rtr : router) (name : zstr) : option (option route) :=
  match name with
  | [] => None
  | _ => Some (hfind (KStr name) (routes rtr))
  end.
Definition getRoutes (rtr : router) : htab route := routes rtr.
Definition getCurrentRoute (rtr : router) : zval := current rtr.
Definition isModuleName (name : zstr) : M bool := yaf_application_is_module_name name.

(** ** Correctness of the scan *)

(** The routes of a list are called in order, and none returns TRUE; each finds no exception
    pending. *)
Inductive declined : list (hkey * route) → request → engine → request → engine → Prop :=
| declined_nil r e : declined [] r e r e
| declined_cons k rt rts r e v r1 e1 r2 e2 :
    eg_exception e = [] → call_route rt r e = Some ((v, r1), e1) → v ≠ ZBool true →
    declined rts r1 e1 r2 e2 → declined ((k, rt) :: rts) r e r2 e2.

Lemma call_route_refused rt r e : eg_exception e ≠ [] → call_route rt r e = Some ((ZNull, r), e).
Proof. intros Hx. unfold call_route, engine_raised. rewrite bind_gets. by destruct (eg_exception e). Qed.

Lemma scan_refused rts rtr r e : eg_exception e ≠ [] → route_scan rts rtr r e = Some ((false, rtr, r), e).
Proof.
  intros Hx. induction rts as [|[k rt] rts IH]; [done|]. cbn [route_scan].
  rewrite (bind_runs _ _ _ _ _ (call_route_refused rt r e Hx)). exact IH.
Qed.

Lemma route_scan_spec rts rtr r e b rtr' r' e' :
  route_scan rts rtr r e = Some ((b, rtr', r'), e') →
  if b : bool then
    ∃ pre k rt post r1 e1 r2, rts = pre ++ (k, rt) :: post ∧
      declined pre r e r1 e1 ∧ eg_exception e1 = [] ∧ call_route rt r1 e1 = Some ((ZBool true, r2), e') ∧
      rtr' = rtr <| current := key_value k |> ∧ r' = yaf_request_set_routed r2 true
  else
    ∃ called refused, rts = called ++ refused ∧ declined called r e r' e' ∧
      (refused = [] ∨ eg_exception e' ≠ []) ∧ rtr' = rtr.
Proof.
  revert r e. induction rts as [|[k rt] rts IH]; intros r e Hs.
  - injection Hs as <- <- <- <-. exists [], []. split; [done|]. split; [constructor|]. split; [by left|done].
  - destruct (decide (eg_exception e = [])) as [Hq|Hx].
    2:{ rewrite scan_refused in Hs by done. injection Hs as <- <- <- <-. exists [], ((k, rt) :: rts).
        split; [done|]. split; [constructor|]. split; [by right|done]. }
    apply bind_inv in Hs as ([v r1] & e1 & Hc & Hs). cbn [fst snd] in Hs.
    assert (v = ZBool true ∨ v ≠ ZBool true) as [->|Hv]
      by (destruct v as [|[]| | | | |]; auto).
    + injection Hs as <- <- <- <-. exists [], k, rt, rts, r, e, r1. split; [done|].
      split; [constructor|]. done.
    + assert (Hs' : route_scan rts rtr r1 e1 = Some (b, rtr', r', e')).
      { destruct v as [|[]| | | | |]; done. }
      apply IH in Hs'. destruct b.
      * destruct Hs' as (pre & k' & rt' & post & r2 & e2 & r3 & -> & Hd & H').
        exists ((k, rt) :: pre), k', rt', post, r2, e2, r3. split; [done|].
        split; [by econstructor|exact H'].
      * destruct Hs' as (called & refused & -> & Hd & H'). exists ((k, rt) :: called), refused.
        split; [done|]. split; [by econstructor|exact H'].
Qed.

(** C13: The routes are called from the last registered to the first, each on the request as
    the later ones left it, until one returns TRUE: that one is in force, and the router and
    the request record it.  When there is none, either every route has been called, or an
    exception is pending, which was there before or which the last route that was called has
    left, and the engine has refused to call the others; the router is unchanged then. *)
Theorem router_route_spec rtr r e b rtr' r' e' :
  yaf_router_route rtr r e = Some ((b, rtr', r'), e') →
  if b : bool then
    ∃ before k rt after r1 e1 r2, routes rtr = before ++ (k, rt) :: after ∧
      declined (reverse after) r e r1 e1 ∧ eg_exception e1 = [] ∧ call_route rt r1 e1 = Some ((ZBool true, r2), e') ∧
      rtr' = rtr <| current := key_value k |> ∧ r' = r2 <| rq_routed := true |>
  else
    ∃ refused called, routes rtr = refused ++ called ∧ declined (reverse called) r e r' e' ∧
      (refused = [] ∨ eg_exception e' ≠ []) ∧ rtr' = rtr.
Proof.
  intros Hs. apply route_scan_spec in Hs. destruct b.
  - destruct Hs as (pre & k & rt & post & r1 & e1 & r2 & Hr & Hd & Hq & Hc & -> & ->).
    exists (reverse post), k, rt, (reverse pre), r1, e1, r2.
    rewrite reverse_involutive. split; [|done].
    apply (f_equal reverse) in Hr. rewrite reverse_involutive in Hr. rewrite Hr.
    by rewrite reverse_app, reverse_cons, <-app_assoc.
  - destruct Hs as (called & refused & Hr & Hd & Hx & ->). exists (reverse refused), (reverse called).
    rewrite reverse_involutive. split; [|split; [done|split; [|done]]].
    + apply (f_equal reverse) in Hr. by rewrite reverse_involutive, reverse_app in Hr.
    + destruct Hx as [->|Hx]; [by left|by right].
Qed.

(** ** The default route *)

(** The first bucket is always the route named [_default]. *)
Definition default_first (rtr : router) : Prop :=
  hwf (routes rtr) ∧ ∃ rt rest, routes rtr = (KStr "_default", rt) :: rest.

Lemma instance_default_first e rtr e' :
  yaf_router_instance e = Some (rtr, e') → default_first rtr.
Proof.
  intros H'. unfold yaf_router_instance in H'.
  apply bind_inv in H' as (def & e1 & _ & H').
  apply bind_inv in H' as (rt & e2 & _ & H'). injection H' as <- _.
  split; [apply NoDup_singleton|]. by eexists _, _.
Qed.

Lemma hupdate_default_first k rt rtr :
  default_first rtr → default_first (rtr <| routes := hupdate k rt (routes rtr) |>).
Proof.
  intros [Hwf (d & rest & Hd)]. split; [by apply hwf_hupdate|].
  cbn. rewrite Hd. cbn. case_bool_decide; by eexists _, _.
Qed.

Lemma addRoute_default_first rtr name rt e b rtr' e' :
  default_first rtr → addRoute rtr name rt e = Some ((b, rtr'), e') → default_first rtr'.
Proof.
  intros Hd H'. destruct rt as [rt|]; cbn in H'; injection H' as _ <- _; [|done].
  by apply hupdate_default_first.
Qed.

Lemma add_config_default_first kvs rtr e rtr' e' :
  default_first rtr → add_config_loop kvs rtr e = Some (rtr', e') → default_first rtr'.
Proof.
  revert rtr e. induction kvs as [|[k v] kvs IH]; intros rtr e Hd H'; cbn in H'.
  - by injection H' as <- _.
  - apply bind_inv in H' as (rtr1 & e1 & H1 & H'). eapply IH; [|exact H'].
    unfold add_config_entry in H1. cbn [fst snd] in H1.
    destruct v; try (by injection H1 as <- _).
    destruct (yaf_route_instance _); cbn in H1; injection H1 as <- _; [|done].
    by apply hupdate_default_first.
Qed.

(** Routers built by the constructor, [addRoute] and [addConfig]. *)
Inductive configured : router → Prop :=
| conf_instance e rtr e' : yaf_router_instance e = Some (rtr, e') → configured rtr
| conf_addRoute rtr name rt e b rtr' e' :
    configured rtr → addRoute rtr name rt e = Some ((b, rtr'), e') → configured rtr'
| conf_addConfig rtr c e b rtr' e' :
    configured rtr → addConfig rtr c e = Some ((b, rtr'), e') → configured rtr'.

(** C40: However a router is built and configured, its first bucket is the default
    route, so that routing tries the default route last. *)
Theorem configured_default_first rtr : configured rtr → default_first rtr.
Proof.
  induction 1 as [e rtr e' H'|rtr name rt e b rtr' e' _ IH H'|rtr c e b rtr' e' _ IH H'].
  - by eapply instance_default_first.
  - by eapply addRoute_default_first.
  - assert (Hadd : ∀ v, yaf_router_add_config rtr v e = Some ((b, rtr'), e') → default_first rtr').
    { intros v Hv. destruct v as [[]|]; cbn in Hv; try (by injection Hv as _ <- _).
      apply bind_inv in Hv as (rtr1 & e1 & H1 & Hv). injection Hv as _ <- _.
      by eapply add_config_default_first. }
    destruct c as [prop|v]; [exact (Hadd _ H')|].
    destruct v; cbn in H'; try (by injection H' as _ <- _). exact (Hadd (Some (ZArr ht)) H').
Qed.

(** ** Configuration *)

(** The entry of a configuration that names a route. *)
Definition configured_route (configs : htab zval) (k : hkey) : option route :=
  match hfind k configs with
  | Some (ZArr ht) => yaf_route_instance (Some (ZArr ht))
  | _ => None
  end.

(** Adding a configuration defines a route for every key of it that describes
    one, leaves the other routes and the current route as they were, and never
    fails. *)
Theorem add_config_lookup rtr configs e :
  hwf configs →
  ∃ rtr' e', yaf_router_add_config rtr (Some (ZArr configs)) e = Some ((true, rtr'), e') ∧
    current rtr' = current rtr ∧
    ∀ k, hfind k (routes rtr') =
      match configured_route configs k with Some rt => Some rt | None => hfind k (routes rtr) end.
Proof.
  intros Hwf. cut (∃ rtr' e', add_config_loop configs rtr e = Some (rtr', e') ∧
    current rtr' = current rtr ∧
    ∀ k, hfind k (routes rtr') =
      match configured_route configs k with Some rt => Some rt | None => hfind k (routes rtr) end).
  { intros (rtr' & e' & Hl & Hr). exists rtr', e'. cbn. by rewrite (bind_runs _ _ _ _ _ Hl). }
  revert rtr e. induction configs as [|[k v] configs IH]; intros rtr e; [by eexists _, _|].
  apply NoDup_cons in Hwf as [Hni Hwf]. specialize (IH Hwf).
  assert (Hstep : ∃ rtr1 e1, add_config_entry rtr (k, v) e = Some (rtr1, e1) ∧
    current rtr1 = current rtr ∧
    ∀ k', hfind k' (routes rtr1) =
      match (if bool_decide (k' = k) then configured_route [(k, v)] k else None) with
      | Some rt => Some rt | None => hfind k' (routes rtr) end).
  { unfold add_config_entry, configured_route. cbn [fst snd hfind].
    rewrite bool_decide_true by done.
    destruct v; try (eexists _, _; repeat split; intros k'; by case_bool_decide).
    destruct (yaf_route_instance _) as [rt|]; eexists _, _; repeat split; intros k'; cbn.
    - rewrite hfind_hupdate. by case_bool_decide.
    - by case_bool_decide. }
  destruct Hstep as (rtr1 & e1 & Hs & Hc1 & Hf1).
  destruct (IH rtr1 e1) as (rtr2 & e2 & Hl & Hc2 & Hf2).
  exists rtr2, e2. cbn [add_config_loop]. rewrite (bind_runs _ _ _ _ _ Hs). split; [done|].
  split; [congruence|]. intros k'. rewrite Hf2, Hf1. unfold configured_route.
  cbn [hfind]. case_bool_decide as E; [|done]. subst k'.
  rewrite bool_decide_true by done. by rewrite (proj2 (hfind_None k configs) Hni).
Qed.
End router.

(** ** Examples *)

Definition no_user_routes : UserRoutes := λ _ r, mret (ZBool false, r).
Definition two_routes : router :=
  Router [(KStr "_default", RouteStatic); (KStr "s", RouteSimple (ZStr "m") (ZStr "c") (ZStr "a"))]
    ZNull.

Lemma router_route_spec_witness :
  ∃ before k rt after r1 e1 r2, routes two_routes = before ++ (k, rt) :: after ∧
    @declined plain_runtime no_user_routes (reverse after) (sample_request [] "/x/y")
      (start_engine ["Index"] [] []) r1 e1 ∧ eg_exception e1 = [] ∧
    @call_route plain_runtime no_user_routes rt r1 e1 =
      Some ((ZBool true, r2), start_engine ["Index"] [] []) ∧
    two_routes <| current := ZStr "_default" |> = two_routes <| current := key_value k |> ∧
    (sample_request [] "/x/y") <| rq_controller := ZStr "x" |> <| rq_action := ZStr "y" |>
      <| rq_routed := true |> = r2 <| rq_routed := true |>.
Proof.
  apply (@router_route_spec plain_runtime no_user_routes two_routes (sample_request [] "/x/y")
           (start_engine ["Index"] [] []) true (two_routes <| current := ZStr "_default" |>)
           ((sample_request [] "/x/y") <| rq_controller := ZStr "x" |> <| rq_action := ZStr "y" |>
              <| rq_routed := true |>) (start_engine ["Index"] [] [])).
  by vm_compute.
Defined.

(** A route that throws is the last that is called. *)
Example throwing_route :
  let users : UserRoutes := λ h r, zend_throw_exception Yaf_Exception "no" 0;; mret (ZBool false, r) in
  (λ res, (res.1.1.1, rq_controller res.1.2, length (eg_exception res.2))) <$>
    @yaf_router_route plain_runtime users (Router [(KStr "_default", RouteStatic); (KStr "u", RouteUser 1)] ZNull)
      (sample_request [] "/x/y") (start_engine ["Index"] [] []) = Some (false, ZNull, 1).
Proof. by vm_compute. Qed.

Lemma configured_default_first_witness :
  default_first (Router [(KStr "_default", RouteStatic); (KStr "u", RouteUser 1)] ZNull).
Proof.
  apply configured_default_first.
  apply (conf_addRoute (Router [(KStr "_default", RouteStatic)] ZNull) "u" (Some (RouteUser 1))
           (start_engine [] [] []) true _ (start_engine [] [] [])); [|by vm_compute].
  apply (conf_instance (start_engine [] [] []) _ (start_engine [] [] [])). by vm_compute.
Defined.

Lemma add_config_lookup_witness :
  ∃ rtr' e', yaf_router_add_config two_routes
      (Some (ZArr [(KStr "p", ZArr [(KStr "type", ZStr "map")]); (KStr "q", ZLong 1)]))
      (start_engine [] [] []) = Some ((true, rtr'), e') ∧
    current rtr' = current two_routes ∧
    ∀ k, hfind k (routes rtr') =
      match configured_route [(KStr "p", ZArr [(KStr "type", ZStr "map")]); (KStr "q", ZLong 1)] k with
      | Some rt => Some rt | None => hfind k (routes two_routes) end.
Proof. apply add_config_lookup. decided. Defined.
