(* ===== verification/Response.v ===== *)
(** * Responses

    [yaf_response.c], [responses/yaf_response_http.c] and
    [responses/yaf_response_cli.c]: the named body segments, the headers and the
    two ways a response is sent.  What a segment promises is the map
    specification at the end: appending, prepending and replacing change one
    segment, and sending writes the segments in the order of their creation. *)

From S2P Require Import Prelude Zend Numeric Engine.

Open Scope zs_scope.

(** The declared properties; [rs_http] tells [Yaf_Response_Http] from
    [Yaf_Response_Cli], which has no response code. *)
Record response := Response {
  rs_http : bool;
  rs_header : zval;
  rs_body : zval;
  rs_code : Z;
}.
#[export] Instance response_rebuild : Rebuild response := λ r,
  Response (rs_http r) (rs_header r) (rs_body r) (rs_code r).

Definition YAF_RESPONSE_PROPERTY_NAME_DEFAULTBODY : zstr := "content".

Inductive body_flag := YAF_RESPONSE_REPLACE | YAF_RESPONSE_PREPEND | YAF_RESPONSE_APPEND.

(** A new object of one of the two classes. *)
Definition response_init (http : bool) : response := Response http ZNull ZNull 0.

(** [strncasecmp(sapi_name, "cli", 4)] compares the terminator too. *)
Definition yaf_response_instance : M response :=
  name ← gets sapi_name;
  mret ((response_init (negb (strncasecmp0 name "cli" 4))) <| rs_header := ZArr [] |> <| rs_body := ZArr [] |>).

(** ** Body *)

Definition body_name (name : option zstr) : zstr :=
  default YAF_RESPONSE_PROPERTY_NAME_DEFAULTBODY name.

(** A segment that is no string is read as one. *)
Definition yaf_response_alter_body (r : response) (name : option zstr) (body : zstr)
    (flag : body_flag) : M response :=
  match body with
  | [] => mret r
  | _ =>
      ht ← lift (Z_ARR (rs_body r));
      let name := body_name name in
      new ← (match hfind (KStr name) ht with
             | None => mret body
             | Some old =>
                 obody ← lift (Z_STR old);
                 mret (match flag with
                       | YAF_RESPONSE_PREPEND => body ++ obody
                       | YAF_RESPONSE_APPEND => obody ++ body
                       | YAF_RESPONSE_REPLACE => body
                       end)
             end : M zstr);
      mret (r <| rs_body := ZArr (hupdate (KStr name) (ZStr new) ht) |>)
  end.

Definition yaf_response_clear_body (r : response) (name : option zstr) : M response :=
  ht ← lift (Z_ARR (rs_body r));
  mret (r <| rs_body := ZArr (match name with
                              | Some n => hdel (KStr n) ht
                              | None => []
                              end) |>).

(** The whole array, or one segment. *)
Definition yaf_response_get_body (r : response) (name : option zstr) : M (option zval) :=
  match name with
  | None => mret (Some (rs_body r))
  | Some n => ht ← lift (Z_ARR (rs_body r)); mret (hfind (KStr n) ht)
  end.

Definition yaf_response_send (r : response) : M bool :=
  ht ← lift (Z_ARR (rs_body r));
  php_write (mjoin (map (λ kv, match kv.2 with ZStr s => s | _ => [] end) ht));;
  mret true.

Definition setBody (r : response) (body : zstr) (name : option zstr) : M response :=
  yaf_response_alter_body r name body YAF_RESPONSE_REPLACE.
Definition appendBody (r : response) (body : zstr) (name : option zstr) : M response :=
  yaf_response_alter_body r name body YAF_RESPONSE_APPEND.
Definition prependBody (r : response) (body : zstr) (name : option zstr) : M response :=
  yaf_response_alter_body r name body YAF_RESPONSE_PREPEND.

(** [clearBody]: the variable that holds the name is not set when the method is called
    without it, and is read all the same. *)
Definition clearBody (r : response) (name : option zstr) : M response :=
  match name with Some _ => yaf_response_clear_body r name | None => undefined end.

(** ** Headers *)

Definition yaf_response_get_header (r : response) (name : option zstr) : option zval :=
  match rs_header r, name with
  | ZArr ht, None => Some (ZArr ht)
  | ZArr ht, Some n => hfind (KStr n) ht
  | _, _ => None
  end.

(** A new header goes through the symbol table functions, which turn a numeric
    name into an integer; the lookup before does not. *)
Definition yaf_response_alter_header (r : response) (name : option zstr) (value : zstr)
    (rep : bool) : M response :=
  match name with
  | None => mret r
  | Some name =>
      ht ← lift (Z_ARR (rs_header r));
      match hfind (KStr name) ht with
      | None => mret (r <| rs_header := ZArr (hupdate (symtable_key name) (ZStr value) ht) |>)
      | Some old =>
          oheader ← lift (Z_STR old);
          mret (r <| rs_header :=
                  ZArr (hupdate (KStr name)
                          (ZStr (if rep then value else oheader ++ ", " ++ value)) ht) |>)
      end
  end.

Definition yaf_response_clear_header (r : response) (name : option zstr) : M response :=
  ht ← lift (Z_ARR (rs_header r));
  mret (r <| rs_header := ZArr (match name with
                                | Some n => hdel (KStr n) ht
                                | None => []
                                end) |>).

Definition http_setHeader (r : response) (name value : zstr) (rep : bool) (code : Z)
    : M response :=
  let r := if (code =? 0)%Z then r else r <| rs_code := code |> in
  yaf_response_alter_header r (Some name) value rep.

(** [getHeader] and [clearHeaders] of [Yaf_Response_Http] *)
Definition http_getHeader (r : response) (name : option zstr) : zval := default ZNull (yaf_response_get_header r name).
Definition http_clearHeaders (r : response) : M response := yaf_response_clear_header r None.

(** ** Sending

    What the response asks of the server: to take a code, a header and the segments of the
    body.  A state [S] with these is a server that a response can be sent to. *)

Class ResponseServer (S : Type) := {
  take_code : Z → St S unit;
  take_header : zstr → St S bool;
  take_body : list zstr → St S unit;
}.

Definition header_line (kv : hkey * zval) : option zstr :=
  v ← Z_STR kv.2;
  Some (match kv.1 with
        | KStr name => cstr name ++ ": " ++ cstr v
        | KIdx n => dec_of_Z (n mod 2 ^ 64) ++ ": " ++ cstr v
        end).

Fixpoint send_headers {S} (sapi_header_op : zstr → St S bool) (kvs : htab zval) : St S bool :=
  match kvs with
  | [] => mret true
  | kv :: kvs' =>
      line ← lift (header_line kv);
      ok ← sapi_header_op line;
      if ok : bool then send_headers sapi_header_op kvs' else mret false
  end.

Section with_runtime.
Context `{Runtime}.

(** [__toString]: the segments without a delimiter. *)
Definition response_toString (r : response) (junk : nat → zstr) : M zstr :=
  ht ← lift (Z_ARR (rs_body r));
  lift (php_implode [] ht junk).

(** [getBody]: no argument asks for the default segment, NULL for the array. *)
Definition getBody (r : response) (name : option zval) : M zval :=
  body ← yaf_response_get_body r
           (match name with
            | None => Some YAF_RESPONSE_PROPERTY_NAME_DEFAULTBODY
            | Some ZNull => None
            | Some v => Some (zval_get_string v)
            end);
  mret (default (ZStr "") body).

Fixpoint set_all_headers (kvs : htab zval) (r : response) : M response :=
  match kvs with
  | [] => mret r
  | (k, v) :: kvs' =>
      r' ← yaf_response_alter_header r (match k with KStr s => Some s | KIdx _ => None end)
             (zval_get_string v) true;
      set_all_headers kvs' r'
  end.

(** [yaf_response_http_send], to any server. *)
Definition http_send {S} `{ResponseServer S} (r : response) : St S bool :=
  (if (rs_code r =? 0)%Z then mret tt else take_code (rs_code r));;
  headers ← lift (Z_ARR (rs_header r));
  ok ← send_headers take_header headers;
  if ok : bool then
    body ← lift (Z_ARR (rs_body r));
    take_body (map (λ kv, zval_get_string kv.2) body);;
    mret true
  else mret false.

(** [sapi_header_op(SAPI_HEADER_REPLACE, line)] belongs to the server interface: where the
    server is not modelled, it may change the engine, and tells whether it succeeded. *)

Context (sapi_header_op : zstr → M bool).

#[local] Instance engine_server : ResponseServer engine :=
  {| take_code := λ c, modify (λ e, e <| http_response_code := c |>);
     take_header := sapi_header_op;
     take_body := λ segs, php_write (mjoin segs) |}.

Definition yaf_response_set_redirect (url : zstr) : M bool :=
  sapi_header_op ("Location: " ++ cstr url).

Definition setRedirect (url : zstr) : M bool :=
  match url with [] => mret false | _ => yaf_response_set_redirect url end.

Definition yaf_response_http_send (r : response) : M bool := http_send r.

(** The [response] method of the two classes. *)
Definition response_method (r : response) : M bool :=
  if rs_http r then yaf_response_http_send r else yaf_response_send r.

End with_runtime.

(** ** What a response promises *)

(** Every segment is a string and no name occurs twice. *)
Definition body_ok (segs : list (zstr * zstr)) : htab zval :=
  map (λ kv, (KStr kv.1, ZStr kv.2)) segs.
Definition holds (r : response) (segs : list (zstr * zstr)) : Prop :=
  rs_body r = ZArr (body_ok segs) ∧ NoDup segs.*1.

(** One operation on the segments. *)
Definition alter (flag : body_flag) (body old : zstr) : zstr :=
  match flag with
  | YAF_RESPONSE_PREPEND => body ++ old
  | YAF_RESPONSE_APPEND => old ++ body
  | YAF_RESPONSE_REPLACE => body
  end.
Fixpoint alter_segs (name body : zstr) (flag : body_flag) (segs : list (zstr * zstr))
    : list (zstr * zstr) :=
  match segs with
  | [] => [(name, body)]
  | (n, old) :: segs' =>
      if bool_decide (name = n) then (n, alter flag body old) :: segs'
      else (n, old) :: alter_segs name body flag segs'
  end.

Lemma key_ne (a b : zstr) : bool_decide (KStr a = KStr b) = bool_decide (a = b).
Proof. apply bool_decide_ext. naive_solver. Qed.

Lemma alter_segs_new name body flag segs :
  hfind (KStr name) (body_ok segs) = None → alter_segs name body flag segs = segs ++ [(name, body)].
Proof.
  induction segs as [|[n s] segs IH]; [done|]. unfold body_ok. cbn [map hfind fst snd alter_segs].
  rewrite key_ne. case_bool_decide; [done|]. intros Hf. by rewrite IH.
Qed.

Lemma hupdate_body name new segs flag body old :
  hfind (KStr name) (body_ok segs) = Some (ZStr old) → new = alter flag body old →
  hupdate (KStr name) (ZStr new) (body_ok segs) = body_ok (alter_segs name body flag segs).
Proof.
  intros Hf ->. induction segs as [|[n s] segs IH]; [done|]. revert Hf. unfold body_ok.
  cbn [map hfind hupdate fst snd alter_segs]. rewrite key_ne. case_bool_decide.
  - by intros [= ->].
  - intros Hf. cbn [map fst snd]. f_equal. by apply IH.
Qed.

Lemma body_ok_values name segs v :
  hfind (KStr name) (body_ok segs) = Some v → ∃ s, v = ZStr s.
Proof.
  induction segs as [|[n s] segs IH]; [done|]. unfold body_ok. cbn [map hfind fst snd].
  case_bool_decide; [intros [= <-]; by exists s|]. exact IH.
Qed.

Lemma alter_segs_names name body flag segs :
  (alter_segs name body flag segs).*1 = if bool_decide (name ∈ segs.*1) then segs.*1 else segs.*1 ++ [name].
Proof.
  induction segs as [|[n s] segs IH]; csimpl; [done|].
  destruct (decide (name = n)) as [->|Hne].
  - rewrite !bool_decide_true by (done || set_solver). done.
  - rewrite (bool_decide_false (name = n)) by done. csimpl. rewrite IH.
    rewrite (bool_decide_ext (name ∈ n :: segs.*1) (name ∈ segs.*1)) by set_solver.
    by case_bool_decide.
Qed.

Lemma alter_body_run r segs name c body flag e :
  holds r segs →
  ∃ r', yaf_response_alter_body r name (c :: body) flag e = Some (r', e) ∧
    holds r' (alter_segs (body_name name) (c :: body) flag segs).
Proof.
  intros [Hb Hn]. unfold yaf_response_alter_body. rewrite Hb. st_run.
  assert (Hnd : NoDup (alter_segs (body_name name) (c :: body) flag segs).*1).
  { rewrite alter_segs_names. case_bool_decide; [done|]. apply NoDup_app.
    split; [done|]. split; [set_solver|apply NoDup_singleton]. }
  destruct (hfind (KStr (body_name name)) (body_ok segs)) as [v|] eqn:Ev.
  - destruct (body_ok_values _ _ _ Ev) as [old ->]. st_run. eexists. split; [done|].
    split; [|done]. cbn -[hupdate]. f_equal. by eapply hupdate_body.
  - st_run. eexists. split; [done|]. split; [|done]. cbn -[hupdate]. f_equal.
    rewrite alter_segs_new by done. rewrite hupdate_new by (by apply hfind_None).
    unfold body_ok. by rewrite map_app.
Qed.
Lemma send_run r segs e :
  holds r segs →
  yaf_response_send r e = Some (true, e <| output := output e ++ mjoin segs.*2 |>).
Proof.
  intros [Hb _]. unfold yaf_response_send, php_write. rewrite Hb. st_run.
  unfold body_ok. rewrite map_map. done.
Qed.

Lemma to_string_run `{Runtime} r segs junk e : holds r segs → response_toString r junk e = Some (mjoin segs.*2, e).
Proof.
  intros [Hb _]. unfold response_toString. rewrite Hb. st_run. rewrite implode_ok. unfold lift. cbn [fmap option_fmap option_map].
  rewrite glue_nil.
  replace (zval_get_string <$> (body_ok segs).*2) with segs.*2; [done|].
  clear Hb. induction segs as [|kv segs IH]; [done|]. cbn in *. by rewrite IH.
Qed.

(** A session with a response: edits and clears, in order. *)
Inductive edit :=
| Alter (name : option zstr) (body : zstr) (flag : body_flag)
| Clear (name : option zstr).

Definition run_edit (r : response) (ed : edit) : M response :=
  match ed with
  | Alter name body flag => yaf_response_alter_body r name body flag
  | Clear name => yaf_response_clear_body r name
  end.
Fixpoint run_edits (r : response) (eds : list edit) : M response :=
  match eds with
  | [] => mret r
  | ed :: eds' => r' ← run_edit r ed; run_edits r' eds'
  end.

(** The same on an ordered list of named segments. *)
Definition edit_segs (segs : list (zstr * zstr)) (ed : edit) : list (zstr * zstr) :=
  match ed with
  | Alter _ [] _ => segs
  | Alter name body flag => alter_segs (body_name name) body flag segs
  | Clear None => []
  | Clear (Some n) => filter (λ kv, kv.1 ≠ n) segs
  end.

Lemma hdel_absent (n : zstr) segs : n ∉ segs.*1 → hdel (KStr n) (body_ok segs) = body_ok segs.
Proof.
  unfold body_ok. induction segs as [|[m s] segs IH]; [done|]. csimpl.
  intros [Hm Hn]%not_elem_of_cons. rewrite bool_decide_false by congruence. by rewrite IH.
Qed.

Lemma filter_absent (n : zstr) (segs : list (zstr * zstr)) :
  n ∉ segs.*1 → filter (λ kv, kv.1 ≠ n) segs = segs.
Proof.
  induction segs as [|[m s] segs IH]; [done|]. csimpl.
  intros [Hm Hn]%not_elem_of_cons. rewrite filter_cons_True by (cbn; congruence). by rewrite IH.
Qed.

Lemma hdel_body n segs :
  NoDup segs.*1 → hdel (KStr n) (body_ok segs) = body_ok (filter (λ kv, kv.1 ≠ n) segs).
Proof.
  induction segs as [|[m s] segs IH]; [done|]. csimpl. intros [Hm Hn]%NoDup_cons.
  destruct (decide (n = m)) as [->|Hne].
  - rewrite filter_cons_False by (cbn; tauto). rewrite filter_absent by done.
    unfold body_ok. cbn [map hdel fst snd]. by rewrite bool_decide_true.
  - rewrite filter_cons_True by (cbn; congruence). unfold body_ok in *. cbn [map hdel fst snd].
    rewrite bool_decide_false by congruence. by rewrite IH.
Qed.

Lemma nodup_filter (n : zstr) (segs : list (zstr * zstr)) :
  NoDup segs.*1 → NoDup (filter (λ kv, kv.1 ≠ n) segs).*1.
Proof.
  induction segs as [|[m s] segs IH]; [constructor|]. csimpl. intros [Hm Hn]%NoDup_cons.
  destruct (decide (n = m)) as [->|Hne].
  - rewrite filter_cons_False by (cbn; tauto). auto.
  - rewrite filter_cons_True by (cbn; congruence). csimpl. apply NoDup_cons. split; [|auto].
    intros ([x y] & -> & [_ Hin]%list_elem_of_filter)%list_elem_of_fmap. apply Hm.
    apply list_elem_of_fmap. by exists (x, y).
Qed.

Lemma run_edit_holds r segs ed e :
  holds r segs → ∃ r', run_edit r ed e = Some (r', e) ∧ holds r' (edit_segs segs ed).
Proof.
  intros Hh. destruct ed as [name [|c body] flag|[n|]]; cbn [run_edit edit_segs].
  - by exists r.
  - by apply alter_body_run.
  - destruct Hh as [Hb Hn]. unfold yaf_response_clear_body. rewrite Hb. st_run.
    eexists. split; [done|]. split; [cbn -[hdel]; f_equal; by apply hdel_body|].
    by apply nodup_filter.
  - destruct Hh as [Hb Hn]. unfold yaf_response_clear_body. rewrite Hb. st_run.
    eexists. split; [done|]. split; [done|constructor].
Qed.

Lemma run_edits_holds eds r segs e :
  holds r segs → ∃ r', run_edits r eds e = Some (r', e) ∧ holds r' (foldl edit_segs segs eds).
Proof.
  revert r segs. induction eds as [|ed eds IH]; intros r segs Hh; [by exists r|].
  destruct (run_edit_holds r segs ed e Hh) as (r1 & H1 & Hh1).
  destruct (IH r1 _ Hh1) as (r2 & H2 & Hh2). exists r2. cbn [run_edits foldl].
  by rewrite (bind_runs _ _ _ _ _ H1).
Qed.

Lemma instance_holds e : ∃ r, yaf_response_instance e = Some (r, e) ∧ holds r [].
Proof. eexists. split; [done|]. split; [done|constructor]. Qed.

(** C36: A response implements an ordered list of named segments: whatever sequence
    of set, append, prepend and clear operations a fresh response receives, sending
    it writes the segments that the same operations give on the list, in order, its
    string is the same text, and nothing is undefined. *)
Theorem response_refines_segments `{Runtime} eds junk e :
  ∃ r r', yaf_response_instance e = Some (r, e) ∧ run_edits r eds e = Some (r', e) ∧
    yaf_response_send r' e =
      Some (true, e <| output := output e ++ mjoin (foldl edit_segs [] eds).*2 |>) ∧
    response_toString r' junk e = Some (mjoin (foldl edit_segs [] eds).*2, e).
Proof.
  destruct (instance_holds e) as (r & Hr & Hh).
  destruct (run_edits_holds eds r [] e Hh) as (r' & Hr' & Hh').
  exists r, r'. split_and!; [done|done|by apply send_run|by apply to_string_run].
Qed.

(** Setting a header replaces it, adding to one that is there joins the values
    with a comma, and no other header changes, as long as the names are not
    numeric. *)
Theorem alter_header_spec r ht name value rep other e :
  rs_header r = ZArr ht → zend_handle_numeric_str name = None →
  (∀ v, hfind (KStr name) ht = Some v → ∃ s, v = ZStr s) →
  ∃ r', yaf_response_alter_header r (Some name) value rep e = Some (r', e) ∧
    rs_body r' = rs_body r ∧
    yaf_response_get_header r' (Some other) =
      if bool_decide (other = name) then
        Some (ZStr (match hfind (KStr name) ht with
                    | Some (ZStr old) => if rep then value else old ++ ", " ++ value
                    | _ => value
                    end))
      else yaf_response_get_header r (Some other).
Proof.
  intros Hh Hn Hs. unfold yaf_response_alter_header, yaf_response_get_header, symtable_key.
  rewrite Hh, Hn. st_run. destruct (hfind (KStr name) ht) as [v|] eqn:Ev.
  - destruct (Hs v eq_refl) as [old ->]. st_run. eexists. split; [done|]. split; [done|].
    cbn -[hfind hupdate]. rewrite hfind_hupdate, key_ne. by case_bool_decide.
  - st_run. eexists. split; [done|]. split; [done|].
    cbn -[hfind hupdate]. rewrite hfind_hupdate, key_ne. by case_bool_decide.
Qed.

Lemma alter_header_spec_witness :
  ∃ r', yaf_response_alter_header
          (Response true (ZArr [(KStr "Vary", ZStr "Accept")]) (ZArr []) 0) (Some ("Vary" : zstr))
          "Cookie" false (start_engine [] [] []) = Some (r', start_engine [] [] []) ∧
    rs_body r' = ZArr [] ∧
    yaf_response_get_header r' (Some ("Vary" : zstr)) = Some (ZStr "Accept, Cookie").
Proof.
  apply (alter_header_spec (Response true (ZArr [(KStr "Vary", ZStr "Accept")]) (ZArr []) 0)
           [(KStr "Vary", ZStr "Accept")] "Vary" "Cookie" false "Vary" (start_engine [] [] []));
    [done|done|]. intros v. cbn. intros [= <-]. by eexists.
Defined.

(** A header whose name is a decimal integer is stored under the integer and
    never found again: adding to it replaces it. *)
Theorem numeric_header_lost r ht name n v1 v2 e :
  rs_header r = ZArr ht → zend_handle_numeric_str name = Some n → hfind (KStr name) ht = None →
  ∃ r1 r2, yaf_response_alter_header r (Some name) v1 false e = Some (r1, e) ∧
    yaf_response_alter_header r1 (Some name) v2 false e = Some (r2, e) ∧
    yaf_response_get_header r1 (Some name) = None ∧
    rs_header r2 = ZArr (hupdate (KIdx n) (ZStr v2) (hupdate (KIdx n) (ZStr v1) ht)).
Proof.
  intros Hh Hn Hf. unfold yaf_response_alter_header, symtable_key. rewrite Hh, Hn. st_run.
  rewrite Hf. eexists. set (r1 := r <| rs_header := _ |>).
  assert (Hf1 : hfind (KStr name) (hupdate (KIdx n) (ZStr v1) ht) = None)
    by (by rewrite hfind_hupdate_ne).
  assert (Hr1 : rs_header r1 = ZArr (hupdate (KIdx n) (ZStr v1) ht)) by done.
  exists (r1 <| rs_header := ZArr (hupdate (KIdx n) (ZStr v2) (hupdate (KIdx n) (ZStr v1) ht)) |>).
  split; [done|]. split.
  - cbn -[hfind hupdate]. st_run. by rewrite Hf1.
  - split; [|done]. unfold yaf_response_get_header. cbn -[hfind hupdate]. exact Hf1.
Qed.

Lemma numeric_header_lost_witness :
  ∃ r1 r2, yaf_response_alter_header (Response true (ZArr []) (ZArr []) 0) (Some ("42" : zstr)) "a"
             false (start_engine [] [] []) = Some (r1, start_engine [] [] []) ∧
    yaf_response_alter_header r1 (Some ("42" : zstr)) "b" false (start_engine [] [] []) =
      Some (r2, start_engine [] [] []) ∧
    yaf_response_get_header r1 (Some ("42" : zstr)) = None ∧
    rs_header r2 = ZArr [(KIdx 42, ZStr "b")].
Proof.
  apply (numeric_header_lost (Response true (ZArr []) (ZArr []) 0) [] "42" 42 "a" "b"
           (start_engine [] [] [])); by vm_compute.
Defined.
