(* ===== verification/Wire.v ===== *)
(** * A response on the wire

    [Yaf_Response_Http] together with the server that it is sent to: [Server] and [Output]
    are an instance of what [Response] asks of a server, and the bytes that the client gets
    are the code, the headers and the segments of the response. *)

From S2P Require Import Prelude Zend Numeric Url Server Output Capture Engine Response.

Open Scope zs_scope.

Section wire.
Context `{Runtime} (cgig : cgi_globals) (call_header_callback : zval → O bool)
  (call_handler : zval → zstr → Z → O (option zval)) (compat_func : nat → zstr → Z → option zstr).
Abbreviation cgi := (cgi_sapi_module cgig).

(** [php_write] of each segment. *)
Fixpoint write_segments (segs : list zstr) : O unit :=
  match segs with
  | [] => mret tt
  | seg :: segs' => php_output_write cgi call_header_callback call_handler compat_func seg;; write_segments segs'
  end.

(** The code is an [int], which is set as it is. *)
#[local] Instance output_server : ResponseServer srv :=
  {| take_code := λ c, on_headers (λ h, h <| Server.http_response_code := to_int c |>);
     take_header := λ line, sapi_header_op cgi SAPI_HEADER_REPLACE line 0;
     take_body := write_segments |}.

(** [setRedirect] *)
Definition server_redirect (url : zstr) : O bool := sapi_header_op cgi SAPI_HEADER_REPLACE ("Location: " ++ cstr url) 0.

(** A request that is answered by a response alone. *)
Definition respond (method : option zstr) (r : response) : O bool :=
  php_output_activate;;
  sapi_activate method;;
  sent ← http_send r;
  finish cgi call_header_callback call_handler compat_func;;
  mret sent.

(** ** Headers that are what they are *)

Abbreviation field := (zstr * zstr)%type.
Definition field_line (f : field) : zstr := f.1 ++ ": " ++ f.2.

(** A name and a value without a meaning of their own to the server. *)
Record plain_field (f : field) : Prop := PlainField {
  plain_ok : header_ok f.1 (" "%char :: f.2);
  plain_location : same_name f.1 "Location" = false;
  plain_auth : same_name f.1 "WWW-Authenticate" = false;
  plain_status : same_name f.1 "Status" = false;
}.

Definition fields_array (fs : list field) : htab zval := map (λ f, (KStr f.1, ZStr f.2)) fs.

(** No two of them have the same name. *)
Definition distinct_fields (fs : list field) : Prop :=
  ∀ i j f g, fs !! i = Some f → fs !! j = Some g → same_name f.1 g.1 = true → i = j.

Lemma field_header_line f : plain_field f → header_line (KStr f.1, ZStr f.2) = Some (field_line f).
Proof.
  intros [[[Hn _] Hc _ _ _] _ _ _]. unfold header_line. cbn. do 2 f_equal.
  apply clean_app in Hc as [_ Hc]. apply (clean_app ": ") in Hc as [_ Hc].
  by rewrite (cstr_no_nul _ Hn), (cstr_clean _ Hc).
Qed.

Lemma filter_id {A} (Q : A → Prop) `{∀ x, Decision (Q x)} l : Forall Q l → filter Q l = l.
Proof. induction 1 as [|x l Hx _ IH]; [done|]. rewrite filter_cons, decide_True by done. by rewrite IH. Qed.

Lemma field_named f nm : plain_field f → name_ok nm → header_named nm (field_line f) = same_name f.1 nm.
Proof. intros [[Hn Hc _ _ _] _ _ _] Hnm. by apply named_line. Qed.

(** Nothing of the name is there yet. *)
Lemma nothing_removed fs f gs :
  Forall plain_field (fs ++ f :: gs) → distinct_fields (fs ++ f :: gs) →
  filter (λ x, header_named f.1 x = false) (field_line <$> fs) = field_line <$> fs.
Proof.
  intros Hp Hd. apply filter_id, Forall_fmap, Forall_lookup. intros i g Hg. cbn.
  assert (Hi : i < length fs) by by eapply lookup_lt_Some.
  assert (Hf : (fs ++ f :: gs) !! length fs = Some f) by by rewrite lookup_app_r, Nat.sub_diag by lia.
  assert (Hg' : (fs ++ f :: gs) !! i = Some g) by by apply lookup_app_l_Some.
  rewrite field_named; [|by eapply Forall_lookup_1|by destruct (Forall_lookup_1 _ _ _ _ Hp Hf) as [[]]].
  destruct (same_name g.1 f.1) eqn:E; [|done]. specialize (Hd i (length fs) g f Hg' Hf E). lia.
Qed.

Lemma plain_code f g : plain_field f → code_after g f.1 = Server.http_response_code (sapi_headers g).
Proof. intros [_ Hl Ha _]. unfold code_after. by rewrite Hl, Ha. Qed.

(** The headers are set, one after the other. *)
Lemma fields_run gs : ∀ fs s,
  headers (the_headers s) = field_line <$> fs → headers_sent (sg s) = false →
  Forall plain_field (fs ++ gs) → distinct_fields (fs ++ gs) →
  ∃ s', send_headers take_header (fields_array gs) s = Some (true, s') ∧
    with_headers (field_line <$> (fs ++ gs)) (Server.http_response_code (the_headers s)) s s'.
Proof.
  induction gs as [|f gs IH]; intros fs s Hh Hs Hp Hd.
  { exists s. split; [done|]. rewrite (right_id_L [] (++)), <-Hh. apply with_headers_refl. }
  assert (Hf : plain_field f) by (by apply Forall_app in Hp as [_ Hp]; inversion Hp).
  cbn [fields_array map send_headers]. rewrite (field_header_line f Hf), bind_lift_Some.
  destruct (header_op_run cgi SAPI_HEADER_REPLACE f.1 (" "%char :: f.2) 0 s) as (s1 & E1 & Hw1); [done|done|by right|by destruct Hf|].
  change (f.1 ++ ":"%char :: " "%char :: f.2) with (field_line f) in E1, Hw1.
  change (to_int 0) with 0%Z in Hw1. cbn [Z.eqb is_replace] in Hw1.
  rewrite (plain_code f (sg s) Hf), Hh, (nothing_removed fs f gs Hp Hd) in Hw1.
  cbn [take_header output_server]. rewrite (bind_runs _ _ _ _ _ E1).
  destruct (IH (fs ++ [f]) s1) as (s2 & E2 & Hw2).
  - destruct Hw1 as (l & o & -> & _). cbn. by rewrite fmap_app.
  - by destruct Hw1 as (l & o & -> & _).
  - by rewrite <-(assoc_L (++)).
  - by rewrite <-(assoc_L (++)).
  - exists s2. split; [exact E2|]. rewrite <-(assoc_L (++)) in Hw2. eapply with_headers_trans; [exact Hw1|].
    by destruct Hw1 as (l & o & -> & _).
Qed.

(** A status line of the script's own is a header of the name [Status]. *)
Lemma status_header_named h : clean h → status_header h = true → header_named "Status" h = true.
Proof.
  intros Hc [Hl Hs]%andb_true_iff. apply bool_decide_eq_true in Hl. unfold strncasecmp0 in Hs. apply bool_decide_eq_true in Hs.
  rewrite (cstr_clean h Hc) in Hs. apply named_spec; [by split; decided|done|].
  do 7 (destruct h as [|?c h]; [cbn in Hl; lia|]). change (take 7 _) with [c; c0; c1; c2; c3; c4; c5] in Hs at 1.
  change (zend_str_tolower (take 7 (cstr "Status:"))) with (zend_str_tolower "Status" ++ [":"%char]) in Hs.
  change (zend_str_tolower [c; c0; c1; c2; c3; c4; c5]) with (zend_str_tolower [c; c0; c1; c2; c3; c4] ++ [tolower c5]) in Hs.
  apply app_inj_2 in Hs as [Hs [= H5%tolower_colon]]; [|done]. subst c5.
  exists [c; c0; c1; c2; c3; c4], h. split; [done|]. split; [|done]. eapply no_colon_lower; [exact Hs|]. decided.
Qed.

Lemma field_not_status f : plain_field f → status_header (field_line f) = false.
Proof.
  intros Hf. destruct (status_header (field_line f)) eqn:E; [|done]. apply status_header_named in E; [|by destruct Hf as [[]]].
  rewrite field_named in E; [|done|split; decided]. destruct Hf as [_ _ _ Hst]. congruence.
Qed.

(** ** The head of the response *)

Definition code_line (code : Z) : zstr :=
  "Status: " ++ dec_of_Z code ++ match list_find (λ p, p.1 = code) http_status_map with
                                 | Some (_, (_, str)) => " " ++ str
                                 | None => []
                                 end.

Definition response_lines (code : Z) (fs : list field) (content_type : zstr) : list zstr :=
  (if nph cgig || negb (code =? 200)%Z then [code_line code] else []) ++ (field_line <$> fs) ++
  (if bool_decide (content_type = []) then [] else [("Content-type: " : zstr) ++ content_type]).

Lemma cgi_lines_all code ignore hs :
  (code ≠ 304)%Z → Forall (λ h, h ≠ [] ∧ status_header h = false) hs → cgi_lines code ignore hs = hs.
Proof.
  intros Hc. induction 1 as [|h hs [Hne Hst] _ IH]; [done|]. cbn [cgi_lines].
  rewrite bool_decide_false, Hst, (proj2 (Z.eqb_neq code 304) Hc) by done. cbn [andb]. by rewrite IH.
Qed.

Lemma response_head fs s :
  Forall (λ f, status_header (field_line f) = false) fs → headers (the_headers s) = field_line <$> fs → http_status_line (the_headers s) = None →
  send_default_content_type (the_headers s) = true → (Server.http_response_code (the_headers s) ≠ 304)%Z →
  head_of cgig (to_send (sg s)) =
  Some (response_lines (Server.http_response_code (the_headers s)) fs (get_default_content_type (sg s))).
Proof.
  intros Hp Hh Hl Hd Hc. unfold the_headers in *. set (ct := get_default_content_type (sg s)).
  set (rest := (field_line <$> fs) ++ (if bool_decide (ct = []) then [] else [("Content-type: " : zstr) ++ ct])).
  assert (Hsend : headers (to_send (sg s)) = rest ∧ http_status_line (to_send (sg s)) = None ∧
    Server.http_response_code (to_send (sg s)) = Server.http_response_code (sapi_headers (sg s))).
  { unfold to_send. rewrite Hd. fold ct. subst rest. case_bool_decide; cbn; rewrite Hh, ?(right_id_L [] (++)); done. }
  destruct Hsend as (E1 & E2 & E3). set (code := Server.http_response_code _) in *.
  assert (Hall : Forall (λ h, h ≠ [] ∧ status_header h = false) rest).
  { apply Forall_app. split; [|case_bool_decide; [done|]; by apply Forall_singleton].
    apply Forall_fmap. eapply Forall_impl; [exact Hp|]. intros f Hf. split; [|exact Hf].
    unfold compose, field_line. by destruct (f.1). }
  unfold head_of, response_lines. rewrite E3. fold rest. destruct (nph cgig || negb (code =? 200)%Z).
  - assert (Hst : cgi_status cgig (to_send (sg s)) = Some (Some (code_line code), code)).
    { unfold cgi_status. rewrite E2. assert (status_by_code (to_send (sg s)) = Some (code_line code)) as ->.
      { unfold status_by_code. rewrite E1, E3. fold code. destruct (existsb status_header rest) eqn:E; [|done].
        apply existsb_exists in E as (h & Hin & E). apply list_elem_of_In in Hin.
        destruct (proj1 (Forall_forall _ _) Hall h Hin) as [_ E']. congruence. }
      rewrite E3. by destruct (rfc2616_headers cgig). }
    rewrite Hst, E1. cbn [mbind option_bind]. by rewrite cgi_lines_all.
  - rewrite E1. cbn [mbind option_bind]. by rewrite cgi_lines_all.
Qed.

(** Nothing has been sent, and headers are set: what is claimed of the head is a claim about them. *)
Lemma outputs_headers ho P hs code s s' :
  outputs cgig ho (λ _, True) s [] [] → headers_sent (sg s) = false → with_headers hs code s s' →
  http_status_line (the_headers s) = None → Forall (λ h, clean h) hs → (- 2 ^ 63 ≤ code < 2 ^ 63)%Z →
  P (sg s') → outputs cgig ho P s' [] [].
Proof.
  intros [[[_ _ Hcs Hm] Ha Hn Hcb Honly Hw] Hst Hact] Hs (l & o & -> & Hl) Hnone Hh Hc HP. rewrite Hnone in Hl.
  assert (l = None) as -> by tauto. rewrite Hs in Hw. destruct Hw as (_ & Hw & Hd & _).
  split; [|destruct Hst as [hs0 []]; by exists hs0|done]. split; try done.
  match goal with |- if ?b then _ else _ => change b with (headers_sent (sg s)) end. rewrite Hs.
  split; [done|]. split; [done|]. split; [done|]. by split.
Qed.

(** The segments of the body go to the client one after the other. *)
Lemma segments_run ho P segs : ∀ s body,
  outputs cgig ho P s [] body →
  ∃ s', write_segments segs s = Some (tt, s') ∧ outputs cgig ho P s' [] (body ++ mjoin segs).
Proof.
  induction segs as [|seg segs IH]; intros s body Ho.
  { exists s. cbn. by rewrite (right_id_L [] (++)). }
  destruct (write_run cgig call_header_callback call_handler compat_func ho P seg s [] body Ho) as (s1 & E1 & Ho1).
  destruct (IH s1 _ Ho1) as (s2 & E2 & Ho2). exists s2. cbn [write_segments].
  rewrite (bind_runs _ _ _ _ _ E1). split; [exact E2|]. cbn [put fst snd] in Ho2. cbn. by rewrite (assoc_L (++)).
Qed.

Lemma code_run c s :
  take_code c s = Some (tt, s <| sg := (sg s) <| sapi_headers := (the_headers s) <| Server.http_response_code := to_int c |> |> |>).
Proof. done. Qed.

Lemma default_type_same g g' :
  default_charset g' = default_charset g → default_mimetype g' = default_mimetype g →
  get_default_content_type g' = get_default_content_type g.
Proof. unfold get_default_content_type. by intros -> ->. Qed.

(** The code of a response, if it has one. *)
Definition code_of (r : response) : Z := if (rs_code r =? 0)%Z then 200 else to_int (rs_code r).

Lemma set_code_run r s :
  headers (the_headers s) = [] → http_status_line (the_headers s) = None → Server.http_response_code (the_headers s) = 200%Z →
  ∃ s', (if (rs_code r =? 0)%Z then mret tt else take_code (rs_code r)) s = Some (tt, s') ∧ with_headers [] (code_of r) s s'.
Proof.
  intros Hh Hl Hc. unfold code_of. destruct (rs_code r =? 0)%Z.
  - exists s. split; [done|]. rewrite <-Hh, <-Hc. apply with_headers_refl.
  - rewrite code_run. eexists. split; [done|]. exists None, (compression_off (sg s)). split; [|by left].
    unfold the_headers in *. destruct s as [[[]] ? ? ? ? ?]. cbn in *. by subst.
Qed.

Lemma code_of_range r : (- 2 ^ 63 ≤ code_of r < 2 ^ 63)%Z.
Proof. unfold code_of. case_match; [lia|apply to_int_range]. Qed.

(** Up to the end of [yaf_response_http_send]. *)
Lemma respond_run ho r fs segs s :
  headers (the_headers s) = [] → http_status_line (the_headers s) = None → Server.http_response_code (the_headers s) = 200%Z →
  send_default_content_type (the_headers s) = true → headers_sent (sg s) = false → outputs cgig ho (λ _, True) s [] [] →
  Forall plain_field fs → distinct_fields fs → rs_header r = ZArr (fields_array fs) → holds r segs → code_of r ≠ 304%Z →
  ∃ s', http_send r s = Some (true, s') ∧
    outputs cgig ho (λ g, head_of cgig (to_send g) = Some (response_lines (code_of r) fs (get_default_content_type (sg s))))
      s' [] (mjoin segs.*2).
Proof.
  intros Hh Hl Hc Hd Hs Ho Hp Hdist Hfs [Hb _] Hne.
  destruct (set_code_run r s Hh Hl Hc) as (s1 & E1 & Hw1). unfold http_send. rewrite (bind_runs _ _ _ _ _ E1), Hfs.
  cbn [Z_ARR]. rewrite bind_lift_Some.
  destruct (fields_run fs [] s1) as (s2 & E2 & Hw2); [by destruct Hw1 as (? & ? & -> & _)|by destruct Hw1 as (? & ? & -> & _)|done|done|].
  rewrite (bind_runs _ _ _ _ _ E2), Hb. cbn [Z_ARR]. rewrite bind_lift_Some. cbn [Datatypes.app] in Hw2.
  assert (Hw : with_headers (field_line <$> fs) (code_of r) s s2).
  { eapply with_headers_trans; [exact Hw1|]. by destruct Hw1 as (? & ? & -> & _). }
  set (P := λ g, head_of cgig (to_send g) = Some (response_lines (code_of r) fs (get_default_content_type (sg s)))).
  assert (Ho2 : outputs cgig ho P s2 [] []).
  { eapply outputs_headers; [exact Ho|exact Hs|exact Hw|exact Hl| |apply code_of_range|].
    - apply Forall_fmap. eapply Forall_impl; [exact Hp|]. by intros f [[]].
    - unfold P. destruct Hw as (l & o & -> & Hlo). rewrite Hl in Hlo.
      rewrite (response_head fs);
        [done|eapply Forall_impl; [exact Hp|]; intros; by apply field_not_status|done|cbn; tauto|done|done]. }
  assert (Hsegs : map (λ kv, zval_get_string kv.2) (body_ok segs) = segs.*2).
  { unfold body_ok. rewrite map_map. done. }
  destruct (segments_run ho P segs.*2 s2 [] Ho2) as (s3 & E3 & Ho3). exists s3.
  rewrite Hsegs. cbn [take_body output_server]. rewrite (bind_runs _ _ _ _ _ E3). by split.
Qed.
End wire.

(** C3: A response is what the client gets: its code in the status line, its headers in their
    order, the default content type, and the segments of its body one after the other - or
    no body, when the request asks for the head alone. *)
Theorem response_on_wire `{Runtime} cgig call_header_callback call_handler compat_func method r fs segs s :
  idle s → Forall plain_field fs → distinct_fields fs → rs_header r = ZArr (fields_array fs) → holds r segs →
  code_of r ≠ 304%Z →
  ∃ s', respond cgig call_header_callback call_handler compat_func method r s = Some (true, s') ∧
    read_head [] (wire s') =
      Some (response_lines cgig (code_of r) fs (get_default_content_type (sg s)),
            if bool_decide (method = Some ("HEAD" : zstr)) then [] else mjoin segs.*2).
Proof.
  intros Hs Hp Hd Hfs Hb Hne.
  destruct (activate_run cgig (λ _, True) s method Hs) as (s1 & E1 & Hh & Hc & Hl & Hcs & Hm & Hdef & Ho).
  specialize (Ho I).
  destruct (respond_run cgig call_header_callback call_handler compat_func (bool_decide (method = Some ("HEAD" : zstr))) r fs segs s1)
    as (s2 & E2 & Ho2); [done..| |done|done|done|done|done|done|].
  { by injection E1 as <-. }
  destruct (finish_run cgig call_header_callback call_handler compat_func _ _ s2 _ _ Ho2) as (s3 & ls & g & E3 & -> & [= <-] & Hls & Hw).
  exists s3. unfold respond. rewrite <-bind_assoc, (bind_runs _ _ _ _ _ E1), (bind_runs _ _ _ _ _ E2), (bind_runs _ _ _ _ _ E3).
  split; [done|]. rewrite Hw, read_head_lines by done. rewrite (default_type_same (sg s) (sg s1)) by done.
  cbn [length spec_end_all]. by rewrite (right_id_L [] (++)).
Qed.

(** A response with a code, two headers and a page. *)
Definition sample_response : response :=
  Response true (ZArr (fields_array [(("X-Name" : zstr), ("a b" : zstr)); ("Vary", "Cookie")]))
    (ZArr (body_ok [(("content" : zstr), ("<p>" : zstr)); ("end", "</p>")])) 404.

Lemma response_on_wire_witness :
  ∃ s', respond (H := plain_runtime) (CgiGlobals false false) (λ _, mret true) no_call (λ _ _ _, None) (Some ("GET" : zstr))
          sample_response (start_srv None) = Some (true, s') ∧
    read_head [] (wire s') =
      Some ([("Status: 404 Not Found" : zstr); "X-Name: a b"; "Vary: Cookie"; "Content-type: text/html; charset=UTF-8"], "<p></p>").
Proof.
  apply (response_on_wire (H := plain_runtime) (CgiGlobals false false) (λ _, mret true) no_call (λ _ _ _, None) (Some ("GET" : zstr))
    sample_response [(("X-Name" : zstr), ("a b" : zstr)); ("Vary", "Cookie")] [(("content" : zstr), ("<p>" : zstr)); ("end", "</p>")]
    (start_srv None)); [by split| | |done|split; [done|decided]|done].
  - repeat constructor; by decided.
  - intros i j f g Hi Hj. do 2 (destruct i as [|i]; [do 2 (destruct j as [|j]; [by simplify_eq/=|]); done|]). done.
Defined.

Lemma drop_end_keeps (p : ascii → bool) a b : drop_end p b = b → b ≠ [] → drop_end p (a ++ b) = a ++ b.
Proof.
  intros Hb Hne. unfold drop_end in *. rewrite rev_app_distr. apply (f_equal (@rev ascii)) in Hb. rewrite rev_involutive in Hb.
  destruct (rev b) as [|c l] eqn:E.
  { by rewrite <-(rev_involutive b), E in Hne. }
  apply drop_while_head in Hb as Hc. cbn [Datatypes.app drop_while]. rewrite Hc.
  change (c :: l ++ rev a) with ((c :: l) ++ rev a). rewrite <-E, rev_app_distr, !rev_involutive. done.
Qed.

Lemma location_ok url :
  clean url → drop_end is_space url = url → url ≠ [] → header_ok "Location" (" "%char :: url).
Proof.
  intros Hc Ht Hne. split; [split; decided| | |done|done].
  - apply (clean_app "Location: "). by split.
  - by apply (drop_end_keeps is_space "Location: ").
Qed.

(** C34: A redirection of the response sends the client to the address, with the code 302 and
    no body. *)
Theorem redirect_on_wire `{Runtime} cgig call_header_callback call_handler compat_func method url s :
  idle s → clean url → drop_end is_space url = url → url ≠ [] →
  ∃ s', (php_output_activate;; sapi_activate method;; server_redirect cgig url;;
         finish (cgi_sapi_module cgig) call_header_callback call_handler compat_func) s = Some (tt, s') ∧
    read_head [] (wire s') =
      Some (response_lines cgig 302 [(("Location" : zstr), url)] (get_default_content_type (sg s)), []).
Proof.
  intros Hs Hc Ht Hne. set (ho := bool_decide (method = Some ("HEAD" : zstr))).
  destruct (activate_run cgig (λ _, True) s method Hs) as (s1 & E1 & Hh & Hcode & Hl & Hcs & Hm & Hdef & Ho).
  specialize (Ho I). fold ho in Ho.
  assert (Hfresh : headers_sent (sg s1) = false ∧ proto_num (sg s1) = 1000%Z) by (by injection E1 as <-).
  destruct Hfresh as [Hsent Hproto].
  destruct (header_op_run (cgi_sapi_module cgig) SAPI_HEADER_REPLACE "Location" (" "%char :: url) 0 s1)
    as (s2 & E2 & Hw); [done|done|by right|by apply location_ok|].
  cbn [is_replace] in Hw. rewrite Hh in Hw. change (to_int 0 =? 0)%Z with true in Hw. cbv iota in Hw.
  assert (Hcode2 : code_after (sg s1) "Location" = 302%Z).
  { unfold code_after, location_code. unfold the_headers in Hcode. by rewrite Hcode, Hproto. }
  rewrite Hcode2 in Hw. change (filter _ [] ++ ?l) with (field_line <$> [(("Location" : zstr), url)]) in Hw.
  set (P := λ g, head_of cgig (to_send g) =
                   Some (response_lines cgig 302 [(("Location" : zstr), url)] (get_default_content_type (sg s)))).
  assert (Ho2 : outputs cgig ho P s2 [] []).
  { eapply outputs_headers; [exact Ho|done|exact Hw|done| |lia|].
    - apply Forall_singleton. apply (clean_app "Location: "). by split.
    - unfold P. destruct Hw as (l & o & -> & Hlo). rewrite Hl in Hlo.
      rewrite (response_head cgig [(("Location" : zstr), url)]); [|by constructor|done|cbn; tauto|done|done].
      f_equal. f_equal. by apply default_type_same. }
  destruct (finish_run cgig call_header_callback call_handler compat_func _ _ s2 _ _ Ho2) as (s3 & ls & g & E3 & -> & [= <-] & Hls & Hw3).
  exists s3. split.
  - rewrite <-bind_assoc, (bind_runs _ _ _ _ _ E1). unfold server_redirect. rewrite (cstr_clean url Hc).
    rewrite (bind_runs _ _ _ _ _ E2). exact E3.
  - rewrite Hw3, read_head_lines by done. by destruct ho.
Qed.

Lemma redirect_on_wire_witness :
  ∃ s', (php_output_activate;; sapi_activate (Some ("POST" : zstr));; server_redirect (CgiGlobals false false) "/login";;
         finish (H := plain_runtime) (cgi_sapi_module (CgiGlobals false false)) (λ _, mret true) no_call (λ _ _ _, None))
        (start_srv None) = Some (tt, s') ∧
    read_head [] (wire s') =
      Some ([("Status: 302 Found" : zstr); "Location: /login"; "Content-type: text/html; charset=UTF-8"], []).
Proof.
  by apply (redirect_on_wire (H := plain_runtime) (CgiGlobals false false) (λ _, mret true) no_call (λ _ _ _, None)
    (Some ("POST" : zstr)) "/login" (start_srv None)).
Defined.
