(* ===== verification/Cookie.v ===== *)
(** * Cookies

    [php_setcookie] of [ext/standard/head.c]: the buffer that the header of a cookie is put
    together in, whose size is counted before; and what becomes of a cookie: the client
    gets it in the head of the response ([Server], [Output]) and sends it back, the next
    request reads it into an array ([Query]), and the request object of Yaf finds it
    ([Request]). *)

From S2P Require Import Prelude Zend Numeric Url UrlCode Query Server Date Output Capture Engine Request QueryText Response Wire.

Open Scope zs_scope.

(** ** Strings in a buffer *)

Definition strpbrk (s accept : zstr) : bool := existsb (λ c, bool_decide (c ∈ accept)) (cstr s).

(** What fits of [src], behind [dst]. *)
Definition strlcat (dst src : zstr) (siz : nat) : zstr :=
  if bool_decide (length dst < siz) then take (siz - 1) (dst ++ src) else dst.

Definition zend_memrchr (s : zstr) (c : ascii) : option nat :=
  (λ p, length s - 1 - p.1) <$> list_find (λ x, x = c) (rev s).

(** ** Setting a cookie *)

Definition COOKIE_EXPIRES : zstr := "; expires=".
Definition COOKIE_MAX_AGE : zstr := "; Max-Age=".
Definition COOKIE_DOMAIN : zstr := "; domain=".
Definition COOKIE_PATH : zstr := "; path=".
Definition COOKIE_SECURE : zstr := "; secure".
Definition COOKIE_HTTPONLY : zstr := "; HttpOnly".
Definition COOKIE_DATE : zstr := "D, d-M-Y H:i:s T".

Definition blanks : zstr := map ascii_of_nat [32; 9; 13; 10; 11; 12].
Definition not_in_value : zstr := ",;" ++ blanks.
Definition not_in_name : zstr := "=" ++ not_in_value.

(** Behind the last [-] of a date are the four digits of a year and a blank. *)
Definition year_fits (dt : zstr) : option bool :=
  match zend_memrchr dt "-"%char with
  | Some p => c ← (dt ++ [NUL]) !! (p + 5); Some (bool_decide (c = " "%char))
  | None => Some false
  end.

(** An attribute with a value, where there is one. *)
Definition add_attribute (cookie key : zstr) (value : option zstr) (size : nat) : zstr :=
  match value with
  | Some (c :: v) => strlcat (strlcat cookie key size) (cstr (c :: v)) size
  | _ => cookie
  end.

Record cookie := Cookie {
  ck_name : zstr;
  ck_value : option zstr;
  ck_expires : Z;
  ck_path : option zstr;
  ck_domain : option zstr;
  ck_secure : bool;
  ck_httponly : bool;
}.

Section setcookie.
(** [time(NULL)] *)
Context (now : Z).

(** The name, the value and the expiry, or the warning.  The time that is left is computed in
    a [double], exactly for a year of four digits. *)
Definition cookie_start (ck : cookie) (encoded_value : zstr) (size : nat) : option (zstr + zstr) :=
  match ck_value ck with
  | None | Some [] =>
      dt ← php_format_date COOKIE_DATE 1;
      Some (inl (slprintf size ("Set-Cookie: " ++ cstr (ck_name ck) ++ "=deleted; expires=" ++ cstr dt ++ "; Max-Age=0")))
  | Some _ =>
      let cookie := slprintf size ("Set-Cookie: " ++ cstr (ck_name ck) ++ "=" ++ cstr encoded_value) in
      if (0 <? ck_expires ck)%Z then
        let cookie := strlcat cookie COOKIE_EXPIRES size in
        dt ← php_format_date COOKIE_DATE (ck_expires ck);
        fits ← year_fits dt;
        if fits : bool then
          let cookie := strlcat cookie (cstr dt) size in
          let tsdelta := slprintf 13 (dec_of_Z (ck_expires ck - now)) in
          Some (inl (strlcat (strlcat cookie COOKIE_MAX_AGE size) tsdelta size))
        else Some (inr ("Expiry date cannot have a year greater than 9999" : zstr))
      else Some (inl cookie)
  end.

(** The other attributes *)
Definition cookie_end (ck : cookie) (cookie : zstr) (size : nat) : zstr :=
  let cookie := add_attribute cookie COOKIE_PATH (ck_path ck) size in
  let cookie := add_attribute cookie COOKIE_DOMAIN (ck_domain ck) size in
  let cookie := if ck_secure ck then strlcat cookie COOKIE_SECURE size else cookie in
  if ck_httponly ck then strlcat cookie COOKIE_HTTPONLY size else cookie.

Definition cookie_header (ck : cookie) (url_encode : bool) : option (zstr + zstr) :=
  if bool_decide (ck_name ck = []) then Some (inr ("Cookie names must not be empty" : zstr))
  else if strpbrk (ck_name ck) not_in_name then
    Some (inr ("Cookie names cannot contain any of the following '=,; \t\r\n\013\014'" : zstr))
  else if negb url_encode && match ck_value ck with Some v => strpbrk v not_in_value | None => false end then
    Some (inr ("Cookie values cannot contain any of the following ',; \t\r\n\013\014'" : zstr))
  else
    let encoded_value := match ck_value ck with
                         | Some v => if url_encode then php_url_encode v else v
                         | None => []
                         end in
    let len := length ("Set-Cookie: " : zstr) + 1 + length (ck_name ck) + length encoded_value +
               length (default [] (ck_path ck)) + length (default [] (ck_domain ck)) in
    cookie ← cookie_start ck encoded_value (len + 100);
    Some (match cookie with
          | inl cookie => inl (cookie_end ck cookie (len + 100))
          | inr warning => inr warning
          end).

Definition php_setcookie (sapi_module : sapi_module_struct) (ck : cookie) (url_encode : bool) : O bool :=
  header ← lift (cookie_header ck url_encode);
  match header with
  | inr warning => Server.php_error warning;; mret false
  | inl cookie => sapi_header_op sapi_module SAPI_HEADER_ADD cookie 0
  end.

Definition setcookie (sapi_module : sapi_module_struct) (ck : cookie) : O bool := php_setcookie sapi_module ck true.
Definition setrawcookie (sapi_module : sapi_module_struct) (ck : cookie) : O bool := php_setcookie sapi_module ck false.
End setcookie.

Example cookies_set :
  cookie_header 1000 (Cookie "id" (Some "a b;") 4600 (Some "/app") None true true) true =
    Some (inl "Set-Cookie: id=a+b%3B; expires=Thu, 01-Jan-1970 01:16:40 GMT; Max-Age=3600; path=/app; secure; HttpOnly") ∧
  cookie_header 1000 (Cookie "id" None 0 None (Some "example.org") false false) true =
    Some (inl "Set-Cookie: id=deleted; expires=Thu, 01-Jan-1970 00:00:01 GMT; Max-Age=0; domain=example.org") ∧
  cookie_header 1000 (Cookie "id" (Some "x") 253402300800 None None false false) true =
    Some (inr "Expiry date cannot have a year greater than 9999") ∧
  cookie_header 1000 (Cookie "i d" (Some "x") 0 None None false false) true =
    Some (inr "Cookie names cannot contain any of the following '=,; \t\r\n\013\014'").
Proof. by vm_compute. Qed.

(** ** The date of a cookie *)

Lemma dec_nonneg n : (0 ≤ n)%Z → Forall (λ c, is_digit c = true) (dec_of_Z n) ∧
  ∀ k, (n < 10 ^ Z.of_nat k)%Z → 0 < k → length (dec_of_Z n) ≤ k.
Proof.
  intros Hn. unfold dec_of_Z. rewrite (proj2 (Z.ltb_ge n 0)) by lia. destruct (dec_of_ulong_spec n Hn) as [Hc Hv]. split.
  - destruct Hc as (_ & Hd & _). apply Forall_forall. intros c Hin. by apply (proj1 (forallb_forall _ _) Hd), list_elem_of_In.
  - intros k Hk Hk0. apply canonical_length; [done|by rewrite Hv|done].
Qed.

Lemma pad_digits w n : (0 ≤ n)%Z → Forall (λ c, is_digit c = true) (pad w n) ∧
  length (pad w n) = Nat.max w (length (dec_of_Z n)).
Proof.
  intros Hn. unfold pad. rewrite (proj2 (Z.ltb_ge n 0)) by lia. destruct (dec_nonneg n Hn) as [Hd _]. split.
  - apply Forall_app. split; [by apply Forall_replicate|done].
  - rewrite length_app, length_replicate. lia.
Qed.

Lemma pad_fits w n : 0 < w → (0 ≤ n < 10 ^ Z.of_nat w)%Z → length (pad w n) = w.
Proof.
  intros Hw Hn. destruct (pad_digits w n) as [_ ->]; [lia|]. destruct (dec_nonneg n) as [_ Hl]; [lia|].
  specialize (Hl w ltac:(lia) Hw). lia.
Qed.

Lemma strlcat_fits dst src siz : length dst + length src < siz → strlcat dst src siz = dst ++ src.
Proof.
  intros Hl. unfold strlcat. rewrite bool_decide_true by lia. apply take_ge. rewrite length_app. lia.
Qed.

Lemma to_int_small n : (0 ≤ n < 2 ^ 31)%Z → to_int n = n.
Proof. intros Hn. unfold to_int. rewrite Z.mod_small; lia. Qed.

Lemma two_digits n : (0 ≤ n < 100)%Z → Some (slprintf 32 (pad 2 (to_int n))) = Some (pad 2 n) ∧ length (pad 2 n) = 2.
Proof.
  intros Hn. rewrite to_int_small by lia. pose proof (pad_fits 2 n ltac:(lia) ltac:(lia)) as Hl.
  split; [|done]. by rewrite slprintf_fits by lia.
Qed.

(** A table of names of three letters. *)
Lemma short_name names n i :
  Forall (λ s : zstr, length s = 3 ∧ Forall (λ c, isalpha c = true) s) names → length names = n → i < n →
  ∃ s, names !! i = Some s ∧ length s = 3 ∧ Forall (λ c, isalpha c = true) s.
Proof.
  intros Hall Hn Hi. destruct (lookup_lt_is_Some_2 names i) as [s Hs]; [lia|]. exists s. split; [done|].
  by apply (Forall_lookup_1 _ _ _ _ Hall Hs).
Qed.

(** No byte that would end a header or an attribute. *)
Definition attribute_char (c : ascii) : Prop :=
  c ≠ ascii_of_nat 10 ∧ c ≠ ascii_of_nat 13 ∧ c ≠ NUL ∧ c ≠ ";"%char.

Lemma date_char c : is_digit c = true ∨ isalpha c = true → attribute_char c ∧ c ≠ "-"%char ∧ c ≠ " "%char.
Proof. intros Hc. repeat split; intros ->; by destruct Hc. Qed.

Lemma digits_ok s : Forall (λ c, is_digit c = true) s → Forall attribute_char s ∧ ("-"%char ∉ s) ∧ (" "%char ∉ s).
Proof.
  intros Hs. split; [|split]; [eapply Forall_impl; [exact Hs|]; intros c Hc; by apply date_char; left| |];
    intros Hin; rewrite Forall_forall in Hs; specialize (Hs _ Hin); done.
Qed.
Lemma letters_ok s : Forall (λ c, isalpha c = true) s → Forall attribute_char s.
Proof. intros Hs. eapply Forall_impl; [exact Hs|]. intros c Hc. apply date_char. by right. Qed.

(** The year of a time stamp from 1970 on *)
Lemma days_before_monotone y n : (days_before_year y + 365 * Z.of_nat n ≤ days_before_year (y + Z.of_nat n))%Z.
Proof.
  induction n as [|n IH]; [replace (y + Z.of_nat 0)%Z with y by lia; lia|].
  replace (y + Z.of_nat (S n))%Z with (y + Z.of_nat n + 1)%Z by lia. rewrite days_before_next.
  pose proof (year_length (y + Z.of_nat n)). lia.
Qed.

Lemma month_end n y :
  n ≤ 11 → (0 ≤ days_of_months n y)%Z ∧ (days_of_months n y + timelib_days_in_month y (Z.of_nat n + 1) ≤ year_days y)%Z.
Proof.
  intros Hn. unfold Nat.le in Hn. unfold year_days, DAYS_PER_LYEAR, DAYS_PER_YEAR. destruct (timelib_is_leap y) eqn:E;
    do 12 (destruct n as [|n]; [cbn [days_of_months]; unfold timelib_days_in_month; rewrite ?E; look_up; lia|]); lia.
Qed.

Lemma days_in_month_bound y m : (timelib_days_in_month y m ≤ 31)%Z.
Proof.
  unfold timelib_days_in_month. destruct (timelib_is_leap y); generalize (Z.to_nat m); intros n;
    do 13 (destruct n as [|n]; [look_up; lia|]); look_up; lia.
Qed.

Lemma gmt_year ts :
  (0 ≤ ts < 2 ^ 63)%Z → ∃ t, timelib_unixtime2gmt ts = Some t ∧ (1970 ≤ t_y t < 2 ^ 63)%Z ∧ (0 ≤ t_d t ≤ 31)%Z ∧
    (1 ≤ t_m t ≤ 12)%Z ∧ valid_clock t ∧ (ts < (days_before_year (t_y t + 1) - 719162) * 86400)%Z.
Proof.
  intros Hts. destruct (gmt_run ts) as (t & E & _ & Hc & Hm & _ & Hday & Hv). exists t. split; [done|].
  pose proof (month_end (Z.to_nat (t_m t - 1)) (t_y t) ltac:(lia)) as [Hms Hend].
  replace (Z.of_nat (Z.to_nat (t_m t - 1)) + 1)%Z with (t_m t) in Hend by lia.
  pose proof (days_in_month_bound (t_y t) (t_m t)) as Hmonth. pose proof (year_length (t_y t)) as Hyear.
  assert (Hd : (0 ≤ t_d t ≤ 31)%Z ∧ (days_of_months (Z.to_nat (t_m t - 1)) (t_y t) + t_d t ≤ year_days (t_y t))%Z).
  { unfold valid_date in Hv. destruct (lost_day ts); [|lia]. destruct Hv as [Hv1 ->]. rewrite Hv1. change (Z.to_nat (1 - 1)) with 0. cbn [days_of_months]. lia. }
  unfold day_number, SECS_PER_DAY in Hday.
  pose proof (Z.div_pos ts 86400 ltac:(lia) ltac:(lia)). pose proof (Z.div_le_upper_bound ts 86400 (2 ^ 63) ltac:(lia) ltac:(lia)).
  assert (1970 ≤ t_y t)%Z.
  { destruct (decide (1970 ≤ t_y t)%Z) as [|Hlt]; [done|]. pose proof (days_before_next (t_y t)) as Hnext.
    pose proof (days_before_monotone (t_y t + 1) (Z.to_nat (1969 - t_y t))) as Hmono.
    rewrite Z2Nat.id in Hmono by lia. replace (t_y t + 1 + (1969 - t_y t))%Z with 1970%Z in Hmono by lia.
    change (days_before_year 1970) with 719162%Z in Hmono. lia. }
  pose proof (days_before_monotone 1970 (Z.to_nat (t_y t - 1970))) as Hmono. rewrite Z2Nat.id in Hmono by lia.
  replace (1970 + (t_y t - 1970))%Z with (t_y t) in Hmono by lia. change (days_before_year 1970) with 719162%Z in Hmono.
  split; [lia|]. split; [lia|]. split; [done|]. split; [done|]. rewrite days_before_next.
  pose proof (Z.mul_succ_div_gt ts 86400 ltac:(lia)). lia.
Qed.

Lemma date_format_cons c f t :
  ceq c (ascii_of_nat 92) = false →
  date_format (c :: f) t = (text ← format_letter c t; rest ← date_format f t; Some (text ++ rest)).
Proof. intros Hc. cbn [date_format]. by rewrite Hc. Qed.

(** A date: the year, which may have any number of digits, is between a dash and a blank. *)
Record date_shape (y : Z) (dt : zstr) : Prop := DateShape {
  ds_split : ∃ pre post, dt = pre ++ "-" ++ pad 4 y ++ " " ++ post ∧ length pre = 11 ∧ length post = 12 ∧
    ("-"%char ∉ post);
  ds_chars : Forall attribute_char dt;
}.

Lemma cookie_date ts :
  (0 ≤ ts < 2 ^ 63)%Z → ∃ t dt, timelib_unixtime2gmt ts = Some t ∧ (1970 ≤ t_y t < 2 ^ 63)%Z ∧
    (ts < (days_before_year (t_y t + 1) - 719162) * 86400)%Z ∧
    php_format_date COOKIE_DATE ts = Some dt ∧ date_shape (t_y t) dt.
Proof.
  intros Hts. destruct (gmt_year ts Hts) as (t & E & Hy & Hd & Hm & (Hh & Hi & Hs) & Hlast). exists t.
  destruct (short_name day_short_names 7 (Z.to_nat (timelib_day_of_week (t_y t) (t_m t) (t_d t)))) as (day & Eday & Lday & Cday).
  { repeat constructor. } { done. }
  { rewrite day_of_week_ok by lia. pose proof (Z.mod_pos_bound (day_number (t_y t) (t_m t) (t_d t) + 4) 7 ltac:(lia)). lia. }
  destruct (short_name mon_short_names 12 (Z.to_nat (t_m t - 1))) as (mon & Emon & Lmon & Cmon);
    [repeat constructor|done|lia|].
  assert (HD : format_letter "D" t = Some day).
  { cbn [format_letter]. unfold php_date_short_day_name, day_name. rewrite day_of_week_ok in Eday |- * by lia.
    pose proof (Z.mod_pos_bound (day_number (t_y t) (t_m t) (t_d t) + 4) 7 ltac:(lia)).
    rewrite (proj2 (Z.ltb_ge _ 0)) by lia. rewrite Eday. cbn [default from_option]. unfold id. by rewrite slprintf_fits by lia. }
  assert (HM : format_letter "M" t = Some mon).
  { cbn [format_letter]. unfold month_name. rewrite (proj2 (Z.ltb_ge _ 1)) by lia. rewrite Emon. cbn [mbind option_bind]. by rewrite slprintf_fits by lia. }
  destruct (pad_digits 4 (t_y t)) as [Cy Ly]; [lia|]. pose proof (dec_length (t_y t) ltac:(lia)) as Hlen. unfold MAX_LENGTH_OF_LONG in Hlen.
  assert (HY : format_letter "Y" t = Some (pad 4 (t_y t))).
  { cbn [format_letter]. rewrite (proj2 (Z.ltb_ge _ 0)), Z.abs_eq by lia. cbn [Datatypes.app]. by rewrite slprintf_fits by lia. }
  destruct (two_digits (t_d t)) as [Hd2 Ld]; [lia|]. destruct (two_digits (t_h t)) as [Hh2 Lh]; [lia|].
  destruct (two_digits (t_i t)) as [Hi2 Li]; [lia|]. destruct (two_digits (t_s t)) as [Hs2 Ls]; [lia|].
  pose proof (proj1 (pad_digits 2 (t_d t) ltac:(lia))) as Cd. pose proof (proj1 (pad_digits 2 (t_h t) ltac:(lia))) as Ch.
  pose proof (proj1 (pad_digits 2 (t_i t) ltac:(lia))) as Ci. pose proof (proj1 (pad_digits 2 (t_s t) ltac:(lia))) as Cs.
  set (pre := day ++ ", " ++ pad 2 (t_d t) ++ "-" ++ mon).
  set (post := pad 2 (t_h t) ++ ":" ++ pad 2 (t_i t) ++ ":" ++ pad 2 (t_s t) ++ " GMT").
  exists (pre ++ "-" ++ pad 4 (t_y t) ++ " " ++ post). split; [done|]. split; [lia|]. split; [done|]. split.
  - unfold php_format_date. rewrite E. cbn [mbind option_bind]. unfold COOKIE_DATE. rewrite !date_format_cons by reflexivity.
    rewrite HD, HM, HY. change (format_letter "d" t) with (Some (slprintf 32 (pad 2 (to_int (t_d t))))).
    change (format_letter "H" t) with (Some (slprintf 32 (pad 2 (to_int (t_h t))))).
    change (format_letter "i" t) with (Some (slprintf 32 (pad 2 (to_int (t_i t))))).
    change (format_letter "s" t) with (Some (slprintf 32 (pad 2 (to_int (t_s t))))).
    rewrite Hd2, Hh2, Hi2, Hs2. cbn [mbind option_bind format_letter date_format]. unfold pre, post.
    by rewrite <-!(assoc_L (++)).
  - split.
    + exists pre, post. split; [done|]. unfold pre, post. rewrite !length_app. cbn [length]. split; [lia|]. split; [lia|].
      rewrite !not_elem_of_app. repeat split; try (by apply digits_ok); decided.
    + unfold pre, post. repeat first [apply Forall_app; split]; try (by apply digits_ok); try (by apply letters_ok);
        repeat constructor; done.
Qed.

Lemma memrchr_last pre post c : c ∉ post → zend_memrchr (pre ++ c :: post) c = Some (length pre).
Proof.
  intros Hc. unfold zend_memrchr. rewrite rev_app_distr. cbn [rev]. rewrite <-(assoc_L (++)).
  assert (list_find (λ x, x = c) (rev post ++ [c] ++ rev pre) = Some (length post, c)) as ->.
  { apply list_find_Some. split; [rewrite lookup_app_r; rewrite length_rev; [by rewrite Nat.sub_diag|done]|]. split; [done|].
    intros j x Hj Hlt ->. rewrite lookup_app_l in Hj by (by rewrite length_rev). apply Hc.
    apply list_elem_of_lookup_2 in Hj. by rewrite list_elem_of_In, in_rev, <-list_elem_of_In. }
  cbn [fmap option_fmap option_map fst]. f_equal. rewrite length_app. cbn [length]. lia.
Qed.

(** The test of the year looks where the blank is if there are four digits, and at a digit
    if there are more. *)
Lemma year_fits_ok y dt : (0 ≤ y)%Z → date_shape y dt → year_fits dt = Some (bool_decide (y ≤ 9999)%Z).
Proof.
  intros Hy [(pre & post & -> & Lpre & Lpost & Hpost) _]. destruct (pad_digits 4 y Hy) as [Hd Hl].
  unfold year_fits. change ("-" ++ ?l) with ("-"%char :: l). rewrite memrchr_last.
  2:{ rewrite !not_elem_of_app. split; [by apply digits_ok|]. split; [decided|done]. }
  rewrite Lpre. rewrite <-(assoc_L (++)). cbn [Datatypes.app].
  rewrite lookup_app_r by lia. rewrite Lpre. change (11 + 5 - 11) with (S 4).
  match goal with |- context [(?x :: ?l) !! S 4] => change ((x :: l) !! S 4) with (l !! 4) end.
  rewrite <-(assoc_L (++)). destruct (dec_nonneg y Hy) as [_ Hk].
  case_bool_decide as Hle.
  - rewrite lookup_app_r by (rewrite (pad_fits 4 y); lia). rewrite (pad_fits 4 y) by lia. done.
  - assert (Hlong : 4 < length (pad 4 y)).
    { rewrite Hl. destruct (dec_of_ulong_spec y Hy) as [Hc Hv]. unfold dec_of_Z. rewrite (proj2 (Z.ltb_ge y 0)) by lia.
      destruct (decide (4 < length (dec_of_ulong y))); [lia|]. exfalso.
      pose proof (canonical_upper (dec_of_ulong y) (proj1 (proj2 Hc))) as Hup. rewrite Hv in Hup.
      pose proof (Z.pow_le_mono_r 10 (Z.of_nat (length (dec_of_ulong y))) 4 ltac:(lia) ltac:(lia)). lia. }
    destruct (lookup_lt_is_Some_2 (pad 4 y) 4 Hlong) as [c Ec]. rewrite (lookup_app_l_Some _ _ _ _ Ec).
    cbn [mbind option_bind]. rewrite bool_decide_false; [done|]. intros ->.
    by pose proof (Forall_lookup_1 _ _ _ _ Hd Ec) as Hsp.
Qed.

(** ** The text of a cookie *)

Definition attribute (key : zstr) (value : option zstr) : zstr :=
  match value with Some (c :: v) => key ++ cstr (c :: v) | _ => [] end.

Definition cookie_value (now : Z) (ck : cookie) (url_encode : bool) : zstr :=
  match ck_value ck with
  | None | Some [] => "deleted; expires=Thu, 01-Jan-1970 00:00:01 GMT; Max-Age=0"
  | Some v =>
      cstr (if url_encode then php_url_encode v else v) ++
      (if (0 <? ck_expires ck)%Z
       then COOKIE_EXPIRES ++ default [] (php_format_date COOKIE_DATE (ck_expires ck)) ++
            COOKIE_MAX_AGE ++ dec_of_Z (ck_expires ck - now)
       else [])
  end.

(** The header, as if there were no buffer. *)
Definition cookie_text (now : Z) (ck : cookie) (url_encode : bool) : zstr :=
  "Set-Cookie: " ++ cstr (ck_name ck) ++ "=" ++ cookie_value now ck url_encode ++
  attribute COOKIE_PATH (ck_path ck) ++ attribute COOKIE_DOMAIN (ck_domain ck) ++
  (if ck_secure ck then COOKIE_SECURE else []) ++ (if ck_httponly ck then COOKIE_HTTPONLY else []).

(** ** The buffer is large enough *)

Lemma cstr_within s : length (cstr s) ≤ length s.
Proof. apply cstr_length. Qed.

Lemma attribute_length key value : length (attribute key value) ≤ length key + length (default [] value).
Proof. destruct value as [[|c v]|]; cbn [attribute length]; [lia| |lia]. rewrite length_app. pose proof (cstr_length (c :: v)). cbn. cbn in *. lia. Qed.

Lemma add_attribute_fits cookie key value size :
  length cookie + length key + length (default [] value) < size →
  add_attribute cookie key value size = cookie ++ attribute key value.
Proof.
  destruct value as [[|c v]|]; cbn [add_attribute attribute]; [by rewrite (right_id_L [] (++))| |by rewrite (right_id_L [] (++))].
  change (default [] (Some (c :: v))) with (c :: v). pose proof (cstr_length (c :: v)). intros Hl.
  rewrite (strlcat_fits cookie key) by lia. rewrite strlcat_fits by (rewrite length_app; lia). by rewrite <-(assoc_L (++)).
Qed.

Definition year_of_expiry (ck : cookie) : Z := from_option t_y 0%Z (timelib_unixtime2gmt (ck_expires ck)).
Definition has_value (ck : cookie) : bool := match ck_value ck with None | Some [] => false | _ => true end.

Lemma time_left_fits now ck :
  (0 ≤ now < 10 ^ 11)%Z → (0 < ck_expires ck < 2 ^ 63)%Z → (year_of_expiry ck ≤ 9999)%Z →
  length (dec_of_Z (ck_expires ck - now)) ≤ 12.
Proof.
  intros Hnow Hex Hy. destruct (gmt_year (ck_expires ck) ltac:(lia)) as (t & E & Ht & _ & _ & _ & Hlast).
  unfold year_of_expiry in Hy. rewrite E in Hy. cbn [from_option] in Hy.
  pose proof (days_before_monotone (t_y t + 1) (Z.to_nat (9999 - t_y t))) as Hmono. rewrite Z2Nat.id in Hmono by lia.
  replace (t_y t + 1 + (9999 - t_y t))%Z with 10000%Z in Hmono by lia. change (days_before_year 10000) with 3652059%Z in Hmono.
  set (left := (ck_expires ck - now)%Z). assert (Hl : (- 10 ^ 11 < left < 10 ^ 12)%Z) by lia.
  destruct (decide (0 ≤ left)%Z) as [Hpos|Hneg].
  - destruct (dec_nonneg left Hpos) as [_ Hk]. apply Hk; lia.
  - unfold dec_of_Z. rewrite (proj2 (Z.ltb_lt left 0)) by lia. change (S (length (dec_of_ulong (- left))) ≤ 12).
    destruct (dec_nonneg (- left)%Z ltac:(lia)) as [_ Hk]. specialize (Hk 11 ltac:(lia) ltac:(lia)). unfold dec_of_Z in Hk.
    rewrite (proj2 (Z.ltb_ge (- left) 0)) in Hk by lia. lia.
Qed.

Lemma date_length y dt : (1970 ≤ y ≤ 9999)%Z → date_shape y dt → length dt = 29 ∧ cstr dt = dt.
Proof.
  intros Hy [(pre & post & E & Lpre & Lpost & _) Hc]. split.
  - rewrite E, !length_app, (pad_fits 4 y) by lia. cbn [length]. lia.
  - apply cstr_no_nul. eapply Forall_impl; [exact Hc|]. intros c Hch. apply Hch.
Qed.

Definition too_late (ck : cookie) : bool :=
  has_value ck && (0 <? ck_expires ck)%Z && bool_decide (9999 < year_of_expiry ck)%Z.

Lemma start_deleted now ck enc encoded size :
  has_value ck = false → length (ck_name ck) + 70 < size →
  cookie_start now ck encoded size = Some (inl ("Set-Cookie: " ++ cstr (ck_name ck) ++ "=" ++ cookie_value now ck enc)) ∧
  length (cookie_value now ck enc) = 57.
Proof.
  intros Hv Hsize. pose proof (cstr_length (ck_name ck)). unfold cookie_start, cookie_value, has_value in *.
  change (php_format_date COOKIE_DATE 1) with (Some ("Thu, 01-Jan-1970 00:00:01 GMT" : zstr)).
  cbn [mbind option_bind]. change (cstr "Thu, 01-Jan-1970 00:00:01 GMT") with ("Thu, 01-Jan-1970 00:00:01 GMT" : zstr).
  rewrite slprintf_fits by (rewrite !length_app; cbn [length]; lia). by destruct (ck_value ck) as [[]|].
Qed.

(** A cookie with a value: the text, which takes no more than 61 bytes beyond them. *)
Lemma start_ok now ck (enc : bool) encoded size :
  (0 ≤ now < 10 ^ 11)%Z → (ck_expires ck < 2 ^ 63)%Z → has_value ck = true →
  encoded = match ck_value ck with Some v => if enc then php_url_encode v else v | None => [] end →
  length (ck_name ck) + length encoded + 74 < size →
  cookie_start now ck encoded size =
    Some (if too_late ck then inr ("Expiry date cannot have a year greater than 9999" : zstr)
          else inl ("Set-Cookie: " ++ cstr (ck_name ck) ++ "=" ++ cookie_value now ck enc)) ∧
  (too_late ck = false → length (cookie_value now ck enc) ≤ length encoded + 61).
Proof.
  intros Hnow Hex Hv Henc Hsize. pose proof (cstr_length (ck_name ck)) as Ln. pose proof (cstr_length encoded) as Le.
  unfold too_late. rewrite Hv. unfold cookie_start, cookie_value, has_value in *. destruct (ck_value ck) as [[|c v]|]; [done| |done].
  rewrite <-Henc. rewrite slprintf_fits by (rewrite !length_app; cbn [length]; lia). case Z.ltb_spec; intros Hpos; cbn [andb].
  2:{ rewrite (right_id_L [] (++)). split; [done|lia]. }
  destruct (cookie_date (ck_expires ck) ltac:(lia)) as (t & dt & E & Hy & _ & Edt & Hshape).
  assert (Hyear : year_of_expiry ck = t_y t) by (unfold year_of_expiry; by rewrite E).
  cbv zeta. rewrite Edt. cbn [mbind option_bind default from_option]. unfold id. rewrite (year_fits_ok (t_y t)) by (done || lia).
  cbn [mbind option_bind]. rewrite Hyear. destruct (decide (t_y t ≤ 9999)%Z) as [Hle|Hgt].
  2:{ rewrite bool_decide_false, bool_decide_true by lia. done. }
  rewrite bool_decide_true, bool_decide_false by lia. destruct (date_length (t_y t) dt ltac:(lia) Hshape) as [Hl ->].
  pose proof (time_left_fits now ck Hnow ltac:(lia) ltac:(lia)) as Hleft. rewrite slprintf_fits by lia.
  split; [|rewrite !length_app; cbn [length COOKIE_EXPIRES COOKIE_MAX_AGE]; lia].
  assert (Hroom : ∀ x y : zstr, length x + length y < size → strlcat x y size = x ++ y) by (intros; by apply strlcat_fits).
  rewrite (Hroom _ COOKIE_EXPIRES), (Hroom _ dt), (Hroom _ COOKIE_MAX_AGE), Hroom
    by (rewrite ?length_app; cbn [length COOKIE_EXPIRES COOKIE_MAX_AGE]; lia).
  by rewrite <-!(assoc_L (++)).
Qed.

Lemma end_ok ck cookie size :
  length cookie + length (default [] (ck_path ck)) + length (default [] (ck_domain ck)) + 34 < size →
  cookie_end ck cookie size =
  cookie ++ attribute COOKIE_PATH (ck_path ck) ++ attribute COOKIE_DOMAIN (ck_domain ck) ++
  (if ck_secure ck then COOKIE_SECURE else []) ++ (if ck_httponly ck then COOKIE_HTTPONLY else []).
Proof.
  intros Hs. unfold cookie_end. pose proof (attribute_length COOKIE_PATH (ck_path ck)) as Hp.
  pose proof (attribute_length COOKIE_DOMAIN (ck_domain ck)) as Hd. cbn [length COOKIE_PATH COOKIE_DOMAIN] in Hp, Hd.
  rewrite (add_attribute_fits cookie) by (cbn [length COOKIE_PATH]; lia).
  rewrite add_attribute_fits by (rewrite length_app; cbn [length COOKIE_DOMAIN]; lia).
  assert (Hroom : ∀ x y : zstr, length x + length y < size → strlcat x y size = x ++ y) by (intros; by apply strlcat_fits).
  destruct (ck_secure ck), (ck_httponly ck);
    rewrite ?(Hroom _ COOKIE_SECURE) by (rewrite ?length_app; cbn [length COOKIE_SECURE]; lia);
    rewrite ?(Hroom _ COOKIE_HTTPONLY) by (rewrite ?length_app; cbn [length COOKIE_SECURE COOKIE_HTTPONLY]; lia);
    by rewrite ?(right_id_L [] (++)), <-?(assoc_L (++)).
Qed.

(** A name, and for a raw cookie a value, that [php_setcookie] takes. *)
Definition accepted (ck : cookie) (url_encode : bool) : Prop :=
  ck_name ck ≠ [] ∧ strpbrk (ck_name ck) not_in_name = false ∧
  (url_encode = false → strpbrk (default [] (ck_value ck)) not_in_value = false).

Lemma header_text now ck url_encode :
  (0 ≤ now < 10 ^ 11)%Z → (ck_expires ck < 2 ^ 63)%Z → accepted ck url_encode →
  cookie_header now ck url_encode =
    Some (if too_late ck then inr ("Expiry date cannot have a year greater than 9999" : zstr)
          else inl (cookie_text now ck url_encode)).
Proof.
  intros Hnow Hex (Hne & Hname & Hval). unfold cookie_header. rewrite bool_decide_false, Hname by done.
  replace (negb url_encode && _) with false
    by (destruct url_encode; [done|]; specialize (Hval eq_refl); by destruct (ck_value ck)).
  set (encoded := match ck_value ck with Some _ => _ | None => _ end). cbv zeta. cbn [length].
  set (size := _ + 100). pose proof (cstr_length (ck_name ck)) as Ln.
  assert (Hsize : size = 113 + length (ck_name ck) + length encoded + length (default [] (ck_path ck)) + length (default [] (ck_domain ck)))
    by (unfold size; lia).
  clearbody size. unfold cookie_text. destruct (has_value ck) eqn:Hv.
  - destruct (start_ok now ck url_encode encoded size) as [-> Hl]; [done..|lia|]. cbn [mbind option_bind].
    destruct (too_late ck) eqn:El; [done|]. specialize (Hl eq_refl). do 2 f_equal.
    rewrite end_ok by (rewrite !length_app; cbn [length]; lia). by rewrite <-!(assoc_L (++)).
  - destruct (start_deleted now ck url_encode encoded size Hv) as [-> Hl]; [lia|]. cbn [mbind option_bind].
    unfold too_late. rewrite Hv. cbn [andb]. do 2 f_equal.
    rewrite end_ok by (rewrite !length_app; cbn [length]; lia). by rewrite <-!(assoc_L (++)).
Qed.

(** ** Cookies that come back *)

(** Bytes that a name is made of when it is stored under itself: [php_setcookie] takes them,
    and reading a variable changes none of them. *)
Definition name_char (c : ascii) : Prop := (c ∉ not_in_name) ∧ c ≠ NUL ∧ c ∉ ("%+.[" : zstr).

Definition word_char (c : ascii) : Prop := attribute_char c ∧ is_space c = false.

Record cookie_ok (ck : cookie) : Prop := CookieOk {
  co_name : ck_name ck ≠ [];
  co_name_chars : Forall name_char (ck_name ck);
  co_value : has_value ck = true;
  co_expires : (ck_expires ck < 2 ^ 63)%Z;
  co_year : too_late ck = false;
  co_path : Forall word_char (default [] (ck_path ck));
  co_domain : Forall word_char (default [] (ck_domain ck));
}.

Lemma name_char_word c : name_char c → word_char c ∧ c ≠ "="%char ∧ c ≠ "["%char ∧ c ≠ "."%char ∧ c ≠ PERCENT ∧ c ≠ "+"%char.
Proof.
  intros (H1 & H2 & H3). split; [split; [split_and!; [| |done|]; intros ->; by apply H1; decided|]|].
  - destruct (is_space c) eqn:E; [|done]. exfalso. apply H1. clear -E. destruct c as [[] [] [] [] [] [] [] []]; try discriminate E; decided.
  - split_and!; intros ->; (by apply H1; decided) || (by apply H3; decided).
Qed.

Lemma url_char_word c : url_char c = true → word_char c ∧ c ≠ ";"%char.
Proof. intros Hc. repeat split; try (intros ->; by vm_compute in Hc). destruct c as [[] [] [] [] [] [] [] []]; by vm_compute in Hc |- *. Qed.

Lemma name_words s : Forall name_char s → Forall word_char s.
Proof. intros Hs. eapply Forall_impl; [exact Hs|]. intros c Hc. by apply name_char_word. Qed.

Lemma encoded_words v : Forall word_char (php_url_encode v).
Proof. apply Forall_forall. intros c Hc. apply url_char_word. eapply url_chars. by left. Qed.

Lemma words_clean s : Forall word_char s → clean s.
Proof. intros Hs. apply clean_forall. eapply Forall_impl; [exact Hs|]. intros c [(H1 & H2 & H3 & _) _]. tauto. Qed.
Lemma attributes_clean s : Forall attribute_char s → clean s.
Proof. intros Hs. apply clean_forall. eapply Forall_impl; [exact Hs|]. intros c (H1 & H2 & H3 & _). tauto. Qed.
Lemma words_plain s : Forall word_char s → free_of ";"%char s.
Proof. intros Hs. eapply Forall_impl; [exact Hs|]. intros c [(_ & _ & _ & H) _]. apply ceq_false. congruence. Qed.

(** Nothing is cut off at the end. *)
Definition trimmed (s : zstr) : Prop := drop_end is_space s = s.

Lemma words_trimmed a b : Forall word_char b → b ≠ [] → trimmed (a ++ b).
Proof.
  intros Hb Hne. unfold trimmed. apply drop_end_keeps; [|done]. unfold drop_end.
  destruct (rev b) as [|c l] eqn:E; [by rewrite <-(rev_involutive b), E in Hne|].
  cbn [drop_while]. assert (is_space c = false) as ->.
  { assert (Hin : c ∈ b) by (rewrite list_elem_of_In, in_rev, E; by left). rewrite Forall_forall in Hb. by apply Hb. }
  by rewrite <-E, rev_involutive.
Qed.

Lemma dec_words n : Forall word_char (dec_of_Z n) ∧ dec_of_Z n ≠ [].
Proof.
  split.
  - eapply Forall_impl; [apply dec_chars|]. intros c [Hc| ->]; [|by repeat split].
    repeat split; try (intros ->; by vm_compute in Hc). destruct c as [[] [] [] [] [] [] [] []]; by vm_compute in Hc |- *.
  - unfold dec_of_Z. destruct (n <? 0)%Z eqn:E; [done|]. apply Z.ltb_ge in E.
    destruct (dec_of_ulong_spec n E) as [(Hne & _) _]. done.
Qed.

(** The name and the value as the client keeps them. *)
Definition cookie_pair (ck : cookie) : zstr := ck_name ck ++ "=" ++ php_url_encode (default [] (ck_value ck)).

(** What is behind them: nothing, or attributes, which begin with a semicolon. *)
Definition behind (s : zstr) : Prop := s = [] ∨ ∃ s', s = ";"%char :: s'.

Lemma behind_app a b : behind a → behind b → behind (a ++ b).
Proof. intros [->|[s ->]] Hb; [done|]. right. by exists (s ++ b). Qed.

Record good_line (pair rest : zstr) : Prop := GoodLine {
  gl_behind : behind rest;
  gl_clean : clean rest;
  gl_trimmed : trimmed (pair ++ rest);
}.

Lemma good_app pair rest k value :
  good_line pair rest → Forall word_char value → value ≠ [] → clean k →
  good_line pair (rest ++ (";"%char :: k) ++ value).
Proof.
  intros [Hb Hc Ht] Hv Hne Hk. split.
  - apply behind_app; [done|]. right. by eexists.
  - apply clean_app. split; [done|]. apply clean_app. split; [|by apply words_clean]. by apply (clean_app ";").
  - rewrite !(assoc_L (++)). by apply words_trimmed.
Qed.

Lemma good_attribute pair rest k value :
  good_line pair rest → Forall word_char (default [] value) → clean k →
  good_line pair (rest ++ attribute (";"%char :: k) value).
Proof.
  intros Hg Hv Hk. destruct value as [[|c v]|]; cbn [attribute]; [by rewrite (right_id_L [] (++))| |by rewrite (right_id_L [] (++))].
  rewrite cstr_clean by (by apply words_clean). by apply good_app.
Qed.

(** The line of a cookie: the pair, and attributes that do not get into it. *)
Lemma cookie_line_ok now ck :
  cookie_ok ck → (0 ≤ now < 10 ^ 11)%Z →
  ∃ rest, cookie_header now ck true = Some (inl ("Set-Cookie: " ++ cookie_pair ck ++ rest)) ∧ good_line (cookie_pair ck) rest.
Proof.
  intros [Hne Hname Hval Hex Hyear Hpath Hdomain] Hnow.
  assert (Hacc : accepted ck true).
  { split; [done|]. split; [|done]. unfold strpbrk. apply not_true_is_false. intros (c & Hin & Hc)%existsb_exists.
    apply bool_decide_eq_true in Hc. rewrite (cstr_clean (ck_name ck)) in Hin by (by apply words_clean, name_words).
    apply list_elem_of_In in Hin. rewrite Forall_forall in Hname. by destruct (Hname c Hin) as [Hn _]. }
  rewrite (header_text now ck true Hnow Hex Hacc), Hyear. unfold cookie_text. rewrite cstr_clean by (by apply words_clean, name_words).
  unfold cookie_value, cookie_pair, has_value in *. destruct (ck_value ck) as [[|c v]|] eqn:Ev; [done| |done].
  change (default [] (Some (c :: v))) with (c :: v). set (enc := php_url_encode (c :: v)).
  assert (Henc : Forall word_char enc ∧ enc ≠ []).
  { split; [apply encoded_words|]. intros E. pose proof (form_decoded (c :: v) []) as Hd. fold enc in Hd. by rewrite E in Hd. }
  destruct Henc as [Henc Hencne]. rewrite (cstr_clean enc) by (by apply words_clean).
  set (expiry := if (0 <? ck_expires ck)%Z then _ else _).
  exists (expiry ++ attribute COOKIE_PATH (ck_path ck) ++ attribute COOKIE_DOMAIN (ck_domain ck) ++
          (if ck_secure ck then COOKIE_SECURE else []) ++ (if ck_httponly ck then COOKIE_HTTPONLY else [])).
  split; [by rewrite <-!(assoc_L (++))|]. rewrite !(assoc_L (++)).
  set (pair := ((ck_name ck ++ "=") ++ enc)).
  assert (Hexp : good_line pair expiry).
  { assert (Hnil : good_line pair []).
    { split; [by left|done|]. rewrite (right_id_L [] (++)). by apply words_trimmed. }
    unfold expiry. case Z.ltb_spec; intros Hpos; [|done].
    destruct (cookie_date (ck_expires ck) ltac:(lia)) as (t & dt & _ & _ & _ & Edt & [_ Hdt]). rewrite Edt.
    cbn [default from_option]. unfold id. destruct (dec_words (ck_expires ck - now)) as [Hw Hne'].
    change (good_line pair ([] ++ (";"%char :: " expires=" ++ dt ++ COOKIE_MAX_AGE ++ dec_of_Z (ck_expires ck - now)))).
    rewrite (assoc_L (++) dt), (assoc_L (++) " expires=").
    apply (good_app pair [] (" expires=" ++ dt ++ COOKIE_MAX_AGE)); [done..|].
    repeat (apply clean_app; split); [done|by apply attributes_clean|done]. }
  destruct (ck_secure ck), (ck_httponly ck); rewrite ?(right_id_L [] (++)).
  all: repeat first [apply (good_app _ _ " " "HttpOnly")|apply (good_app _ _ " " "secure")|apply good_attribute]; try done.
  all: repeat constructor; done.
Qed.

(** The calls, and the client: it keeps the name and the value of each cookie, up to the first
    semicolon, and sends them back in one line. *)
Fixpoint set_cookies (now : Z) (sapi_module : sapi_module_struct) (cks : list cookie) : O (list bool) :=
  match cks with
  | [] => mret []
  | ck :: cks' =>
      b ← setcookie now sapi_module ck;
      bs ← set_cookies now sapi_module cks';
      mret (b :: bs)
  end.

Definition client_cookie (line : zstr) : option zstr :=
  if bool_decide (take 12 line = "Set-Cookie: ") then Some (break (ceq ";") (drop 12 line)).1 else None.

Definition sent_back (ls : list zstr) : zstr :=
  match omap client_cookie ls with
  | [] => []
  | w :: ws => join ";" (w :: map (cons " "%char) ws)
  end.

(** [$_COOKIE] of the next request *)
Definition cookie_bucket (ck : cookie) : hkey * zval := (symtable_key (ck_name ck), ZStr (default [] (ck_value ck))).
Definition jar (cks : list cookie) : htab zval := map cookie_bucket cks.

(** ** The head that sets the cookies *)

Definition sets (ck : cookie) (f : zstr * zstr) : Prop :=
  ∃ rest, f = ("Set-Cookie" : zstr, cookie_pair ck ++ rest) ∧ good_line (cookie_pair ck) rest.

Lemma pair_words ck : cookie_ok ck → clean (cookie_pair ck) ∧ free_of ";"%char (cookie_pair ck).
Proof.
  intros [_ Hname _ _ _ _ _]. pose proof (name_words _ Hname) as Hn. pose proof (encoded_words (default [] (ck_value ck))) as Hv.
  unfold cookie_pair. split.
  - rewrite !clean_app. split; [by apply words_clean|]. split; [done|by apply words_clean].
  - apply Forall_app. split; [by apply words_plain|]. by apply Forall_cons; split; [|apply words_plain].
Qed.

Lemma set_cookie_header ck rest :
  cookie_ok ck → good_line (cookie_pair ck) rest → header_ok "Set-Cookie" (" "%char :: cookie_pair ck ++ rest).
Proof.
  intros Hck [_ Hc Ht]. split; [split; decided| | |done|done].
  - apply (clean_app "Set-Cookie: "). split; [done|]. apply clean_app. split; [by apply pair_words|done].
  - apply (drop_end_keeps is_space "Set-Cookie: " (cookie_pair ck ++ rest)); [exact Ht|].
    pose proof (co_name _ Hck) as Hne. unfold cookie_pair. by destruct (ck_name ck).
Qed.

Lemma cookies_run now cgig cks : (0 ≤ now < 10 ^ 11)%Z → Forall cookie_ok cks → ∀ fs s,
  headers (the_headers s) = field_line <$> fs → headers_sent (sg s) = false →
  ∃ gs s', set_cookies now (cgi_sapi_module cgig) cks s = Some (replicate (length cks) true, s') ∧ Forall2 sets cks gs ∧
    with_headers (field_line <$> (fs ++ gs)) (Server.http_response_code (the_headers s)) s s'.
Proof.
  intros Hnow. induction 1 as [|ck cks Hck _ IH]; intros fs s Hh Hs.
  { exists [], s. split; [done|]. split; [constructor|]. rewrite (right_id_L [] (++)), <-Hh. apply with_headers_refl. }
  destruct (cookie_line_ok now ck Hck Hnow) as (rest & Hline & Hgood).
  destruct (header_op_run (cgi_sapi_module cgig) SAPI_HEADER_ADD "Set-Cookie" (" "%char :: cookie_pair ck ++ rest) 0 s)
    as (s1 & E1 & Hw1); [done|done|by left|by apply set_cookie_header|].
  set (f := ("Set-Cookie" : zstr, cookie_pair ck ++ rest)). change ("Set-Cookie" ++ _) with (field_line f) in E1, Hw1.
  change (to_int 0 =? 0)%Z with true in Hw1. cbn [is_replace] in Hw1. change (code_after (sg s) "Set-Cookie") with (Server.http_response_code (the_headers s)) in Hw1.
  rewrite Hh in Hw1. cbn [set_cookies].
  assert (E : setcookie now (cgi_sapi_module cgig) ck s = Some (true, s1)).
  { unfold setcookie, php_setcookie. rewrite Hline, bind_lift_Some. exact E1. }
  rewrite (bind_runs _ _ _ _ _ E). destruct (IH (fs ++ [f]) s1) as (gs & s2 & E2 & Hgs & Hw2).
  - destruct Hw1 as (l & o & -> & _). cbn. by rewrite fmap_app.
  - by destruct Hw1 as (l & o & -> & _).
  - exists (f :: gs), s2. rewrite (bind_runs _ _ _ _ _ E2). split; [done|]. split; [constructor; [by exists rest|done]|].
    rewrite <-(assoc_L (++)) in Hw2. eapply with_headers_trans; [exact Hw1|]. by destruct Hw1 as (l & o & -> & _).
Qed.

Lemma set_field_line ck f : cookie_ok ck → sets ck f →
  clean (field_line f) ∧ status_header (field_line f) = false ∧ client_cookie (field_line f) = Some (cookie_pair ck).
Proof.
  intros Hck (rest & -> & [Hb Hc _]). destruct (pair_words ck Hck) as [Hpc Hpf]. unfold field_line. cbn [fst snd]. split; [|split].
  - apply (clean_app "Set-Cookie: "). split; [done|]. by apply clean_app.
  - unfold status_header. apply andb_false_iff. right. reflexivity.
  - unfold client_cookie. change (take 12 _) with ("Set-Cookie: " : zstr). rewrite bool_decide_true by done. f_equal.
    change (drop 12 _) with (cookie_pair ck ++ rest).
    destruct Hb as [->|[r ->]]; [rewrite (right_id_L [] (++)); by rewrite break_none|by rewrite break_at].
Qed.

(** What the client finds in the head *)
Lemma sent_pairs cgig code content_type cks gs :
  Forall cookie_ok cks → Forall2 sets cks gs →
  omap client_cookie (response_lines cgig code gs content_type) = map cookie_pair cks.
Proof.
  intros Hok Hgs. unfold response_lines. rewrite !omap_app.
  assert (Hf : omap client_cookie (field_line <$> gs) = map cookie_pair cks).
  { induction Hgs as [|ck f cks gs Hf _ IH]; [done|]. apply Forall_cons in Hok as [Hck Hok].
    destruct (set_field_line ck f Hck Hf) as (_ & _ & Hcl). rewrite fmap_cons. cbn [omap list_omap map]. rewrite Hcl. f_equal. by apply IH. }
  assert (Hs : client_cookie (code_line code) = None ∧ client_cookie ("Content-type: " ++ content_type) = None)
    by (unfold client_cookie; rewrite !bool_decide_false by done; done).
  rewrite Hf. destruct (nph cgig || negb (code =? 200)%Z), (bool_decide (content_type = [])); cbn [omap list_omap];
    rewrite ?(proj1 Hs), ?(proj2 Hs); cbn [Datatypes.app]; by rewrite ?(right_id_L [] (++)).
Qed.

(** ** The next request *)

Lemma symtable_key_inj a b : symtable_key a = symtable_key b → a = b.
Proof.
  unfold symtable_key. destruct (zend_handle_numeric_str a) as [n|] eqn:Ea, (zend_handle_numeric_str b) as [m|] eqn:Eb; intros [= E]; [|done].
  apply numeric_sound in Ea as [_ ->], Eb as [_ ->]. by rewrite E.
Qed.

Lemma cookie_read ck : cookie_ok ck → query_pair (cookie_pair ck) = (ck_name ck, default [] (ck_value ck)).
Proof.
  intros Hck. unfold query_pair, cookie_pair. change ("=" ++ ?l) with (EQUALS :: l). rewrite break_at; [| |done].
  - pose proof (plain_decoded (ck_name ck) []) as Hn. pose proof (form_decoded (default [] (ck_value ck)) []) as Hv.
    rewrite !(right_id_L [] (++)) in Hv, Hn. change (php_url_decode []) with (@nil ascii) in Hv, Hn. rewrite (right_id_L [] (++)) in Hv, Hn.
    rewrite Hv, Hn; [done|]. eapply Forall_impl; [exact (co_name_chars _ Hck)|]. intros c Hc. apply name_char_word in Hc. tauto.
  - eapply Forall_impl; [exact (co_name_chars _ Hck)|]. intros c Hc. apply ceq_false. intros <-. apply name_char_word in Hc. tauto.
Qed.

(** With or without the blank in front of it, a pair is one cookie. *)
Definition pair_of (ck : cookie) (w : zstr) : Prop := w = cookie_pair ck ∨ w = " "%char :: cookie_pair ck.

Lemma pair_named ck w : cookie_ok ck → pair_of ck w → cookie_name w = Some (cookie_pair ck).
Proof.
  intros Hck Hw. assert (Hp : cookie_name (cookie_pair ck) = Some (cookie_pair ck)).
  { unfold cookie_name, cookie_pair. pose proof (co_name _ Hck) as Hne. pose proof (co_name_chars _ Hck) as Hc.
    destruct (ck_name ck) as [|c n]; [done|]. apply Forall_cons in Hc as [Hc _]. apply name_char_word in Hc as ([_ Hsp] & Heq & _).
    cbn [Datatypes.app drop_while]. rewrite Hsp. by rewrite (proj2 (ceq_false c EQUALS)). }
  by destruct Hw as [->| ->].
Qed.

Lemma cookie_registered settings ck ht :
  cookie_ok ck → symtable_key (ck_name ck) ∉ hkeys ht →
  php_register_variable_safe settings (Track true false false) (ck_name ck) (default [] (ck_value ck)) ht = (ht ++ [cookie_bucket ck], []).
Proof.
  intros Hck Hnew. unfold php_register_variable_safe, php_register_variable_ex. pose proof (co_name_chars _ Hck) as Hc.
  rewrite cstr_clean by (by apply words_clean, name_words).
  assert (drop_while (ceq " "%char) (ck_name ck) = ck_name ck) as ->.
  { pose proof (co_name _ Hck) as Hne. destruct (ck_name ck) as [|c n]; [done|]. apply drop_while_false, ceq_false. intros <-.
    apply Forall_cons in Hc as [Hc _]. by apply name_char_word in Hc as [[_ ?] _]. }
  rewrite break_none.
  2:{ eapply Forall_impl; [exact Hc|]. intros c Hch. apply ceq_false. intros <-. apply name_char_word in Hch. tauto. }
  assert (map (λ c, if ceq c " "%char || ceq c "."%char then "_"%char else c) (ck_name ck) = ck_name ck) as ->.
  { rewrite <-(map_id (ck_name ck)) at 2. apply map_ext_Forall. eapply Forall_impl; [exact Hc|]. intros c Hch.
    apply name_char_word in Hch as ([_ Hsp] & _ & _ & Hdot & _). rewrite !(proj2 (ceq_false c _)); [done|done|by intros ->]. }
  rewrite bool_decide_false by apply Hck. cbn [is_scope is_globals andb]. unfold plain_var.
  rewrite (proj2 (hfind_None _ _) Hnew). cbn [andb]. rewrite andb_false_r. by rewrite hupdate_new.
Qed.

Lemma treat_cookies settings cks : ∀ fuel o ws count ht,
  Forall cookie_ok cks → NoDup (hkeys (ht ++ jar cks)) → Forall2 pair_of cks ws →
  olen o < fuel → otokens ";" o = ws → (count + Z.of_nat (length cks) ≤ max_input_vars settings)%Z →
  treat_loop settings fuel PARSE_COOKIE (Track true false false) ";" (php_strtok_r o ";") count ht = (ht ++ jar cks, []).
Proof.
  induction cks as [|ck cks IH]; intros fuel o ws count ht Hok Hnd Hws Hf Ho Hc; (destruct fuel as [|fuel]; [lia|]);
    pose proof (strtok_spec ";" o) as Hs; rewrite Ho in Hs.
  { apply Forall2_nil_inv_l in Hws as ->. rewrite Hs. cbn. by rewrite (right_id_L [] (++)). }
  apply Forall2_cons_inv_l in Hws as (w & ws' & Hw & Hws' & ->). destruct Hs as (o' & -> & Ho' & Hlen). cbn [treat_loop]. apply Forall_cons in Hok as [Hck Hok].
  rewrite (pair_named ck w Hck Hw). cbn [length] in Hc. replace (_ <? _)%Z with false by (symmetry; apply Z.ltb_ge; lia).
  rewrite (cookie_read ck Hck). change (jar (ck :: cks)) with ([cookie_bucket ck] ++ jar cks) in *. rewrite (assoc_L (++)) in Hnd.
  rewrite cookie_registered; [|done|].
  2:{ unfold hkeys in Hnd. rewrite !fmap_app, <-(assoc_L (++)) in Hnd. apply NoDup_app in Hnd as (_ & Hd & _).
      intros Hin. apply (Hd _ Hin). by left. }
  rewrite (IH fuel o' ws' (count + 1)%Z); [by rewrite <-(assoc_L (++))|done|done|done|lia|done|lia].
Qed.

Lemma join_clean ws : Forall (λ w, clean w) ws → clean (join ";" ws).
Proof.
  induction 1 as [|w [|w' ws] Hw _ IH]; [done|done|]. change (join ";" (w :: w' :: ws)) with (w ++ ";"%char :: join ";" (w' :: ws)).
  apply clean_app. split; [done|]. by apply (clean_app ";").
Qed.

(** The line that the client sends, and what it is split into. *)
Lemma sent_tokens cks ls :
  Forall cookie_ok cks → omap client_cookie ls = map cookie_pair cks →
  no_nul (sent_back ls) ∧ Forall2 pair_of cks (tokens ";" (sent_back ls)).
Proof.
  intros Hok E. unfold sent_back. rewrite E. destruct Hok as [|ck cks Hck Hok]; [split; constructor|]. cbn [map].
  set (ws := cookie_pair ck :: map (cons " "%char) (map cookie_pair cks)).
  assert (Hws : Forall2 pair_of (ck :: cks) ws).
  { constructor; [by left|]. rewrite map_map. apply Forall2_fmap_r, Forall_Forall2_diag, Forall_forall. intros ck' _. by right. }
  assert (Hall : Forall (λ w, nonempty w ∧ free_of ";" w ∧ clean w) ws).
  { clear -Hws Hck Hok. assert (Hok' : Forall cookie_ok (ck :: cks)) by by constructor. clear Hck Hok. revert Hok'.
    induction Hws as [|x w l ws Hw _ IH]; [constructor|]. intros [Hx Hl]%Forall_cons. constructor; [|by apply IH].
    destruct (pair_words x Hx) as [Hc Hf]. pose proof (co_name _ Hx) as Hne.
    assert (Hpne : nonempty (cookie_pair x)) by (unfold cookie_pair, nonempty; by destruct (ck_name x)).
    destruct Hw as [->| ->]; [done|]. split; [done|]. split; [by apply Forall_cons|]. by apply (clean_app " "). }
  clearbody ws. rewrite tokens_join.
  - split; [|done]. apply clean_line_no_nul, join_clean. eapply Forall_impl; [exact Hall|]. by intros w (_ & _ & ?).
  - eapply Forall_impl; [exact Hall|]. by intros w (? & _).
  - eapply Forall_impl; [exact Hall|]. by intros w (_ & ? & _).
Qed.

Lemma jar_keys cks : NoDup (ck_name <$> cks) → NoDup (hkeys (jar cks)).
Proof.
  intros Hnd. unfold hkeys, jar. assert ((fst <$> map cookie_bucket cks) = symtable_key <$> (ck_name <$> cks)) as ->.
  { by rewrite <-!list_fmap_compose. }
  apply NoDup_fmap_2; [|done]. intros a b. apply symtable_key_inj.
Qed.

Lemma jar_find cks ck : NoDup (ck_name <$> cks) → ck ∈ cks → hfind (symtable_key (ck_name ck)) (jar cks) = Some (ZStr (default [] (ck_value ck))).
Proof.
  induction cks as [|ck' cks IH]; [by intros _ ?%elem_of_nil|]. intros Hnd Hin. rewrite fmap_cons in Hnd. apply NoDup_cons in Hnd as [Hni Hnd].
  cbn [jar map hfind cookie_bucket]. apply elem_of_cons in Hin as [->|Hin]; [by rewrite bool_decide_true|].
  rewrite bool_decide_false; [by apply IH|]. intros E%symtable_key_inj. apply Hni. rewrite <-E. by apply list_elem_of_fmap_2.
Qed.

Lemma jar_integer cks name n : zend_handle_numeric_str name = Some n → hfind (KStr name) (jar cks) = None.
Proof.
  intros Hn. apply hfind_None. intros ([k v] & Hk & Hin)%list_elem_of_fmap. cbn in Hk. subst k. unfold jar in Hin.
  apply list_elem_of_fmap in Hin as (ck & [= E _] & _). unfold symtable_key in E. destruct (zend_handle_numeric_str (ck_name ck)) eqn:E'; [done|].
  injection E as ->. congruence.
Qed.

(** ** The claims *)

(** C25: The buffer for a cookie is large enough.  It is sized by the encoded value and the
    attributes with 100 bytes for the rest, among them a date of 29 and the seconds that are
    left; where the name and a raw value are accepted and the year has four digits, nothing
    of the header is cut off, and in every other case the warning is the one that fits. *)
Theorem cookie_fits now ck url_encode :
  (0 ≤ now < 10 ^ 11)%Z → (ck_expires ck < 2 ^ 63)%Z →
  cookie_header now ck url_encode =
    Some (if bool_decide (ck_name ck = []) then inr ("Cookie names must not be empty" : zstr)
          else if strpbrk (ck_name ck) not_in_name then
            inr ("Cookie names cannot contain any of the following '=,; \t\r\n\013\014'" : zstr)
          else if negb url_encode && strpbrk (default [] (ck_value ck)) not_in_value then
            inr ("Cookie values cannot contain any of the following ',; \t\r\n\013\014'" : zstr)
          else if too_late ck then inr ("Expiry date cannot have a year greater than 9999" : zstr)
          else inl (cookie_text now ck url_encode)).
Proof.
  intros Hnow Hex. unfold cookie_header. case_bool_decide as Hne; [done|].
  destruct (strpbrk (ck_name ck) not_in_name) eqn:Hname; [done|].
  assert (Hval : match ck_value ck with Some v => strpbrk v not_in_value | None => false end =
                 strpbrk (default [] (ck_value ck)) not_in_value) by by destruct (ck_value ck).
  rewrite Hval. destruct (negb url_encode && strpbrk _ not_in_value) eqn:Ev; [done|].
  assert (Hacc : accepted ck url_encode) by (split; [done|]; split; [done|]; by intros ->).
  pose proof (header_text now ck url_encode Hnow Hex Hacc) as Ht. unfold cookie_header in Ht.
  rewrite bool_decide_false, Hname, Hval, Ev in Ht by done. exact Ht.
Qed.

(** A cookie until the last second of the year 9999, and one until the next. *)
Lemma cookie_fits_witness :
  cookie_header 0 (Cookie "id" (Some "a b") 253402300799 (Some "/") None true false) true =
    Some (inl "Set-Cookie: id=a+b; expires=Fri, 31-Dec-9999 23:59:59 GMT; Max-Age=253402300799; path=/; secure") ∧
  cookie_header 0 (Cookie "id" (Some "a b") 253402300800 (Some "/") None true false) true =
    Some (inr "Expiry date cannot have a year greater than 9999").
Proof.
  split; (etrans; [apply cookie_fits; cbn; lia|by vm_compute]).
Defined.

(** C5: What a script sets as cookies is what the next request has in its cookies.  Each cookie
    is a header of the response; a client that keeps the pairs and sends them back in one
    line is answered with an array of the same names and the same values, whatever bytes
    these are, in the order they were set; and the request object gives each value under its
    name, but not one whose name is an integer, which is stored under the integer. *)
Theorem cookie_roundtrip `{Runtime} cgig call_header_callback call_handler compat_func settings method now cks s :
  idle s → (0 ≤ now < 10 ^ 11)%Z → Forall cookie_ok cks → NoDup (ck_name <$> cks) →
  (Z.of_nat (length cks) ≤ max_input_vars settings)%Z →
  ∃ s' ls,
    (php_output_activate;; sapi_activate method;;
     sent ← set_cookies now (cgi_sapi_module cgig) cks;
     finish (cgi_sapi_module cgig) call_header_callback call_handler compat_func;;
     mret sent) s = Some (replicate (length cks) true, s') ∧
    read_head [] (wire s') = Some (ls, []) ∧
    php_default_treat_data settings PARSE_COOKIE plain_track (sent_back ls) [] = (jar cks, []) ∧
    ∀ e ck def, g_cookie (http e) = ZArr (jar cks) → ck ∈ cks →
      request_getter YAF_GLOBAL_VARS_COOKIE (Some (ck_name ck)) (Some def) e =
        Some (match symtable_key (ck_name ck) with
              | KStr _ => ZStr (default [] (ck_value ck))
              | KIdx _ => def
              end, e).
Proof.
  intros Hs Hnow Hok Hnd Hmax. set (ho := bool_decide (method = Some ("HEAD" : zstr))).
  destruct (activate_run cgig (λ _, True) s method Hs) as (s1 & E1 & Hh & Hcode & Hl & _ & _ & Hdef & Ho).
  specialize (Ho I). fold ho in Ho. assert (Hsent : headers_sent (sg s1) = false) by (by injection E1 as <-).
  destruct (cookies_run now cgig cks Hnow Hok [] s1) as (gs & s2 & E2 & Hgs & Hw); [done|done|]. cbn [Datatypes.app] in Hw.
  assert (Hlines : Forall (λ f, clean (field_line f) ∧ status_header (field_line f) = false) gs).
  { clear -Hgs Hok. induction Hgs as [|ck f cks gs Hf _ IH]; [constructor|]. apply Forall_cons in Hok as [Hck Hok].
    constructor; [|by apply IH]. by destruct (set_field_line ck f Hck Hf) as (? & ? & _). }
  set (P := λ g, head_of cgig (to_send g) = Some (response_lines cgig 200 gs (get_default_content_type (sg s1)))).
  assert (Ho2 : outputs cgig ho P s2 [] []).
  { rewrite Hcode in Hw. eapply outputs_headers; [exact Ho|done|exact Hw|done| |lia|].
    - apply Forall_fmap. eapply Forall_impl; [exact Hlines|]. by intros f [? _].
    - unfold P. destruct Hw as (l & o & -> & Hlo). rewrite Hl in Hlo.
      by rewrite (response_head cgig gs); [|eapply Forall_impl; [exact Hlines|]; by intros f [_ ?]|done|cbn; tauto|done|done]. }
  destruct (finish_run cgig call_header_callback call_handler compat_func _ _ s2 _ _ Ho2) as (s3 & ls & g & E3 & -> & [= <-] & Hls & Hw3).
  exists s3, (response_lines cgig 200 gs (get_default_content_type (sg s1))).
  destruct (sent_tokens cks _ Hok (sent_pairs cgig 200 (get_default_content_type (sg s1)) cks gs Hok Hgs)) as [Hnul Htok].
  split; [|split; [|split]].
  - rewrite <-bind_assoc, (bind_runs _ _ _ _ _ E1), (bind_runs _ _ _ _ _ E2), (bind_runs _ _ _ _ _ E3). done.
  - rewrite Hw3, read_head_lines by done. by destruct ho.
  - unfold php_default_treat_data. rewrite cstr_no_nul by done.
    eapply (treat_cookies settings cks _ _ _ 0 []); [done|by apply jar_keys|exact Htok|cbn; lia|done|lia].
  - intros e ck def Hg Hin. unfold request_getter, yaf_request_query_ex, carrier_of. st_run. rewrite Hg. st_run.
    pose proof (jar_find cks ck Hnd Hin) as Hfind. destruct (symtable_key (ck_name ck)) as [k|n] eqn:Ek.
    + assert (k = ck_name ck) as -> by (unfold symtable_key in Ek; by destruct (zend_handle_numeric_str _); simplify_eq).
      by rewrite Hfind.
    + unfold symtable_key in Ek. destruct (zend_handle_numeric_str (ck_name ck)) eqn:En; [|done]. by rewrite (jar_integer cks _ _ En).
Qed.

Definition sample_cookies : list cookie :=
  [Cookie "id" (Some "a b;=") 4600 (Some "/") None true true; Cookie "7" (Some "x") 0 None (Some "example.org") false false].

Lemma cookie_roundtrip_witness :
  ∃ s' ls,
    (php_output_activate;; sapi_activate (Some ("GET" : zstr));;
     sent ← set_cookies 1000 (cgi_sapi_module (CgiGlobals false false)) sample_cookies;
     finish (H := plain_runtime) (cgi_sapi_module (CgiGlobals false false)) (λ _, mret true) no_call (λ _ _ _, None);;
     mret sent) (start_srv None) = Some ([true; true], s') ∧
    read_head [] (wire s') = Some (ls, []) ∧
    php_default_treat_data default_input PARSE_COOKIE plain_track (sent_back ls) [] =
      ([(KStr "id", ZStr "a b;="); (KIdx 7, ZStr "x")], []).
Proof.
  destruct (cookie_roundtrip (H := plain_runtime) (CgiGlobals false false) (λ _, mret true) no_call (λ _ _ _, None) default_input
    (Some ("GET" : zstr)) 1000 sample_cookies (start_srv None)) as (s' & ls & E & Hr & Ht & _);
    [by split|lia| |decided|vm_compute; discriminate|exists s', ls; exact (conj E (conj Hr Ht))].
  repeat constructor; by decided.
Defined.
