(* ===== verification/View.v ===== *)
(** * Views: variables and symbol tables

    The part of [views/yaf_view_simple.c] that does not execute a template: the
    object, the variables that are assigned to it, and the symbol table a template
    sees. *)

From S2P Require Import Prelude Zend Engine.

Open Scope zs_scope.

(** The declared properties of [Yaf_View_Simple]. *)
Record view := View {
  vw_tpl_vars : zval;
  vw_tpl_dir : zval;
  vw_options : zval;
}.
#[export] Instance view_rebuild : Rebuild view := λ v,
  View (vw_tpl_vars v) (vw_tpl_dir v) (vw_options v).

(** [IS_ABSOLUTE_PATH] outside Windows looks at the first byte. *)
Definition is_absolute_path (path : zstr) : bool :=
  match path with c :: _ => ceq c SLASH | [] => false end.

(** ** Construction *)

(** A new object. *)
Definition view_new : view := View ZNull ZNull ZNull.

(** The body of [yaf_view_simple_instance] on an object: a directory that is not
    absolute leaves it behind with its variables reset. *)
Definition view_init (v : view) (tpl_dir options : option zval) : M (bool * view) :=
  let v := v <| vw_tpl_vars := ZArr [] |> in
  let opts (v : view) := match options with
                         | Some (ZArr o) => v <| vw_options := ZArr o |>
                         | _ => v
                         end in
  match tpl_dir with
  | Some (ZStr d) =>
      if is_absolute_path d then mret (true, opts (v <| vw_tpl_dir := ZStr d |>))
      else yaf_trigger_error YAF_ERR_TYPE_ERROR "Expects an absolute path for templates directory";;
           mret (false, v)
  | _ => mret (true, opts v)
  end.

(** On a new object, with the NULL result where the directory is refused. *)
Definition yaf_view_simple_instance (tpl_dir options : option zval) : M (option view) :=
  res ← view_init view_new tpl_dir options;
  mret (if res.1 : bool then Some res.2 else None).

(** [Yaf_View_Simple::__construct] *)
Definition view_construct (v : view) (tpl_dir : zval) (options : option (htab zval)) : M view :=
  res ← view_init v (Some tpl_dir) (ZArr <$> options);
  mret res.2.

(** ** Variables *)

Definition yaf_view_simple_assign_single (v : view) (name : zstr) (value : zval) : M view :=
  ht ← lift (Z_ARR (vw_tpl_vars v));
  mret (v <| vw_tpl_vars := ZArr (hupdate (KStr name) value ht) |>).

Definition yaf_view_simple_assign_multi (v : view) (value : zval) : M (bool * view) :=
  match value with
  | ZArr src =>
      ht ← lift (Z_ARR (vw_tpl_vars v));
      mret (true, v <| vw_tpl_vars := ZArr (hcopy ht src) |>)
  | _ => mret (false, v)
  end.

(** Clearing one name goes through the symbol table functions, assigning does not. *)
Definition yaf_view_simple_clear_assign (v : view) (name : option zstr) : view :=
  match vw_tpl_vars v with
  | ZArr ht =>
      v <| vw_tpl_vars := ZArr (match name with
                                | Some n => hdel (symtable_key n) ht
                                | None => []
                                end) |>
  | _ => v
  end.

(** [Yaf_View_Simple::assign], with one or two arguments. *)
Definition view_assign (v : view) (name : option zstr) (value : zval) : M (bool * view) :=
  match name with
  | None => yaf_view_simple_assign_multi v value
  | Some name => v' ← yaf_view_simple_assign_single v name value; mret (true, v')
  end.

(** [Yaf_View_Simple::clear] *)
Definition view_clear (v : view) (name : option zstr) : view := yaf_view_simple_clear_assign v name.

(** [Yaf_View_Simple::get]: NULL for an unknown name. *)
Definition view_get (v : view) (name : option zstr) : zval :=
  match vw_tpl_vars v, name with
  | ZArr ht, Some n => default ZNull (hfind (KStr n) ht)
  | ZArr ht, None => ZArr ht
  | _, _ => ZNull
  end.

(** [Yaf_View_Simple::__isset] *)
Definition view_isset (v : view) (name : zstr) : M bool :=
  ht ← lift (Z_ARR (vw_tpl_vars v));
  mret (bool_decide (is_Some (hfind (KStr name) ht))).

(** [Yaf_View_Simple::setScriptPath] *)
Definition view_setScriptPath (v : view) (tpl_dir : zval) : bool * view :=
  match tpl_dir with
  | ZStr d => if is_absolute_path d then (true, v <| vw_tpl_dir := ZStr d |>) else (false, v)
  | _ => (false, v)
  end.

(** [Yaf_View_Simple::getScriptPath] *)
Definition view_getScriptPath (v : view) : M zval :=
  dir ← YAF_G view_directory;
  mret (match vw_tpl_dir v, dir with
        | ZStr d, _ => ZStr d
        | _, Some d => ZStr d
        | t, None => t
        end).

(** ** The symbol table of a template *)

(** [[a-zA-Z_\x7f-\xff]], and the same with digits *)
Definition name_start (c : ascii) : bool :=
  let n := N_of_ascii c in
  ceq c "_"%char || ((65 <=? n)%N && (n <=? 90)%N) || ((97 <=? n)%N && (n <=? 122)%N) ||
  (127 <=? n)%N.
Definition name_rest (c : ascii) : bool := name_start c || is_digit c.

Definition yaf_view_simple_valid_var_name (name : zstr) : bool :=
  match name with
  | [] => name_start NUL   (* the terminator is looked at *)
  | c :: rest => name_start c && forallb name_rest rest
  end.

(** May a template see a variable of this name?  [scope]: a class with a name is
    being executed. *)
Definition var_visible (scope : bool) (name : zstr) : bool :=
  negb (bool_decide (name = "GLOBALS")) &&
  negb (bool_decide (name = "this") && scope) &&
  yaf_view_simple_valid_var_name name.

(** One of the two loops.  The name of an integer key is NULL and its length is
    read all the same.  [zend_hash_add_new] appends a bucket without looking for
    the key. *)
Fixpoint add_vars (scope : bool) (vars : htab zval) (table : list (zstr * zval))
    : option (list (zstr * zval)) :=
  match vars with
  | [] => Some table
  | (KIdx _, _) :: _ => None
  | (KStr name, entry) :: vars' =>
      add_vars scope vars' (if var_visible scope name then table ++ [(name, entry)] else table)
  end.

Definition yaf_view_build_symtable (scope : bool) (tpl_vars : zval) (vars : option zval)
    : option (list (zstr * zval)) :=
  table ← match tpl_vars with ZArr ht => add_vars scope ht [] | _ => Some [] end;
  match vars with
  | Some (ZArr ht) => add_vars scope ht table
  | _ => Some table
  end.

(** A lookup in the table finds the bucket that was added last. *)
Definition sym_lookup (name : zstr) (table : list (zstr * zval)) : option zval :=
  (λ kv, kv.2.2) <$> list_find (λ kv, kv.1 = name) (reverse table).

(** ** Correctness *)

Definition string_keys (ht : htab zval) : Prop :=
  Forall (λ kv, match kv.1 with KStr _ => True | KIdx _ => False end) ht.
#[export] Instance string_keys_dec ht : Decision (string_keys ht).
Proof. unfold string_keys. apply Forall_dec. intros [[] ?]; apply _. Defined.

Lemma sym_lookup_snoc name table k v :
  sym_lookup name (table ++ [(k, v)]) = if bool_decide (k = name) then Some v else sym_lookup name table.
Proof.
  unfold sym_lookup. rewrite reverse_snoc. cbn [list_find fst].
  destruct (decide (k = name)) as [->|Hne].
  - by rewrite bool_decide_true.
  - rewrite bool_decide_false by done. by destruct (list_find _ (reverse table)) as [[i kv]|].
Qed.

Lemma add_vars_spec scope vars table :
  string_keys vars → hwf vars →
  ∃ table', add_vars scope vars table = Some table' ∧
    ∀ name, sym_lookup name table' =
      if var_visible scope name then
        match hfind (KStr name) vars with Some v => Some v | None => sym_lookup name table end
      else sym_lookup name table.
Proof.
  intros Hk. revert table. induction Hk as [|[[k|i] v] vars Hkv _ IH]; intros table Hwf; [| |done].
  - exists table. split; [done|]. intros name. by destruct (var_visible scope name).
  - apply NoDup_cons in Hwf as [Hni Hwf]. apply hfind_None in Hni. cbn [fst] in Hni.
    destruct (IH (if var_visible scope k then table ++ [(k, v)] else table) Hwf) as (t & Ht & Hl).
    exists t. split; [done|]. intros name. rewrite Hl. cbn [hfind].
    destruct (decide (name = k)) as [->|Hne].
    + rewrite bool_decide_true by done. destruct (var_visible scope k); [|done].
      by rewrite Hni, sym_lookup_snoc, bool_decide_true.
    + rewrite bool_decide_false by congruence.
      destruct (var_visible scope k); [|done].
      by rewrite sym_lookup_snoc, bool_decide_false.
Qed.

(** When every variable has a string key, a template sees exactly the variables
    with a valid name other than [GLOBALS] and [this], and those handed to the
    rendering call hide those assigned to the view. *)
Theorem build_symtable_spec tpl vars :
  string_keys tpl → hwf tpl → string_keys vars → hwf vars →
  ∃ table, yaf_view_build_symtable true (ZArr tpl) (Some (ZArr vars)) = Some table ∧
    ∀ name, sym_lookup name table =
      if yaf_view_simple_valid_var_name name && bool_decide (name ≠ "GLOBALS" ∧ name ≠ "this")
      then hfind (KStr name) vars ∪ hfind (KStr name) tpl else None.
Proof.
  intros Hk1 Hw1 Hk2 Hw2. unfold yaf_view_build_symtable.
  destruct (add_vars_spec true tpl [] Hk1 Hw1) as (t1 & -> & Hl1). cbn -[add_vars].
  destruct (add_vars_spec true vars t1 Hk2 Hw2) as (t2 & -> & Hl2).
  exists t2. split; [done|]. intros name. rewrite Hl2, Hl1. unfold var_visible. rewrite andb_true_r.
  destruct (yaf_view_simple_valid_var_name name); [|by rewrite !andb_false_r].
  rewrite andb_true_r. cbn [andb].
  destruct (decide (name = "GLOBALS")) as [->|H1]; [done|].
  destruct (decide (name = "this")) as [->|H2]; [done|].
  rewrite !bool_decide_false, bool_decide_true by done. cbn.
  by destruct (hfind (KStr name) vars), (hfind (KStr name) tpl).
Qed.

Lemma build_symtable_spec_witness :
  ∃ table, yaf_view_build_symtable true (ZArr [(KStr "a", ZLong 1); (KStr "this", ZLong 2)])
             (Some (ZArr [(KStr "a", ZLong 3)])) = Some table ∧
    ∀ name, sym_lookup name table =
      if yaf_view_simple_valid_var_name name && bool_decide (name ≠ "GLOBALS" ∧ name ≠ "this")
      then hfind (KStr name) [(KStr "a", ZLong 3)] ∪
           hfind (KStr name) [(KStr "a", ZLong 1); (KStr "this", ZLong 2)] else None.
Proof. apply build_symtable_spec; decided. Defined.

(** A variable with an integer key makes the construction of the symbol table
    dereference a NULL name, wherever it stands among the variables. *)
Theorem build_symtable_integer_key scope tpl vars i v :
  (KIdx i, v) ∈ vars → yaf_view_build_symtable scope tpl (Some (ZArr vars)) = None.
Proof.
  intros Hin. unfold yaf_view_build_symtable.
  assert (Hadd : ∀ table, add_vars scope vars table = None).
  { induction vars as [|[[k|j] w] vars IH]; intros table; [by apply not_elem_of_nil in Hin| |done].
    apply elem_of_cons in Hin as [[=]|Hin]. by apply IH. }
  by destruct (match tpl with ZArr ht => add_vars scope ht [] | _ => Some [] end); cbn.
Qed.

Lemma build_symtable_integer_key_witness :
  yaf_view_build_symtable true (ZArr []) (Some (ZArr [(KStr "a", ZLong 1); (KIdx 0, ZLong 2)])) = None.
Proof.
  apply (build_symtable_integer_key true (ZArr []) [(KStr "a", ZLong 1); (KIdx 0, ZLong 2)] 0 (ZLong 2)).
  right. by left.
Defined.

(** Assigned variables are read back until they are cleared, and no other
    variable changes; but a variable with a numeric name survives being cleared. *)
Theorem assign_clear_spec v ht name value other e :
  vw_tpl_vars v = ZArr ht → hwf ht →
  ∃ v', yaf_view_simple_assign_single v name value e = Some (v', e) ∧
    view_get v' (Some name) = value ∧
    (other ≠ name → view_get v' (Some other) = view_get v (Some other)) ∧
    view_get (yaf_view_simple_clear_assign v' (Some name)) (Some name) =
      match zend_handle_numeric_str name with None => ZNull | Some _ => value end.
Proof.
  intros Hv Hwf. unfold yaf_view_simple_assign_single. rewrite Hv. st_run.
  eexists. split; [done|]. unfold view_get, yaf_view_simple_clear_assign. rewrite Hv.
  cbn -[hfind hupdate hdel]. rewrite !hfind_hupdate, bool_decide_true by done. split; [done|].
  split; [intros Hne; rewrite bool_decide_false by congruence; done|].
  rewrite hfind_hdel by (by apply hwf_hupdate). rewrite hfind_hupdate_eq.
  unfold symtable_key. destruct (zend_handle_numeric_str name); [by rewrite bool_decide_false|].
  by rewrite bool_decide_true.
Qed.

Lemma assign_clear_spec_witness :
  ∃ v', yaf_view_simple_assign_single (View (ZArr []) ZNull ZNull) "7" (ZLong 1) (start_engine [] [] [])
          = Some (v', start_engine [] [] []) ∧
    view_get v' (Some ("7" : zstr)) = ZLong 1 ∧
    (("a" : zstr) ≠ "7" → view_get v' (Some ("a" : zstr)) = ZNull) ∧
    view_get (yaf_view_simple_clear_assign v' (Some ("7" : zstr))) (Some ("7" : zstr)) = ZLong 1.
Proof.
  apply (assign_clear_spec (View (ZArr []) ZNull ZNull) [] "7" (ZLong 1) "a" (start_engine [] [] []));
    [done|decided].
Defined.

(** ** Variables that are assigned by reference *)

(** [assignRef] takes its value by reference, so that what it stores is a cell that
    the caller's variable shares.  A lookup that returns a value copies it out of the
    cell; [assign] puts a value over the bucket, not into the cell. *)
Inductive slot := Direct (v : zval) | Ref (cell : nat).

Record shared_view := SharedView {
  sv_tpl_vars : htab slot;
  sv_cells : list zval;           (** the variables of the application that are references *)
}.
#[export] Instance shared_view_rebuild : Rebuild shared_view := λ s,
  SharedView (sv_tpl_vars s) (sv_cells s).

Definition view_assignRef (s : shared_view) (name : zstr) (cell : nat) : shared_view :=
  s <| sv_tpl_vars := hupdate (KStr name) (Ref cell) (sv_tpl_vars s) |>.
Definition shared_assign (s : shared_view) (name : zstr) (value : zval) : shared_view :=
  s <| sv_tpl_vars := hupdate (KStr name) (Direct value) (sv_tpl_vars s) |>.
(** The application assigns to its variable. *)
Definition write_cell (s : shared_view) (cell : nat) (value : zval) : shared_view :=
  s <| sv_cells := <[cell := value]> (sv_cells s) |>.

Definition slot_value (s : shared_view) (v : slot) : option zval :=
  match v with Direct v => Some v | Ref cell => sv_cells s !! cell end.
Definition shared_get (s : shared_view) (name : zstr) : option zval :=
  match hfind (KStr name) (sv_tpl_vars s) with Some v => slot_value s v | None => Some ZNull end.

(** A variable that is assigned by reference follows the application's variable until
    the name is assigned a value, which does not reach the application's variable. *)
Lemma assign_ref_spec s name cell value value' :
  cell < length (sv_cells s) →
  let s1 := write_cell (view_assignRef s name cell) cell value in
  shared_get s1 name = Some value ∧
  shared_get (shared_assign s1 name value') name = Some value' ∧
  sv_cells (shared_assign s1 name value') !! cell = Some value.
Proof.
  intros Hc. unfold shared_get. cbn -[hfind hupdate]. rewrite !hfind_hupdate_eq. cbn -[lookup].
  rewrite list_lookup_insert_eq by done. done.
Qed.
