(* ===== verification/Store.v ===== *)
(** * Stores of named values

    What [Yaf_Registry], [Yaf_Session] and [Yaf_Config_Simple] have in common: an
    array whose values are set, got and deleted by name, and walked with the
    internal pointer of the array.  [MapStore] is the interface: calls, and the
    finite map that they are promised to implement; a sequence of calls is proved
    correct against the interface alone. *)

From S2P Require Import Prelude Zend.

Open Scope zs_scope.

(** ** Arrays with an internal pointer *)

(** The live buckets, and how many of them are before [nInternalPointer]; all of
    them when it is [HT_INVALID_IDX]. *)
Record cursor := Cursor { cu_ht : htab zval; cu_pos : nat }.

Definition hash_rewind (c : cursor) : cursor := Cursor (cu_ht c) 0.
Definition hash_current (c : cursor) : option (hkey * zval) := cu_ht c !! cu_pos c.
Definition hash_move_forward (c : cursor) : cursor :=
  Cursor (cu_ht c) (if decide (cu_pos c < length (cu_ht c)) then S (cu_pos c) else cu_pos c).
Definition hash_has_more (c : cursor) : bool := bool_decide (is_Some (hash_current c)).

(** A new bucket is the current one when there was none. *)
Definition cursor_update (k : hkey) (v : zval) (c : cursor) : cursor :=
  Cursor (hupdate k v (cu_ht c)) (cu_pos c).

(** The pointer moves on from a bucket that is deleted. *)
Definition cursor_del (k : hkey) (c : cursor) : cursor :=
  Cursor (hdel k (cu_ht c))
    (match list_find (λ kv, kv.1 = k) (cu_ht c) with
     | Some (i, _) => if decide (i < cu_pos c) then cu_pos c - 1 else cu_pos c
     | None => cu_pos c
     end).

Definition cursor_clean (c : cursor) : cursor := Cursor [] 0.

Definition cursor_ok (c : cursor) : Prop := hwf (cu_ht c) ∧ cu_pos c ≤ length (cu_ht c).

Lemma length_hdel {A} k (ht : htab A) :
  length (hdel k ht) = length ht - (if decide (k ∈ hkeys ht) then 1 else 0).
Proof.
  unfold hkeys. induction ht as [|[k' v] ht IH]; csimpl; [done|].
  case_bool_decide as E; csimpl.
  - subst. rewrite decide_True by set_solver. lia.
  - rewrite IH. destruct (decide (k ∈ ht.*1)) as [Hin|Hin].
    + rewrite decide_True by set_solver. destruct ht; [set_solver|cbn; lia].
    + rewrite decide_False by set_solver. lia.
Qed.

Lemma length_hupdate {A} k (v : A) ht : length ht ≤ length (hupdate k v ht).
Proof. induction ht as [|[k' v'] ht IH]; csimpl; [lia|]. case_bool_decide; csimpl; lia. Qed.

Lemma cursor_update_ok k v c : cursor_ok c → cursor_ok (cursor_update k v c).
Proof.
  intros [Hwf Hp]. split; [by apply hwf_hupdate|]. cbn.
  pose proof (length_hupdate k v (cu_ht c)). lia.
Qed.

Lemma cursor_del_ok k c : cursor_ok c → cursor_ok (cursor_del k c).
Proof.
  intros [Hwf Hp]. split; [by apply hwf_hdel|]. cbn. rewrite length_hdel.
  destruct (list_find _ _) as [[i kv]|] eqn:Hf.
  - apply list_find_Some in Hf as (Hi & Hk & _). apply lookup_lt_Some in Hi as Hlt.
    repeat case_decide; lia.
  - apply list_find_None in Hf. case_decide as Hin; [|lia]. exfalso.
    apply list_elem_of_fmap in Hin as (kv & -> & Hin). rewrite Forall_forall in Hf. by eapply Hf.
Qed.

#[export] Hint Resolve cursor_update_ok cursor_del_ok : yaf.

(** ** The interface *)

Inductive call :=
| CGet (name : zstr)
| CHas (name : zstr)
| CSet (name : zstr) (value : zval)
| CDel (name : zstr).

(** The effect of a call on the map of names. *)
Definition spec_call (c : call) (m : gmap zstr zval) : gmap zstr zval :=
  match c with
  | CGet _ | CHas _ => m
  | CSet k v => <[k := v]> m
  | CDel k => delete k m
  end.

(** [ms_reply] is the promised result of a call, [ms_rep] the map that a store
    stands for. *)
Class MapStore (S : Type) := {
  ms_call : call → S → zval * S;
  ms_reply : call → gmap zstr zval → zval;
  ms_rep : S → gmap zstr zval → Prop;
}.
Class MapStoreLaws (S : Type) `{MapStore S} :=
  ms_step : ∀ c s m, ms_rep s m →
    (ms_call c s).1 = ms_reply c m ∧ ms_rep (ms_call c s).2 (spec_call c m).

(** The results of a sequence of calls. *)
Fixpoint run_calls {T} `{MapStore T} (cs : list call) (s : T) : list zval :=
  match cs with
  | [] => []
  | c :: cs' => (ms_call c s).1 :: run_calls cs' (ms_call c s).2
  end.
Fixpoint spec_calls (reply : call → gmap zstr zval → zval) (cs : list call)
    (m : gmap zstr zval) : list zval :=
  match cs with
  | [] => []
  | c :: cs' => reply c m :: spec_calls reply cs' (spec_call c m)
  end.

Lemma calls_refine {T} `{MapStoreLaws T} cs (s : T) m :
  ms_rep s m → run_calls cs s = spec_calls ms_reply cs m.
Proof.
  revert s m. induction cs as [|c cs IH]; intros s m Hr; [done|].
  destruct (ms_step c s m Hr) as [E Hr']. cbn. rewrite E. f_equal. by apply IH.
Qed.

(** ** Arrays as maps of their string keys *)

Definition map_of (ht : htab zval) (m : gmap zstr zval) : Prop :=
  hwf ht ∧ ∀ k, hfind (KStr k) ht = m !! k.

Lemma map_of_update ht m k v : map_of ht m → map_of (hupdate (KStr k) v ht) (<[k := v]> m).
Proof.
  intros [Hwf Hm]. split; [by apply hwf_hupdate|]. intros k'. rewrite hfind_hupdate.
  destruct (decide (k' = k)) as [->|Hne].
  - rewrite bool_decide_true by done. by rewrite lookup_insert_eq.
  - rewrite bool_decide_false by congruence. by rewrite lookup_insert_ne by congruence.
Qed.

Lemma map_of_del ht m k : map_of ht m → map_of (hdel (KStr k) ht) (delete k m).
Proof.
  intros [Hwf Hm]. split; [by apply hwf_hdel|]. intros k'. rewrite hfind_hdel by done.
  destruct (decide (k' = k)) as [->|Hne].
  - rewrite bool_decide_true by done. by rewrite lookup_delete_eq.
  - rewrite bool_decide_false by congruence. by rewrite lookup_delete_ne by congruence.
Qed.

#[export] Hint Resolve map_of_update map_of_del : yaf.

(** ** Walking an array *)

(** [foreach] over an object: rewind, then current value and key as long as the
    position is valid. *)
Section walk.
Context {S : Type} (valid : S → bool) (current key : S → option zval) (next : S → S).

Fixpoint walk (fuel : nat) (s : S) : option (list (zval * zval)) :=
  if valid s then
    match fuel with
    | 0 => None
    | Datatypes.S fuel' =>
        k ← key s; v ← current s; rest ← walk fuel' (next s); Some ((k, v) :: rest)
    end
  else Some [].
End walk.

Definition key_zval (k : hkey) : zval := match k with KStr s => ZStr s | KIdx n => ZLong n end.

Lemma cursor_walk {S} (valid : S → bool) (current key : S → option zval) (next : S → S)
    (cur : S → cursor) (f : zval → zval) fuel s :
  (∀ s, valid s = hash_has_more (cur s)) →
  (∀ s k v, hash_current (cur s) = Some (k, v) → key s = Some (key_zval k) ∧ current s = Some (f v)) →
  (∀ s, cur (next s) = hash_move_forward (cur s)) →
  length (cu_ht (cur s)) - cu_pos (cur s) ≤ fuel →
  walk valid current key next fuel s =
    Some (map (λ kv, (key_zval kv.1, f kv.2)) (drop (cu_pos (cur s)) (cu_ht (cur s)))).
Proof.
  intros Hvalid Hcur Hnext. revert s. induction fuel as [|fuel IH]; intros s Hf; cbn [walk];
    rewrite Hvalid; unfold hash_has_more, hash_current.
  - rewrite bool_decide_false; [|intros Hs; apply lookup_lt_is_Some in Hs; lia].
    by rewrite drop_ge by lia.
  - destruct (cu_ht (cur s) !! cu_pos (cur s)) as [[k v]|] eqn:Hc.
    + rewrite bool_decide_true by done. destruct (Hcur s k v Hc) as [-> ->]. cbn [mbind option_bind].
      apply lookup_lt_Some in Hc as Hlt.
      rewrite IH; rewrite Hnext; unfold hash_move_forward; cbn [cu_ht cu_pos];
        rewrite decide_True by done; [|lia].
      cbn [mbind option_bind]. by rewrite (drop_S _ _ _ Hc).
    + rewrite bool_decide_false by (by intros []). apply lookup_ge_None in Hc.
      by rewrite drop_ge by lia.
Qed.
