(* ===== verification/Registry.v ===== *)
(** * The registry and the session

    [yaf_registry.c] and [yaf_session.c], as implementations of the interface of
    [Store]. *)

From S2P Require Import Prelude Zend Engine Store.

Open Scope zs_scope.

(** ** The registry *)

(** The entries of the object in [Yaf_Registry::$_instance], if there is one. *)
Definition registry : Type := option (htab zval).

(** [yaf_registry_instance] *)
Definition yaf_registry_instance (r : registry) : htab zval :=
  match r with Some entrys => entrys | None => [] end.

Definition registry_getInstance (r : registry) : htab zval * registry :=
  (yaf_registry_instance r, Some (yaf_registry_instance r)).

Definition yaf_registry_is_set (name : zstr) (r : registry) : bool * registry :=
  let entrys := yaf_registry_instance r in
  (bool_decide (is_Some (hfind (KStr name) entrys)), Some entrys).

Definition registry_has (name : zstr) (r : registry) : zval * registry :=
  let res := yaf_registry_is_set name r in (ZBool res.1, res.2).

Definition registry_get (name : zstr) (r : registry) : zval * registry :=
  let entrys := yaf_registry_instance r in
  (default ZNull (hfind (KStr name) entrys), Some entrys).

Definition registry_set (name : zstr) (value : zval) (r : registry) : zval * registry :=
  (ZBool true, Some (hupdate (KStr name) value (yaf_registry_instance r))).

Definition registry_del (name : zstr) (r : registry) : zval * registry :=
  (ZBool true, Some (hdel (KStr name) (yaf_registry_instance r))).

#[export] Instance registry_store : MapStore registry := {
  ms_call c r := match c with
                 | CGet k => registry_get k r
                 | CHas k => registry_has k r
                 | CSet k v => registry_set k v r
                 | CDel k => registry_del k r
                 end;
  ms_reply c m := match c with
                  | CGet k => default ZNull (m !! k)
                  | CHas k => ZBool (bool_decide (is_Some (m !! k)))
                  | CSet _ _ | CDel _ => ZBool true
                  end;
  ms_rep r m := map_of (yaf_registry_instance r) m;
}.

#[export] Instance registry_laws : MapStoreLaws registry.
Proof.
  intros c r m Hr. pose proof (proj2 Hr) as Hm. destruct c; cbn in *.
  - by rewrite Hm.
  - by rewrite Hm.
  - split; [done|]. by apply map_of_update.
  - split; [done|]. by apply map_of_del.
Qed.

(** ** The session *)

(** [_started], and [_session], a reference to the array [$_SESSION]. *)
Record session := Session { ss_started : bool; ss_session : cursor }.
#[export] Instance session_rebuild : Rebuild session := λ s, Session (ss_started s) (ss_session s).

Definition ss_ht (s : session) : htab zval := cu_ht (ss_session s).

(** [php_session_start] belongs to the session extension, and so does what it
    leaves in the global symbol table under [_SESSION]: the array of a
    reference, or no such thing. *)
Section session.
Context (php_session_start : M unit) (session_global : engine → option cursor).

(** The new value of [_started]. *)
Definition yaf_session_start (started : bool) : M bool :=
  if started then mret true else php_session_start;; mret true.

Definition session_start (s : session) : M session :=
  started ← yaf_session_start (ss_started s);
  mret (s <| ss_started := started |>).

Definition yaf_session_instance : M (option session) :=
  started ← yaf_session_start false;
  sess ← gets session_global;
  match sess with
  | None => php_error E_WARNING "Attempt to start session failed";; mret None
  | Some c => mret (Some (Session started c))
  end.

(** [getInstance]; the object is the static [_instance]. *)
Definition session_getInstance (instance : option session) : M (option session) :=
  match instance with Some s => mret (Some s) | None => yaf_session_instance end.
End session.

Definition session_count (s : session) : zval := ZLong (Z.of_nat (length (ss_ht s))).

(** [self] is the session object, which some calls return. *)
Section methods.
Context (self : zval).

(** Without a name the array itself. *)
Definition session_get (name : option zstr) (s : session) : zval * session :=
  (match name with
   | None => ZArr (ss_ht s)
   | Some n => default ZNull (hfind (KStr n) (ss_ht s))
   end, s).
Definition session_set (name : zstr) (value : zval) (s : session) : zval * session :=
  (self, s <| ss_session := cursor_update (KStr name) value (ss_session s) |>).
Definition session_del (name : zstr) (s : session) : zval * session :=
  (if bool_decide (is_Some (hfind (KStr name) (ss_ht s))) then self else ZBool false,
   s <| ss_session := cursor_del (KStr name) (ss_session s) |>).
Definition session_has (name : zstr) (s : session) : zval * session :=
  (ZBool (bool_decide (is_Some (hfind (KStr name) (ss_ht s)))), s).
Definition session_clear (s : session) : session :=
  s <| ss_session := cursor_clean (ss_session s) |>.

Definition session_store : MapStore session := {|
  ms_call c s := match c with
                 | CGet k => session_get (Some k) s
                 | CHas k => session_has k s
                 | CSet k v => session_set k v s
                 | CDel k => session_del k s
                 end;
  ms_reply c m := match c with
                  | CGet k => default ZNull (m !! k)
                  | CHas k => ZBool (bool_decide (is_Some (m !! k)))
                  | CSet _ _ => self
                  | CDel k => if bool_decide (is_Some (m !! k)) then self else ZBool false
                  end;
  ms_rep s m := map_of (ss_ht s) m;
|}.

Lemma session_laws : @MapStoreLaws session session_store.
Proof.
  intros c s m Hr. pose proof (proj2 Hr) as Hm. destruct c; cbn in *; rewrite ?Hm; split; try done.
  - by apply map_of_update.
  - by apply map_of_del.
Qed.
End methods.

(** Iteration.  [key] at the end reads a key that was never written. *)
Definition session_rewind (s : session) : session := s <| ss_session := hash_rewind (ss_session s) |>.
Definition session_current (s : session) : zval :=
  match hash_current (ss_session s) with Some (_, v) => v | None => ZBool false end.
Definition session_key (s : session) : option zval :=
  match hash_current (ss_session s) with
  | Some (KIdx n, _) => Some (ZLong n)
  | Some (KStr k, _) => Some (ZStr k)
  | None => None
  end.
Definition session_next (s : session) : session :=
  s <| ss_session := hash_move_forward (ss_session s) |>.
Definition session_valid (s : session) : bool := hash_has_more (ss_session s).

(** [foreach ($session as $key => $value)] *)
Definition session_foreach (fuel : nat) (s : session) : option (list (zval * zval)) :=
  walk session_valid (λ s, Some (session_current s)) session_key session_next fuel (session_rewind s).

(** ** Correctness *)

(** Any sequence of calls of the registry, from the first on, gives the results of
    a finite map: what was last set under a name is got until it is deleted. *)
Theorem registry_refines cs : run_calls cs (None : registry) = spec_calls ms_reply cs ∅.
Proof. apply calls_refine. split; [apply NoDup_nil_2|]. intros k. by rewrite lookup_empty. Qed.

(** A session that holds a map gives the results of that map in any sequence of
    calls, and walking it after any of them meets every value of [$_SESSION] once,
    in order, and ends. *)
Theorem session_refines self cs s m fuel :
  map_of (ss_ht s) m → length (ss_ht s) ≤ fuel →
  @run_calls session (session_store self) cs s = spec_calls (@ms_reply _ (session_store self)) cs m ∧
  session_foreach fuel s = Some (map (λ kv, (key_zval kv.1, kv.2)) (ss_ht s)).
Proof.
  intros Hm Hf. split.
  - exact (@calls_refine session (session_store self) (session_laws self) cs s m Hm).
  - unfold session_foreach.
    rewrite (cursor_walk _ _ _ _ ss_session (λ v, v)); [by destruct s as [? []]|done| |done|].
    + intros s' k v Hc. unfold session_key, session_current. rewrite Hc. by destruct k.
    + cbn. unfold ss_ht in Hf. lia.
Qed.

Lemma session_refines_witness :
  let s := Session true (Cursor [(KStr "user", ZStr "ann"); (KIdx 3, ZNull)] 2) in
  @run_calls session (session_store ZNull) [CSet "x" (ZLong 1); CDel "user"; CHas "user"; CGet "x"] s =
    [ZNull; ZNull; ZBool false; ZLong 1] ∧
  session_foreach 2 s = Some [(ZStr "user", ZStr "ann"); (ZLong 3, ZNull)].
Proof.
  intros s. destruct (session_refines ZNull [CSet "x" (ZLong 1); CDel "user"; CHas "user"; CGet "x"] s
                        {[ ("user" : zstr) := ZStr "ann" ]} 2) as [H1 H2].
  - split; [decided|]. intros k. cbn. case_bool_decide as E.
    + injection E as ->. by rewrite lookup_singleton_eq.
    + rewrite bool_decide_false by done. rewrite lookup_singleton_ne; [done|congruence].
  - cbn. lia.
  - split; [rewrite H1; by vm_compute|exact H2].
Defined.
