(* ===== verification/ZendHash.v ===== *)
(** * The hash table of the Zend engine

    [php-7.1.3/Zend/zend_hash.c]: buckets in the order of insertion with holes where
    some were deleted, chains of buckets by hash value, and the packed form of tables
    that are lists.  The other components work with [htab], the list of the live
    buckets, and with [cursor], the same with an internal pointer; here these are
    proved to be what the C data structure implements. *)

From S2P Require Import Prelude Zend Store.

Open Scope zs_scope.

(** ** Outcomes

    [Fatal] is [zend_error_noreturn], which ends the request; [Undef] is undefined
    behaviour, a read or a write outside of the table, or a chain without an end. *)

Inductive outcome (A : Type) := Done (a : A) | Fatal | Undef.
Arguments Done {A} _.
Arguments Fatal {A}.
Arguments Undef {A}.

#[export] Instance outcome_ret : MRet outcome := λ A a, Done a.
#[export] Instance outcome_bind : MBind outcome := λ A B k m,
  match m with Done a => k a | Fatal => Fatal | Undef => Undef end.
#[export] Instance outcome_fmap : FMap outcome := λ A B f m,
  match m with Done a => Done (f a) | Fatal => Fatal | Undef => Undef end.

Definition defined {A} (o : option A) : outcome A :=
  match o with Some a => Done a | None => Undef end.

(** ** The data *)

Definition HT_MIN_SIZE : Z := 8.
Definition HT_MAX_SIZE : Z := 0x80000000.
Definition HT_MIN_MASK : Z := 2 ^ 32 - 2.
Definition U32 : Z := 2 ^ 32.
Definition U64 : Z := 2 ^ 64.

(** [zend_inline_hash_func]: all of the arithmetic is on 64 bits, and a [char] is
    signed. *)
Definition char_value (c : ascii) : Z :=
  let n := Z.of_N (N_of_ascii c) in if (n <? 128)%Z then n else (n - 256)%Z.
Definition zend_inline_hash_func (s : zstr) : Z :=
  Z.lor (foldl (λ hash c, ((Z.shiftl hash 5 + hash) + char_value c) mod U64)%Z 5381%Z s) (2 ^ 63).

(** A [zend_long] key as the unsigned number that the table stores, and back. *)
Definition to_ulong (n : Z) : Z := n mod U64.
Definition to_long (h : Z) : Z := if (h <? 2 ^ 63)%Z then h else (h - U64)%Z.

(** A bucket that is not [IS_UNDEF].  [b_next] is [Z_NEXT] of its value; an index of
    a bucket is below 2^31, so that [HT_INVALID_IDX] is no such index and [None]
    stands for it. *)
Record bucket (A : Type) := Bucket {
  b_val : A;
  b_next : option nat;
  b_h : Z;
  b_key : option zstr;
}.
Arguments Bucket {A} _ _ _ _.
Arguments b_val {A} _.
Arguments b_next {A} _.
Arguments b_h {A} _.
Arguments b_key {A} _.

(** [_zend_array].  [arData] holds the used buckets, so that its length is
    [nNumUsed]; [arHash] holds the hash slots in front of them, from the one at
    [nTableMask] to the one at -1. *)
Record hashtable (A : Type) := HashTable {
  ht_packed : bool;                         (** [HASH_FLAG_PACKED] *)
  ht_initialized : bool;                    (** [HASH_FLAG_INITIALIZED] *)
  nTableMask : Z;
  arHash : list (option nat);
  arData : list (option (bucket A));
  nNumOfElements : Z;
  nTableSize : Z;
  nInternalPointer : option nat;
  nNextFreeElement : Z;
}.
Arguments HashTable {A} _ _ _ _ _ _ _ _ _.
Arguments ht_packed {A} _.
Arguments ht_initialized {A} _.
Arguments nTableMask {A} _.
Arguments arHash {A} _.
Arguments arData {A} _.
Arguments nNumOfElements {A} _.
Arguments nTableSize {A} _.
Arguments nInternalPointer {A} _.
Arguments nNextFreeElement {A} _.

#[export] Instance hashtable_rebuild A : Rebuild (hashtable A) := λ t,
  HashTable (ht_packed t) (ht_initialized t) (nTableMask t) (arHash t) (arData t)
    (nNumOfElements t) (nTableSize t) (nInternalPointer t) (nNextFreeElement t).

(** [HASH_ADD] fails where the key is there, [HASH_ADD_NEW] promises that it is not,
    [HASH_ADD_NEXT] that an integer key is the next free one.  A key that is
    [IS_INDIRECT] occurs in symbol tables of compiled functions only, so that
    [HASH_UPDATE_INDIRECT] has no place here. *)
Record add_flags := AddFlags { HASH_ADD : bool; HASH_ADD_NEW : bool; HASH_ADD_NEXT : bool }.
Definition HASH_UPDATE : add_flags := AddFlags false false false.

Section hashtable.
Context {A : Type}.
Implicit Types (t : hashtable A) (v : A) (b : bucket A) (data : list (option (bucket A))).

Definition nNumUsed t : nat := length (arData t).

(** ** Memory *)

(** [HT_HASH(ht, h | ht->nTableMask)]: the place of the slot from the first one on. *)
Definition slot_of (mask h : Z) : nat := Z.to_nat (Z.lor (h mod U32) mask - mask).

Definition get_slot t (h : Z) : outcome (option nat) :=
  defined (arHash t !! slot_of (nTableMask t) h).

(** [HT_HASH_RESET] *)
Definition hash_reset t : hashtable A :=
  t <| arHash := replicate (Z.to_nat (U32 - nTableMask t)) None |>.

Definition get_bucket data (i : nat) : outcome (bucket A) :=
  match data !! i with Some (Some b) => Done b | _ => Undef end.

(** ** Sizes *)

(** [zend_hash_check_size], as it is without [__builtin_clz] *)
Definition zend_hash_check_size (nSize : Z) : outcome Z :=
  if (HT_MAX_SIZE <=? nSize)%Z then Fatal
  else
    let n := (Z.max nSize HT_MIN_SIZE - 1)%Z in
    let n := Z.lor n (Z.shiftr n 1) in
    let n := Z.lor n (Z.shiftr n 2) in
    let n := Z.lor n (Z.shiftr n 4) in
    let n := Z.lor n (Z.shiftr n 8) in
    let n := Z.lor n (Z.shiftr n 16) in
    Done (n + 1)%Z.

Definition _zend_hash_init (nSize : Z) : outcome (hashtable A) :=
  size ← zend_hash_check_size nSize;
  mret (HashTable false false HT_MIN_MASK [None; None] [] 0 size None 0).

Definition zend_hash_real_init_ex (packed : bool) t : hashtable A :=
  if packed then t <| ht_initialized := true |> <| ht_packed := true |> <| arHash := [None; None] |>
  else hash_reset (t <| nTableMask := (U32 - nTableSize t)%Z |> <| ht_initialized := true |>).

(** [zend_hash_packed_grow] *)
Definition zend_hash_packed_grow t : outcome (hashtable A) :=
  if (HT_MAX_SIZE <=? nTableSize t)%Z then Fatal
  else Done (t <| nTableSize := (nTableSize t + nTableSize t)%Z |>).

(** ** Rehashing *)

(** The loops of [zend_hash_rehash]: the live buckets move down over the holes, each
    is put in front of the chain of its slot, and the internal pointer goes with its
    bucket.  [i] is the place a bucket comes from and the length of [done] the one it
    gets; before the first hole both are the same, and the second loop of the C
    code, which makes this difference, takes over from there. *)
Fixpoint rehash_loop (mask : Z) (i : nat) (todo data : list (option (bucket A)))
    (hash : list (option nat)) (pointer : option nat) : outcome (list (option (bucket A)) * list (option nat) * option nat) :=
  match todo with
  | [] => Done (data, hash, pointer)
  | None :: todo' => rehash_loop mask (S i) todo' data hash pointer
  | Some b :: todo' =>
      let j := length data in
      let nIndex := slot_of mask (b_h b) in
      head ← defined (hash !! nIndex);
      rehash_loop mask (S i) todo' (data ++ [Some (Bucket (b_val b) head (b_h b) (b_key b))])
        (<[nIndex := Some j]> hash) (if decide (pointer = Some i) then Some j else pointer)
  end.

Definition zend_hash_rehash t : outcome (hashtable A) :=
  if (nNumOfElements t =? 0)%Z then
    if ht_initialized t then Done (hash_reset (t <| arData := [] |>)) else Done t
  else
    let t := hash_reset t in
    '(data, hash, pointer) ← rehash_loop (nTableMask t) 0 (arData t) [] (arHash t) (nInternalPointer t);
    mret (t <| arData := data |> <| arHash := hash |> <| nInternalPointer := pointer |>).

Definition zend_hash_packed_to_hash t : outcome (hashtable A) :=
  zend_hash_rehash (hash_reset (t <| ht_packed := false |> <| nTableMask := (U32 - nTableSize t)%Z |>)).

(** [zend_hash_to_packed]; the caller has made sure that the keys are 0, 1, ... *)
Definition zend_hash_to_packed t : hashtable A :=
  t <| ht_packed := true |> <| nTableMask := HT_MIN_MASK |> <| arHash := [None; None] |>.

Definition zend_hash_do_resize t : outcome (hashtable A) :=
  if (nNumOfElements t + Z.shiftr (nNumOfElements t) 5 <? Z.of_nat (nNumUsed t))%Z then zend_hash_rehash t
  else if (nTableSize t <? HT_MAX_SIZE)%Z then
    let nSize := (nTableSize t + nTableSize t)%Z in
    zend_hash_rehash (hash_reset (t <| nTableSize := nSize |> <| nTableMask := (U32 - nSize)%Z |>))
  else Fatal.

(** [ZEND_HASH_IF_FULL_DO_RESIZE] *)
Definition if_full_do_resize t : outcome (hashtable A) :=
  if (nTableSize t <=? Z.of_nat (nNumUsed t))%Z then zend_hash_do_resize t else Done t.

Definition zend_hash_extend (nSize : Z) (packed : bool) t : outcome (hashtable A) :=
  if (nSize =? 0)%Z then Done t
  else if negb (ht_initialized t) then
    size ← (if (nTableSize t <? nSize)%Z then zend_hash_check_size nSize else Done (nTableSize t));
    mret (zend_hash_real_init_ex packed (t <| nTableSize := size |>))
  else if (nTableSize t <? nSize)%Z then
    size ← zend_hash_check_size nSize;
    if packed then mret (t <| nTableSize := size |>)
    else zend_hash_rehash (hash_reset (t <| nTableSize := size |> <| nTableMask := (U32 - size)%Z |>))
  else Done t.

(** ** Looking up *)

(** The bucket of a chain that [p] accepts, and the one before it. *)
Fixpoint find_chain (fuel : nat) (p : bucket A → bool) data (prev idx : option nat) :
    outcome (option (option nat * nat)) :=
  match idx, fuel with
  | None, _ => Done None
  | Some i, S fuel' =>
      b ← get_bucket data i;
      if p b then Done (Some (prev, i)) else find_chain fuel' p data (Some i) (b_next b)
  | Some _, 0 => Undef
  end.

(** The test for a string key and the one for an integer key. *)
Definition is_str_bucket (key : zstr) (h : Z) b : bool :=
  (b_h b =? h)%Z && bool_decide (b_key b = Some key).
Definition is_idx_bucket (h : Z) b : bool := (b_h b =? h)%Z && bool_decide (b_key b = None).

Definition find_in_slot t (h : Z) (p : bucket A → bool) : outcome (option (option nat * nat)) :=
  idx ← get_slot t h; find_chain (nNumUsed t) p (arData t) None idx.

Definition zend_hash_find_bucket t (key : zstr) : outcome (option (option nat * nat)) :=
  let h := zend_inline_hash_func key in find_in_slot t h (is_str_bucket key h).
Definition zend_hash_index_find_bucket t (h : Z) : outcome (option (option nat * nat)) :=
  find_in_slot t h (is_idx_bucket h).

Definition value_at t (found : option (option nat * nat)) : outcome (option A) :=
  match found with
  | None => Done None
  | Some (_, i) => b ← get_bucket (arData t) i; mret (Some (b_val b))
  end.

Definition zend_hash_find t (key : zstr) : outcome (option A) :=
  zend_hash_find_bucket t key ≫= value_at t.

(** [zend_hash_index_find]; a packed table is asked directly. *)
Definition zend_hash_index_find t (h : Z) : outcome (option A) :=
  if ht_packed t then
    if (h <? Z.of_nat (nNumUsed t))%Z
    then ob ← defined (arData t !! Z.to_nat h); Done (match ob with Some b => Some (b_val b) | None => None end)
    else Done None
  else zend_hash_index_find_bucket t h ≫= value_at t.

Definition zend_hash_exists t (key : zstr) : outcome bool :=
  (λ r, bool_decide (is_Some r)) <$> zend_hash_find_bucket t key.

(** ** Adding *)

Definition set_value t (i : nat) v : outcome (hashtable A) :=
  b ← get_bucket (arData t) i;
  mret (t <| arData := <[i := Some (Bucket v (b_next b) (b_h b) (b_key b))]> (arData t) |>).

(** A key that is not below the next free element moves it. *)
Definition bump (h : Z) t : hashtable A :=
  if (nNextFreeElement t <=? to_long h)%Z then
    t <| nNextFreeElement := if (h <? ZEND_LONG_MAX)%Z then (h + 1)%Z else ZEND_LONG_MAX |>
  else t.

(** From the label [add_to_hash] on; the new bucket has to be inside the table. *)
Definition add_to_hash t (key : option zstr) (h : Z) v : outcome (hashtable A) :=
  let idx := nNumUsed t in
  if (nTableSize t <=? Z.of_nat idx)%Z then Undef
  else
    head ← get_slot t h;
    mret (t <| arData := arData t ++ [Some (Bucket v head h key)] |>
            <| nNumOfElements := (nNumOfElements t + 1)%Z |>
            <| nInternalPointer := match nInternalPointer t with None => Some idx | p => p end |>
            <| arHash := <[slot_of (nTableMask t) h := Some idx]> (arHash t) |>).

(** [_zend_hash_add_or_update_i]; [None] is the [NULL] of a failed addition. *)
Definition _zend_hash_add_or_update_i t (key : zstr) v (flag : add_flags) : outcome (option (hashtable A)) :=
  let h := zend_inline_hash_func key in
  let add t := t ← if_full_do_resize t; Some <$> add_to_hash t (Some key) h v in
  if negb (ht_initialized t) then
    Some <$> add_to_hash (zend_hash_real_init_ex false t) (Some key) h v
  else if ht_packed t then zend_hash_packed_to_hash t ≫= add
  else if HASH_ADD_NEW flag then add t
  else
    found ← zend_hash_find_bucket t key;
    match found with
    | Some (_, i) => if HASH_ADD flag then Done None else Some <$> set_value t i v
    | None => add t
    end.

(** From the label [add_to_packed] on: the buckets between the used ones and the new
    one become undefined. *)
Definition add_to_packed t (h : Z) v : outcome (hashtable A) :=
  let used := nNumUsed t in
  if (nTableSize t <=? h)%Z then Undef
  else
    let t := bump h (t <| nNumOfElements := (nNumOfElements t + 1)%Z |>
                       <| nInternalPointer := match nInternalPointer t with None => Some (Z.to_nat h) | p => p end |>) in
    mret (t <| arData := arData t ++ replicate (Z.to_nat h - used) None ++ [Some (Bucket v None h None)] |>).

(** [_zend_hash_index_add_or_update_i].  [HASH_ADD_NEXT] together with [HASH_ADD_NEW]
    only saves the initialization of buckets that do not exist then. *)
Definition _zend_hash_index_add_or_update_i t (h : Z) v (flag : add_flags) : outcome (option (hashtable A)) :=
  let add t := t ← if_full_do_resize t; Some <$> add_to_hash (bump h t) None h v in
  if negb (ht_initialized t) then
    if (h <? nTableSize t)%Z then Some <$> add_to_packed (zend_hash_real_init_ex true t) h v
    else Some <$> add_to_hash (bump h (zend_hash_real_init_ex false t)) None h v
  else if ht_packed t then
    if (h <? Z.of_nat (nNumUsed t))%Z then
      ob ← defined (arData t !! Z.to_nat h);
      match ob with
      | Some _ => if HASH_ADD flag then Done None else t ← set_value t (Z.to_nat h) v; mret (Some (bump h t))
      | None => zend_hash_packed_to_hash t ≫= add
      end
    else if (h <? nTableSize t)%Z then Some <$> add_to_packed t h v
    else if (Z.shiftr h 1 <? nTableSize t)%Z && (Z.shiftr (nTableSize t) 1 <? nNumOfElements t)%Z then
      t ← zend_hash_packed_grow t; Some <$> add_to_packed t h v
    else zend_hash_packed_to_hash t ≫= add
  else if HASH_ADD_NEW flag then add t
  else
    found ← zend_hash_index_find_bucket t h;
    match found with
    | Some (_, i) => if HASH_ADD flag then Done None else t ← set_value t i v; mret (Some (bump h t))
    | None => add t
    end.

Definition _zend_hash_update t (key : zstr) v := _zend_hash_add_or_update_i t key v HASH_UPDATE.
Definition _zend_hash_add t (key : zstr) v := _zend_hash_add_or_update_i t key v (AddFlags true false false).
Definition _zend_hash_index_update t (h : Z) v := _zend_hash_index_add_or_update_i t h v HASH_UPDATE.
Definition _zend_hash_index_add t (h : Z) v := _zend_hash_index_add_or_update_i t h v (AddFlags true false false).
Definition _zend_hash_next_index_insert t v :=
  _zend_hash_index_add_or_update_i t (nNextFreeElement t) v (AddFlags true false true).

(** ** Deleting *)

(** The first live bucket at a place of at least [i]. *)
Fixpoint next_live (i : nat) data : option nat :=
  match data with
  | [] => None
  | ob :: data' => match i, ob with
                   | 0, Some _ => Some 0
                   | _, _ => S <$> next_live (i - 1) data'
                   end
  end.

(** The used buckets without undefined ones at the end. *)
Fixpoint trim data : list (option (bucket A)) :=
  match data with
  | [] => []
  | ob :: data' => match ob, trim data' with
                   | None, [] => []
                   | _, r => ob :: r
                   end
  end.

(** [_zend_hash_del_el_ex] *)
Definition _zend_hash_del_el_ex t (prev : option nat) (idx : nat) : outcome (hashtable A) :=
  p ← get_bucket (arData t) idx;
  t' ← (if ht_packed t then Done t
        else match prev with
             | Some i => q ← get_bucket (arData t) i;
                         Done (t <| arData := <[i := Some (Bucket (b_val q) (b_next p) (b_h q) (b_key q))]> (arData t) |>)
             | None => Done (t <| arHash := <[slot_of (nTableMask t) (b_h p) := b_next p]> (arHash t) |>)
             end);
  let data := <[idx := None]> (arData t') in
  let data := if decide (S idx = nNumUsed t) then trim data else data in
  mret (t' <| arData := data |>
           <| nNumOfElements := (nNumOfElements t - 1)%Z |>
           <| nInternalPointer := if decide (nInternalPointer t = Some idx) then next_live (S idx) data
                                  else nInternalPointer t |>).

Definition del_found t (found : option (option nat * nat)) : outcome (bool * hashtable A) :=
  match found with
  | Some (prev, i) => (λ t, (true, t)) <$> _zend_hash_del_el_ex t prev i
  | None => Done (false, t)
  end.

Definition zend_hash_del t (key : zstr) : outcome (bool * hashtable A) :=
  zend_hash_find_bucket t key ≫= del_found t.

Definition zend_hash_index_del t (h : Z) : outcome (bool * hashtable A) :=
  if ht_packed t then
    if (h <? Z.of_nat (nNumUsed t))%Z then
      ob ← defined (arData t !! Z.to_nat h);
      del_found t (match ob with Some _ => Some (None, Z.to_nat h) | None => None end)
    else Done (false, t)
  else zend_hash_index_find_bucket t h ≫= del_found t.

Definition zend_hash_clean t : hashtable A :=
  let t' := if bool_decide (arData t = []) || ht_packed t then t else hash_reset t in
  t' <| arData := [] |> <| nNumOfElements := 0%Z |> <| nNextFreeElement := 0%Z |> <| nInternalPointer := None |>.

(** ** Walking *)

Definition zend_hash_internal_pointer_reset t : hashtable A :=
  t <| nInternalPointer := next_live 0 (arData t) |>.
Definition zend_hash_move_forward t : hashtable A :=
  match nInternalPointer t with
  | Some i => t <| nInternalPointer := next_live (S i) (arData t) |>
  | None => t
  end.
Definition zend_hash_get_current_data t : outcome (option A) :=
  match nInternalPointer t with
  | Some i => b ← get_bucket (arData t) i; mret (Some (b_val b))
  | None => Done None
  end.

(** ** Abstraction *)

Definition key_of b : hkey :=
  match b_key b with Some s => KStr s | None => KIdx (to_long (b_h b)) end.
Definition entry_of b : hkey * A := (key_of b, b_val b).
Definition entries data : htab A := omap (fmap entry_of) data.
Definition abs t : htab A := entries (arData t).
End hashtable.

(** ** The symbol table functions *)

Definition key_h (k : hkey) : Z := match k with KStr s => zend_inline_hash_func s | KIdx n => to_ulong n end.
Definition table_find {A} (t : hashtable A) (k : hkey) : outcome (option A) :=
  match k with KStr s => zend_hash_find t s | KIdx n => zend_hash_index_find t (to_ulong n) end.
Definition table_update {A} (t : hashtable A) (k : hkey) (v : A) : outcome (option (hashtable A)) :=
  match k with KStr s => _zend_hash_update t s v | KIdx n => _zend_hash_index_update t (to_ulong n) v end.
Definition table_add {A} (t : hashtable A) (k : hkey) (v : A) : outcome (option (hashtable A)) :=
  match k with KStr s => _zend_hash_add t s v | KIdx n => _zend_hash_index_add t (to_ulong n) v end.
Definition table_del {A} (t : hashtable A) (k : hkey) : outcome (bool * hashtable A) :=
  match k with KStr s => zend_hash_del t s | KIdx n => zend_hash_index_del t (to_ulong n) end.
Definition zend_symtable_update {A} (t : hashtable A) (key : zstr) := table_update t (symtable_key key).
Definition zend_symtable_find {A} (t : hashtable A) (key : zstr) := table_find t (symtable_key key).
Definition zend_symtable_del {A} (t : hashtable A) (key : zstr) := table_del t (symtable_key key).

(** ** Examples *)

Definition demo_table : outcome (hashtable nat) :=
  t ← _zend_hash_init 0;
  t ← _zend_hash_next_index_insert t 10 ≫= defined;
  t ← _zend_hash_next_index_insert t 11 ≫= defined;
  t ← _zend_hash_update t "a" 12 ≫= defined;
  t ← _zend_hash_next_index_insert t 13 ≫= defined;
  '(_, t) ← zend_hash_index_del t 1;
  _zend_hash_update t "a" 14 ≫= defined.

Example demo_table_entries :
  abs <$> demo_table = Done [(KIdx 0, 10); (KStr "a", 14); (KIdx 2, 13)].
Proof. vm_compute. reflexivity. Qed.

(** ** Slots *)

Lemma slot_of_mod k h : (0 ≤ k ≤ 32)%Z → slot_of (U32 - 2 ^ k) h = Z.to_nat (h mod 2 ^ k).
Proof.
  intros Hk. unfold slot_of, U32. f_equal.
  assert (E : (2 ^ 32 - 2 ^ k = Z.shiftl (Z.ones (32 - k)) k)%Z).
  { rewrite Z.ones_equiv, Z.shiftl_mul_pow2, <-Z.sub_1_r, Z.mul_sub_distr_r, <-Z.pow_add_r by lia.
    replace (32 - k + k)%Z with 32%Z by lia. lia. }
  assert (D : Z.land (h mod 2 ^ k) (2 ^ 32 - 2 ^ k) = 0%Z).
  { apply Z.bits_inj'. intros i Hi. rewrite E, Z.land_spec, Z.bits_0, Z.shiftl_spec by done.
    destruct (decide (i < k)%Z) as [Hlt|Hge].
    - rewrite (Z.testbit_neg_r _ (i - k)) by lia. apply andb_false_r.
    - by rewrite Z.mod_pow2_bits_high by lia. }
  assert (L : Z.lor (h mod 2 ^ 32) (2 ^ 32 - 2 ^ k) = Z.lor (h mod 2 ^ k) (2 ^ 32 - 2 ^ k)).
  { apply Z.bits_inj'. intros i Hi. rewrite E, !Z.lor_spec, !Z.shiftl_spec by done.
    destruct (decide (i < k)%Z) as [Hlt|Hge]; [by rewrite !Z.mod_pow2_bits_low by lia|].
    destruct (decide (i < 32)%Z) as [Hlt|Hge'].
    - rewrite Z.ones_spec_low by lia. by rewrite !orb_true_r.
    - by rewrite !Z.mod_pow2_bits_high by lia. }
  pose proof (Z.add_lor_land (h mod 2 ^ k) (2 ^ 32 - 2 ^ k)). rewrite L. lia.
Qed.

Lemma slot_lt k h : (0 ≤ k ≤ 32)%Z → slot_of (U32 - 2 ^ k) h < Z.to_nat (2 ^ k).
Proof.
  intros Hk. rewrite slot_of_mod by done.
  pose proof (Z.mod_pos_bound h (2 ^ k)). assert (0 < 2 ^ k)%Z by (apply Z.pow_pos_nonneg; lia). lia.
Qed.

Lemma to_long_ulong n : (- 2 ^ 63 ≤ n < 2 ^ 63)%Z → to_long (to_ulong n) = n.
Proof.
  intros Hn. unfold to_long, to_ulong, U64.
  destruct (decide (0 ≤ n)%Z).
  - rewrite Z.mod_small by lia. by rewrite (proj2 (Z.ltb_lt _ _)) by lia.
  - replace (n mod 2 ^ 64)%Z with (n + 2 ^ 64)%Z.
    + rewrite (proj2 (Z.ltb_ge _ _)) by lia. lia.
    + rewrite <-(Z_mod_plus_full n 1 (2 ^ 64)), Z.mod_small by lia. lia.
Qed.

Lemma to_ulong_long h : (0 ≤ h < U64)%Z → to_ulong (to_long h) = h.
Proof.
  unfold to_long, to_ulong, U64. intros Hh. case_match eqn:E.
  - by rewrite Z.mod_small.
  - rewrite <-(Z_mod_plus_full _ 1), Z.mod_small by lia. lia.
Qed.

Lemma to_ulong_range n : (0 ≤ to_ulong n < U64)%Z.
Proof. unfold to_ulong, U64. apply Z.mod_pos_bound. lia. Qed.

Lemma hash_range s : (0 ≤ zend_inline_hash_func s < U64)%Z.
Proof.
  unfold zend_inline_hash_func.
  assert (Hf : ∀ h, (0 ≤ h < U64)%Z → (0 ≤ foldl (λ hash c, ((Z.shiftl hash 5 + hash) + char_value c) mod U64) h s < U64)%Z).
  { induction s as [|c s IH]; intros h Hh; [done|]. apply IH. apply Z.mod_pos_bound. done. }
  specialize (Hf 5381%Z ltac:(done)). revert Hf. generalize (foldl (λ hash c, ((Z.shiftl hash 5 + hash) + char_value c) mod U64)%Z 5381%Z s).
  intros h [Hl Hu]. split; [apply Z.lor_nonneg; lia|].
  destruct (decide (h = 0)%Z) as [->|]; [done|].
  apply Z.log2_lt_pow2; [apply Z.le_neq; split; [apply Z.lor_nonneg; lia|intros E; symmetry in E; apply Z.lor_eq_0_iff in E; lia]|].
  rewrite Z.log2_lor by lia. apply Z.max_lub_lt; [|done].
  apply Z.log2_lt_pow2; unfold U64 in *; lia.
Qed.

(** ** The entries of a list of buckets *)

Section entries.
Context {A : Type}.
Implicit Types (data : list (option (bucket A))) (b : bucket A).

Lemma entries_app data1 data2 : entries (data1 ++ data2) = entries data1 ++ entries data2.
Proof. apply omap_app. Qed.

Lemma entries_none n : entries (replicate n None : list (option (bucket A))) = [].
Proof. induction n; [done|]. exact IHn. Qed.

Lemma entries_all_some data : Forall is_Some data → length (entries data) = length data.
Proof. induction 1 as [|? data [b ->] _ IH]; [done|]. unfold entries in *. cbn. by rewrite IH. Qed.

(** A live bucket splits the list. *)
Lemma data_split data i b :
  data !! i = Some (Some b) → data = take i data ++ Some b :: drop (S i) data ∧ length (take i data) = i.
Proof.
  intros Hb. apply lookup_lt_Some in Hb as Hlt. split; [by rewrite take_drop_middle|].
  rewrite length_take. lia.
Qed.

Lemma entries_split data i b : data !! i = Some (Some b) →
  entries data = entries (take i data) ++ entry_of b :: entries (drop (S i) data).
Proof.
  intros Hb. destruct (data_split _ _ _ Hb) as [E _]. rewrite E at 1. by rewrite entries_app.
Qed.

Lemma entries_insert data i b ob : data !! i = Some (Some b) →
  entries (<[i := ob]> data) =
    entries (take i data) ++ match ob with Some b' => [entry_of b'] | None => [] end ++ entries (drop (S i) data).
Proof.
  intros Hb. apply lookup_lt_Some in Hb as Hlt. rewrite insert_take_drop, entries_app by done.
  by destruct ob.
Qed.

Lemma entries_elem data kv :
  kv ∈ entries data ↔ ∃ i b, data !! i = Some (Some b) ∧ entry_of b = kv.
Proof.
  unfold entries. rewrite list_elem_of_omap. split.
  - intros (ob & Hin & E). apply list_elem_of_lookup in Hin as (i & Hi).
    destruct ob as [b|]; [|done]. injection E as E. eauto.
  - intros (i & b & Hi & E). exists (Some b). split; [by eapply list_elem_of_lookup_2|]. cbn. by rewrite E.
Qed.

Lemma entries_key data k :
  k ∈ hkeys (entries data) ↔ ∃ i b, data !! i = Some (Some b) ∧ key_of b = k.
Proof.
  unfold hkeys. rewrite list_elem_of_fmap. split.
  - intros (kv & -> & (i & b & Hi & <-)%entries_elem). eauto.
  - intros (i & b & Hi & <-). exists (entry_of b). split; [done|]. apply entries_elem. eauto.
Qed.

Lemma hkeys_split data i b : data !! i = Some (Some b) → hwf (entries data) →
  (key_of b ∉ hkeys (entries (take i data))) ∧ (key_of b ∉ hkeys (entries (drop (S i) data))).
Proof.
  intros Hb Hwf. unfold hwf, hkeys in *. rewrite (entries_split _ _ _ Hb), fmap_app, fmap_cons in Hwf.
  apply NoDup_app in Hwf as (_ & Hd & Hn). apply NoDup_cons in Hn as [Hn _]. split; [|done].
  intros Hin. apply (Hd _ Hin). left.
Qed.

Lemma hfind_app k (l1 l2 : htab A) : k ∉ hkeys l1 → hfind k (l1 ++ l2) = hfind k l2.
Proof.
  unfold hkeys. induction l1 as [|[k' v] l1 IH]; intros Hk; [done|]. csimpl in *.
  rewrite bool_decide_false by set_solver. apply IH. set_solver.
Qed.
Lemma hupdate_app k v v' (l1 l2 : htab A) :
  k ∉ hkeys l1 → hupdate k v (l1 ++ (k, v') :: l2) = l1 ++ (k, v) :: l2.
Proof.
  unfold hkeys. induction l1 as [|[k' w] l1 IH]; intros Hk; csimpl in *.
  - by rewrite bool_decide_true.
  - rewrite bool_decide_false by set_solver. f_equal. apply IH. set_solver.
Qed.
Lemma hdel_app k v (l1 l2 : htab A) : k ∉ hkeys l1 → hdel k (l1 ++ (k, v) :: l2) = l1 ++ l2.
Proof.
  unfold hkeys. induction l1 as [|[k' w] l1 IH]; intros Hk; csimpl in *.
  - by rewrite bool_decide_true.
  - rewrite bool_decide_false by set_solver. f_equal. apply IH. set_solver.
Qed.
Lemma hdel_no_key k (l : htab A) : k ∉ hkeys l → hdel k l = l.
Proof.
  unfold hkeys. induction l as [|[k' w] l IH]; intros Hk; csimpl in *; [done|].
  rewrite bool_decide_false by set_solver. f_equal. apply IH. set_solver.
Qed.

Lemma hkeys_hupdate_old k v (l : htab A) : k ∈ hkeys l → hkeys (hupdate k v l) = hkeys l.
Proof.
  unfold hkeys. induction l as [|[k' w] l IH]; intros Hk; csimpl in *; [by apply elem_of_nil in Hk|].
  case_bool_decide as E; csimpl; [done|]. f_equal. apply IH. set_solver.
Qed.
Lemma length_hupdate_old k v (l : htab A) : k ∈ hkeys l → length (hupdate k v l) = length l.
Proof.
  intros Hk. rewrite <-(length_fmap fst), <-(length_fmap fst l). f_equal. by apply hkeys_hupdate_old.
Qed.

Lemma length_hupdate_le k v (l : htab A) : length (hupdate k v l) ≤ S (length l).
Proof. induction l as [|[j w] l IH]; csimpl; [lia|]. case_bool_decide; csimpl; lia. Qed.
Lemma hkeys_hdel k k' (l : htab A) : k' ∈ hkeys (hdel k l) → k' ∈ hkeys l.
Proof.
  unfold hkeys. induction l as [|[j w] l IH]; csimpl; [done|]. case_bool_decide; csimpl; set_solver.
Qed.

Section live.
Context data i b (Hb : data !! i = Some (Some b)) (Hwf : hwf (entries data)).

Lemma hfind_live : hfind (key_of b) (entries data) = Some (b_val b).
Proof using Hb Hwf.
  rewrite (entries_split _ _ _ Hb), hfind_app by (by apply hkeys_split). csimpl. by rewrite bool_decide_true.
Qed.

Lemma entries_set b' : key_of b' = key_of b →
  entries (<[i := Some b']> data) = hupdate (key_of b) (b_val b') (entries data).
Proof using Hb Hwf.
  intros Hk. rewrite (entries_insert _ _ _ _ Hb), (entries_split _ _ _ Hb).
  unfold entry_of. rewrite hupdate_app by (by apply hkeys_split). by rewrite Hk.
Qed.

Lemma entries_remove : entries (<[i := None]> data) = hdel (key_of b) (entries data).
Proof using Hb Hwf.
  rewrite (entries_insert _ _ _ _ Hb), (entries_split _ _ _ Hb).
  unfold entry_of. by rewrite hdel_app by (by apply hkeys_split).
Qed.
End live.

(** *** The end of the list *)

Lemma trim_spec data : ∃ n, data = trim data ++ replicate n None.
Proof.
  induction data as [|ob data [n IH]]; [by exists 0|]. cbn [trim].
  destruct ob as [b|]; [exists n; cbn; by f_equal|].
  destruct (trim data) as [|x r] eqn:E; [exists (S n); cbn; by f_equal|exists n; cbn; by f_equal].
Qed.

Lemma entries_trim data : entries (trim data) = entries data.
Proof.
  destruct (trim_spec data) as [n E]. rewrite E at 2. by rewrite entries_app, entries_none, app_nil_r.
Qed.

Lemma trim_length data : length (trim data) ≤ length data.
Proof. destruct (trim_spec data) as [n E]. apply (f_equal length) in E. rewrite length_app in E. lia. Qed.

Lemma trim_live data i b : trim data !! i = Some (Some b) ↔ data !! i = Some (Some b).
Proof.
  destruct (trim_spec data) as [n E]. rewrite E at 2. split; intros Hi; [by apply lookup_app_l_Some|].
  apply lookup_app_Some in Hi as [|[_ Hi]]; [done|]. by apply lookup_replicate in Hi as [? _].
Qed.

(** *** The next live bucket *)

(** How many live buckets are before the place [i]. *)
Definition rank data (i : nat) : nat := length (entries (take i data)).

Lemma next_live_spec i data :
  match next_live i data with
  | Some j => i ≤ j ∧ (∃ b, data !! j = Some (Some b)) ∧ rank data j = rank data i
  | None => length (entries data) = rank data i
  end.
Proof.
  revert i. unfold rank. induction data as [|ob data IH]; intros i; [by destruct i|]. cbn [next_live].
  destruct i as [|i].
  - destruct ob as [b|]; [split_and!; [lia|by exists b|done]|]. specialize (IH 0). cbn [Nat.sub].
    destruct (next_live 0 data) as [j|]; cbn; [|done].
    destruct IH as (_ & Hb & Hr). split_and!; [lia|done|done].
  - replace (S i - 1) with i by lia. specialize (IH i).
    destruct ob as [b|]; destruct (next_live i data) as [j|]; cbn.
    all: try (destruct IH as (Hle & Hb & Hr); split_and!; [lia|done|by (exact Hr || exact (f_equal S Hr))]).
    all: by (exact IH || exact (f_equal S IH)).
Qed.

Lemma rank_S data i b : data !! i = Some (Some b) → rank data (S i) = S (rank data i).
Proof.
  intros Hb. unfold rank. rewrite (take_S_r _ _ _ Hb), entries_app, length_app. cbn. lia.
Qed.

Lemma rank_lookup data i b : data !! i = Some (Some b) → entries data !! rank data i = Some (entry_of b).
Proof.
  intros Hb. rewrite (entries_split _ _ _ Hb). unfold rank. by rewrite list_lookup_middle.
Qed.

Lemma rank_le data i : rank data i ≤ length (entries data).
Proof.
  unfold rank. rewrite <-(take_drop i data) at 2. rewrite entries_app, length_app. lia.
Qed.
End entries.

(** ** Chains *)

Section chains.
Context {A : Type}.
Implicit Types (data : list (option (bucket A))) (b : bucket A) (hash : list (option nat)).

(** The chain from [o] on visits the buckets [l]. *)
Fixpoint chain data (o : option nat) (l : list nat) : Prop :=
  match l with
  | [] => o = None
  | i :: l' => o = Some i ∧ ∃ b, data !! i = Some (Some b) ∧ chain data (b_next b) l'
  end.

Definition in_slot (mask : Z) data (s i : nat) : bool :=
  match data !! i with Some (Some b) => bool_decide (slot_of mask (b_h b) = s) | _ => false end.

(** The live buckets of a slot below [n], the newest first. *)
Fixpoint members (mask : Z) data (s n : nat) : list nat :=
  match n with
  | 0 => []
  | S n' => if in_slot mask data s n' then n' :: members mask data s n' else members mask data s n'
  end.

(** Every slot leads to the chain of its buckets. *)
Definition chains_ok (mask : Z) data hash : Prop :=
  ∀ s, s < length hash → ∃ o, hash !! s = Some o ∧ chain data o (members mask data s (length data)).

Lemma in_slot_true mask data s i :
  in_slot mask data s i = true ↔ ∃ b, data !! i = Some (Some b) ∧ slot_of mask (b_h b) = s.
Proof.
  unfold in_slot. destruct (data !! i) as [[b|]|].
  - rewrite bool_decide_eq_true. naive_solver.
  - naive_solver.
  - naive_solver.
Qed.

Lemma members_elem mask data s n i : i ∈ members mask data s n ↔ i < n ∧ in_slot mask data s i = true.
Proof.
  induction n as [|n IH]; cbn; [rewrite elem_of_nil; lia|].
  destruct (in_slot mask data s n) eqn:E; rewrite ?elem_of_cons, IH.
  - split; [intros [->|[? ?]]; split; [lia|done|lia|done]|]. intros [Hle Hi].
    destruct (decide (i = n)); [by left|right; split; [lia|done]].
  - split; [intros [? ?]; split; [lia|done]|]. intros [Hle Hi].
    assert (i ≠ n) by congruence. split; [lia|done].
Qed.

Lemma members_length mask data s n : length (members mask data s n) ≤ n.
Proof. induction n as [|n IH]; cbn; [lia|]. case_match; cbn; lia. Qed.

Lemma members_NoDup mask data s n : NoDup (members mask data s n).
Proof.
  induction n as [|n IH]; cbn; [constructor|]. case_match; [|done]. constructor; [|done].
  rewrite members_elem. lia.
Qed.

Lemma members_ext mask data data' s n :
  (∀ i, i < n → in_slot mask data s i = in_slot mask data' s i) → members mask data s n = members mask data' s n.
Proof.
  induction n as [|n IH]; intros H; cbn; [done|]. rewrite H by lia. rewrite IH by (intros; apply H; lia). done.
Qed.

(** Places that hold no live bucket add nothing. *)
Lemma members_beyond mask data s n m :
  (∀ i, n ≤ i → i < n + m → in_slot mask data s i = false) → members mask data s (n + m) = members mask data s n.
Proof.
  induction m as [|m IH]; intros H; [by rewrite Nat.add_0_r|].
  rewrite Nat.add_succ_r. cbn [members]. rewrite H by lia. apply IH. intros. apply H; lia.
Qed.

(** A member that is taken out. *)
Lemma members_remove mask data data' s n i l1 l2 :
  members mask data s n = l1 ++ i :: l2 →
  (∀ j, j < n → j ≠ i → in_slot mask data' s j = in_slot mask data s j) → in_slot mask data' s i = false →
  members mask data' s n = l1 ++ l2.
Proof.
  revert l1. induction n as [|n IH]; intros l1 E Hj Hi; [by destruct l1|]. cbn in E |- *.
  destruct (decide (n = i)) as [->|Hne].
  - rewrite Hi. destruct l1 as [|x l1].
    + assert (Hm : members mask data s i = l2).
      { destruct (in_slot mask data s i); [by injection E|].
        assert (Hin : i ∈ members mask data s i) by (rewrite E; left). apply members_elem in Hin. lia. }
      rewrite <-Hm. apply members_ext. intros j Hlt. apply Hj; lia.
    + assert (Hin : i ∈ l1 ++ i :: l2) by set_solver.
      destruct (in_slot mask data s i).
      * injection E as -> E. rewrite <-E in Hin. apply members_elem in Hin. lia.
      * assert (Hin' : i ∈ members mask data s i) by (rewrite E; set_solver). apply members_elem in Hin'. lia.
  - rewrite Hj by lia. destruct (in_slot mask data s n).
    + destruct l1 as [|x l1]; [by injection E|]. injection E as -> E. cbn. f_equal.
      apply IH; [done| |done]. intros; apply Hj; lia.
    + apply IH; [done| |done]. intros; apply Hj; lia.
Qed.

(** A chain depends on the links of its buckets only. *)
Lemma chain_ext data data' o l :
  chain data o l →
  (∀ i b, i ∈ l → data !! i = Some (Some b) → ∃ b', data' !! i = Some (Some b') ∧ b_next b' = b_next b) →
  chain data' o l.
Proof.
  revert o. induction l as [|i l IH]; intros o Hc He; [done|]. destruct Hc as (-> & b & Hb & Hc).
  split; [done|]. destruct (He i b) as (b' & Hb' & En); [left|done|]. exists b'. split; [done|].
  rewrite En. apply IH; [done|]. intros j bj Hj. apply He. by right.
Qed.

Lemma chain_same data data' o l :
  chain data o l → (∀ i, i ∈ l → data' !! i = data !! i) → chain data' o l.
Proof. intros Hc He. eapply chain_ext; [exact Hc|]. intros i b Hi Hb. exists b. by rewrite He. Qed.

(** Unlinking a bucket that has one before it. *)
Lemma chain_unlink data data' o l1 j i l2 bj bi :
  chain data o (l1 ++ j :: i :: l2) → data !! i = Some (Some bi) →
  data' !! j = Some (Some bj) → b_next bj = b_next bi → NoDup (l1 ++ j :: i :: l2) →
  (∀ x, x ∈ l1 ++ l2 → data' !! x = data !! x) →
  chain data' o (l1 ++ j :: l2).
Proof.
  intros Hc Hi Hj En. revert o Hc. induction l1 as [|x l1 IH]; intros o Hc Hd Hs.
  - destruct Hc as (-> & b & Hb & _ & b' & Hb' & Hc). split; [done|]. exists bj. split; [done|].
    rewrite En. assert (b' = bi) as -> by congruence.
    eapply chain_same; [exact Hc|]. intros y Hy. apply Hs. set_solver.
  - destruct Hc as (-> & b & Hb & Hc). split; [done|]. exists b.
    rewrite Hs by set_solver. split; [done|]. apply IH; [done| |set_solver].
    by apply NoDup_cons in Hd as [_ Hd].
Qed.

(** ** The loop that looks through a chain *)

Lemma find_chain_spec p data fuel prev o l :
  chain data o l → length l ≤ fuel →
  match find_chain fuel p data prev o with
  | Done (Some (prev', i)) => ∃ l1 l2 b, l = l1 ++ i :: l2 ∧
      prev' = match last l1 with Some j => Some j | None => prev end ∧ data !! i = Some (Some b) ∧ p b = true
  | Done None => ∀ i b, i ∈ l → data !! i = Some (Some b) → p b = false
  | _ => False
  end.
Proof.
  revert prev o l. induction fuel as [|fuel IH]; intros prev o l Hc Hl.
  - destruct l; [|cbn in Hl; lia]. cbn in Hc. subst o. cbn. intros i b Hi. by apply elem_of_nil in Hi.
  - destruct l as [|i l]; cbn in Hc.
    + subst o. cbn. intros i b Hi. by apply elem_of_nil in Hi.
    + destruct Hc as (-> & b & Hb & Hc). cbn [find_chain]. unfold get_bucket. rewrite Hb.
      cbn [mbind outcome_bind]. destruct (p b) eqn:Hp; [exists [], l, b; by split_and!|].
      cbn in Hl. specialize (IH (Some i) (b_next b) l Hc ltac:(lia)).
      destruct (find_chain fuel p data (Some i) (b_next b)) as [[[prev' j]|]| |]; [| |done|done].
      * destruct IH as (l1 & l2 & b' & -> & -> & Hb' & Hp'). exists (i :: l1), l2, b'. split_and!; [done| |done|done].
        rewrite last_cons. by destruct (last l1).
      * intros j b' [->|Hj]%elem_of_cons Hb'; [congruence|by eapply IH].
Qed.
End chains.

(** ** Tables *)

(** Keys that PHP can express. *)
Definition key_ok (k : hkey) : Prop :=
  match k with KStr _ => True | KIdx n => (- 2 ^ 63 ≤ n < 2 ^ 63)%Z end.
#[export] Instance key_ok_dec k : Decision (key_ok k).
Proof. destruct k; apply _. Defined.

Definition key_str (k : hkey) : option zstr := match k with KStr s => Some s | KIdx _ => None end.
Definition is_bucket {A} (k : hkey) : bucket A → bool :=
  match k with KStr s => is_str_bucket s (zend_inline_hash_func s) | KIdx n => is_idx_bucket (to_ulong n) end.

(** The next free element after a key was added. *)
Definition next_after (k : hkey) (next : Z) : Z :=
  match k with
  | KIdx n => if (next <=? n)%Z then if (n <? ZEND_LONG_MAX)%Z then (n + 1)%Z else ZEND_LONG_MAX else next
  | KStr _ => next
  end.

Section tables.
Context {A : Type}.
Implicit Types (data : list (option (bucket A))) (b : bucket A) (t : hashtable A) (v : A) (k : hkey).

Definition bucket_ok b : Prop :=
  match b_key b with Some s => b_h b = zend_inline_hash_func s | None => (0 ≤ b_h b < U64)%Z end.

Definition mask_of t : Z := (U32 - nTableSize t)%Z.
Definition packed_ok t : Prop :=
  nTableMask t = HT_MIN_MASK ∧ arHash t = [None; None] ∧
  ∀ i b, arData t !! i = Some (Some b) → b_key b = None ∧ b_h b = Z.of_nat i.
Definition hash_ok t : Prop :=
  nTableMask t = mask_of t ∧ length (arHash t) = Z.to_nat (nTableSize t) ∧
  chains_ok (nTableMask t) (arData t) (arHash t).
Definition size_ok t : Prop := ∃ m, (3 ≤ m ≤ 31)%Z ∧ nTableSize t = (2 ^ m)%Z.

(** What holds of the buckets, whatever the form of the table. *)
Record buckets_ok t : Prop := {
  ok_size : size_ok t;
  ok_used : (Z.of_nat (nNumUsed t) ≤ nTableSize t)%Z;
  ok_count : nNumOfElements t = Z.of_nat (length (abs t));
  ok_keys : hwf (abs t);
  ok_bucket : ∀ i b, arData t !! i = Some (Some b) → bucket_ok b;
  ok_next : (0 ≤ nNextFreeElement t ≤ ZEND_LONG_MAX)%Z;
  ok_next_key : ∀ n, KIdx n ∈ hkeys (abs t) → (n < nNextFreeElement t)%Z ∨ nNextFreeElement t = ZEND_LONG_MAX;
  ok_pointer : ∀ i, nInternalPointer t = Some i → ∃ b, arData t !! i = Some (Some b);
}.

Definition form_ok t : Prop :=
  if ht_initialized t then if ht_packed t then packed_ok t else hash_ok t
  else ht_packed t = false ∧ arData t = [] ∧ nTableMask t = HT_MIN_MASK ∧ arHash t = [None; None].

Definition table_ok t : Prop := buckets_ok t ∧ form_ok t.

(** The live buckets before the internal pointer; all of them when it is at the end. *)
Definition position t : nat :=
  match nInternalPointer t with Some i => rank (arData t) i | None => length (abs t) end.

(** *** The bucket of a key *)

Lemma is_bucket_spec k b : key_ok k → bucket_ok b → is_bucket k b = true ↔ key_of b = k.
Proof.
  unfold bucket_ok, key_of. destruct k as [s|n]; cbn; intros Hk Hb; unfold is_str_bucket, is_idx_bucket;
    rewrite andb_true_iff, Z.eqb_eq, bool_decide_eq_true; destruct (b_key b) as [s'|].
  - split; [by intros [_ [= ->]]|intros [= ->]; done].
  - naive_solver.
  - naive_solver.
  - split; [intros [-> _]; by rewrite to_long_ulong|intros [= <-]; split; [by rewrite to_ulong_long|done]].
Qed.

Lemma is_bucket_h k b : is_bucket k b = true → b_h b = key_h k.
Proof.
  destruct k; cbn; unfold is_str_bucket, is_idx_bucket; rewrite andb_true_iff, Z.eqb_eq; naive_solver.
Qed.

Lemma key_absent t k : buckets_ok t → key_ok k →
  (∀ i b, arData t !! i = Some (Some b) → is_bucket k b = false) → k ∉ hkeys (abs t).
Proof.
  intros Hok Hk H (i & b & Hi & <-)%entries_key. specialize (H i b Hi).
  apply (ok_bucket t Hok) in Hi. by rewrite (proj2 (is_bucket_spec _ _ Hk Hi) eq_refl) in H.
Qed.

Lemma min_slot h : slot_of HT_MIN_MASK h < 2.
Proof. apply (slot_lt 1). lia. Qed.

Lemma slot_in_table t h : size_ok t → nTableMask t = mask_of t →
  slot_of (nTableMask t) h < Z.to_nat (nTableSize t).
Proof. intros (n & Hn & E) ->. unfold mask_of. rewrite E. apply slot_lt. lia. Qed.

(** What looking for a key in its slot finds, in a table with chains. *)
Definition found_ok t k (found : option (option nat * nat)) : Prop :=
  match found with
  | Some (prev, i) => ∃ l1 l2 b,
      members (nTableMask t) (arData t) (slot_of (nTableMask t) (key_h k)) (nNumUsed t) = l1 ++ i :: l2 ∧
      prev = last l1 ∧ arData t !! i = Some (Some b) ∧ key_of b = k
  | None => k ∉ hkeys (abs t)
  end.

Lemma find_in_slot_hash t k : buckets_ok t → hash_ok t → key_ok k →
  ∃ found, find_in_slot t (key_h k) (is_bucket k) = Done found ∧ found_ok t k found.
Proof.
  intros Hok (Hm & Hl & Hc) Hk. unfold find_in_slot, get_slot.
  pose proof (slot_in_table t (key_h k) (ok_size t Hok) Hm) as Hs.
  destruct (Hc (slot_of (nTableMask t) (key_h k))) as (o & -> & Ho); [lia|]. cbn [defined mbind outcome_bind].
  pose proof (find_chain_spec (is_bucket k) _ (nNumUsed t) None o _ Ho (members_length _ _ _ _)) as Hf.
  destruct (find_chain _ _ _ _ _) as [[[prev i]|]| |]; [| |done|done]; eexists; (split; [done|]); cbn.
  - destruct Hf as (l1 & l2 & b & El & -> & Hi & Hp). exists l1, l2, b. split_and!; [done|by destruct (last l1)|done|].
    apply is_bucket_spec; [done|by eapply ok_bucket|done].
  - apply key_absent; [done|done|]. intros i b Hi. destruct (is_bucket k b) eqn:Hp; [|done].
    rewrite <-Hp. apply (Hf i); [|done]. apply members_elem. split; [by eapply lookup_lt_Some|].
    apply in_slot_true. exists b. split; [done|]. by rewrite (is_bucket_h k).
Qed.

(** In a table without chains there is nothing to find. *)
Lemma find_in_slot_min t k :
  nTableMask t = HT_MIN_MASK → arHash t = [None; None] → find_in_slot t (key_h k) (is_bucket k) = Done None.
Proof.
  intros Hm Hh. unfold find_in_slot, get_slot. rewrite Hm, Hh. pose proof (min_slot (key_h k)) as Hs.
  destruct (slot_of HT_MIN_MASK (key_h k)) as [|[|]]; [| |lia]; cbn; by destruct (nNumUsed t).
Qed.

Lemma find_bucket_eq t k :
  match k with KStr s => zend_hash_find_bucket t s | KIdx n => zend_hash_index_find_bucket t (to_ulong n) end =
  find_in_slot t (key_h k) (is_bucket k).
Proof. by destruct k. Qed.

Lemma value_at_found t k found : hwf (abs t) → found_ok t k found → value_at t found = Done (hfind k (abs t)).
Proof.
  intros Hwf. destruct found as [[prev i]|]; cbn.
  - intros (l1 & l2 & b & _ & _ & Hi & <-). unfold get_bucket. rewrite Hi. cbn.
    unfold abs. by rewrite (hfind_live _ _ _ Hi Hwf).
  - intros Hn. apply hfind_None in Hn. by rewrite Hn.
Qed.

(** An index of a packed table is the place of its bucket. *)
Lemma packed_bucket t n : buckets_ok t → packed_ok t → key_ok (KIdx n) →
  ∀ b, arData t !! Z.to_nat (to_ulong n) = Some (Some b) → key_of b = KIdx n.
Proof.
  intros Hok (_ & _ & Hp) Hn b Hb. destruct (Hp _ _ Hb) as [Ek Eh]. unfold key_of. rewrite Ek, Eh.
  pose proof (to_ulong_range n). rewrite Z2Nat.id by lia. by rewrite to_long_ulong.
Qed.

Lemma packed_absent t n : buckets_ok t → packed_ok t → key_ok (KIdx n) →
  (∀ b, arData t !! Z.to_nat (to_ulong n) ≠ Some (Some b)) → KIdx n ∉ hkeys (abs t).
Proof.
  intros Hok (_ & _ & Hp) Hn H (i & b & Hi & E)%entries_key. destruct (Hp _ _ Hi) as [Ek Eh].
  unfold key_of in E. rewrite Ek, Eh in E. injection E as E.
  pose proof (ok_bucket t Hok _ _ Hi) as Hb. unfold bucket_ok in Hb. rewrite Ek, Eh in Hb.
  apply (H b). rewrite <-E, to_ulong_long by done. by rewrite Nat2Z.id.
Qed.

Lemma packed_no_str t s : packed_ok t → KStr s ∉ hkeys (abs t).
Proof. intros (_ & _ & Hp) (i & b & Hi & E)%entries_key. unfold key_of in E. by rewrite (proj1 (Hp _ _ Hi)) in E. Qed.

Lemma table_find_ok t k : table_ok t → key_ok k → table_find t k = Done (hfind k (abs t)).
Proof.
  intros [Hok Hf] Hk. pose proof (ok_keys t Hok) as Hwf. unfold form_ok in Hf.
  destruct (ht_initialized t) eqn:Hi.
  - destruct (ht_packed t) eqn:Hpk.
    + pose proof Hf as (Hm & Hh & Hp). destruct k as [s|n]; cbn [table_find].
      * unfold zend_hash_find. rewrite (find_bucket_eq t (KStr s)), find_in_slot_min by done. cbn.
        by rewrite (proj2 (hfind_None _ _) (packed_no_str t s Hf)).
      * unfold zend_hash_index_find. rewrite Hpk. pose proof (to_ulong_range n). case_match eqn:Hlt.
        -- destruct (lookup_lt_is_Some_2 (arData t) (Z.to_nat (to_ulong n))) as [ob Hob]; [unfold nNumUsed in *; lia|].
           rewrite Hob. cbn. destruct ob as [b|].
           ++ unfold abs in *. rewrite <-(hfind_live _ _ _ Hob Hwf). by rewrite (packed_bucket t n Hok Hf Hk b Hob).
           ++ symmetry. f_equal. apply hfind_None. apply packed_absent; [done..|]. intros b. congruence.
        -- symmetry. f_equal. apply hfind_None. apply packed_absent; [done..|]. intros b Hb.
           apply lookup_lt_Some in Hb. unfold nNumUsed in *. lia.
    + destruct (find_in_slot_hash t k Hok Hf Hk) as (found & E & Hfound).
      destruct k as [s|n]; cbn [table_find].
      * unfold zend_hash_find. rewrite (find_bucket_eq t (KStr s)), E. by apply value_at_found.
      * unfold zend_hash_index_find. rewrite Hpk, (find_bucket_eq t (KIdx n)), E. by apply value_at_found.
  - destruct Hf as (Hpk & Hd & Hm & Hh). unfold abs. rewrite Hd. destruct k as [s|n]; cbn [table_find].
    + unfold zend_hash_find. by rewrite (find_bucket_eq t (KStr s)), find_in_slot_min by done.
    + unfold zend_hash_index_find. rewrite Hpk. by rewrite (find_bucket_eq t (KIdx n)), find_in_slot_min by done.
Qed.
End tables.

(** ** Linking a bucket, and rehashing *)

Section rehash.
Context {A : Type}.
Implicit Types (data todo : list (option (bucket A))) (b : bucket A) (t : hashtable A) (v : A).

(** A bucket behind the others, put in front of the chain of its slot. *)
Lemma chains_push mask data hash v h key head :
  chains_ok mask data hash → hash !! slot_of mask h = Some head →
  chains_ok mask (data ++ [Some (Bucket v head h key)]) (<[slot_of mask h := Some (length data)]> hash).
Proof.
  intros Hc Hhead s. rewrite length_insert. intros Hs.
  set (data' := data ++ [Some (Bucket v head h key)]).
  assert (Hnew : data' !! length data = Some (Some (Bucket v head h key))) by (by apply list_lookup_middle).
  assert (Hold : ∀ i, i < length data → data' !! i = data !! i) by (intros; by apply lookup_app_l).
  assert (Hm : members mask data' s (length data) = members mask data s (length data)).
  { apply members_ext. intros i Hi. unfold in_slot. by rewrite Hold. }
  assert (El : length data' = S (length data)) by (unfold data'; rewrite length_app; cbn; lia).
  rewrite El. cbn [members]. rewrite Hm. destruct (Hc s Hs) as (o & Ho & Hch).
  assert (Hch' : chain data' o (members mask data s (length data))).
  { eapply chain_same; [exact Hch|]. intros i [Hi _]%members_elem. by apply Hold. }
  destruct (decide (slot_of mask h = s)) as [E|Hne].
  - exists (Some (length data)). subst s. rewrite list_lookup_insert_eq by done. split; [done|].
    rewrite (proj2 (in_slot_true _ _ _ _)) by eauto. split; [done|]. eexists. split; [exact Hnew|]. cbn.
    congruence.
  - exists o. rewrite list_lookup_insert_ne by done. split; [done|].
    destruct (in_slot mask data' s (length data)) eqn:E; [|done].
    apply in_slot_true in E as (b & Hb & Es). rewrite Hnew in Hb. injection Hb as <-. done.
Qed.

Definition same_bucket (b b' : bucket A) : Prop := b_val b' = b_val b ∧ b_h b' = b_h b ∧ b_key b' = b_key b.
Definition live data : list (bucket A) := omap (λ ob, ob) data.

Lemma entries_live data : entries data = entry_of <$> live data.
Proof. induction data as [|[b|] data IH]; cbn; [done| |done]. unfold entries in *. by rewrite IH. Qed.

Lemma same_entry b b' : same_bucket b b' → entry_of b' = entry_of b.
Proof. intros (Hv & Hh & Hk). unfold entry_of, key_of. by rewrite Hv, Hh, Hk. Qed.

Lemma live_some (bs : list (bucket A)) : live (Some <$> bs) = bs.
Proof. induction bs as [|b bs IH]; cbn; [done|]. unfold live in IH. by rewrite IH. Qed.

Lemma same_entries bs bs' : Forall2 same_bucket bs bs' → entry_of <$> bs' = entry_of <$> bs.
Proof. induction 1 as [|b b' bs bs' Hb _ IH]; cbn; [done|]. by rewrite IH, (same_entry _ _ Hb). Qed.

(** Where the internal pointer goes. *)
Definition moved (i : nat) todo (j : nat) (pointer : option nat) : option nat :=
  match pointer with
  | Some q => if decide (i ≤ q) then
                match todo !! (q - i) with Some (Some _) => Some (j + rank todo (q - i)) | _ => pointer end
              else pointer
  | None => None
  end.

Lemma rehash_loop_spec mask i todo data hash pointer :
  chains_ok mask data hash → length data ≤ i →
  (∀ j b, todo !! j = Some (Some b) → slot_of mask (b_h b) < length hash) →
  ∃ bs hash', rehash_loop mask i todo data hash pointer =
      Done (data ++ (Some <$> bs), hash', moved i todo (length data) pointer) ∧
    Forall2 same_bucket (live todo) bs ∧ chains_ok mask (data ++ (Some <$> bs)) hash' ∧
    length hash' = length hash.
Proof.
  revert i data hash pointer. induction todo as [|ob todo IH]; intros i data hash pointer Hc Hi Hs.
  - exists [], hash. cbn. rewrite app_nil_r. split_and!; [|constructor|done|done].
    f_equal. f_equal. destruct pointer as [q|]; cbn; [|done]. case_decide; [|done]. by destruct (q - i).
  - assert (Hs' : ∀ j b, todo !! j = Some (Some b) → slot_of mask (b_h b) < length hash)
      by (intros j; apply (Hs (S j))).
    destruct ob as [b|]; cbn [rehash_loop].
    + pose proof (Hs 0 b eq_refl) as Hlt. apply lookup_lt_is_Some_2 in Hlt as [head Hhead].
      rewrite Hhead. cbn [defined mbind outcome_bind].
      destruct (IH (S i) (data ++ [Some (Bucket (b_val b) head (b_h b) (b_key b))])
                  (<[slot_of mask (b_h b) := Some (length data)]> hash)
                  (if decide (pointer = Some i) then Some (length data) else pointer))
        as (bs & hash' & E & HF & Hc' & Hl).
      * by apply chains_push.
      * rewrite length_app. cbn. lia.
      * intros j b' Hb'. rewrite length_insert. eauto.
      * exists (Bucket (b_val b) head (b_h b) (b_key b) :: bs), hash'. rewrite E.
        rewrite <-app_assoc in *. rewrite length_insert in Hl. split_and!; [|by constructor|done|done].
        f_equal. f_equal. rewrite length_app. cbn [length]. unfold moved. case_decide as Hp.
        -- subst pointer. rewrite !decide_False by lia. rewrite decide_True by lia. rewrite Nat.sub_diag.
           cbn. f_equal. lia.
        -- destruct pointer as [q|]; [|done]. destruct (decide (i ≤ q)) as [Hle|Hnle]; [|by rewrite decide_False by lia].
           assert (q ≠ i) by congruence. rewrite decide_True by lia.
           replace (q - i) with (S (q - S i)) by lia. cbn [lookup list_lookup].
           destruct (todo !! (q - S i)) as [[b'|]|]; [|done|done]. f_equal. unfold rank, entries. cbn. lia.
    + destruct (IH (S i) data hash pointer Hc ltac:(lia) Hs') as (bs & hash' & E & HF & Hc' & Hl).
      exists bs, hash'. rewrite E. split_and!; [|done|done|done]. f_equal. f_equal.
      destruct pointer as [q|]; [|done]. unfold moved. destruct (decide (i ≤ q)) as [Hle|Hnle].
      * destruct (decide (S i ≤ q)) as [Hle'|Hne]; [|by replace (q - i) with 0 by lia].
        replace (q - i) with (S (q - S i)) by lia. cbn [lookup list_lookup].
        by destruct (todo !! (q - S i)) as [[b'|]|].
      * by rewrite decide_False by lia.
Qed.

(** What a change of the form of a table keeps. *)
Definition same_view t t' : Prop :=
  abs t' = abs t ∧ nNextFreeElement t' = nNextFreeElement t ∧ position t' = position t ∧
  nNumOfElements t' = nNumOfElements t.

Lemma chains_empty mask n : chains_ok mask ([] : list (option (bucket A))) (replicate n None).
Proof. intros s Hs. rewrite length_replicate in Hs. exists None. by rewrite lookup_replicate_2. Qed.

Lemma rehash_position t bs : buckets_ok t →
  Forall2 same_bucket (live (arData t)) bs →
  let pointer := moved 0 (arData t) 0 (nInternalPointer t) in
  (∀ i, pointer = Some i → ∃ b, (Some <$> bs) !! i = Some (Some b)) ∧
  match pointer with Some i => rank (Some <$> bs) i | None => length bs end = position t.
Proof.
  intros Hok HF. assert (Hlen : length bs = length (abs t)).
  { unfold abs. rewrite entries_live, length_fmap. symmetry. by apply Forall2_length in HF. }
  unfold moved, position. destruct (nInternalPointer t) as [q|] eqn:Hp; [|done].
  rewrite decide_True by lia. rewrite Nat.sub_0_r. destruct (ok_pointer t Hok q Hp) as [b Hb]. rewrite Hb. cbn [Nat.add].
  assert (Hr : rank (arData t) q < length bs).
  { rewrite Hlen. eapply lookup_lt_Some. unfold abs. by apply rank_lookup. }
  split.
  - intros i [= <-]. apply lookup_lt_is_Some_2 in Hr as [b' Hb']. exists b'. by rewrite list_lookup_fmap, Hb'.
  - unfold rank at 1. rewrite <-fmap_take, entries_live, live_some, length_fmap, length_take. lia.
Qed.

Lemma used_live t : length (abs t) ≤ nNumUsed t.
Proof.
  unfold abs, nNumUsed. rewrite entries_live, length_fmap.
  induction (arData t) as [|[b|] data IH]; cbn; [lia| |]; unfold live in *; lia.
Qed.

Lemma reset_size t : size_ok t → nTableMask t = mask_of t →
  Z.to_nat (U32 - nTableMask t) = Z.to_nat (nTableSize t).
Proof. intros _ ->. unfold mask_of. lia. Qed.

(** A table without elements loses its holes. *)
Lemma rehash_empty t :
  buckets_ok t → ht_initialized t = true → ht_packed t = false → nTableMask t = mask_of t → abs t = [] →
  table_ok (hash_reset (t <| arData := [] |>)) ∧ same_view t (hash_reset (t <| arData := [] |>)).
Proof.
  intros Hok Hi Hp Hm Ha. pose proof Hok as [Hsz Hus Hct Hks Hbk Hnx Hnk Hpt].
  assert (Hn : nInternalPointer t = None).
  { destruct (nInternalPointer t) as [i|] eqn:Ei; [|done]. destruct (Hpt i eq_refl) as [b Hb].
    apply rank_lookup in Hb. unfold abs in Ha. by rewrite Ha in Hb. }
  split; [split|split_and!]; [split; cbn|..].
  - done.
  - unfold nNumUsed. cbn. destruct Hsz as (k & Hk & ->). lia.
  - by rewrite Hct, Ha.
  - constructor.
  - by intros i b Hb.
  - done.
  - intros n Hn'. by apply elem_of_nil in Hn'.
  - intros i. by rewrite Hn.
  - unfold form_ok. cbn. rewrite Hi, Hp. split_and!; [done| |apply chains_empty].
    cbn. by rewrite length_replicate, reset_size.
  - by rewrite Ha.
  - done.
  - unfold position. cbn. by rewrite Hn, Ha.
  - done.
Qed.

(** The live buckets, linked anew. *)
Lemma rehash_linked t bs hash :
  buckets_ok t → ht_initialized t = true → ht_packed t = false → nTableMask t = mask_of t →
  Forall2 same_bucket (live (arData t)) bs → chains_ok (nTableMask t) (Some <$> bs) hash →
  length hash = Z.to_nat (nTableSize t) →
  let t' := t <| arData := Some <$> bs |> <| arHash := hash |>
              <| nInternalPointer := moved 0 (arData t) 0 (nInternalPointer t) |> in
  table_ok t' ∧ same_view t t' ∧ nNumUsed t' = length (abs t).
Proof.
  intros Hok Hi Hp Hm HF Hc Hl t'. pose proof Hok as [Hsz Hus Hct Hks Hbk Hnx Hnk Hpt].
  assert (Hab : abs t' = abs t).
  { change (entries (Some <$> bs) = entries (arData t)).
    by rewrite !entries_live, live_some, (same_entries _ _ HF). }
  assert (Hlb : length bs = length (abs t)).
  { unfold abs. rewrite entries_live, length_fmap. symmetry. by apply Forall2_length in HF. }
  destruct (rehash_position t bs Hok HF) as [Hpt' Hpos].
  assert (Hu : nNumUsed t' = length (abs t)) by (unfold nNumUsed; cbn; by rewrite length_fmap).
  split; [split|split; [split_and!|exact Hu]]; [split; rewrite ?Hab|..]; try done.
  - rewrite Hu. pose proof (used_live t). cbn. lia.
  - intros i b Hb. cbn in Hb. rewrite list_lookup_fmap in Hb. destruct (bs !! i) as [b1|] eqn:Eb; [|done].
    injection Hb as ->. destruct (Forall2_lookup_r _ _ _ _ _ HF Eb) as (b0 & Hb0 & (_ & Eh & Ek)).
    apply list_elem_of_lookup_2, list_elem_of_omap in Hb0 as (ob & Hin & ->).
    apply list_elem_of_lookup in Hin as [j Hj]. specialize (Hbk _ _ Hj). unfold bucket_ok in *. by rewrite Ek, Eh.
  - unfold form_ok. cbn. rewrite Hi, Hp. by split_and!.
  - unfold position at 1. rewrite Hab. cbn in *. by destruct (moved 0 (arData t) 0 (nInternalPointer t)); rewrite <-?Hlb.
Qed.

Lemma zend_hash_rehash_ok t :
  buckets_ok t → ht_initialized t = true → ht_packed t = false → nTableMask t = mask_of t →
  ∃ t', zend_hash_rehash t = Done t' ∧ table_ok t' ∧ same_view t t' ∧ nTableSize t' = nTableSize t ∧
    ht_initialized t' = true ∧ ht_packed t' = false ∧ nNumUsed t' = length (abs t).
Proof.
  intros Hok Hi Hp Hm. pose proof (reset_size t (ok_size t Hok) Hm) as Hlen.
  unfold zend_hash_rehash. destruct (nNumOfElements t =? 0)%Z eqn:E0.
  - apply Z.eqb_eq in E0. rewrite (ok_count t Hok) in E0. rewrite Hi.
    assert (Ha : abs t = []) by (destruct (abs t); [done|cbn in E0; lia]).
    destruct (rehash_empty t Hok Hi Hp Hm Ha) as [Ht' Hv]. eexists. split; [done|]. by rewrite Ha.
  - destruct (rehash_loop_spec (nTableMask t) 0 (arData t) [] (replicate (Z.to_nat (U32 - nTableMask t)) None)
                (nInternalPointer t)) as (bs & hash & E & HF & Hc & Hl); [apply chains_empty|done| |].
    { intros j b Hb. rewrite length_replicate, Hlen. apply slot_in_table; [by apply ok_size|done]. }
    unfold hash_reset. cbn in E |- *. rewrite E. cbn. rewrite length_replicate, Hlen in Hl.
    destruct (rehash_linked t bs hash Hok Hi Hp Hm HF Hc Hl) as (Ht' & Hv & Hu).
    eexists. by split.
Qed.
End rehash.

(** ** Adding and updating *)

Section adding.
Context {A : Type}.
Implicit Types (data : list (option (bucket A))) (b : bucket A) (t : hashtable A) (v : A) (k : hkey).

(** A table with chains. *)
Definition chained t : Prop := table_ok t ∧ ht_initialized t = true ∧ ht_packed t = false.

Lemma chained_hash_ok t : chained t → hash_ok t.
Proof. intros ([_ Hf] & Hi & Hp). unfold form_ok in Hf. by rewrite Hi, Hp in Hf. Qed.

(** What an operation that can end the request for lack of room returns. *)
Definition unless_full {B} (t : hashtable A) (Q : B → Prop) (o : outcome B) : Prop :=
  match o with Done a => Q a | Fatal => (0x40000000 ≤ nNumOfElements t)%Z | Undef => False end.

Lemma unless_full_mono {B C} t t' (Q : B → Prop) (R : C → Prop) o (f : B → outcome C) :
  nNumOfElements t = nNumOfElements t' → unless_full t Q o →
  (∀ a, Q a → unless_full t' R (f a)) → unless_full t' R (o ≫= f).
Proof. intros E H Hf. destruct o; cbn in *; [by apply Hf|by rewrite <-E|done]. Qed.

Lemma if_full_ok t : chained t →
  unless_full t (λ t', chained t' ∧ same_view t t' ∧ (Z.of_nat (nNumUsed t') < nTableSize t')%Z) (if_full_do_resize t).
Proof.
  intros Hch. pose proof Hch as ([Hok _] & Hi & Hp). pose proof (chained_hash_ok t Hch) as (Hm & _ & _).
  unfold if_full_do_resize. destruct (nTableSize t <=? Z.of_nat (nNumUsed t))%Z eqn:Ef; [|cbn; split_and!; [done..|lia]].
  pose proof (ok_used t Hok) as Hus. pose proof (ok_count t Hok) as Hct. unfold zend_hash_do_resize.
  destruct (nNumOfElements t + Z.shiftr (nNumOfElements t) 5 <? Z.of_nat (nNumUsed t))%Z eqn:Ec.
  - destruct (zend_hash_rehash_ok t Hok Hi Hp Hm) as (t' & -> & Ht' & Hv & Hs & Hi' & Hp' & Hu). cbn.
    split_and!; [done..|]. rewrite Hs, Hu.
    assert (0 ≤ Z.shiftr (nNumOfElements t) 5)%Z by (apply Z.shiftr_nonneg; lia). lia.
  - destruct (nTableSize t <? HT_MAX_SIZE)%Z eqn:Em.
    + set (t1 := hash_reset _).
      assert (Hok1 : buckets_ok t1).
      { destruct Hok as [(m & Hm1 & Em1) H2 H3 H4 H5 H6 H7 H8]. split; try done; cbn.
        - exists (m + 1)%Z. rewrite Em1 in *. unfold HT_MAX_SIZE in Em.
          assert (m ≠ 31)%Z by (intros ->; cbn in Em; lia).
          change (nTableSize t1) with (nTableSize t + nTableSize t)%Z. rewrite Z.pow_add_r by lia. split; lia.
        - change (nTableSize t1) with (nTableSize t + nTableSize t)%Z. unfold nNumUsed in *. cbn. lia. }
      destruct (zend_hash_rehash_ok t1 Hok1 Hi Hp eq_refl) as (t' & -> & Ht' & Hv & Hs & Hi' & Hp' & Hu). cbn.
      split_and!; [done..|]. rewrite Hs, Hu. pose proof (used_live t). change (abs t1) with (abs t).
      change (nTableSize t1) with (nTableSize t + nTableSize t)%Z.
      destruct (ok_size t Hok) as (m & ? & Em1). pose proof (Z.pow_pos_nonneg 2 m). lia.
    + cbn. unfold HT_MAX_SIZE in Em. rewrite Z.shiftr_div_pow2 in Ec by lia. change (2 ^ 5)%Z with 32%Z in Ec.
      pose proof (Z.div_mod (nNumOfElements t) 32). pose proof (Z.mod_pos_bound (nNumOfElements t) 32). lia.
Qed.

(** [bump] for the keys that are integers. *)
Definition grow k t : hashtable A := match k with KStr _ => t | KIdx n => bump (to_ulong n) t end.

Lemma grow_next k t : key_ok k → (0 ≤ nNextFreeElement t)%Z →
  grow k t = t <| nNextFreeElement := next_after k (nNextFreeElement t) |>.
Proof.
  intros Hk H0. destruct k as [s|n]; cbn; [by destruct t|]. unfold bump. rewrite to_long_ulong by done.
  destruct (nNextFreeElement t <=? n)%Z eqn:E; [|by destruct t].
  unfold to_ulong. rewrite Z.mod_small; [done|]. cbn in Hk. unfold U64. lia.
Qed.

Lemma next_after_range k next :
  key_ok k → (0 ≤ next ≤ ZEND_LONG_MAX)%Z → (next ≤ next_after k next ≤ ZEND_LONG_MAX)%Z.
Proof. unfold next_after, ZEND_LONG_MAX. destruct k as [s|n]; cbn; intros Hk Hn; repeat case_match; lia. Qed.

Lemma next_after_key n next : key_ok (KIdx n) →
  (n < next_after (KIdx n) next)%Z ∨ next_after (KIdx n) next = ZEND_LONG_MAX.
Proof. unfold next_after, ZEND_LONG_MAX. cbn. intros Hn. repeat case_match; lia. Qed.

Definition new_bucket k v head : bucket A := Bucket v head (key_h k) (key_str k).

Lemma new_bucket_key k v head : key_ok k → key_of (new_bucket k v head) = k.
Proof. destruct k; cbn; intros Hk; [done|]. unfold key_of. cbn. by rewrite to_long_ulong. Qed.
Lemma new_bucket_ok k v head : bucket_ok (new_bucket k v head).
Proof. destruct k; cbn; [done|]. apply to_ulong_range. Qed.

(** The buckets after one was put behind them, with undefined ones between. *)
Lemma buckets_push t t' k v head pad :
  buckets_ok t → key_ok k → k ∉ hkeys (abs t) →
  arData t' = arData t ++ replicate pad None ++ [Some (new_bucket k v head)] →
  size_ok t' → (Z.of_nat (nNumUsed t + pad) < nTableSize t')%Z →
  nNumOfElements t' = (nNumOfElements t + 1)%Z →
  nNextFreeElement t' = next_after k (nNextFreeElement t) →
  nInternalPointer t' = match nInternalPointer t with None => Some (nNumUsed t + pad) | p => p end →
  buckets_ok t' ∧ abs t' = hupdate k v (abs t) ∧ position t' = position t.
Proof.
  intros Hok Hk Hnew Hd Hsz Hus Hct Hnx Hpt.
  assert (Hab : abs t' = abs t ++ [(k, v)]).
  { unfold abs. rewrite Hd, !entries_app, entries_none. cbn. unfold entry_of. by rewrite new_bucket_key. }
  assert (Hlive : ∀ i b, arData t' !! i = Some (Some b) →
    arData t !! i = Some (Some b) ∨ i = nNumUsed t + pad ∧ b = new_bucket k v head).
  { intros i b Hb. rewrite Hd in Hb. apply lookup_app_Some in Hb as [Hb|[Hle Hb]]; [by left|]. right.
    apply lookup_app_Some in Hb as [Hb|[Hle' Hb]]; [by apply lookup_replicate in Hb as [? _]|].
    rewrite length_replicate in *. apply list_lookup_singleton_Some in Hb as [Hi [= <-]].
    split; [unfold nNumUsed; lia|done]. }
  assert (Hold : ∀ i b, arData t !! i = Some (Some b) → arData t' !! i = Some (Some b)).
  { intros i b Hb. rewrite Hd. by apply lookup_app_l_Some. }
  assert (Hat : arData t' !! (nNumUsed t + pad) = Some (Some (new_bucket k v head))).
  { rewrite Hd, lookup_app_r by (unfold nNumUsed; lia). rewrite lookup_app_r by (rewrite length_replicate; unfold nNumUsed; lia).
    rewrite length_replicate. by replace (nNumUsed t + pad - length (arData t) - pad) with 0 by (unfold nNumUsed; lia). }
  split; [split|split].
  - done.
  - unfold nNumUsed in *. rewrite Hd, !length_app, length_replicate. cbn. lia.
  - rewrite Hct, (ok_count t Hok), Hab, length_app. cbn. lia.
  - unfold hwf, hkeys. rewrite Hab, fmap_app. apply NoDup_app. split_and!; [apply (ok_keys t Hok)| |apply NoDup_singleton].
    intros x Hx Hx'. cbn in Hx'. apply list_elem_of_singleton in Hx'. by subst x.
  - intros i b [Hb|[_ ->]]%Hlive; [by eapply ok_bucket|apply new_bucket_ok].
  - rewrite Hnx. pose proof (ok_next t Hok). pose proof (next_after_range k _ Hk (ok_next t Hok)). lia.
  - intros n Hn. rewrite Hnx. rewrite Hab in Hn. unfold hkeys in Hn. rewrite fmap_app in Hn. apply elem_of_app in Hn as [Hn|Hn].
    + pose proof (next_after_range k _ Hk (ok_next t Hok)). destruct (ok_next_key t Hok n Hn) as [?|?]; lia.
    + cbn in Hn. apply list_elem_of_singleton in Hn. subst k. by apply next_after_key.
  - intros i Hi. rewrite Hpt in Hi. destruct (nInternalPointer t) as [j|] eqn:Ej.
    + injection Hi as <-. destruct (ok_pointer t Hok j Ej) as [b Hb]. eauto.
    + injection Hi as <-. eauto.
  - by rewrite Hab, hupdate_new.
  - unfold position. rewrite Hpt. destruct (nInternalPointer t) as [j|] eqn:Ej.
    + destruct (ok_pointer t Hok j Ej) as [b Hb]. apply lookup_lt_Some in Hb. unfold rank. rewrite Hd.
      by rewrite take_app_le by lia.
    + unfold rank, abs. rewrite Hd, app_assoc, take_app_length', entries_app, entries_none, app_nil_r; [done|].
      by rewrite length_app, length_replicate.
Qed.
End adding.

Section putting.
Context {A : Type}.
Implicit Types (data : list (option (bucket A))) (b : bucket A) (t : hashtable A) (v : A) (k : hkey).

(** What a table is after a value was stored under a key. *)
Definition stored t k v t' : Prop :=
  table_ok t' ∧ abs t' = hupdate k v (abs t) ∧
  nNextFreeElement t' = next_after k (nNextFreeElement t) ∧ position t' = position t.

Lemma add_to_hash_ok t k v :
  chained t → key_ok k → k ∉ hkeys (abs t) → (Z.of_nat (nNumUsed t) < nTableSize t)%Z →
  ∃ t', add_to_hash (grow k t) (key_str k) (key_h k) v = Done t' ∧ stored t k v t'.
Proof.
  intros Hch Hk Hnew Hlt. pose proof (chained_hash_ok t Hch) as (Hm & Hl & Hc). destruct Hch as ([Hok _] & Hi & Hp).
  rewrite grow_next by (done || apply (ok_next t Hok)). unfold add_to_hash. cbn.
  change (nNumUsed (t <| nNextFreeElement := _ |>)) with (nNumUsed t). rewrite (proj2 (Z.leb_gt _ _)) by done.
  pose proof (slot_in_table t (key_h k) (ok_size t Hok) Hm) as Hs. rewrite <-Hl in Hs.
  apply lookup_lt_is_Some_2 in Hs as [head Hhead]. unfold get_slot. cbn. rewrite Hhead. cbn.
  eexists. split; [done|]. match goal with |- stored _ _ _ ?x => set (t' := x) end.
  destruct (buckets_push t t' k v head 0 Hok Hk Hnew) as (Hok' & Hab & Hpos); cbn; rewrite ?Nat.add_0_r; try done.
  { exact (ok_size t Hok). }
  split_and!; [split; [done|]|done..]. unfold form_ok. cbn. rewrite Hi, Hp.
  split_and!; [done|subst t'; cbn; by rewrite length_insert|]. subst t'. cbn. by apply chains_push.
Qed.

(** A value that is replaced in place. *)
Lemma set_value_ok t i b v :
  table_ok t → arData t !! i = Some (Some b) →
  ∃ t', set_value t i v = Done t' ∧ table_ok t' ∧ abs t' = hupdate (key_of b) v (abs t) ∧
    nNextFreeElement t' = nNextFreeElement t ∧ position t' = position t.
Proof.
  intros [Hok Hf] Hb. unfold set_value, get_bucket. rewrite Hb. cbn. eexists. split; [done|].
  set (b' := Bucket v (b_next b) (b_h b) (b_key b)). set (t' := t <| arData := _ |>).
  pose proof Hok as [Hsz Hus Hct Hks Hbk Hnx Hnk Hpt].
  assert (Hab : abs t' = hupdate (key_of b) v (abs t)) by (by apply (entries_set _ _ _ Hb Hks b')).
  assert (Hlive : ∀ j c, arData t' !! j = Some (Some c) → ∃ c', arData t !! j = Some (Some c') ∧
    b_key c = b_key c' ∧ b_h c = b_h c').
  { intros j c Hc. cbn in Hc. apply list_lookup_insert_Some in Hc as [(<- & [= <-] & _)|[_ Hc]]; [|eauto].
    exists b. by split_and!. }
  assert (Hrank : ∀ j, rank (arData t') j = rank (arData t) j).
  { intros j. unfold rank. cbn. destruct (decide (i < j)).
    - rewrite take_insert_lt by done. rewrite (entries_set (take j (arData t)) i b) with (b' := b').
      + apply length_hupdate_old. apply entries_key. exists i, b. by rewrite lookup_take_lt.
      + by rewrite lookup_take_lt.
      + unfold hwf, hkeys, abs in *. rewrite <-(take_drop j (arData t)), entries_app, fmap_app in Hks.
        by apply NoDup_app in Hks as [Hks _].
      + done.
    - by rewrite take_insert_ge by lia. }
  split_and!; [split|done|done|].
  - split; rewrite ?Hab; try done.
    + unfold nNumUsed in *. cbn. by rewrite length_insert.
    + rewrite length_hupdate_old; [done|]. apply entries_key. eauto.
    + by apply hwf_hupdate.
    + intros j c (c' & Hc & Ek & Eh)%Hlive. specialize (Hbk _ _ Hc). unfold bucket_ok in *. by rewrite Ek, Eh.
    + intros n Hn. apply Hnk. rewrite hkeys_hupdate_old in Hn; [done|]. apply entries_key. eauto.
    + intros j Hj. destruct (Hpt j Hj) as [c Hc]. cbn. destruct (decide (i = j)) as [->|].
      * rewrite list_lookup_insert_eq by (by eapply lookup_lt_Some). eauto.
      * rewrite list_lookup_insert_ne by done. eauto.
  - unfold form_ok in *. cbn. destruct (ht_initialized t); [|by destruct Hf as (_ & E & _); rewrite E in Hb].
    destruct (ht_packed t).
    + destruct Hf as (Hm & Hh & Hpk). split_and!; [done..|]. intros j c (c' & Hc & Ek & Eh)%Hlive.
      rewrite Ek, Eh. by apply Hpk.
    + destruct Hf as (Hm & Hl & Hc). split_and!; [done..|]. intros s Hs. destruct (Hc s Hs) as (o & Ho & Hch).
      exists o. split; [done|]. cbn. rewrite length_insert.
      erewrite members_ext; [eapply chain_ext; [exact Hch|]|].
      * intros j c Hj Hcj. destruct (decide (i = j)) as [->|].
        -- exists b'. rewrite list_lookup_insert_eq by (by eapply lookup_lt_Some). split; [done|].
           assert (c = b) as -> by congruence. done.
        -- exists c. by rewrite list_lookup_insert_ne.
      * intros j Hj. unfold in_slot. destruct (decide (i = j)) as [->|].
        -- rewrite list_lookup_insert_eq, Hb by done. done.
        -- by rewrite list_lookup_insert_ne.
  - unfold position. change (nInternalPointer t') with (nInternalPointer t).
    destruct (nInternalPointer t); [by rewrite Hrank|].
    rewrite Hab, length_hupdate_old; [done|]. apply entries_key. eauto.
Qed.
End putting.

Definition table_put {A} (t : hashtable A) (k : hkey) (v : A) (flag : add_flags) : outcome (option (hashtable A)) :=
  match k with
  | KStr s => _zend_hash_add_or_update_i t s v flag
  | KIdx n => _zend_hash_index_add_or_update_i t (to_ulong n) v flag
  end.

Section put.
Context {A : Type}.
Implicit Types (data : list (option (bucket A))) (b : bucket A) (t : hashtable A) (v : A) (k : hkey).

Lemma stored_view t t1 k v t' : same_view t t1 → stored t1 k v t' → stored t k v t'.
Proof. intros (Ha & Hn & Hp & _) (Hok & Ha' & Hn' & Hp'). split_and!; congruence. Qed.

(** The end of both functions: room is made, and the bucket added. *)
Lemma add_chained t k v : chained t → key_ok k → k ∉ hkeys (abs t) →
  unless_full t (λ r, ∃ t', r = Some t' ∧ stored t k v t')
    (t1 ← if_full_do_resize t; Some <$> add_to_hash (grow k t1) (key_str k) (key_h k) v).
Proof.
  intros Hch Hk Hnew. eapply unless_full_mono; [done|by apply if_full_ok|].
  intros t1 (Hch1 & Hv & Hlt). pose proof Hv as (Ha & _).
  destruct (add_to_hash_ok t1 k v Hch1 Hk ltac:(by rewrite Ha) Hlt) as (t' & -> & Hst).
  exists t'. split; [done|]. by eapply stored_view.
Qed.

Lemma packed_to_hash_ok t : table_ok t → ht_initialized t = true → ht_packed t = true →
  ∃ t', zend_hash_packed_to_hash t = Done t' ∧ chained t' ∧ same_view t t'.
Proof.
  intros [Hok _] Hi Hp. unfold zend_hash_packed_to_hash. set (t1 := hash_reset _).
  assert (Hok1 : buckets_ok t1) by (by destruct Hok; split).
  destruct (zend_hash_rehash_ok t1 Hok1 Hi eq_refl eq_refl) as (t' & E & Ht' & Hv & _ & Hi' & Hp' & _).
  exists t'. by split_and!.
Qed.

Lemma add_converted t k v : table_ok t → ht_initialized t = true → ht_packed t = true → key_ok k → k ∉ hkeys (abs t) →
  unless_full t (λ r, ∃ t', r = Some t' ∧ stored t k v t')
    (zend_hash_packed_to_hash t ≫= λ t0, t1 ← if_full_do_resize t0; Some <$> add_to_hash (grow k t1) (key_str k) (key_h k) v).
Proof.
  intros Ht Hi Hp Hk Hnew. destruct (packed_to_hash_ok t Ht Hi Hp) as (t0 & -> & Hch & Hv).
  pose proof Hv as (Ha & _ & _ & Hn). pose proof (add_chained t0 k v Hch Hk ltac:(by rewrite Ha)) as Hadd.
  cbn [mbind outcome_bind]. unfold unless_full in *. case_match; [|by rewrite <-Hn|done].
  destruct Hadd as (t' & -> & Hst). exists t'. split; [done|]. by eapply stored_view.
Qed.

(** A new table that is given its first form. *)
Lemma real_init_ok packed t : table_ok t → ht_initialized t = false →
  let t' := zend_hash_real_init_ex packed t in
  table_ok t' ∧ same_view t t' ∧ ht_initialized t' = true ∧ ht_packed t' = packed ∧ nNumUsed t' = 0 ∧
  nTableSize t' = nTableSize t.
Proof.
  intros [Hok Hf] Hi t'. unfold form_ok in Hf. rewrite Hi in Hf. destruct Hf as (Hp & Hd & Hm & Hh).
  assert (Hok' : buckets_ok t') by (unfold t'; destruct packed; by destruct Hok; split).
  assert (Hf' : form_ok t').
  { unfold t', form_ok. destruct packed; cbn.
    - split_and!; [done..|]. intros i b. cbn. by rewrite Hd.
    - rewrite Hp. split_and!; [done| |].
      + cbn. rewrite length_replicate. unfold mask_of. cbn. lia.
      + cbn. rewrite Hd. apply chains_empty. }
  unfold t' in *. split_and!; [by split|by destruct packed|by destruct packed|by destruct packed| |by destruct packed].
  unfold nNumUsed. destruct packed; cbn; by rewrite Hd.
Qed.

Lemma add_to_packed_ok t n v :
  table_ok t → ht_initialized t = true → ht_packed t = true → key_ok (KIdx n) →
  (Z.of_nat (nNumUsed t) ≤ to_ulong n < nTableSize t)%Z →
  ∃ t', add_to_packed t (to_ulong n) v = Done t' ∧ stored t (KIdx n) v t' ∧ KIdx n ∉ hkeys (abs t).
Proof.
  intros [Hok Hf] Hi Hp Hn Hr. unfold form_ok in Hf. rewrite Hi, Hp in Hf.
  assert (Hnew : KIdx n ∉ hkeys (abs t)).
  { apply packed_absent; [done..|]. intros b Hb%lookup_lt_Some. unfold nNumUsed in Hr. lia. }
  unfold add_to_packed. rewrite (proj2 (Z.leb_gt _ _)) by lia.
  match goal with |- context [bump _ ?x] => pose proof (grow_next (KIdx n) x Hn (proj1 (ok_next t Hok))) as E end.
  cbn [grow] in E. rewrite E. eexists. split; [done|]. split; [|done].
  match goal with |- stored _ _ _ ?x => set (t' := x) end.
  destruct (buckets_push t t' (KIdx n) v None (Z.to_nat (to_ulong n) - nNumUsed t) Hok Hn Hnew) as (Hok' & Hab & Hpos).
  - done.
  - exact (ok_size t Hok).
  - change (nTableSize t') with (nTableSize t). lia.
  - done.
  - done.
  - subst t'. cbn. destruct (nInternalPointer t); [done|]. f_equal. lia.
  - split_and!; [split; [done|]|done..]. unfold form_ok. change (ht_initialized t') with (ht_initialized t).
    change (ht_packed t') with (ht_packed t). rewrite Hi, Hp. destruct Hf as (Hm & Hh & Hpk).
    split_and!; [done..|]. intros i b Hb. subst t'. cbn in Hb.
    apply lookup_app_Some in Hb as [Hb|[Hle Hb]]; [by apply Hpk|].
    apply lookup_app_Some in Hb as [Hb|[Hle' Hb]]; [by apply lookup_replicate in Hb as [? _]|].
    rewrite length_replicate in *. apply list_lookup_singleton_Some in Hb as [Hi' [= <-]].
    split; [done|]. cbn. unfold nNumUsed in *. lia.
Qed.

Lemma next_after_old t k : buckets_ok t → key_ok k → k ∈ hkeys (abs t) →
  next_after k (nNextFreeElement t) = nNextFreeElement t.
Proof.
  intros Hok Hk Hin. destruct k as [s|n]; [done|]. unfold next_after.
  pose proof (ok_next t Hok). cbn in Hk.
  destruct (ok_next_key t Hok n Hin) as [Hlt|E]; [by rewrite (proj2 (Z.leb_gt _ _)) by done|].
  rewrite E in *. unfold ZEND_LONG_MAX in *. repeat case_match; lia.
Qed.

(** Overwriting, with the bump that does nothing. *)
Lemma overwrite_ok t i b v k : table_ok t → key_ok k → arData t !! i = Some (Some b) → key_of b = k →
  ∃ t', set_value t i v = Done t' ∧ stored t k v t' ∧ grow k t' = t'.
Proof.
  intros Ht Hk Hb <-. pose proof Ht as [Hok _].
  assert (Hin : key_of b ∈ hkeys (abs t)) by (apply entries_key; eauto).
  destruct (set_value_ok t i b v Ht Hb) as (t' & E & Ht' & Hab & Hnx & Hpos). exists t'. split; [done|].
  pose proof (next_after_old t _ Hok Hk Hin) as Hna. split; [split_and!; congruence|].
  rewrite grow_next, Hnx, Hna, <-Hnx; [by destruct t'|done|]. destruct Ht' as [Hok' _]. apply (ok_next t' Hok').
Qed.
End put.

Section operations.
Context {A : Type}.
Implicit Types (data : list (option (bucket A))) (b : bucket A) (t : hashtable A) (v : A) (k : hkey).

Definition put_spec t k v (flag : add_flags) (r : option (hashtable A)) : Prop :=
  match r with
  | Some t' => stored t k v t' ∧ (HASH_ADD flag = true → k ∉ hkeys (abs t))
  | None => HASH_ADD flag = true ∧ k ∈ hkeys (abs t)
  end.

Lemma put_added t t0 k v flag o :
  k ∉ hkeys (abs t) → nNumOfElements t0 = nNumOfElements t →
  unless_full t0 (λ r, ∃ t', r = Some t' ∧ stored t k v t') o → unless_full t (put_spec t k v flag) o.
Proof.
  intros Hnew E. unfold unless_full. destruct o; [|by rewrite E|done]. intros (t' & -> & Hst). by split.
Qed.

(** In a table with chains: look the key up, then overwrite or add. *)
Lemma put_chained t k v flag :
  chained t → key_ok k →
  unless_full t (put_spec t k v flag)
    (found ← find_in_slot t (key_h k) (is_bucket k);
     match found with
     | Some (_, i) => if HASH_ADD flag then Done None else t' ← set_value t i v; mret (Some (grow k t'))
     | None => t1 ← if_full_do_resize t; Some <$> add_to_hash (grow k t1) (key_str k) (key_h k) v
     end).
Proof.
  intros Hch Hk. pose proof (chained_hash_ok t Hch) as Hh. pose proof Hch as (Ht & _ & _). pose proof Ht as [Hok _].
  destruct (find_in_slot_hash t k Hok Hh Hk) as ([[prev i]|] & -> & Hf); cbn [mbind outcome_bind].
  - destruct Hf as (_ & _ & b & _ & _ & Hb & Hkb).
    assert (Hin : k ∈ hkeys (abs t)) by (apply entries_key; eauto).
    destruct (HASH_ADD flag) eqn:Ha; [by split|].
    destruct (overwrite_ok t i b v k Ht Hk Hb Hkb) as (t' & -> & Hst & Hg). cbn. rewrite Hg. split; [done|congruence].
  - eapply put_added; [exact Hf|done|]. by apply add_chained.
Qed.

Lemma put_packed t n v flag :
  table_ok t → ht_initialized t = true → ht_packed t = true → key_ok (KIdx n) → HASH_ADD_NEW flag = false →
  unless_full t (put_spec t (KIdx n) v flag) (table_put t (KIdx n) v flag).
Proof.
  intros Ht Hi Hp Hk Hnf. pose proof Ht as [Hok Hf]. unfold form_ok in Hf. rewrite Hi, Hp in Hf.
  pose proof (to_ulong_range n) as Hr. cbn [table_put]. unfold _zend_hash_index_add_or_update_i. rewrite Hi, Hp. cbn [negb].
  case_match eqn:Hu.
  { destruct (lookup_lt_is_Some_2 (arData t) (Z.to_nat (to_ulong n))) as [ob Hob]; [unfold nNumUsed in *; lia|].
    rewrite Hob. cbn [defined mbind outcome_bind]. destruct ob as [b|].
    - pose proof (packed_bucket t n Hok Hf Hk b Hob) as Hkb.
      assert (Hin : KIdx n ∈ hkeys (abs t)) by (apply entries_key; eauto).
      destruct (HASH_ADD flag) eqn:Ha; [by split|].
      destruct (overwrite_ok t _ b v _ Ht Hk Hob Hkb) as (t' & -> & Hst & Hg). cbn in Hg |- *. rewrite Hg.
      split; [done|congruence].
    - assert (Hnew : KIdx n ∉ hkeys (abs t)) by (apply packed_absent; [done..|]; intros b; congruence).
      eapply put_added; [exact Hnew|done|]. by apply (add_converted t (KIdx n) v). }
  assert (Hnew : KIdx n ∉ hkeys (abs t)).
  { apply packed_absent; [done..|]. intros b Hb%lookup_lt_Some. unfold nNumUsed in *. lia. }
  case_match eqn:Hs.
  { destruct (add_to_packed_ok t n v Ht Hi Hp Hk ltac:(lia)) as (t' & -> & Hst & _). by split. }
  case_match eqn:Hg; [|eapply put_added; [exact Hnew|done|]; by apply (add_converted t (KIdx n) v)].
  apply andb_true_iff in Hg as [Hg1 Hg2]. unfold zend_hash_packed_grow.
  rewrite Z.shiftr_div_pow2 in Hg1, Hg2 by lia. change (2 ^ 1)%Z with 2%Z in *.
  pose proof (Z.div_mod (to_ulong n) 2). pose proof (Z.mod_pos_bound (to_ulong n) 2).
  pose proof (Z.div_mod (nTableSize t) 2). pose proof (Z.mod_pos_bound (nTableSize t) 2).
  destruct (ok_size t Hok) as (m & Hm & Em). unfold HT_MAX_SIZE. case_match eqn:Hmax; [cbn; lia|].
  set (t1 := t <| nTableSize := _ |>). cbn [mbind outcome_bind].
  assert (Ht1 : table_ok t1).
  { split; [|unfold form_ok; cbn; by rewrite Hi, Hp]. destruct Hok as [H1' H2' H3' H4' H5' H6' H7' H8'].
    split; try done; unfold t1, nNumUsed in *; cbn; [|clear -H2'; lia]. exists (m + 1)%Z. rewrite Em.
    assert (m ≠ 31)%Z by (intros ->; rewrite Em in *; lia). rewrite Z.pow_add_r by lia. clear H H0 H1 H2. split; cbn; lia. }
  destruct (add_to_packed_ok t1 n v Ht1 Hi Hp Hk) as (t' & -> & Hst & _); [|by split].
  unfold t1, nNumUsed in *. cbn. lia.
Qed.

Lemma fmap_bind_id {B} (o : outcome B) : (t ← o; mret (Some t)) = Some <$> o.
Proof. by destruct o. Qed.

(** Storing under a key, with or without permission to overwrite. *)
Lemma put_ok t k v flag :
  table_ok t → key_ok k → HASH_ADD_NEW flag = false →
  unless_full t (put_spec t k v flag) (table_put t k v flag).
Proof.
  intros Ht Hk Hnf. pose proof Ht as [Hok Hf]. unfold form_ok in Hf. destruct (ht_initialized t) eqn:Hi.
  - destruct (ht_packed t) eqn:Hp.
    + destruct k as [s|n]; [|by apply put_packed]. cbn [table_put]. unfold _zend_hash_add_or_update_i. rewrite Hi, Hp. cbn [negb].
      pose proof (packed_no_str t s Hf) as Hnew. eapply put_added; [exact Hnew|done|].
      by apply (add_converted t (KStr s) v).
    + assert (Hch : chained t) by (by split_and!). pose proof (put_chained t k v flag Hch Hk) as H.
      destruct k as [s|n]; cbn [table_put];
        unfold _zend_hash_add_or_update_i, _zend_hash_index_add_or_update_i; rewrite Hi, Hp, Hnf; cbn [negb].
      * rewrite (find_bucket_eq t (KStr s)). destruct (find_in_slot t _ _) as [[[prev i]|]| |]; [|exact H..].
        cbn [mbind outcome_bind] in *. destruct (HASH_ADD flag); [exact H|]. rewrite <-fmap_bind_id. exact H.
      * rewrite (find_bucket_eq t (KIdx n)). exact H.
  - destruct Hf as (Hp & Hd & Hm & Hh).
    assert (Hnew : k ∉ hkeys (abs t)) by (unfold abs; rewrite Hd; apply not_elem_of_nil).
    assert (Hhash : ∃ t', add_to_hash (grow k (zend_hash_real_init_ex false t)) (key_str k) (key_h k) v = Done t' ∧ stored t k v t').
    { destruct (real_init_ok false t Ht Hi) as (Ht0 & Hv & Hi0 & Hp0 & Hu0 & Hs0).
      destruct (add_to_hash_ok (zend_hash_real_init_ex false t) k v) as (t' & E & Hst); [by split_and!|done| | |].
      - by rewrite (proj1 Hv).
      - rewrite Hu0, Hs0. destruct (ok_size t Hok) as (m & ? & ->). pose proof (Z.pow_pos_nonneg 2 m). lia.
      - exists t'. split; [done|]. by eapply stored_view. }
    destruct Hhash as (t' & E & Hst). destruct k as [s|n]; cbn [table_put];
      unfold _zend_hash_add_or_update_i, _zend_hash_index_add_or_update_i; rewrite Hi; cbn [negb].
    + cbn [grow key_str key_h] in E. rewrite E. by split.
    + case_match eqn:Hlt; [|cbn [grow key_str key_h] in E; rewrite E; by split].
      destruct (real_init_ok true t Ht Hi) as (Ht0 & Hv & Hi0 & Hp0 & Hu0 & Hs0).
      destruct (add_to_packed_ok (zend_hash_real_init_ex true t) n v Ht0 Hi0 Hp0 Hk) as (t1 & -> & Hst1 & _).
      * pose proof (to_ulong_range n). rewrite Hu0, Hs0. lia.
      * split; [by eapply stored_view|done].
Qed.

Lemma table_update_ok t k v : table_ok t → key_ok k →
  unless_full t (λ r, ∃ t', r = Some t' ∧ stored t k v t') (table_update t k v).
Proof.
  intros Ht Hk. pose proof (put_ok t k v HASH_UPDATE Ht Hk eq_refl) as H.
  replace (table_update t k v) with (table_put t k v HASH_UPDATE) by (by destruct k).
  unfold unless_full in *. destruct (table_put t k v HASH_UPDATE) as [[t'|]| |]; [|by destruct H|done..].
  destruct H as [H _]. eauto.
Qed.
End operations.

(** ** Deleting *)

Section deleting.
Context {A : Type}.
Implicit Types (data : list (option (bucket A))) (b : bucket A) (t : hashtable A) (v : A) (k : hkey).

(** The same buckets with other links. *)
Definition relinked : list (option (bucket A)) → list (option (bucket A)) → Prop :=
  Forall2 (option_Forall2 same_bucket).

Lemma relinked_refl data : relinked data data.
Proof. induction data as [|[b|] data IH]; constructor; try done; by constructor. Qed.

Lemma relinked_entries data data' : relinked data data' → entries data' = entries data.
Proof.
  induction 1 as [|ob ob' data data' Hb _ IH]; [done|]. unfold entries in *.
  destruct Hb as [b b' Hb|]; cbn; [|done]. by rewrite IH, (same_entry _ _ Hb).
Qed.

Lemma relinked_rank data data' j : relinked data data' → rank data' j = rank data j.
Proof. intros H. unfold rank. f_equal. apply relinked_entries. by apply Forall2_take. Qed.

Lemma relinked_live data data' j b' :
  relinked data data' → data' !! j = Some (Some b') → ∃ b, data !! j = Some (Some b) ∧ same_bucket b b'.
Proof.
  intros H Hb. destruct (Forall2_lookup_r _ _ _ _ _ H Hb) as (ob & Hob & Hs). inversion Hs; subst. eauto.
Qed.
Lemma relinked_live_2 data data' j b :
  relinked data data' → data !! j = Some (Some b) → ∃ b', data' !! j = Some (Some b') ∧ same_bucket b b'.
Proof.
  intros H Hb. destruct (Forall2_lookup_l _ _ _ _ _ H Hb) as (ob & Hob & Hs). inversion Hs; subst. eauto.
Qed.

Lemma relinked_set data i b next :
  data !! i = Some (Some b) → relinked data (<[i := Some (Bucket (b_val b) next (b_h b) (b_key b))]> data).
Proof.
  intros Hb. rewrite <-(list_insert_id data i (Some b)) at 1 by done.
  apply Forall2_insert; [apply relinked_refl|]. by constructor.
Qed.

Lemma rank_lt data i j b : data !! i = Some (Some b) → i < j → rank data i < rank data j.
Proof.
  intros Hb Hlt. assert (H : rank data (S i) ≤ rank data j).
  { unfold rank. rewrite <-(take_drop (S i) (take j data)), entries_app, length_app, take_take.
    replace (S i `min` j) with (S i) by lia. lia. }
  rewrite (rank_S _ _ _ Hb) in H. lia.
Qed.

Lemma rank_remove data i j b : data !! i = Some (Some b) →
  rank (<[i := None]> data) j = if decide (i < j) then rank data j - 1 else rank data j.
Proof.
  intros Hb. unfold rank. case_decide as Hlt.
  - rewrite take_insert_lt by done. assert (Hb' : take j data !! i = Some (Some b)) by (by rewrite lookup_take_lt).
    rewrite (entries_insert _ _ _ _ Hb'), (entries_split _ _ _ Hb'), !length_app. cbn. lia.
  - by rewrite take_insert_ge by lia.
Qed.

Lemma rank_pad data n j : rank (data ++ replicate n None) j = rank data j.
Proof.
  unfold rank. rewrite take_app, entries_app, length_app.
  assert (E : take (j - length data) (replicate n None : list (option (bucket A))) = replicate (min (j - length data) n) None).
  { apply take_replicate. }
  rewrite E, entries_none. cbn. lia.
Qed.

(** Where the internal pointer is after the bucket with [r] live ones before it went. *)
Definition position_without (r p : nat) : nat := if decide (r < p) then p - 1 else p.

Lemma buckets_remove t t' i b data n :
  buckets_ok t → arData t !! i = Some (Some b) → relinked (arData t) data →
  <[i := None]> data = arData t' ++ replicate n None →
  nTableSize t' = nTableSize t → nNumOfElements t' = (nNumOfElements t - 1)%Z →
  nNextFreeElement t' = nNextFreeElement t →
  nInternalPointer t' = (if decide (nInternalPointer t = Some i) then next_live (S i) (arData t') else nInternalPointer t) →
  buckets_ok t' ∧ abs t' = hdel (key_of b) (abs t) ∧
  position t' = position_without (rank (arData t) i) (position t).
Proof.
  intros Hok Hb Hrel Hd Hsz Hct Hnx Hpt. pose proof Hok as [Hsz0 Hus0 Hct0 Hks0 Hbk0 Hnx0 Hnk0 Hpt0].
  destruct (relinked_live_2 _ _ _ _ Hrel Hb) as (b1 & Hb1 & Hs1).
  assert (Hkeys : hwf (entries data)) by (by rewrite (relinked_entries _ _ Hrel)).
  assert (Hab : abs t' = hdel (key_of b) (abs t)).
  { unfold abs. rewrite <-(app_nil_r (entries (arData t'))), <-(entries_none n), <-entries_app, <-Hd.
    rewrite (entries_remove _ _ _ Hb1 Hkeys), (relinked_entries _ _ Hrel). f_equal.
    pose proof (same_entry _ _ Hs1) as E. by injection E. }
  assert (Hin : key_of b ∈ hkeys (abs t)) by (apply entries_key; eauto).
  assert (Hlen : length (abs t') = length (abs t) - 1).
  { rewrite Hab, length_hdel. by rewrite decide_True. }
  assert (Hlive : ∀ j c, arData t' !! j = Some (Some c) → j ≠ i ∧ ∃ c', arData t !! j = Some (Some c') ∧ same_bucket c' c).
  { intros j c Hc. assert (Hc' : <[i := None]> data !! j = Some (Some c)) by (rewrite Hd; by apply lookup_app_l_Some).
    apply list_lookup_insert_Some in Hc' as [(_ & ? & _)|[Hne Hc']]; [done|].
    split; [done|]. by apply (relinked_live _ _ _ _ Hrel). }
  assert (Hrank : ∀ j, rank (arData t') j = if decide (i < j) then rank (arData t) j - 1 else rank (arData t) j).
  { intros j. rewrite <-(rank_pad (arData t') n), <-Hd, (rank_remove _ _ _ _ Hb1). by rewrite (relinked_rank _ _ _ Hrel). }
  pose proof (rank_S _ _ _ Hb) as HS.
  pose proof (next_live_spec (S i) (arData t')) as Hnl. rewrite (Hrank (S i)), decide_True, HS in Hnl by lia.
  split; [split|split; [done|]].
  - unfold size_ok. by rewrite Hsz.
  - rewrite Hsz. apply (f_equal length) in Hd. rewrite length_insert, length_app in Hd. apply Forall2_length in Hrel.
    unfold nNumUsed in *. lia.
  - rewrite Hct, Hct0, Hlen. assert (length (abs t) ≠ 0); [|lia].
    intros E. destruct (abs t); [by apply elem_of_nil in Hin|done].
  - rewrite Hab. by apply hwf_hdel.
  - intros j c (_ & c' & Hc' & (_ & Eh & Ek))%Hlive. specialize (Hbk0 _ _ Hc'). unfold bucket_ok in *. by rewrite Ek, Eh.
  - by rewrite Hnx.
  - intros m Hm. rewrite Hnx. apply Hnk0. rewrite Hab in Hm. by eapply hkeys_hdel.
  - intros j Hj. rewrite Hpt in Hj. case_decide as Hp; [rewrite Hj in Hnl; by destruct Hnl as (_ & Hlv & _)|].
    destruct (Hpt0 j Hj) as [c Hc]. assert (j ≠ i) by congruence.
    destruct (relinked_live_2 _ _ _ _ Hrel Hc) as (c' & Hc' & _). exists c'.
    assert (Hc2 : (arData t' ++ replicate n None) !! j = Some (Some c')) by (rewrite <-Hd; by rewrite list_lookup_insert_ne).
    apply lookup_app_Some in Hc2 as [?|[_ Hc2]]; [done|]. by apply lookup_replicate in Hc2 as [? _].
  - unfold position, position_without. rewrite Hpt. case_decide as Hp.
    + rewrite Hp. destruct (next_live (S i) (arData t')) as [j|]; [destruct Hnl as (_ & _ & ->)|change (length (abs t') = S (rank (arData t) i) - 1) in Hnl; rewrite Hnl];
        rewrite decide_False by lia; lia.
    + destruct (nInternalPointer t) as [q|] eqn:Eq.
      * rewrite Hrank. assert (q ≠ i) by congruence. destruct (Hpt0 q eq_refl) as [c Hc]. case_decide as Hlt.
        -- by rewrite decide_True by (by eapply rank_lt).
        -- rewrite decide_False; [done|]. pose proof (rank_lt _ _ i _ Hc). lia.
      * rewrite Hlen. pose proof (rank_lookup _ _ _ Hb) as Hl. apply lookup_lt_Some in Hl. fold (abs t) in Hl.
        by rewrite decide_True.
Qed.
End deleting.

Section del.
Context {A : Type}.
Implicit Types (data : list (option (bucket A))) (b : bucket A) (t : hashtable A) (v : A) (k : hkey).

(** Unlinking the bucket [i] from the chain of its slot: by a change of the slot where
    it is the first of the chain, else of the bucket [prev] before it. *)
Definition unlinked (mask : Z) data (hash : list (option nat)) (prev : option nat) (i : nat) b data1 hash1 : Prop :=
  match prev with
  | Some j => ∃ q, data !! j = Some (Some q) ∧ hash1 = hash ∧
                   data1 = <[j := Some (Bucket (b_val q) (b_next b) (b_h q) (b_key q))]> data
  | None => data1 = data ∧ hash1 = <[slot_of mask (b_h b) := b_next b]> hash
  end.

Lemma unlinked_relinked mask data hash prev i b data1 hash1 :
  unlinked mask data hash prev i b data1 hash1 → relinked data data1 ∧ length hash1 = length hash.
Proof.
  destruct prev as [j|]; cbn.
  - intros (q & Hq & -> & ->). split; [by apply relinked_set|done].
  - intros [-> ->]. split; [apply relinked_refl|]. by rewrite length_insert.
Qed.

Lemma in_slot_removed mask data data1 i s j :
  relinked data data1 → in_slot mask (<[i := None]> data1) s j = (if decide (j = i) then false else in_slot mask data s j).
Proof.
  intros Hrel. unfold in_slot. case_decide as E.
  - subst j. destruct (<[i := None]> data1 !! i) as [[b|]|] eqn:Hi; [|done..].
    apply list_lookup_insert_Some in Hi as [(_ & ? & _)|[? _]]; done.
  - rewrite list_lookup_insert_ne by done. pose proof (proj1 (Forall2_lookup _ _ _) Hrel j) as H.
    destruct (data !! j) as [x|], (data1 !! j) as [y|]; inversion H as [x' y' Hxy|]; subst; [|done].
    inversion Hxy as [c c' (_ & Eh & _)|]; subst; [by rewrite Eh|done].
Qed.

Lemma chain_removed mask data hash i b prev l1 l2 data1 hash1 data2 s :
  chains_ok mask data hash → data !! i = Some (Some b) → s = slot_of mask (b_h b) → s < length hash →
  members mask data s (length data) = l1 ++ i :: l2 → prev = last l1 →
  unlinked mask data hash prev i b data1 hash1 →
  (∀ j, j ≠ i → is_Some (data1 !! j) → data2 !! j = data1 !! j) →
  ∃ o, hash1 !! s = Some o ∧ chain data2 o (l1 ++ l2).
Proof.
  intros Hc Hb Hs Hlt Hm -> Hun Hd. destruct (Hc s Hlt) as (o & Ho & Hch). rewrite Hm in Hch.
  pose proof (members_NoDup mask data s (length data)) as Hnd. rewrite Hm in Hnd.
  assert (Hin : ∀ x, x ∈ l1 ++ i :: l2 → is_Some (data !! x)).
  { intros x Hx. rewrite <-Hm in Hx. apply members_elem in Hx as [Hx _]. by apply lookup_lt_is_Some_2. }
  destruct (list.last l1) as [j|] eqn:Hl; cbn in Hun.
  - apply last_Some in Hl as [l1' ->]. destruct Hun as (q & Hq & -> & ->). exists o. split; [done|].
    rewrite <-app_assoc in *. cbn in *. apply NoDup_app in Hnd as Hnd'. destruct Hnd' as (Hnd1 & Hdis & Hnd2).
    apply NoDup_cons in Hnd2 as [Hji Hnd2]. apply NoDup_cons in Hnd2 as [Hil2 Hnd2].
    assert (Hjl : j < length data) by (by eapply lookup_lt_Some).
    set (data1 := <[j := _]> data) in *.
    assert (Hj1 : data1 !! j = Some (Some (Bucket (b_val q) (b_next b) (b_h q) (b_key q)))) by (by apply list_lookup_insert_eq).
    eapply chain_unlink; [exact Hch|exact Hb| | |exact Hnd|].
    + rewrite Hd; [exact Hj1|set_solver|by rewrite Hj1].
    + done.
    + intros x Hx. assert (x ≠ j ∧ x ≠ i) as [Hxj Hxi] by (split; set_solver).
      assert (E : data1 !! x = data !! x) by (by apply list_lookup_insert_ne).
      rewrite Hd; [done|done|]. rewrite E. apply Hin. set_solver.
  - apply last_None in Hl as ->. destruct Hun as [-> ->]. cbn in *. destruct Hch as (-> & b' & Hb' & Hch).
    assert (b' = b) as -> by congruence. exists (b_next b). subst s. rewrite list_lookup_insert_eq by done.
    split; [done|]. eapply chain_same; [exact Hch|]. intros x Hx. apply NoDup_cons in Hnd as [Hni _].
    apply Hd; [congruence|]. apply Hin. by right.
Qed.

Lemma chains_remove mask data hash i b prev l1 l2 data1 hash1 data' n :
  chains_ok mask data hash → data !! i = Some (Some b) → slot_of mask (b_h b) < length hash →
  members mask data (slot_of mask (b_h b)) (length data) = l1 ++ i :: l2 → prev = last l1 →
  unlinked mask data hash prev i b data1 hash1 → <[i := None]> data1 = data' ++ replicate n None →
  chains_ok mask data' hash1.
Proof.
  intros Hc Hb Hs Hm Hprev Hun Hd s Hlt. destruct (unlinked_relinked _ _ _ _ _ _ _ _ Hun) as [Hrel Hlen].
  rewrite Hlen in Hlt. set (data2 := <[i := None]> data1) in *.
  assert (El : length data = length data' + n).
  { apply (f_equal length) in Hd. unfold data2 in Hd. rewrite length_insert, length_app, length_replicate in Hd.
    apply Forall2_length in Hrel. lia. }
  assert (Hmem : members mask data' s (length data') = members mask data2 s (length data)).
  { rewrite El, members_beyond.
    - apply members_ext. intros j Hj. unfold in_slot. rewrite Hd. by rewrite lookup_app_l.
    - intros j Hj1 Hj2. unfold in_slot. rewrite Hd, lookup_app_r, lookup_replicate_2 by lia. done. }
  assert (Hlow : ∀ o l, chain data2 o l → chain data' o l).
  { intros o l Hch. eapply chain_ext; [exact Hch|]. intros j c _ Hc2. exists c. split; [|done].
    rewrite Hd in Hc2. apply lookup_app_Some in Hc2 as [?|[_ Hc2]]; [done|]. by apply lookup_replicate in Hc2 as [? _]. }
  rewrite Hmem. destruct (decide (s = slot_of mask (b_h b))) as [->|Hne].
  - destruct (chain_removed mask data hash i b prev l1 l2 data1 hash1 data2 _ Hc Hb eq_refl Hs Hm Hprev Hun) as (o & Ho & Hch).
    { intros j Hj _. by apply list_lookup_insert_ne. }
    exists o. split; [done|]. apply Hlow. erewrite members_remove; [exact Hch|exact Hm| |].
    + intros j _ Hj. unfold data2. rewrite (in_slot_removed _ data) by done. by rewrite decide_False.
    + unfold data2. rewrite (in_slot_removed _ data) by done. by rewrite decide_True.
  - destruct (Hc s Hlt) as (o & Ho & Hch). exists o. split.
    + destruct prev; [by destruct Hun as (_ & _ & -> & _)|destruct Hun as [_ ->]; by rewrite list_lookup_insert_ne].
    + apply Hlow. erewrite (members_ext mask data2 data); [eapply chain_same; [exact Hch|]|].
      * intros j [_ (c & Hc' & Hsc)%in_slot_true]%members_elem. unfold data2.
        rewrite list_lookup_insert_ne by congruence. destruct prev as [p|]; [|by destruct Hun as [-> _]].
        destruct Hun as (q & Hq & _ & ->). apply list_lookup_insert_ne. intros ->.
        assert (Hp : j ∈ members mask data (slot_of mask (b_h b)) (length data)).
        { rewrite Hm. symmetry in Hprev. apply last_Some in Hprev as [l1' ->]. set_solver. }
        apply members_elem in Hp as [_ (c' & Hc'' & Hsc')%in_slot_true]. congruence.
      * intros j Hj. unfold data2. rewrite (in_slot_removed _ data) by done. case_decide as E; [|done]. subst j.
        unfold in_slot. rewrite Hb. symmetry. by apply bool_decide_eq_false.
Qed.
End del.

Section table_del.
Context {A : Type}.
Implicit Types (data : list (option (bucket A))) (b : bucket A) (t : hashtable A) (v : A) (k : hkey).

(** What a table is after a key was deleted. *)
Definition deleted t k (r : bool * hashtable A) : Prop :=
  table_ok r.2 ∧ r.1 = bool_decide (k ∈ hkeys (abs t)) ∧ abs r.2 = hdel k (abs t) ∧
  nNextFreeElement r.2 = nNextFreeElement t ∧
  position r.2 = match list_find (λ kv, kv.1 = k) (abs t) with
                 | Some (i, _) => position_without i (position t)
                 | None => position t
                 end.

Lemma deleted_absent t k : table_ok t → k ∉ hkeys (abs t) → deleted t k (false, t).
Proof.
  intros Ht Hk. unfold deleted. cbn. rewrite bool_decide_false, hdel_no_key by done.
  rewrite (proj2 (list_find_None _ _)); [done|]. apply Forall_forall. intros kv Hin <-. apply Hk.
  by apply list_elem_of_fmap_2.
Qed.

Lemma find_rank data i b : data !! i = Some (Some b) → hwf (entries data) →
  list_find (λ kv, kv.1 = key_of b) (entries data) = Some (rank data i, entry_of b).
Proof.
  intros Hb Hwf. apply list_find_Some. split_and!; [by apply rank_lookup|done|].
  intros j kv Hj Hlt E. destruct (hkeys_split _ _ _ Hb Hwf) as [Hn _]. apply Hn. unfold hkeys. rewrite <-E.
  apply list_elem_of_fmap_2. rewrite (entries_split _ _ _ Hb) in Hj. rewrite lookup_app_l in Hj by done.
  by eapply list_elem_of_lookup_2.
Qed.

(** The used buckets after a deletion, as [_zend_hash_del_el_ex] leaves them. *)
Definition without (t : hashtable A) (i : nat) data1 : list (option (bucket A)) :=
  let data := <[i := None]> data1 in if decide (S i = nNumUsed t) then trim data else data.

Lemma without_pad t i data1 : ∃ n, <[i := None]> data1 = without t i data1 ++ replicate n None.
Proof.
  unfold without. case_decide; [apply trim_spec|]. exists 0. by rewrite app_nil_r.
Qed.

Lemma del_deleted t t' i b data1 :
  table_ok t → arData t !! i = Some (Some b) → relinked (arData t) data1 →
  arData t' = without t i data1 → nTableSize t' = nTableSize t → nNumOfElements t' = (nNumOfElements t - 1)%Z →
  nNextFreeElement t' = nNextFreeElement t →
  nInternalPointer t' = (if decide (nInternalPointer t = Some i) then next_live (S i) (arData t') else nInternalPointer t) →
  form_ok t' → deleted t (key_of b) (true, t').
Proof.
  intros [Hok Hf] Hb Hrel Hd Hsz Hct Hnx Hpt Hf'. destruct (without_pad t i data1) as [n Hn]. rewrite <-Hd in Hn.
  destruct (buckets_remove t t' i b data1 n Hok Hb Hrel Hn Hsz Hct Hnx Hpt) as (Hok' & Hab & Hpos).
  unfold deleted. cbn. rewrite bool_decide_true by (apply entries_key; eauto).
  split_and!; [by split|done|done|done|]. unfold abs. rewrite (find_rank _ _ _ Hb); [done|]. apply (ok_keys t Hok).
Qed.

Lemma del_packed t i b :
  table_ok t → ht_initialized t = true → ht_packed t = true → arData t !! i = Some (Some b) →
  ∃ t', _zend_hash_del_el_ex t None i = Done t' ∧ deleted t (key_of b) (true, t').
Proof.
  intros Ht Hi Hp Hb. pose proof Ht as [Hok Hf]. unfold form_ok in Hf. rewrite Hi, Hp in Hf.
  unfold _zend_hash_del_el_ex, get_bucket. rewrite Hb, Hp. cbn [mbind outcome_bind]. eexists. split; [done|].
  apply (del_deleted t _ i b (arData t)); try done; [apply relinked_refl|].
  unfold form_ok. cbn. rewrite Hi, Hp. destruct Hf as (Hm & Hh & Hpk). split_and!; [done..|].
  intros j c Hc. cbn in Hc. apply Hpk.
  assert (Hc' : <[i := None]> (arData t) !! j = Some (Some c)) by (case_decide; [by apply trim_live|done]).
  by apply list_lookup_insert_Some in Hc' as [(_ & ? & _)|[_ ?]].
Qed.

Lemma del_chained t k prev i : chained t → found_ok t k (Some (prev, i)) →
  ∃ t', _zend_hash_del_el_ex t prev i = Done t' ∧ deleted t k (true, t').
Proof.
  intros Hch (l1 & l2 & b & Hm & Hprev & Hb & <-). pose proof (chained_hash_ok t Hch) as (Hmask & Hl & Hc).
  destruct Hch as (Ht & Hi & Hp). pose proof Ht as [Hok _].
  unfold _zend_hash_del_el_ex, get_bucket. rewrite Hb, Hp. cbn [mbind outcome_bind].
  assert (Hslot : slot_of (nTableMask t) (b_h b) < length (arHash t)) by (rewrite Hl; apply slot_in_table; [apply Hok|done]).
  assert (Hkh : key_h (key_of b) = b_h b).
  { pose proof (ok_bucket t Hok i b Hb) as Hbk. unfold bucket_ok, key_of in *. destruct (b_key b); cbn; [done|]. by apply to_ulong_long. }
  rewrite Hkh in Hm.
  assert (H : ∃ data1 hash1, unlinked (nTableMask t) (arData t) (arHash t) prev i b data1 hash1 ∧
    (match prev with
     | Some i => match arData t !! i with Some (Some b0) => Done b0 | _ => Undef end ≫= λ q,
         Done (t <| arData := <[i := Some (Bucket (b_val q) (b_next b) (b_h q) (b_key q))]> (arData t) |>)
     | None => Done (t <| arHash := <[slot_of (nTableMask t) (b_h b) := b_next b]> (arHash t) |>)
     end) = Done (t <| arData := data1 |> <| arHash := hash1 |>)).
  { destruct prev as [j|].
    - assert (Hj : j ∈ members (nTableMask t) (arData t) (slot_of (nTableMask t) (b_h b)) (nNumUsed t)).
      { rewrite Hm. symmetry in Hprev. apply last_Some in Hprev as [l1' ->]. set_solver. }
      apply members_elem in Hj as [_ (q & Hq & _)%in_slot_true]. rewrite Hq. cbn.
      eexists _, _. split; [exists q; by split_and!|]. by destruct t.
    - eexists _, _. split; [by split|]. by destruct t. }
  destruct H as (data1 & hash1 & Hun & ->). cbn [mbind outcome_bind]. eexists. split; [done|].
  destruct (unlinked_relinked _ _ _ _ _ _ _ _ Hun) as [Hrel Hlen].
  apply (del_deleted t _ i b data1); try done.
  unfold form_ok. cbn. rewrite Hi, Hp. split_and!; [done|cbn; by rewrite Hlen|].
  destruct (without_pad t i data1) as [n Hn].
  exact (chains_remove _ _ _ i b prev l1 l2 data1 hash1 _ n Hc Hb Hslot Hm Hprev Hun Hn).
Qed.

Lemma table_del_ok t k : table_ok t → key_ok k → ∃ r, table_del t k = Done r ∧ deleted t k r.
Proof.
  intros Ht Hk. pose proof Ht as [Hok Hf]. unfold form_ok in Hf.
  assert (Hslots : (nTableMask t = HT_MIN_MASK ∧ arHash t = [None; None] ∧ k ∉ hkeys (abs t)) ∨ chained t →
    ∃ r, (find_in_slot t (key_h k) (is_bucket k) ≫= del_found t) = Done r ∧ deleted t k r).
  { intros [(Hm & Hh & Hn)|Hch].
    - rewrite find_in_slot_min by done. eexists. split; [done|]. by apply deleted_absent.
    - destruct (find_in_slot_hash t k Hok (chained_hash_ok t Hch) Hk) as (found & -> & Hfound). cbn [mbind outcome_bind].
      destruct found as [[prev i]|]; cbn [del_found].
      + destruct (del_chained t k prev i Hch Hfound) as (t' & -> & Hd). eexists. by split.
      + eexists. split; [done|]. by apply deleted_absent. }
  assert (Hempty : ht_initialized t = false → k ∉ hkeys (abs t)).
  { intros Hi. rewrite Hi in Hf. destruct Hf as (_ & Hd & _). unfold abs. rewrite Hd. apply not_elem_of_nil. }
  destruct k as [s|n]; cbn [table_del].
  - unfold zend_hash_del. rewrite (find_bucket_eq t (KStr s)). apply Hslots.
    destruct (ht_initialized t) eqn:Hi; [destruct (ht_packed t) eqn:Hp|].
    + destruct Hf as (Hm & Hh & Hpk). left. split_and!; [done..|by apply packed_no_str].
    + right. by split_and!.
    + left. destruct Hf as (_ & _ & Hm & Hh). split_and!; [done..|by apply Hempty].
  - unfold zend_hash_index_del. destruct (ht_packed t) eqn:Hp.
    + destruct (ht_initialized t) eqn:Hi; [|by destruct Hf].
      pose proof (to_ulong_range n). case_match eqn:Hlt.
      * destruct (lookup_lt_is_Some_2 (arData t) (Z.to_nat (to_ulong n))) as [ob Hob]; [unfold nNumUsed in *; lia|].
        rewrite Hob. cbn [defined mbind outcome_bind]. destruct ob as [b|]; cbn [del_found].
        -- rewrite <-(packed_bucket t n Hok Hf Hk b Hob). destruct (del_packed t _ b Ht Hi Hp Hob) as (t' & -> & Hd). eexists. by split.
        -- eexists. split; [done|]. apply deleted_absent; [done|]. apply packed_absent; [done..|]. intros b. congruence.
      * eexists. split; [done|]. apply deleted_absent; [done|]. apply packed_absent; [done..|].
        intros b Hb%lookup_lt_Some. unfold nNumUsed in *. lia.
    + rewrite (find_bucket_eq t (KIdx n)). apply Hslots. destruct (ht_initialized t) eqn:Hi; [right; by split_and!|left].
      destruct Hf as (_ & _ & Hm & Hh). split_and!; [done..|by apply Hempty].
Qed.
End table_del.

(** ** Sequences of calls

    A table that is used through the calls below, from its creation on, cannot be
    told from a list of entries with a cursor and a next free element. *)

Inductive hcall :=
| HUpdate (k : hkey) (v : zval)
| HAdd (k : hkey) (v : zval)
| HPush (v : zval)
| HDelete (k : hkey)
| HFind (k : hkey)
| HClean
| HReset
| HForward
| HCurrent.

Inductive hreply := RDone (ok : bool) | RValue (v : option zval).

Definition hcall_ok (c : hcall) : Prop :=
  match c with HUpdate k _ | HAdd k _ | HDelete k | HFind k => key_ok k | _ => True end.
#[export] Instance hcall_ok_dec c : Decision (hcall_ok c).
Proof. destruct c; apply _. Defined.

Definition put_reply (t : hashtable zval) (r : option (hashtable zval)) : hreply * hashtable zval :=
  match r with Some t' => (RDone true, t') | None => (RDone false, t) end.

Definition run_hcall (c : hcall) (t : hashtable zval) : outcome (hreply * hashtable zval) :=
  match c with
  | HUpdate k v => put_reply t <$> table_update t k v
  | HAdd k v => put_reply t <$> table_add t k v
  | HPush v => put_reply t <$> _zend_hash_next_index_insert t v
  | HDelete k => (λ r, (RDone r.1, r.2)) <$> table_del t k
  | HFind k => (λ r, (RValue r, t)) <$> table_find t k
  | HClean => Done (RDone true, zend_hash_clean t)
  | HReset => Done (RDone true, zend_hash_internal_pointer_reset t)
  | HForward => Done (RDone true, zend_hash_move_forward t)
  | HCurrent => (λ r, (RValue r, t)) <$> zend_hash_get_current_data t
  end.

Fixpoint run_hcalls (cs : list hcall) (t : hashtable zval) : outcome (list hreply * hashtable zval) :=
  match cs with
  | [] => Done ([], t)
  | c :: cs' => '(r, t) ← run_hcall c t; '(rs, t) ← run_hcalls cs' t; mret (r :: rs, t)
  end.

Definition spec_put (k : hkey) (v : zval) (add : bool) (s : cursor * Z) : hreply * (cursor * Z) :=
  if add && bool_decide (k ∈ hkeys (cu_ht s.1)) then (RDone false, s)
  else (RDone true, (cursor_update k v s.1, next_after k s.2)).

Definition spec_hcall (c : hcall) (s : cursor * Z) : hreply * (cursor * Z) :=
  match c with
  | HUpdate k v => spec_put k v false s
  | HAdd k v => spec_put k v true s
  | HPush v => spec_put (KIdx s.2) v true s
  | HDelete k => (RDone (bool_decide (k ∈ hkeys (cu_ht s.1))), (cursor_del k s.1, s.2))
  | HFind k => (RValue (hfind k (cu_ht s.1)), s)
  | HClean => (RDone true, (cursor_clean s.1, 0%Z))
  | HReset => (RDone true, (hash_rewind s.1, s.2))
  | HForward => (RDone true, (hash_move_forward s.1, s.2))
  | HCurrent => (RValue (snd <$> hash_current s.1), s)
  end.

Fixpoint spec_hcalls (cs : list hcall) (s : cursor * Z) : list hreply * (cursor * Z) :=
  match cs with
  | [] => ([], s)
  | c :: cs' => let '(r, s) := spec_hcall c s in let '(rs, s) := spec_hcalls cs' s in (r :: rs, s)
  end.

(** The table stands for the list, the cursor and the next free element. *)
Definition represents (t : hashtable zval) (s : cursor * Z) : Prop :=
  table_ok t ∧ s = (Cursor (abs t) (position t), nNextFreeElement t).

Section walking.
Context {A : Type}.
Implicit Types (t : hashtable A).

Lemma moved_pointer_ok t p : table_ok t → (∀ i, p = Some i → ∃ b, arData t !! i = Some (Some b)) →
  table_ok (t <| nInternalPointer := p |>).
Proof. intros [Hok Hf] Hp. split; [by destruct Hok; split|exact Hf]. Qed.

Lemma next_live_live (data : list (option (bucket A))) i j :
  next_live i data = Some j → ∃ b, data !! j = Some (Some b).
Proof. intros E. pose proof (next_live_spec i data) as H. rewrite E in H. by destruct H as (_ & H & _). Qed.

Lemma reset_ok t : table_ok t →
  table_ok (zend_hash_internal_pointer_reset t) ∧ position (zend_hash_internal_pointer_reset t) = 0.
Proof.
  intros Ht. split; [apply moved_pointer_ok; [done|]; apply next_live_live|].
  pose proof (next_live_spec 0 (arData t)) as H. unfold position. cbn.
  destruct (next_live 0 (arData t)); [by destruct H as (_ & _ & ->)|exact H].
Qed.

Lemma forward_ok t : table_ok t →
  table_ok (zend_hash_move_forward t) ∧
  position (zend_hash_move_forward t) = (if decide (position t < length (abs t)) then S (position t) else position t).
Proof.
  intros Ht. unfold zend_hash_move_forward. destruct (nInternalPointer t) as [i|] eqn:Hp.
  - split; [apply moved_pointer_ok; [done|]; apply next_live_live|]. destruct Ht as [Hok _].
    destruct (ok_pointer t Hok i Hp) as [b Hb]. pose proof (rank_S _ _ _ Hb) as HS.
    pose proof (lookup_lt_Some _ _ _ (rank_lookup _ _ _ Hb)) as Hlt. pose proof (next_live_spec (S i) (arData t)) as H.
    unfold position. rewrite Hp. cbn. rewrite decide_True by done. rewrite <-HS.
    destruct (next_live (S i) (arData t)); [by destruct H as (_ & _ & ->)|exact H].
  - split; [done|]. unfold position. rewrite Hp. by rewrite decide_False by lia.
Qed.

Lemma current_ok t : table_ok t → zend_hash_get_current_data t = Done (snd <$> abs t !! position t).
Proof.
  intros [Hok _]. unfold zend_hash_get_current_data, position. destruct (nInternalPointer t) as [i|] eqn:Hp.
  - destruct (ok_pointer t Hok i Hp) as [b Hb]. unfold get_bucket, abs. rewrite Hb. cbn. by rewrite (rank_lookup _ _ _ Hb).
  - by rewrite lookup_ge_None_2.
Qed.

Lemma clean_ok t : table_ok t → table_ok (zend_hash_clean t).
Proof.
  intros [Hok Hf]. split.
  - destruct Hok as [(m & Hm & Em) _ _ _ _ _ _ _]. unfold zend_hash_clean.
    split; try (by (destruct (bool_decide _ || _))).
    + exists m. split; [done|]. by destruct (bool_decide _ || _).
    + unfold nNumUsed. cbn. destruct (bool_decide _ || _); cbn; rewrite Em; pose proof (Z.pow_pos_nonneg 2 m); lia.
    + constructor.
    + intros n Hn. by apply elem_of_nil in Hn.
  - unfold form_ok in *. unfold zend_hash_clean. destruct (decide (arData t = [])) as [E|E].
    + rewrite bool_decide_true by done. cbn. destruct (ht_initialized t); [|by destruct Hf as (? & ? & ? & ?)].
      destruct (ht_packed t); destruct Hf as (Hm & Hh & Hc); (split_and!; [done..|]); [by intros i b|]. by rewrite E in Hc.
    + rewrite bool_decide_false by done. destruct (ht_initialized t) eqn:Hi; [|by destruct Hf as (_ & ? & _)].
      destruct (ht_packed t) eqn:Hp; cbn; rewrite ?Hi, ?Hp; destruct Hf as (Hm & Hh & Hc).
      * split_and!; [done..|]. by intros i b Hb.
      * split_and!; [done| |apply chains_empty].
        cbn. rewrite length_replicate, Hm. unfold mask_of. lia.
Qed.
End walking.

Section sequences.
Implicit Types (t : hashtable zval) (s : cursor * Z).

Definition reply_of (r : hreply * hashtable zval) (s : hreply * (cursor * Z)) : Prop :=
  r.1 = s.1 ∧ represents r.2 s.2.

Lemma put_refines t s k v flag : represents t s → key_ok k → HASH_ADD_NEW flag = false →
  unless_full t (λ r, reply_of r (spec_put k v (HASH_ADD flag) s)) (put_reply t <$> table_put t k v flag).
Proof.
  intros [Ht ->] Hk Hnf. pose proof (put_ok t k v flag Ht Hk Hnf) as H. unfold spec_put. cbn [cu_ht fst snd].
  destruct (table_put t k v flag) as [[t'|]| |]; cbn in H |- *; [| |done|done].
  - destruct H as [(Ht' & Ha & Hn & Hp) Hadd]. replace (HASH_ADD flag && bool_decide (k ∈ hkeys (abs t))) with false.
    + split; [done|]. split; [done|]. cbn. unfold cursor_update. cbn. congruence.
    + destruct (HASH_ADD flag); cbn; [|done]. rewrite bool_decide_false; auto.
  - destruct H as [-> Hin]. rewrite bool_decide_true by done. by split.
Qed.

Lemma hcall_refines c t s : represents t s → hcall_ok c →
  unless_full t (λ r, reply_of r (spec_hcall c s)) (run_hcall c t).
Proof.
  intros Hr Hc. pose proof Hr as [Ht ->]. pose proof Ht as [Hok _]. destruct c as [k v|k v|v|k|k| | | |]; cbn in Hc |- *.
  - pose proof (put_refines t _ k v HASH_UPDATE Hr Hc eq_refl) as H. by destruct k.
  - pose proof (put_refines t _ k v (AddFlags true false false) Hr Hc eq_refl) as H. by destruct k.
  - assert (Hk : key_ok (KIdx (nNextFreeElement t))).
    { pose proof (ok_next t Hok). unfold ZEND_LONG_MAX in *. cbn. lia. }
    pose proof (put_refines t _ _ v (AddFlags true false true) Hr Hk eq_refl) as H. cbn [table_put] in H.
    unfold _zend_hash_next_index_insert. replace (to_ulong (nNextFreeElement t)) with (nNextFreeElement t) in H; [exact H|].
    unfold to_ulong. rewrite Z.mod_small; [done|]. cbn in Hk. pose proof (ok_next t Hok). unfold U64. lia.
  - destruct (table_del_ok t k Ht Hc) as (r & -> & Ht' & E & Ha & Hn & Hp). cbn. split; [by cbn; rewrite E|].
    split; [done|]. cbn. unfold cursor_del. cbn. rewrite Ha, Hn, Hp.
    by destruct (list_find _ (abs t)) as [[i kv]|].
  - rewrite (table_find_ok t k Ht Hc). cbn. by split.
  - split; [done|]. split; [by apply clean_ok|]. by unfold zend_hash_clean; case_match.
  - destruct (reset_ok t Ht) as [Ht' Hp]. split; [done|]. split; [done|]. cbn. by rewrite Hp.
  - destruct (forward_ok t Ht) as [Ht' Hp]. split; [done|]. split; [done|]. cbn. unfold hash_move_forward. cbn. rewrite Hp.
    by unfold zend_hash_move_forward; destruct (nInternalPointer t).
  - rewrite (current_ok t Ht). cbn. by split.
Qed.

Lemma spec_hcall_length c s : length (cu_ht (spec_hcall c s).2.1) ≤ S (length (cu_ht s.1)).
Proof.
  assert (Hput : ∀ k v add, length (cu_ht (spec_put k v add s).2.1) ≤ S (length (cu_ht s.1))).
  { intros k v add. unfold spec_put. case_match; [cbn; lia|]. cbn. apply length_hupdate_le. }
  destruct c; try apply Hput; cbn; try lia. rewrite length_hdel. lia.
Qed.

(** Any calls in a row, on any table. *)
Lemma hcalls_refine cs t s :
  represents t s → Forall hcall_ok cs → (Z.of_nat (length (cu_ht s.1) + length cs) < 0x40000000)%Z →
  ∃ t', run_hcalls cs t = Done ((spec_hcalls cs s).1, t') ∧ represents t' (spec_hcalls cs s).2.
Proof.
  revert t s. induction cs as [|c cs IH]; intros t s Hr Hcs Hlen; [by exists t|].
  apply Forall_cons in Hcs as [Hc Hcs]. cbn [length] in Hlen.
  pose proof (hcall_refines c t s Hr Hc) as H. pose proof (spec_hcall_length c s) as Hl.
  cbn [run_hcalls spec_hcalls]. destruct (run_hcall c t) as [[r t1]| |]; cbn in H; [| |done].
  - destruct H as [Hrep Hr1]. cbn in Hrep, Hr1. destruct (spec_hcall c s) as [r' s1]. cbn in *. subst r'.
    destruct (IH t1 s1 Hr1 Hcs ltac:(lia)) as (t' & -> & Hr'). exists t'. cbn.
    destruct (spec_hcalls cs s1) as [rs s']. by split.
  - destruct Hr as [[Hok _] ->]. rewrite (ok_count t Hok) in H. cbn in Hlen. lia.
Qed.

End sequences.

(** ** Sizes *)

(** The highest bits of a number that are set, after one more shift. *)
Definition smeared (top a m : Z) : Prop :=
  ∀ i, (0 ≤ i)%Z → (top < i → Z.testbit m i = false)%Z ∧ (top - a < i ≤ top → Z.testbit m i = true)%Z.

Lemma smear_step top a m : (0 ≤ a)%Z → smeared top a m → smeared top (2 * a) (Z.lor m (Z.shiftr m a)).
Proof.
  intros Ha H i Hi. rewrite Z.lor_spec, Z.shiftr_spec by done. destruct (H i Hi) as [H1 H2].
  destruct (H (i + a)%Z ltac:(lia)) as [H3 H4]. split; intros Ht.
  - by rewrite H1, H3 by lia.
  - destruct (decide (top - a < i)%Z); [by rewrite H2 by lia|]. rewrite H4 by lia. apply orb_true_r.
Qed.

Lemma smeared_start m : (0 < m)%Z → smeared (Z.log2 m) 1 m.
Proof.
  intros Hm i Hi. split; intros Ht; [by apply Z.bits_above_log2; lia|].
  replace i with (Z.log2 m) by lia. by apply Z.bit_log2.
Qed.

Lemma smeared_ones top a m : (0 ≤ top < a)%Z → smeared top a m → m = Z.ones (top + 1).
Proof.
  intros Ht H. apply Z.bits_inj'. intros i Hi. destruct (H i Hi) as [H1 H2].
  destruct (decide (top < i)%Z); [by rewrite H1, Z.ones_spec_high by lia|by rewrite H2, Z.ones_spec_low by lia].
Qed.

(** The size of a table is the least power of two that is at least 8 and no less
    than asked for; a size of 2^31 or more ends the request. *)
Theorem check_size_spec n : (0 ≤ n)%Z →
  match zend_hash_check_size n with
  | Done size => (n < HT_MAX_SIZE)%Z ∧ (n ≤ size)%Z ∧ (size = 8 ∨ size < 2 * n)%Z ∧
                 ∃ m, (3 ≤ m ≤ 31)%Z ∧ size = (2 ^ m)%Z
  | Fatal => (HT_MAX_SIZE ≤ n)%Z
  | Undef => False
  end.
Proof.
  intros Hn. unfold zend_hash_check_size, HT_MAX_SIZE, HT_MIN_SIZE. destruct (0x80000000 <=? n)%Z eqn:Hmax; [lia|].
  set (m := (Z.max n 8 - 1)%Z). assert (Hm : (7 ≤ m < 2 ^ 31)%Z) by (unfold m; lia).
  assert (Hl : (2 ≤ Z.log2 m < 31)%Z).
  { split; [by apply (Z.log2_le_mono 7 m); lia|]. apply Z.log2_lt_pow2; lia. }
  assert (Hs : smeared (Z.log2 m) 32 (let n := Z.lor m (Z.shiftr m 1) in let n := Z.lor n (Z.shiftr n 2) in
    let n := Z.lor n (Z.shiftr n 4) in let n := Z.lor n (Z.shiftr n 8) in Z.lor n (Z.shiftr n 16))).
  { cbv zeta. apply (smear_step _ 16); [done|]. apply (smear_step _ 8); [done|]. apply (smear_step _ 4); [done|].
    apply (smear_step _ 2); [done|]. apply (smear_step _ 1); [done|]. apply smeared_start. lia. }
  cbv zeta in Hs. rewrite (smeared_ones (Z.log2 m) 32 _ ltac:(lia) Hs), Z.ones_equiv.
  pose proof (Z.log2_spec m ltac:(lia)) as [Hlo Hhi]. rewrite <-Z.add_1_r in Hhi.
  replace (Z.pred (2 ^ (Z.log2 m + 1)) + 1)%Z with (2 ^ (Z.log2 m + 1))%Z by lia.
  assert (E : (2 ^ (Z.log2 m + 1) = 2 * 2 ^ Z.log2 m)%Z) by (rewrite Z.pow_add_r by lia; lia).
  split_and!; [lia|unfold m in *; lia| |exists (Z.log2 m + 1)%Z; split; [lia|done]].
  destruct (decide (n ≤ 8)%Z) as [Hle|Hgt]; [left|right; unfold m in *; lia].
  unfold m. by replace (Z.max n 8) with 8%Z by lia.
Qed.

Lemma check_size_spec_witness : zend_hash_check_size 9 = Done 16%Z ∧
  ∃ m, (3 ≤ m ≤ 31)%Z ∧ 16%Z = (2 ^ m)%Z.
Proof.
  split; [reflexivity|]. exact (proj2 (proj2 (proj2 (check_size_spec 9 ltac:(lia))))).
Defined.

(** ** The table and the list *)

Lemma init_ok n t : (0 ≤ n)%Z → _zend_hash_init (A := zval) n = Done t → represents t (Cursor [] 0, 0%Z).
Proof.
  intros Hn E. pose proof (check_size_spec n Hn) as H. unfold _zend_hash_init in E.
  destruct (zend_hash_check_size n) as [size| |]; [|done..]. cbn in E. injection E as <-.
  destruct H as (_ & _ & _ & m & Hm & ->). split; [split|done].
  - split; cbn; try done.
    + by exists m.
    + unfold nNumUsed. cbn. pose proof (Z.pow_pos_nonneg 2 m). lia.
    + constructor.
    + intros k Hk. by apply elem_of_nil in Hk.
  - by split_and!.
Qed.

(** C12: A hash table is an ordered list of entries with a cursor and a next free
    element: whatever calls are made on a new table, with string and integer keys,
    each returns what the list would, no access leaves the memory of the table, no
    chain is endless, and the table ends up holding the entries of the list. *)
Theorem hash_table_refines n cs :
  (0 ≤ n < HT_MAX_SIZE)%Z → Forall hcall_ok cs → (Z.of_nat (length cs) < 0x40000000)%Z →
  ∃ t, (_zend_hash_init n ≫= run_hcalls cs) = Done ((spec_hcalls cs (Cursor [] 0, 0%Z)).1, t) ∧
    represents t (spec_hcalls cs (Cursor [] 0, 0%Z)).2.
Proof.
  intros Hn Hcs Hlen. destruct (_zend_hash_init (A := zval) n) as [t| |] eqn:E.
  - apply hcalls_refine; [by apply (init_ok n); [lia|]|done|done].
  - unfold _zend_hash_init in E. pose proof (check_size_spec n ltac:(lia)) as H.
    destruct (zend_hash_check_size n); cbn in *; [done|lia|done].
  - unfold _zend_hash_init in E. pose proof (check_size_spec n ltac:(lia)) as H.
    by destruct (zend_hash_check_size n).
Qed.

Definition demo_calls : list hcall :=
  [HPush (ZLong 1); HPush (ZLong 2); HUpdate (KStr "b") ZNull; HDelete (KIdx 0); HCurrent; HForward;
   HAdd (KStr "b") (ZLong 3); HCurrent; HPush (ZLong 4); HFind (KIdx (-1)); HForward; HCurrent].

Lemma hash_table_refines_witness :
  spec_hcalls demo_calls (Cursor [] 0, 0%Z) =
    ([RDone true; RDone true; RDone true; RDone true; RValue (Some (ZLong 2)); RDone true;
      RDone false; RValue (Some ZNull); RDone true; RValue None; RDone true; RValue (Some (ZLong 4))],
     (Cursor [(KIdx 1, ZLong 2); (KStr "b", ZNull); (KIdx 2, ZLong 4)] 2, 3%Z)) ∧
  ∃ t, (_zend_hash_init 0 ≫= run_hcalls demo_calls) = Done ((spec_hcalls demo_calls (Cursor [] 0, 0%Z)).1, t) ∧
    represents t (spec_hcalls demo_calls (Cursor [] 0, 0%Z)).2.
Proof.
  split; [vm_compute; reflexivity|].
  apply (hash_table_refines 0 demo_calls); [by vm_compute|decided|by vm_compute].
Defined.

(** ** Copying tables *)

Section copying.
Context {A : Type}.
Implicit Types (t : hashtable A) (v : A).

(** The first live bucket becomes the current one where there is none. *)
Definition point_at_first t : hashtable A :=
  match nInternalPointer t with
  | None => if (0 <? nNumOfElements t)%Z then t <| nInternalPointer := next_live 0 (arData t) |> else t
  | Some _ => t
  end.

(** The loop of [zend_hash_copy] over the buckets of the source, which stand at the
    places from [i] on.  The target's pointer is taken away when the source's bucket
    is met, where the target had none at the start. *)
Fixpoint copy_loop (set_pointer : bool) (pointer : option nat) (i : nat)
    (source : list (option (bucket A))) (target : hashtable A) : outcome (hashtable A) :=
  match source with
  | [] => Done target
  | None :: source' => copy_loop set_pointer pointer (S i) source' target
  | Some b :: source' =>
      let target := if set_pointer && bool_decide (pointer = Some i) then target <| nInternalPointer := None |> else target in
      target ← (match b_key b with
                | Some key => _zend_hash_update target key (b_val b)
                | None => _zend_hash_index_update target (b_h b) (b_val b)
                end) ≫= defined;
      copy_loop set_pointer pointer (S i) source' target
  end.

Definition zend_hash_copy (target source : hashtable A) : outcome (hashtable A) :=
  let set_pointer := bool_decide (nInternalPointer target = None) in
  point_at_first <$> copy_loop set_pointer (nInternalPointer source) 0 (arData source) target.

(** [zend_array_dup] of a table that is not immutable.  Its loop over the buckets of
    a table with chains moves and links them as rehashing does. *)
Definition zend_array_dup t : outcome (hashtable A) :=
  if bool_decide (arData t = []) then
    Done (HashTable false false HT_MIN_MASK [None; None] [] 0 (nTableSize t) None 0)
  else if ht_packed t then
    Done (point_at_first (t <| arHash := [None; None] |>))
  else
    '(data, hash, pointer) ← rehash_loop (nTableMask t) 0 (arData t) []
                               (arHash (hash_reset t)) (nInternalPointer t);
    let used := length data in
    mret (t <| arData := data |> <| arHash := hash |> <| nNumOfElements := Z.of_nat used |>
            <| nInternalPointer := match pointer with None => if decide (0 < used) then Some 0 else None | p => p end |>).
End copying.

Section copies.
Context {A : Type}.
Implicit Types (t : hashtable A) (v : A) (b : bucket A).

Lemma bucket_key_ok b : bucket_ok b → key_ok (key_of b).
Proof.
  unfold bucket_ok, key_of. destruct (b_key b); cbn; [done|]. unfold to_long, U64. intros Hb. case_match; lia.
Qed.

Lemma bucket_update t b : bucket_ok b →
  match b_key b with
  | Some key => _zend_hash_update t key (b_val b)
  | None => _zend_hash_index_update t (b_h b) (b_val b)
  end = table_update t (key_of b) (b_val b).
Proof.
  unfold bucket_ok, key_of. destruct (b_key b); cbn; [done|]. intros Hb. by rewrite to_ulong_long.
Qed.

Lemma point_at_first_ok t : table_ok t →
  let t' := point_at_first t in
  table_ok t' ∧ abs t' = abs t ∧ nNextFreeElement t' = nNextFreeElement t ∧
  position t' = if decide (position t < length (abs t)) then position t else 0.
Proof.
  intros Ht. unfold point_at_first. pose proof Ht as [Hok _]. destruct (nInternalPointer t) as [i|] eqn:Hp.
  - split_and!; [done..|]. unfold position. rewrite Hp. destruct (ok_pointer t Hok i Hp) as [b Hb].
    rewrite decide_True; [done|]. eapply lookup_lt_Some. by apply rank_lookup.
  - replace (position t) with (length (abs t)) by (unfold position; by rewrite Hp).
    rewrite decide_False by lia. rewrite (ok_count t Hok). case_match eqn:E0.
    + destruct (reset_ok t Ht) as [Ht' Hp']. by split_and!.
    + split_and!; [done..|]. unfold position. rewrite Hp. lia.
Qed.

Lemma drop_pointer_ok t : table_ok t → table_ok (t <| nInternalPointer := None |>).
Proof. intros Ht. by apply moved_pointer_ok. Qed.

Lemma copy_loop_ok set_pointer pointer i source t :
  table_ok t → (∀ j b, source !! j = Some (Some b) → bucket_ok b) →
  (Z.of_nat (length (abs t) + length source) < 0x40000000)%Z →
  ∃ t', copy_loop set_pointer pointer i source t = Done t' ∧ table_ok t' ∧ abs t' = hcopy (abs t) (entries source).
Proof.
  revert i t. induction source as [|ob source IH]; intros i t Ht Hs Hlen; [by exists t|].
  assert (Hs' : ∀ j b, source !! j = Some (Some b) → bucket_ok b) by (intros j; apply (Hs (S j))).
  cbn [length] in Hlen. destruct ob as [b|]; cbn [copy_loop]; [|apply IH; [done|done|lia]].
  pose proof (Hs 0 b eq_refl) as Hb. set (t1 := if set_pointer && _ then _ else _).
  assert (Ht1 : table_ok t1 ∧ abs t1 = abs t) by (unfold t1; case_match; [split; [by apply drop_pointer_ok|done]|done]).
  destruct Ht1 as [Ht1 Ha1]. rewrite bucket_update by done.
  pose proof (table_update_ok t1 (key_of b) (b_val b) Ht1 (bucket_key_ok b Hb)) as H.
  destruct (table_update t1 (key_of b) (b_val b)) as [r| |]; cbn in H; [| |done].
  - destruct H as (t2 & -> & Ht2 & Ha2 & _). cbn [mbind outcome_bind defined].
    destruct (IH (S i) t2 Ht2 Hs') as (t' & -> & Ht' & Ha').
    + rewrite Ha2, Ha1. pose proof (length_hupdate_le (key_of b) (b_val b) (abs t)). lia.
    + exists t'. split_and!; [done|done|]. by rewrite Ha', Ha2, Ha1.
  - destruct Ht1 as [Hok1 _]. rewrite (ok_count t1 Hok1), Ha1 in H. lia.
Qed.

(** Copying a table into another updates the target with every entry of the
    source, in order, as the list does. *)
Theorem hash_copy_refines (target source : hashtable A) :
  table_ok target → table_ok source →
  (Z.of_nat (length (abs target) + nNumUsed source) < 0x40000000)%Z →
  ∃ t, zend_hash_copy target source = Done t ∧ table_ok t ∧ abs t = hcopy (abs target) (abs source).
Proof.
  intros Ht [Hok _] Hlen. unfold zend_hash_copy.
  destruct (copy_loop_ok (bool_decide (nInternalPointer target = None)) (nInternalPointer source) 0 (arData source) target)
    as (t & -> & Ht' & Ha); [done|by apply ok_bucket|done|].
  destruct (point_at_first_ok t Ht') as (Hok' & Ha' & _). eexists. split_and!; [done|done|]. by rewrite Ha'.
Qed.

(** The loop that duplicates a table with chains: as rehashing, on a table without the
    free places. *)
Lemma dup_chained t : table_ok t → ht_initialized t = true → ht_packed t = false →
  ∃ t1, table_ok t1 ∧ same_view t t1 ∧ zend_array_dup t = Done (point_at_first t1) ∨ arData t = [].
Proof.
  intros Ht Hi Hp. pose proof Ht as [Hok Hf]. unfold form_ok in Hf. rewrite Hi, Hp in Hf.
  pose proof Hf as (Hm & _ & _). pose proof (reset_size t (ok_size t Hok) Hm) as Hlen.
  unfold zend_array_dup. case_bool_decide as Hd; [exists t; by right|]. rewrite Hp.
  destruct (rehash_loop_spec (nTableMask t) 0 (arData t) [] (replicate (Z.to_nat (U32 - nTableMask t)) None)
              (nInternalPointer t)) as (bs & hash & E & HF & Hc & Hl); [apply chains_empty|done| |].
  { intros j b Hb. rewrite length_replicate, Hlen. apply slot_in_table; [by apply ok_size|done]. }
  unfold hash_reset. cbn in E |- *. rewrite E. cbn. rewrite length_replicate, Hlen in Hl.
  destruct (rehash_linked t bs hash Hok Hi Hp Hm HF Hc Hl) as (Ht' & Hv & Hu). pose proof Hv as (Ha & _).
  set (t1 := t <| arData := Some <$> bs |> <| arHash := hash |>
          <| nInternalPointer := moved 0 (arData t) 0 (nInternalPointer t) |>) in *.
  exists t1. left. split_and!; [done|done|].
  f_equal. unfold point_at_first, t1. cbn. unfold nNumUsed in Hu. cbn in Hu. rewrite Hu, <-(ok_count t Hok).
  destruct (moved 0 (arData t) 0 (nInternalPointer t)) as [q|] eqn:Eq; [by destruct t|].
  assert (En : (0 <? nNumOfElements t)%Z = bool_decide (0 < length (abs t))).
  { rewrite (ok_count t Hok). case_bool_decide; lia. }
  rewrite En. destruct (decide (0 < length (abs t))) as [H|H]; [|rewrite bool_decide_false by done; by destruct t].
  rewrite bool_decide_true by done. replace (next_live 0 (Some <$> bs)) with (Some 0); [by destruct t|].
  destruct bs as [|b bs]; [cbn in Hu; lia|done].
Qed.

(** A duplicate holds the same entries.  Its cursor is where that of the original
    is, or at the first entry if that was at the end; its next free element is that of
    the original, but 0 when the original has no used bucket. *)
Theorem array_dup_refines t : table_ok t →
  ∃ t', zend_array_dup t = Done t' ∧ table_ok t' ∧ abs t' = abs t ∧
    position t' = (if decide (position t < length (abs t)) then position t else 0) ∧
    nNextFreeElement t' = if bool_decide (arData t = []) then 0%Z else nNextFreeElement t.
Proof.
  intros Ht. pose proof Ht as [Hok Hf]. case_bool_decide as Hd.
  { unfold zend_array_dup. rewrite bool_decide_true by done. eexists. split; [done|]. unfold abs. rewrite Hd.
    destruct Hok as [Hsz Hus _ _ _ _ _ _]. split_and!; [|done|by rewrite decide_False by (cbn; lia)|done].
    split; [|done]. split; cbn; try done; [unfold nNumUsed in *; cbn; lia|constructor|].
    intros n Hn. by apply elem_of_nil in Hn. }
  unfold form_ok in Hf. destruct (ht_initialized t) eqn:Hi; [|by destruct Hf as (_ & ? & _)].
  destruct (ht_packed t) eqn:Hp.
  - destruct (point_at_first_ok (t <| arHash := [None; None] |>)) as (Ht' & Ha' & Hn' & Hp').
    { split; [by destruct Hok; split|]. unfold form_ok. cbn. rewrite Hi, Hp. by destruct Hf as (? & _ & ?). }
    unfold zend_array_dup. rewrite bool_decide_false, Hp by done. eexists. split_and!; [done..|]. exact Hn'.
  - destruct (dup_chained t Ht Hi Hp) as (t1 & [(Ht1 & (Ha & Hn & Hpos & _) & E)|?]); [|done].
    destruct (point_at_first_ok t1 Ht1) as (Hok' & Ha' & Hn' & Hp'). rewrite Ha, Hpos in Hp'.
    exists (point_at_first t1). split_and!; [done|done|by rewrite Ha'|done|by rewrite Hn'].
Qed.
End copies.

(** The table that the calls of [demo_calls] leave. *)
Definition demo_left : hashtable zval :=
  match _zend_hash_init 0 ≫= run_hcalls demo_calls with
  | Done (_, t) => t
  | _ => HashTable false false HT_MIN_MASK [None; None] [] 0 8 None 0
  end.

Lemma demo_left_ok : table_ok demo_left.
Proof.
  destruct (_zend_hash_init (A := zval) 0) as [t0| |] eqn:E; [|done..].
  destruct (hcalls_refine demo_calls t0 _ (init_ok 0 t0 ltac:(lia) E)) as (t' & E' & Ht' & _); [decided|by vm_compute|].
  unfold demo_left. rewrite E. cbn [mbind outcome_bind]. by rewrite E'.
Qed.

Lemma hash_copy_refines_witness :
  (Z.of_nat (length (abs demo_left) + nNumUsed demo_left) < 0x40000000)%Z ∧
  ∃ t, zend_hash_copy demo_left demo_left = Done t ∧ table_ok t ∧
    abs t = [(KIdx 1, ZLong 2); (KStr "b", ZNull); (KIdx 2, ZLong 4)].
Proof.
  split; [by vm_compute|]. apply (hash_copy_refines demo_left demo_left); [apply demo_left_ok..|by vm_compute].
Defined.

Lemma array_dup_refines_witness :
  nInternalPointer demo_left = Some 3 ∧
  ∃ t, zend_array_dup demo_left = Done t ∧ table_ok t ∧ abs t = abs demo_left ∧ position t = 2 ∧ nNextFreeElement t = 3%Z.
Proof.
  split; [by vm_compute|]. exact (array_dup_refines demo_left demo_left_ok).
Defined.
