(* ===== verification/Config.v ===== *)
(** * Configurations

    [configs/yaf_config_simple.c] and the methods of [configs/yaf_config_ini.c]: the
    read-only and the mutable array of [Yaf_Config_Simple], and the dotted names of
    [Yaf_Config_Ini].  A nested array is handed out as a new object over the same
    array. *)

From S2P Require Import Prelude Zend Engine Store.

Open Scope zs_scope.

(** ** [Yaf_Config_Simple] *)

(** [_config], NULL when the construction failed, and [_readonly].  [set] and
    [offsetUnset] write into the array itself, whoever else refers to it. *)
Record config := Config { cf_config : option cursor; cf_readonly : bool }.
#[export] Instance config_rebuild : Rebuild config := λ c, Config (cf_config c) (cf_readonly c).

(** The class declares [_readonly] FALSE over the TRUE of its parent. *)
Definition config_init : config := Config None false.

(** The object [c] that is initialised from [values]; NULL on failure. *)
Definition yaf_config_simple_instance (c : config) (values : zval) (readonly : option zval)
    : M (bool * config) :=
  match values with
  | ZArr ht =>
      let c := c <| cf_config := Some (Cursor ht 0) |> in
      mret (true, match readonly with
                  | Some v => c <| cf_readonly := zend_is_true v |>
                  | None => c
                  end)
  | _ =>
      yaf_trigger_error YAF_ERR_TYPE_ERROR "Invalid parameters provided, must be an array";;
      mret (false, c)
  end.

(** [Yaf_Config_Simple::__construct]; a wrong number of arguments, about which the
    parameter parser warns, leaves an empty array. *)
Definition simple_construct (c : config) (args : list zval) : M config :=
  match args with
  | [values] => res ← yaf_config_simple_instance c values None; mret res.2
  | [values; readonly] => res ← yaf_config_simple_instance c values (Some readonly); mret res.2
  | _ => php_error E_WARNING "wrong number of parameters";; mret (c <| cf_config := Some (Cursor [] 0) |>)
  end.

(** A value of a configuration, or the object for a nested array. *)
Inductive config_value := CVal (v : zval) | CSub (c : config).

Definition yaf_config_simple_format (c : config) (v : zval) : M (bool * config) :=
  yaf_config_simple_instance config_init v (Some (ZBool (cf_readonly c))).

Definition formatted (c : config) (v : zval) : M config_value :=
  match v with
  | ZArr _ =>
      res ← yaf_config_simple_format c v;
      mret (if res.1 : bool then CSub res.2 else CVal ZNull)
  | _ => mret (CVal v)
  end.

(** A name that reads as an integer is looked up as one. *)
Definition numeric_find (name : zstr) (ht : htab zval) : option zval :=
  match is_numeric_long name with
  | None => hfind (KStr name) ht
  | Some n => hfind (KIdx n) ht
  end.

Definition simple_get (c : config) (name : option zstr) : M config_value :=
  match name with
  | None => mret (CSub c)
  | Some name =>
      cu ← lift (cf_config c);
      match numeric_find name (cu_ht cu) with
      | None => mret (CVal (ZBool false))
      | Some v => formatted c v
      end
  end.

Definition simple_toArray (c : config) : zval := from_option (λ cu, ZArr (cu_ht cu)) ZNull (cf_config c).

Definition simple_set (c : config) (name : zstr) (value : zval) : M (bool * config) :=
  if cf_readonly c then mret (false, c)
  else
    cu ← lift (cf_config c);
    mret (true, c <| cf_config := Some (cursor_update (KStr name) value cu) |>).

Definition simple_isset (c : config) (name : zstr) : M bool :=
  cu ← lift (cf_config c);
  mret (bool_decide (is_Some (hfind (KStr name) (cu_ht cu)))).

Definition simple_unset (c : config) (name : zstr) : M (bool * config) :=
  if cf_readonly c then mret (false, c)
  else
    match cf_config c with
    | None => mret (false, c)
    | Some cu =>
        if bool_decide (is_Some (hfind (KStr name) (cu_ht cu)))
        then mret (true, c <| cf_config := Some (cursor_del (KStr name) cu) |>)
        else mret (false, c)
    end.

Definition simple_count (c : config) : M Z :=
  cu ← lift (cf_config c); mret (Z.of_nat (length (cu_ht cu))).

Definition simple_rewind (c : config) : M config :=
  cu ← lift (cf_config c); mret (c <| cf_config := Some (hash_rewind cu) |>).
Definition simple_current (c : config) : M config_value :=
  cu ← lift (cf_config c);
  match hash_current cu with
  | None => mret (CVal (ZBool false))
  | Some (_, v) => formatted c v
  end.
Definition simple_key (c : config) : M zval :=
  cu ← lift (cf_config c);
  mret match hash_current cu with
       | None => ZBool false
       | Some (k, _) => key_zval k
       end.
Definition simple_next (c : config) : M config :=
  cu ← lift (cf_config c); mret (c <| cf_config := Some (hash_move_forward cu) |>).
Definition simple_valid (c : config) : M bool :=
  cu ← lift (cf_config c); mret (hash_has_more cu).
Definition simple_readonly (c : config) : bool := cf_readonly c.

(** ** [Yaf_Config_Ini] *)

Definition DOT : ascii := "."%char.

(** The walk along a dotted name; every value on the way is used as an array. *)
Fixpoint ini_path (fuel : nat) (cur : option zstr * option zstr) (v : zval) : option (option zval) :=
  match fuel, cur with
  | S fuel', (Some seg, rest) =>
      ht ← Z_ARR v;
      match numeric_find seg ht with
      | None => Some None
      | Some v' => ini_path fuel' (php_strtok_r rest DOT) v'
      end
  | _, _ => Some (Some v)
  end.

(** The value for a name, or nothing.  A name of dots only leaves the value unset. *)
Definition ini_find (config : zval) (name : zstr) : option (option zval) :=
  if bool_decide (DOT ∈ cstr name) then
    match php_strtok_r (Some (cstr name)) DOT with
    | (None, _) => None
    | cur => ini_path (S (S (length name))) cur config
    end
  else ht ← Z_ARR config; Some (numeric_find name ht).

(** An ini configuration, by its [_config]. *)
Inductive ini_value := IVal (v : zval) | ISub (config : zval).

Definition yaf_config_ini_format (v : zval) : ini_value :=
  match v with ZArr _ => ISub v | _ => IVal v end.

Definition ini_get (config : zval) (name : option zstr) : option ini_value :=
  match name with
  | None => Some (ISub config)
  | Some name =>
      match config with
      | ZArr _ =>
          v ← ini_find config name;
          Some (match v with None => IVal ZNull | Some v => yaf_config_ini_format v end)
      | _ => Some (IVal ZNull)
      end
  end.

(** [set] and [offsetUnset] *)
Definition ini_set : M bool := php_error E_WARNING "Yaf_Config_Ini is readonly";; mret false.
Definition ini_isset (config : zval) (name : zstr) : option bool :=
  ht ← Z_ARR config; Some (bool_decide (is_Some (hfind (KStr name) ht))).
Definition ini_count (config : zval) : option Z := ht ← Z_ARR config; Some (Z.of_nat (length ht)).
Definition ini_toArray (config : zval) : zval := config.
Definition ini_readonly : bool := true.

(** The iteration, over the array of [_config] and its internal pointer; [valid] is a
    number. *)
Definition ini_rewind (config : cursor) : cursor := hash_rewind config.
Definition ini_current (config : cursor) : ini_value :=
  match hash_current config with
  | None => IVal (ZBool false)
  | Some (_, v) => yaf_config_ini_format v
  end.
Definition ini_key (config : cursor) : zval :=
  match hash_current config with None => ZBool false | Some (k, _) => key_zval k end.
Definition ini_next (config : cursor) : cursor := hash_move_forward config.
Definition ini_valid (config : cursor) : zval := ZLong (if hash_has_more config then 1 else 0).

(** ** Correctness of the simple configuration *)

(** A read-only configuration cannot be changed by its methods.  In another one a
    value that is set is set for [isset] and [toArray] at once and got back under its
    name, except that a name that reads as an integer is looked up as that integer,
    which [set] never stores. *)
Theorem config_simple_spec c cu name v e :
  cf_config c = Some cu → hwf (cu_ht cu) →
  if cf_readonly c then
    simple_set c name v e = Some ((false, c), e) ∧ simple_unset c name e = Some ((false, c), e)
  else
    ∃ c', simple_set c name v e = Some ((true, c'), e) ∧
      simple_isset c' name e = Some (true, e) ∧
      simple_toArray c' = ZArr (hupdate (KStr name) v (cu_ht cu)) ∧
      simple_get c' (Some name) e =
        match is_numeric_long name with
        | None => formatted c' v e
        | Some _ => simple_get c (Some name) e
        end ∧
      ∃ c'', simple_unset c' name e = Some ((true, c''), e) ∧
        simple_isset c'' name e = Some (false, e) ∧
        simple_toArray c'' = ZArr (hdel (KStr name) (hupdate (KStr name) v (cu_ht cu))).
Proof.
  intros Hc Hwf. destruct c as [cc ro]. cbn in Hc. subst cc. destruct ro; cbn; [done|].
  set (cu' := cursor_update (KStr name) v cu). exists (Config (Some cu') false).
  assert (Hf : ∀ k, hfind k (cu_ht cu') = if bool_decide (k = KStr name) then Some v else hfind k (cu_ht cu))
    by (intros k; apply hfind_hupdate).
  assert (Hwf' : hwf (cu_ht cu')) by (by apply hwf_hupdate).
  split; [done|]. split; [|split; [done|split]].
  - unfold simple_isset. rewrite (bind_lift _ _ _ cu') by done.
    by rewrite Hf, (bool_decide_true (KStr name = _)) by done.
  - unfold simple_get. rewrite (bind_lift _ _ _ cu'), (bind_lift _ _ _ cu) by done.
    unfold numeric_find. rewrite !Hf. rewrite (bool_decide_true (KStr name = _)) by done.
    destruct (is_numeric_long name) as [n|]; [|done]. rewrite Hf, bool_decide_false by done.
    destruct (hfind (KIdx n) (cu_ht cu)) as [w|]; [|done]. by destruct w.
  - exists (Config (Some (cursor_del (KStr name) cu')) false). unfold simple_unset, simple_isset.
    cbn [cf_readonly cf_config]. rewrite Hf, (bool_decide_true (KStr name = _)) by done.
    split; [done|]. split; [|done]. rewrite (bind_lift _ _ _ (cursor_del (KStr name) cu')) by done.
    cbn [cursor_del cu_ht]. rewrite hfind_hdel by done.
    by rewrite (bool_decide_true (KStr name = _)) by done.
Qed.

Lemma config_simple_spec_witness :
  let c := Config (Some (Cursor [(KIdx 1, ZStr "one")] 0)) false in
  let e := start_engine [] [] [] in
  ∃ c', simple_set c "1" (ZStr "uno") e = Some ((true, c'), e) ∧
    simple_get c' (Some ("1" : zstr)) e = Some (CVal (ZStr "one"), e).
Proof.
  intros c e.
  destruct (config_simple_spec c (Cursor [(KIdx 1, ZStr "one")] 0) "1" (ZStr "uno") e eq_refl
              ltac:(decided)) as (c' & Hs & _ & _ & Hg & _).
  exists c'. split; [exact Hs|]. etransitivity; [exact Hg|by vm_compute].
Defined.

(** ** Dotted names *)

(** A name between dots. *)
Definition segment (s : zstr) : Prop := s ≠ [] ∧ free_of DOT s ∧ no_nul s.

(** Reading nested arrays one name at a time; [None] where a value on the way is no
    array. *)
Fixpoint nested (names : list zstr) (v : zval) : option (option zval) :=
  match names with
  | [] => Some (Some v)
  | n :: names' =>
      match v with
      | ZArr ht => match numeric_find n ht with None => Some None | Some v' => nested names' v' end
      | _ => None
      end
  end.

Lemma ini_path_nested fuel o v :
  olen o < fuel → ini_path fuel (php_strtok_r o DOT) v = nested (otokens DOT o) v.
Proof.
  revert o v. induction fuel as [|fuel IH]; intros o v Hf; [lia|].
  pose proof (strtok_spec DOT o) as Hs.
  destruct (otokens DOT o) as [|t ts] eqn:E.
  - rewrite Hs. done.
  - destruct Hs as (o' & -> & Ho' & Hl). cbn [ini_path nested].
    destruct v as [| | | | |ht|]; try done. cbn. destruct (numeric_find t ht); [|done].
    rewrite <-Ho'. apply IH. lia.
Qed.

(** C38: Asking an ini configuration for a dotted name is asking for its names one after
    the other: the value is the one that the nested arrays have, NULL when a name is
    missing, and undefined when a value on the way is no array. *)
Theorem ini_get_dotted ht names :
  names ≠ [] → Forall segment names →
  ini_get (ZArr ht) (Some (join DOT names)) =
    (λ v, match v with None => IVal ZNull | Some v => yaf_config_ini_format v end) <$>
      nested names (ZArr ht).
Proof.
  intros Hne Hs. unfold ini_get.
  assert (Hn : cstr (join DOT names) = join DOT names).
  { apply cstr_no_nul. induction Hs as [|n names (_ & _ & Hn) Hs IH]; [done|].
    destruct names as [|m names]; [exact Hn|]. apply Forall_app. split; [exact Hn|].
    constructor; [done|]. by apply IH. }
  assert (Ht : tokens DOT (join DOT names) = names).
  { apply tokens_join; (eapply Forall_impl; [exact Hs|]); by intros w (? & ? & _). }
  unfold ini_find. rewrite Hn. case_bool_decide as Hdot.
  - pose proof (strtok_spec DOT (Some (join DOT names))) as Hst. cbn [otokens from_option] in Hst.
    rewrite Ht in Hst. destruct names as [|n names]; [done|].
    destruct Hst as (l & E & _ & _). rewrite E, <-E.
    rewrite ini_path_nested by (cbn; lia). cbn [otokens from_option]. rewrite Ht.
    by destruct (nested (n :: names) (ZArr ht)) as [[]|].
  - destruct names as [|n [|m names]]; [done| |].
    + cbn. by destruct (numeric_find n ht).
    + exfalso. apply Hdot. cbn. set_solver.
Qed.

Lemma ini_get_dotted_witness :
  ini_get (ZArr [(KStr "db", ZArr [(KIdx 0, ZArr [(KStr "host", ZStr "localhost")])])])
    (Some ("db.0.host" : zstr)) = Some (IVal (ZStr "localhost")).
Proof.
  etransitivity; [exact (ini_get_dotted _ ["db" : zstr; "0" : zstr; "host" : zstr]
                           ltac:(discriminate) ltac:(decided))|by vm_compute].
Defined.
