(* ===== verification/Ini.v ===== *)
(** * Reading ini files

    [configs/yaf_config_ini.c] from the callbacks of the ini parser to the finished
    configuration, and [yaf_config_instance] of [yaf_config.c].  A section that
    inherits shares the nested arrays of its parents, so the arrays live in a heap;
    the finished configuration is read off it as a value. *)

From S2P Require Import Prelude Zend Engine IniScanner IniParser Store Config.

Open Scope zs_scope.

(** ** The heap of arrays *)

Inductive ival := IScalar (v : zval) | IArr (a : Z).

Record heap := Heap { arrays : gmap Z (htab ival); next_array : Z }.
#[export] Instance heap_rebuild : Rebuild heap := λ h, Heap (arrays h) (next_array h).

Abbreviation H A := (St heap A).

(** A new array with the given buckets: [array_init], [zend_array_dup]. *)
Definition new_array (ht : htab ival) : H Z :=
  a ← gets next_array;
  modify (λ h, Heap (<[a := ht]> (arrays h)) (a + 1)%Z);;
  mret a.
Definition get_array (a : Z) : H (htab ival) := ht ← gets (λ h, arrays h !! a); lift ht.
Definition put_array (a : Z) (ht : htab ival) : H unit :=
  modify (λ h, h <| arrays := <[a := ht]> (arrays h) |>).
Definition update_array (a : Z) (k : hkey) (v : ival) : H unit :=
  ht ← get_array a; put_array a (hupdate k v ht).

(** [Z_ARRVAL_P] *)
Definition I_ARR (v : ival) : option Z := match v with IArr a => Some a | IScalar _ => None end.

(** The value of an array, nested no deeper than [fuel]. *)
Fixpoint reify (fuel : nat) (h : heap) (v : ival) : option zval :=
  match v, fuel with
  | IScalar v, _ => Some v
  | IArr a, S fuel' =>
      ht ← arrays h !! a;
      kvs ← mapM (λ kv, (λ v, (kv.1, v)) <$> reify fuel' h kv.2) ht;
      Some (ZArr kvs)
  | IArr _, 0 => None
  end.

(** ** Inheritance *)

(** The value for one bucket of the source: nested arrays under the same key are
    merged into a new one, everything else is shared. *)
Definition merged_value (deep_copy : Z → Z → H unit) (dst : Z) (k : hkey) (v : ival) : H ival :=
  ht ← get_array dst;
  match v, hfind k ht with
  | IArr src, Some (IArr old) =>
      value ← new_array [];
      deep_copy value old;;
      deep_copy value src;;
      mret (IArr value)
  | _, _ => mret v
  end.

Fixpoint copy_loop (deep_copy : Z → Z → H unit) (dst : Z) (kvs : htab ival) : H unit :=
  match kvs with
  | [] => mret tt
  | (k, v) :: kvs' =>
      value ← merged_value deep_copy dst k v;
      update_array dst k value;;
      copy_loop deep_copy dst kvs'
  end.

(** [yaf_deep_copy_section], to a depth of [fuel]. *)
Fixpoint yaf_deep_copy_section (fuel : nat) (dst src : Z) : H unit :=
  match fuel with
  | 0 => undefined
  | S fuel' => kvs ← get_array src; copy_loop (yaf_deep_copy_section fuel') dst kvs
  end.

(** ** Entries *)

(** [a.b.c = value]: the pieces of the key lead through nested arrays, which are
    made where they are missing and separated from other owners where they are not;
    an array is not overwritten by a value.  The model separates every array it
    passes, which cannot be told apart from separating the shared ones. *)
Fixpoint entry_loop (fuel : nat) (cur : option zstr * option zstr) (dst : Z) (value : zval) : H unit :=
  match fuel, cur with
  | S fuel', (Some real_key, rest) =>
      let k := symtable_key real_key in
      let next := php_strtok_r rest DOT in
      ht ← get_array dst;
      match hfind k ht, next.1 with
      | Some (IArr a), seg =>
          ht' ← get_array a;
          a' ← new_array ht';
          update_array dst k (IArr a');;
          match seg with
          | Some _ => entry_loop fuel' next a' value
          | None => mret tt
          end
      | _, Some _ =>
          tmp ← new_array [];
          update_array dst k (IArr tmp);;
          entry_loop fuel' next tmp value
      | _, None => update_array dst k (IScalar value)
      end
  | _, _ => mret tt
  end.

Definition ini_entry (key : zstr) (value : zval) (arr : Z) : H unit :=
  entry_loop (S (S (length key))) (php_strtok_r (Some (cstr key)) DOT) arr value.

(** The array under a key, which is made where it is missing; the bucket may hold a
    value that is no array. *)
Definition find_or_new (dst : Z) (k : hkey) : H ival :=
  ht ← get_array dst;
  match hfind k ht with
  | Some v => mret v
  | None => a ← new_array []; update_array dst k (IArr a);; mret (IArr a)
  end.

(** The way of [a.b[] = value], to the last array and the key in it.  Arrays on the way
    are not separated. *)
Fixpoint pop_loop (fuel : nat) (cur : option zstr * option zstr) (dst : Z) : H (Z * hkey) :=
  match fuel, cur with
  | S fuel', (Some seg, rest) =>
      let k := symtable_key seg in
      v ← find_or_new dst k;
      match php_strtok_r rest DOT with
      | (None, _) => mret (dst, k)
      | next => a ← lift (I_ARR v); pop_loop fuel' next a
      end
  | _, _ => undefined
  end.

(** [a[index] = value] *)
Definition ini_pop_entry (key : zstr) (value : zval) (index : option zstr) (arr : Z) : H unit :=
  let leading_zero := match key with "0"%char :: _ :: _ => true | _ => false end in
  place ← (match is_numeric_long key with
           | Some n => if leading_zero then pop_loop (S (S (length key))) (php_strtok_r (Some (cstr key)) DOT) arr
                       else find_or_new arr (KIdx n);; mret (arr, KIdx n)
           | None => pop_loop (S (S (length key))) (php_strtok_r (Some (cstr key)) DOT) arr
           end : H (Z * hkey));
  let '(dst, k) := place in
  v ← find_or_new dst k;
  hash ← (match v with
          | IArr a => mret a
          | IScalar _ => a ← new_array []; update_array dst k (IArr a);; mret a
          end : H Z);
  match index with
  | Some ((_ :: _) as i) => update_array hash (symtable_key i) (IScalar value)
  | _ => ht ← get_array hash; put_array hash (hpush (IScalar value) ht)
  end.

(** ** Sections *)

Definition COLON : ascii := ":"%char.
Definition SPACE : ascii := " "%char.
Definition blank (c : ascii) : bool := ceq c SPACE || ceq c COLON.

(** The name between brackets without blanks at its ends.  Where all of a name of two
    bytes or more is blanks and colons, the scan from the end leaves the buffer,
    unless blanks at the start, which have become terminators, stop it. *)
Definition section_text (key : zstr) : option zstr :=
  let skey := drop_while (ceq SPACE) key in
  if bool_decide (1 < length skey) then
    match drop_end blank skey with
    | [] => if bool_decide (length skey < length key) then Some [] else None
    | s => Some s
    end
  else Some skey.

(** The position of the last colon. *)
Definition last_colon (s : zstr) : option nat :=
  match list_find (λ c, c = COLON) (reverse s) with
  | Some (i, _) => Some (length s - S i)
  | None => None
  end.

(** The names of the parents, in the order in which they are copied: the last one
    first. *)
Fixpoint parent_names (fuel : nat) (s : zstr) : list zstr :=
  match fuel, last_colon s with
  | S fuel', Some i => drop_while blank (drop i s) :: parent_names fuel' (drop_end blank (take i s))
  | _, _ => [s]
  end.

(** The name of a section and its parents. *)
Definition section_names (text : zstr) : zstr * list zstr :=
  match break (ceq COLON) text with
  | (_, []) => (text, [])
  | (name, rest) =>
      let parents := drop_while blank rest in
      (drop_end (ceq SPACE) name, parent_names (S (length parents)) parents)
  end.

Fixpoint inherit (fuel : nat) (arr active : Z) (parents : list zstr) : H unit :=
  match parents with
  | [] => mret tt
  | p :: parents' =>
      ht ← get_array arr;
      match hfind (symtable_key p) ht with
      | Some v => src ← lift (I_ARR v); yaf_deep_copy_section fuel active src
      | None => mret tt
      end;;
      inherit fuel arr active parents'
  end.

(** ** The parser's callbacks *)

Inductive parsing_flag :=
| YAF_CONFIG_INI_PARSING_START
| YAF_CONFIG_INI_PARSING_PROCESS
| YAF_CONFIG_INI_PARSING_END.

(** [YAF_G(parsing_flag)] and [YAF_G(active_ini_file_section)] *)
Record parsing := Parsing { ps_flag : parsing_flag; ps_active : option Z }.

Definition yaf_config_ini_parser_cb (fuel : nat) (wanted : option zstr) (arr : Z) (ev : ini_event)
    (ps : parsing) : H parsing :=
  match ps_flag ps, ev with
  | YAF_CONFIG_INI_PARSING_END, _ => mret ps
  | YAF_CONFIG_INI_PARSING_PROCESS, ZEND_INI_PARSER_SECTION _ =>
      mret (Parsing YAF_CONFIG_INI_PARSING_END (ps_active ps))
  | YAF_CONFIG_INI_PARSING_START, ZEND_INI_PARSER_SECTION key =>
      text ← lift (section_text (cstr key));
      let '(skey, parents) := section_names text in
      active ← new_array [];
      inherit fuel arr active parents;;
      update_array arr (symtable_key skey) (IArr active);;
      mret (Parsing (match wanted with
                     | Some w => if bool_decide (length w = length skey) && strncasecmp0 w skey (length skey)
                                 then YAF_CONFIG_INI_PARSING_PROCESS else YAF_CONFIG_INI_PARSING_START
                     | None => YAF_CONFIG_INI_PARSING_START
                     end) (Some active))
  | _, ZEND_INI_PARSER_ENTRY key (Some value) =>
      ini_entry key value (default arr (ps_active ps));; mret ps
  | _, ZEND_INI_PARSER_POP_ENTRY key (Some value) index =>
      ini_pop_entry key value index (default arr (ps_active ps));; mret ps
  | _, _ => mret ps
  end.

Fixpoint parse_events (fuel : nat) (wanted : option zstr) (arr : Z) (evs : list ini_event)
    (ps : parsing) : H parsing :=
  match evs with
  | [] => mret ps
  | ev :: evs' => ps' ← yaf_config_ini_parser_cb fuel wanted arr ev ps; parse_events fuel wanted arr evs' ps'
  end.

(** The whole configuration of a list of events; [fuel] bounds the nesting. *)
Definition ini_parse (fuel : nat) (wanted : option zstr) (evs : list ini_event) : option zval :=
  '(arr, h) ← new_array [] (Heap ∅ 0);
  '(_, h) ← parse_events fuel wanted arr evs (Parsing YAF_CONFIG_INI_PARSING_START None) h;
  reify fuel h (IArr arr).

(** ** Making a configuration *)

(** What [stat], [fopen] and reading make of a path. *)
Inductive ini_file :=
| IniMissing
| IniNotRegular
| IniUnreadable
| IniText (text : zstr).

Section instance.
Context (ini_file_of : zstr → ini_file) (tables : ini_tables) (fuel : nat).

Definition E_ERROR_CODE : Z := 1.

Definition wanted_section (section_name : option zval) : option zstr :=
  match section_name with Some (ZStr ((_ :: _) as s)) => Some s | _ => None end.

(** [yaf_config_ini_instance]: the [_config] of the object, or NULL.  A file that cannot
    be opened leaves the configuration unset; a section is used as an array
    whatever it is. *)
Definition yaf_config_ini_instance (filename : zval) (section_name : option zval) : M (option zval) :=
  match filename with
  | ZArr _ => mret (Some filename)
  | ZStr path =>
      match ini_file_of (cstr path) with
      | IniMissing =>
          yaf_trigger_error E_ERROR_CODE ("Unable to find config file '" ++ cstr path ++ "'");; mret None
      | IniNotRegular =>
          yaf_trigger_error E_ERROR_CODE ("Argument is not a valid ini file '" ++ cstr path ++ "'");; mret None
      | IniUnreadable => undefined
      | IniText text =>
          parsed ← lift (zend_parse_ini tables ZEND_INI_SCANNER_NORMAL text);
          match parsed with
          | IniFailure =>
              yaf_trigger_error E_ERROR_CODE ("Parsing ini file '" ++ cstr path ++ "' failed");; mret None
          | IniSuccess evs =>
              configs ← lift (ini_parse fuel (wanted_section section_name) evs);
              match wanted_section section_name with
              | None => mret (Some configs)
              | Some s =>
                  ht ← lift (Z_ARR configs);
                  match hfind (symtable_key s) ht with
                  | None =>
                      yaf_trigger_error E_ERROR_CODE
                        ("There is no section '" ++ cstr s ++ "' in '" ++ cstr path ++ "'");;
                      mret None
                  | Some section => ht' ← lift (Z_ARR section); mret (Some (ZArr ht'))
                  end
              end
          end
      end
  | _ =>
      yaf_trigger_error YAF_ERR_TYPE_ERROR "Invalid parameters provided, must be path of ini file";;
      mret None
  end.

(** [Yaf_Config_Ini::__construct]: the [_config] that the object has afterwards. *)
Definition ini_construct (config : zval) (args : list zval) : M zval :=
  match args with
  | [filename] => c ← yaf_config_ini_instance filename None; mret (default config c)
  | [filename; section] => c ← yaf_config_ini_instance filename (Some section); mret (default config c)
  | _ => php_error E_WARNING "wrong number of parameters";; mret (ZArr [])
  end.

(** [yaf_config_instance]: the class of the object and its [_config].  A path shorter than
    three bytes is read before its start. *)
Definition yaf_config_instance (arg1 : zval) (arg2 : option zval) : M (option (zstr * zval)) :=
  match arg1 with
  | ZStr path =>
      if bool_decide (length path < 3) then undefined
      else if strncasecmp0 (drop (length path - 3) path) "ini" 3 then
        c ← yaf_config_ini_instance arg1 arg2;
        mret ((λ c, ("Yaf_Config_Ini" : zstr, c)) <$> c)
      else
        yaf_trigger_error YAF_ERR_TYPE_ERROR "Expects a path to *.ini configuration file as parameter";;
        mret None
  | ZArr _ => mret (Some ("Yaf_Config_Simple" : zstr, arg1))
  | _ => yaf_trigger_error YAF_ERR_TYPE_ERROR "Expects a string or an array as parameter";; mret None
  end.
End instance.

(** ** Examples *)

Definition demo_ini : list ini_event :=
  [ ZEND_INI_PARSER_SECTION "base";
    ZEND_INI_PARSER_ENTRY "db.host" (Some (ZStr "a"));
    ZEND_INI_PARSER_ENTRY "db.port" (Some (ZStr "1"));
    ZEND_INI_PARSER_SECTION " prod : base ";
    ZEND_INI_PARSER_ENTRY "db.host" (Some (ZStr "b")) ].

Example demo_ini_parsed :
  ini_parse 5 None demo_ini =
    Some (ZArr [(KStr "base", ZArr [(KStr "db", ZArr [(KStr "host", ZStr "a"); (KStr "port", ZStr "1")])]);
                (KStr "prod", ZArr [(KStr "db", ZArr [(KStr "host", ZStr "b"); (KStr "port", ZStr "1")])])]).
Proof. by vm_compute. Qed.

(** An element that a child adds to an inherited list is added to the parent's. *)
Example pop_entry_leaks :
  ini_parse 5 None
    [ ZEND_INI_PARSER_SECTION "base"; ZEND_INI_PARSER_POP_ENTRY "list" (Some (ZStr "a")) None;
      ZEND_INI_PARSER_SECTION "prod:base"; ZEND_INI_PARSER_POP_ENTRY "list" (Some (ZStr "b")) None ] =
    Some (ZArr [(KStr "base", ZArr [(KStr "list", ZArr [(KIdx 0, ZStr "a"); (KIdx 1, ZStr "b")])]);
                (KStr "prod", ZArr [(KStr "list", ZArr [(KIdx 0, ZStr "a"); (KIdx 1, ZStr "b")])])]).
Proof. by vm_compute. Qed.

(** ** What an entry changes *)

(** Only addresses below [next_array] are in use. *)
Definition heap_ok (h : heap) : Prop := ∀ a, is_Some (arrays h !! a) → (a < next_array h)%Z.

(** Following keys through nested arrays. *)
Fixpoint hlookup (h : heap) (names : list zstr) (v : ival) : option ival :=
  match names with
  | [] => Some v
  | n :: names' => a ← I_ARR v; ht ← arrays h !! a; v' ← hfind (symtable_key n) ht; hlookup h names' v'
  end.

(** [h'] has the arrays of [h] that were in use, [dst] apart. *)
Definition frame (dst : Z) (h h' : heap) : Prop :=
  (next_array h <= next_array h')%Z ∧
  ∀ b, (b < next_array h)%Z → b ≠ dst → arrays h' !! b = arrays h !! b.

Lemma frame_refl dst h : frame dst h h.
Proof. split; [lia|done]. Qed.

Lemma bind_get_array {B} (k : htab ival → H B) a ht h :
  arrays h !! a = Some ht → (get_array a ≫= k) h = k ht h.
Proof. intros Ha. unfold get_array. by st_run. Qed.

Lemma get_array_inv {B} (k : htab ival → H B) a h b h' :
  (get_array a ≫= k) h = Some (b, h') → ∃ ht, arrays h !! a = Some ht ∧ k ht h = Some (b, h').
Proof.
  unfold get_array. st_run. destruct (arrays h !! a) as [ht|] eqn:E; [|done]. eauto.
Qed.

Lemma update_array_run {B} (k : unit → H B) a key v ht h :
  arrays h !! a = Some ht →
  (update_array a key v ≫= k) h = k tt (h <| arrays := <[a := hupdate key v ht]> (arrays h) |>).
Proof.
  intros Ha. unfold update_array, put_array. rewrite bind_assoc, (bind_get_array _ _ _ _ Ha). by st_run.
Qed.

Lemma new_array_run {B} (k : Z → H B) ht h :
  (new_array ht ≫= k) h =
    k (next_array h) (Heap (<[next_array h := ht]> (arrays h)) (next_array h + 1)).
Proof. unfold new_array. by st_run. Qed.

(** The state after a fresh array was linked under a key of [dst]. *)
Definition linked (h : heap) (dst : Z) (ht ht' : htab ival) (k : hkey) : heap :=
  Heap (<[dst := hupdate k (IArr (next_array h)) ht]> (<[next_array h := ht']> (arrays h)))
    (next_array h + 1).

Lemma linked_ok h dst ht ht' k :
  heap_ok h → arrays h !! dst = Some ht →
  heap_ok (linked h dst ht ht' k) ∧ frame dst h (linked h dst ht ht' k) ∧ (dst < next_array h)%Z ∧
  arrays (linked h dst ht ht' k) !! next_array h = Some ht'.
Proof.
  intros Hok Hd. assert (Hlt : (dst < next_array h)%Z) by (apply Hok; eauto).
  split_and!; [| |done|].
  - intros a. unfold linked. cbn. destruct (decide (a = dst)) as [->|]; [lia|].
    rewrite lookup_insert_ne by done. destruct (decide (a = next_array h)) as [->|]; [lia|].
    rewrite lookup_insert_ne by done. intros ?%Hok. lia.
  - split; [cbn; lia|]. intros b Hb Hne. unfold linked. cbn.
    rewrite lookup_insert_ne by done. rewrite lookup_insert_ne by lia. done.
  - unfold linked. cbn. rewrite lookup_insert_ne by lia. by rewrite lookup_insert_eq.
Qed.

(** The end of the path [names] of [dst]: the value, or an array, which the entry did not
    overwrite. *)
Definition entered (names : list zstr) (dst : Z) (value : zval) (h : heap) : Prop :=
  hlookup h names (IArr dst) = Some (IScalar value) ∨
  ∃ a, hlookup h names (IArr dst) = Some (IArr a).

Lemma hlookup_cons h n names dst ht v :
  arrays h !! dst = Some ht → hfind (symtable_key n) ht = Some v →
  hlookup h (n :: names) (IArr dst) = hlookup h names v.
Proof. intros Hd Hv. cbn [hlookup I_ARR mbind option_bind]. rewrite Hd. cbn. by rewrite Hv. Qed.

(** The step to a fresh child, and what happens from there. *)
Lemma child_step names n dst value h ht ht' h' :
  heap_ok h → arrays h !! dst = Some ht →
  let h1 := linked h dst ht ht' (symtable_key n) in
  heap_ok h' → frame (next_array h) h1 h' → entered names (next_array h) value h' →
  frame dst h h' ∧ entered (n :: names) dst value h'.
Proof.
  intros Hok Hd h1 Hok' [Hn Hf] He.
  destruct (linked_ok h dst ht ht' (symtable_key n) Hok Hd) as (_ & [Hn1 Hf1] & Hlt & _).
  fold h1 in Hn1, Hf1. split.
  - split; [lia|]. intros b Hb Hne. rewrite Hf by lia. by apply Hf1.
  - assert (Hdst : arrays h' !! dst = Some (hupdate (symtable_key n) (IArr (next_array h)) ht)).
    { rewrite Hf by lia. unfold h1, linked. cbn. by rewrite lookup_insert_eq. }
    unfold entered. rewrite !(hlookup_cons _ _ _ _ _ _ Hdst (hfind_hupdate_eq _ _ _)). exact He.
Qed.

Lemma entry_loop_ok fuel o dst value h h' :
  olen o < fuel → heap_ok h →
  entry_loop fuel (php_strtok_r o DOT) dst value h = Some (tt, h') →
  heap_ok h' ∧ frame dst h h' ∧ (otokens DOT o ≠ [] → entered (otokens DOT o) dst value h').
Proof.
  revert o dst h. induction fuel as [|fuel IH]; intros o dst h Hf Hok Hrun; [lia|].
  pose proof (strtok_spec DOT o) as Hs. destruct (otokens DOT o) as [|n names] eqn:E.
  { rewrite Hs in Hrun. injection Hrun as <-. split; [done|]. split; [apply frame_refl|done]. }
  destruct Hs as (o' & Hs & Ho' & Hl). rewrite Hs in Hrun. cbn [entry_loop] in Hrun. clear Hs.
  apply get_array_inv in Hrun as (ht & Hd & Hrun).
  assert (Hlt : (dst < next_array h)%Z) by (apply Hok; eauto).
  pose proof (strtok_spec DOT o') as Hs'. rewrite Ho' in Hs'.
  (* the child is fresh and the loop goes on there *)
  assert (Hdown : ∀ ht', names ≠ [] →
    (new_array ht' ≫= λ a', update_array dst (symtable_key n) (IArr a') ≫= λ _,
       entry_loop fuel (php_strtok_r o' DOT) a' value) h = Some (tt, h') →
    heap_ok h' ∧ frame dst h h' ∧ (n :: names ≠ [] → entered (n :: names) dst value h')).
  { intros ht' Hne Hr. rewrite new_array_run in Hr.
    rewrite (update_array_run _ _ _ _ ht) in Hr by (cbn; rewrite lookup_insert_ne by lia; done).
    destruct (linked_ok h dst ht ht' (symtable_key n) Hok Hd) as (Hok1 & _ & _ & _).
    apply IH in Hr as (Hok' & Hf' & He'); [|lia|exact Hok1]. rewrite Ho' in He'. specialize (He' Hne).
    destruct (child_step names n dst value h ht ht' h' Hok Hd Hok' Hf' He') as [H1 H2]. auto. }
  assert (Hscalar : names = [] → update_array dst (symtable_key n) (IScalar value) h = Some (tt, h') →
    heap_ok h' ∧ frame dst h h' ∧ (n :: names ≠ [] → entered (n :: names) dst value h')).
  { intros -> Hr. pose proof (update_array_run mret dst (symtable_key n) (IScalar value) ht h Hd) as Hu.
    unfold mbind, St_bind in Hu. rewrite Hr in Hu. injection Hu as ->.
    split_and!.
    - intros b. cbn. destruct (decide (b = dst)) as [->|]; [done|].
      rewrite lookup_insert_ne by done. apply Hok.
    - split; [cbn; lia|]. intros b _ Hne. cbn. by rewrite lookup_insert_ne.
    - intros _. left. erewrite hlookup_cons; [done|cbn; apply lookup_insert_eq|apply hfind_hupdate_eq]. }
  destruct names as [|t ts].
  - rewrite Hs' in Hrun. cbn [fst] in Hrun.
    destruct (hfind (symtable_key n) ht) as [[v|a]|]; [by apply Hscalar| |by apply Hscalar].
    apply get_array_inv in Hrun as (ht' & _ & Hr). rewrite new_array_run in Hr.
    rewrite (update_array_run _ _ _ _ ht) in Hr by (cbn; rewrite lookup_insert_ne by lia; done).
    injection Hr as <-. destruct (linked_ok h dst ht ht' (symtable_key n) Hok Hd) as (Hok1 & Hf1 & _ & _).
    split; [exact Hok1|]. split; [exact Hf1|]. intros _. right. exists (next_array h).
    erewrite hlookup_cons; [done|cbn; apply lookup_insert_eq|apply hfind_hupdate_eq].
  - destruct Hs' as (l & Hs' & _ & _). rewrite Hs' in Hrun. cbn [fst] in Hrun. rewrite <-Hs' in Hrun.
    destruct (hfind (symtable_key n) ht) as [[v|a]|]; [by eapply Hdown| |by eapply Hdown].
    apply get_array_inv in Hrun as (ht' & _ & Hr). by eapply Hdown.
Qed.

(** An entry [a.b.c = value] of a section changes no array of any other section, even
    of those that it inherits from and shares arrays with; afterwards its key leads
    to the value, unless it leads to an array, which an entry does not overwrite. *)
Theorem ini_entry_spec key value arr h h' :
  heap_ok h → ini_entry key value arr h = Some (tt, h') →
  heap_ok h' ∧
  (∀ b, (b < next_array h)%Z → b ≠ arr → arrays h' !! b = arrays h !! b) ∧
  (tokens DOT (cstr key) ≠ [] → entered (tokens DOT (cstr key)) arr value h').
Proof.
  intros Hok Hr. apply entry_loop_ok in Hr as (Hok' & [_ Hf] & He); [auto| |done].
  pose proof (cstr_length key). cbn. lia.
Qed.

Definition demo_heap : heap :=
  Heap {[ 0%Z := [(KStr "a", IArr 1)]; 1%Z := []; 2%Z := [(KStr "a", IArr 1)] ]} 3.

Lemma demo_heap_ok : heap_ok demo_heap.
Proof.
  intros a [ht Ha]. cbn in *. rewrite !lookup_insert_Some, lookup_singleton_Some in Ha.
  destruct Ha as [[<- _]|[_ [[<- _]|[_ [<- _]]]]]; lia.
Qed.

Lemma ini_entry_spec_witness :
  ∃ h', ini_entry "a.b" (ZStr "v") 0 demo_heap = Some (tt, h') ∧ arrays h' !! 1%Z = Some [] ∧
    entered ["a" : zstr; "b" : zstr] 0 (ZStr "v") h'.
Proof.
  assert (E : is_Some (ini_entry "a.b" (ZStr "v") 0 demo_heap)) by (eexists; vm_compute; reflexivity).
  destruct E as [[[] h'] E]. exists h'. split; [exact E|].
  destruct (ini_entry_spec "a.b" (ZStr "v") 0 demo_heap h' demo_heap_ok E) as (_ & Hf & He).
  split; [|apply He; discriminate]. rewrite (Hf 1%Z); [reflexivity|reflexivity|discriminate].
Defined.

(** ** What inheritance computes *)

(** The merge of configurations: under a key that both have with arrays, the merge of
    the arrays, and else the value of the source. *)
Fixpoint merge_value (v : zval) (old : option zval) : zval :=
  match v, old with
  | ZArr s, Some (ZArr o) =>
      ZArr ((fix go (s d : htab zval) : htab zval :=
               match s with
               | [] => d
               | (k, v) :: s' => go s' (hupdate k (merge_value v (hfind k d)) d)
               end) s o)
  | _, _ => v
  end.
Fixpoint merge (s d : htab zval) : htab zval :=
  match s with
  | [] => d
  | (k, v) :: s' => merge s' (hupdate k (merge_value v (hfind k d)) d)
  end.

Lemma merge_value_arr s o : merge_value (ZArr s) (Some (ZArr o)) = ZArr (merge s o).
Proof. reflexivity. Qed.

Lemma merge_disjoint s d : hwf (d ++ s) → merge s d = d ++ s.
Proof.
  revert d. induction s as [|[k v] s IH]; intros d Hwf; [by rewrite app_nil_r|]. cbn [merge].
  assert (Hk : k ∉ hkeys d).
  { unfold hwf, hkeys in *. rewrite fmap_app in Hwf. apply NoDup_app in Hwf as (_ & Hd & _).
    intros Hin. apply (Hd k Hin). by left. }
  rewrite (proj2 (hfind_None k d) Hk). rewrite hupdate_new by done.
  assert (E : merge_value v None = v) by (by destruct v). rewrite E, IH; by rewrite <-app_assoc.
Qed.

Lemma hwf_merge s d : hwf d → hwf (merge s d).
Proof. revert d. induction s as [|[k v] s IH]; intros d Hd; [done|]. cbn. by apply IH, hwf_hupdate. Qed.

(** [tree n X h v t]: the value [v] of the heap is [t], nested at most [n] deep, without
    repeated keys, and no array of it is in [X]. *)
Fixpoint tree (n : nat) (X : Z → Prop) (h : heap) (v : ival) (t : zval) : Prop :=
  match v, n with
  | IScalar s, _ => is_array s = false ∧ t = s
  | IArr a, S n' => ¬ X a ∧ ∃ ht kvs, arrays h !! a = Some ht ∧ t = ZArr kvs ∧ hwf kvs ∧
      Forall2 (λ x y, x.1 = y.1 ∧ tree n' X h x.2 y.2) ht kvs
  | IArr _, 0 => False
  end.
Definition trees (n : nat) (X : Z → Prop) (h : heap) (ht : htab ival) (kvs : htab zval) : Prop :=
  Forall2 (λ x y, x.1 = y.1 ∧ tree n X h x.2 y.2) ht kvs.

Lemma tree_weaken n (X X' : Z → Prop) h h' v t :
  tree n X h v t →
  (∀ a, is_Some (arrays h !! a) → ¬ X a → ¬ X' a ∧ arrays h' !! a = arrays h !! a) →
  tree n X' h' v t.
Proof.
  intros Ht Ha. revert v t Ht. induction n as [|n IH]; intros [s|a] t; cbn; try done.
  intros (HX & ht & kvs & Hht & -> & Hwf & Hf). destruct (Ha a) as [HX' E]; [eauto|done|].
  split; [done|]. exists ht, kvs. rewrite E. split_and!; try done.
  eapply Forall2_impl; [exact Hf|]. cbn. intros x y [? ?]. auto.
Qed.

Lemma trees_weaken n (X X' : Z → Prop) h h' ht kvs :
  trees n X h ht kvs →
  (∀ a, is_Some (arrays h !! a) → ¬ X a → ¬ X' a ∧ arrays h' !! a = arrays h !! a) →
  trees n X' h' ht kvs.
Proof.
  intros Ht Ha. eapply Forall2_impl; [exact Ht|]. cbn. intros x y [? ?]. split; [done|].
  by eapply tree_weaken.
Qed.

Lemma tree_reify n X h v t : tree n X h v t → reify n h v = Some t.
Proof.
  revert v t. induction n as [|n IH]; intros [s|a] t; cbn; try (by intros [_ ->]); [done|].
  intros (_ & ht & kvs & -> & -> & _ & Hf). cbn [mbind option_bind].
  assert (E : mapM (λ kv, (λ v, (kv.1, v)) <$> reify n h kv.2) ht = Some kvs).
  { apply mapM_Some. eapply Forall2_impl; [exact Hf|]. cbn. intros [k v] [k' t] [E Ht]. cbn in *.
    subst k'. by rewrite (IH _ _ Ht). }
  by rewrite E.
Qed.

Lemma trees_hfind n X h ht kvs k :
  trees n X h ht kvs →
  match hfind k ht with
  | Some v => ∃ t, hfind k kvs = Some t ∧ tree n X h v t
  | None => hfind k kvs = None
  end.
Proof.
  induction 1 as [|[k1 v] [k2 t] ht kvs [E Ht] _ IH]; [done|]. cbn in E. subst k2. cbn.
  case_bool_decide; [eauto|exact IH].
Qed.

Lemma trees_hupdate n X h ht kvs k v t :
  trees n X h ht kvs → tree n X h v t → trees n X h (hupdate k v ht) (hupdate k t kvs).
Proof.
  intros Hs Ht. induction Hs as [|[k1 w] [k2 u] ht kvs [E Hw] Hs IH]; [by repeat constructor|].
  cbn in E. subst k2. cbn. case_bool_decide; constructor; done.
Qed.

Lemma trees_keys n X h ht kvs : trees n X h ht kvs → hkeys ht = hkeys kvs.
Proof. unfold hkeys. induction 1 as [|x y ht kvs [E _] _ IH]; [done|]. csimpl. congruence. Qed.

(** The state of a copy into [dst]: [dst] holds [d], and nothing else of interest leads
    to an address of [X]. *)
Definition holds_section (n : nat) (X : Z → Prop) (h : heap) (dst : Z) (d : htab zval) : Prop :=
  heap_ok h ∧ X dst ∧ (∀ x, X x → (x < next_array h)%Z) ∧ hwf d ∧
  ∃ hd, arrays h !! dst = Some hd ∧ trees n X h hd d.

Lemma frame_trans dst h1 h2 h3 : frame dst h1 h2 → frame dst h2 h3 → frame dst h1 h3.
Proof. intros [H1 F1] [H2 F2]. split; [lia|]. intros b Hb Hne. rewrite F2 by lia. by apply F1. Qed.

(** Changing [dst] alone keeps every value that does not lead to it. *)
Lemma frame_trees n (X : Z → Prop) dst h h' ht kvs :
  heap_ok h → X dst → frame dst h h' → trees n X h ht kvs → trees n X h' ht kvs.
Proof.
  intros Hok HX [_ Hf] Ht. eapply trees_weaken; [exact Ht|]. intros a Ha HnX. split; [done|].
  apply Hf; [by apply Hok|congruence].
Qed.

Lemma update_holds n X h dst d k v t hd :
  holds_section n X h dst d → arrays h !! dst = Some hd → trees n X h hd d → tree n X h v t →
  let h' := h <| arrays := <[dst := hupdate k v hd]> (arrays h) |> in
  holds_section n X h' dst (hupdate k t d) ∧ frame dst h h'.
Proof.
  intros (Hok & HX & Hlt & Hwf & _) Hd Hs Ht h'.
  assert (Hfr : frame dst h h').
  { split; [cbn; lia|]. intros b _ Hne. cbn. by rewrite lookup_insert_ne. }
  split; [|exact Hfr]. split_and!; [|done|done|by apply hwf_hupdate|].
  - intros b. cbn. destruct (decide (b = dst)) as [->|]; [intros _; by apply Hlt|].
    rewrite lookup_insert_ne by done. apply Hok.
  - exists (hupdate k v hd). cbn. rewrite lookup_insert_eq. split; [done|].
    eapply frame_trees; [exact Hok|exact HX|exact Hfr|]. by apply trees_hupdate.
Qed.

Definition copies (f n : nat) : Prop :=
  ∀ X h dst src d s hs,
    holds_section n X h dst d → arrays h !! src = Some hs → trees n X h hs s → hwf s →
    ∃ h', yaf_deep_copy_section f dst src h = Some (tt, h') ∧
      holds_section n X h' dst (merge s d) ∧ frame dst h h'.

(** A new array holds the empty section, next to everything that was there. *)
Lemma fresh_section n (X : Z → Prop) h :
  heap_ok h → (∀ x, X x → (x < next_array h)%Z) →
  let value := next_array h in
  let h1 := Heap (<[value := []]> (arrays h)) (value + 1) in
  let X1 := λ x, X x ∨ x = value in
  holds_section n X1 h1 value [] ∧
  (∀ b, (b < next_array h)%Z → arrays h1 !! b = arrays h !! b) ∧
  ∀ n' ht kvs, trees n' X h ht kvs → trees n' X1 h1 ht kvs.
Proof.
  intros Hok Hlt value h1 X1.
  assert (Hagree : ∀ b, (b < next_array h)%Z → arrays h1 !! b = arrays h !! b).
  { intros b Hb. cbn. rewrite lookup_insert_ne by lia. done. }
  split; [split_and!; [|by right| |apply NoDup_nil_2|]|split; [exact Hagree|]].
  - intros b. cbn. destruct (decide (b = value)) as [->|]; [lia|].
    rewrite lookup_insert_ne by done. intros ?%Hok. lia.
  - intros x [Hx| ->]; cbn; [apply Hlt in Hx; lia|lia].
  - exists []. split; [cbn; apply lookup_insert_eq|constructor].
  - intros n' ht kvs Htr. eapply trees_weaken; [exact Htr|]. intros b Hb HnX. apply Hok in Hb.
    split; [intros [?| ->]; [done|lia]|by apply Hagree].
Qed.

(** One nested merge: a new array that is filled from the old and the new value. *)
Lemma merged_value_ok f n X h dst d k v t hd :
  (∀ n', n = S n' → copies f n') →
  holds_section n X h dst d → arrays h !! dst = Some hd → trees n X h hd d → tree n X h v t →
  ∃ v' h', merged_value (yaf_deep_copy_section f) dst k v h = Some (v', h') ∧
    tree n X h' v' (merge_value t (hfind k d)) ∧ holds_section n X h' dst d ∧
    arrays h' !! dst = Some hd ∧ frame dst h h'.
Proof.
  intros IH Hold Hd Hs Ht. unfold merged_value. rewrite (bind_get_array _ _ _ _ Hd).
  pose proof (trees_hfind n X h hd d k Hs) as Hk.
  assert (Hsame : merge_value t (hfind k d) = t →
    ∃ v' h', (mret v : H ival) h = Some (v', h') ∧
      tree n X h' v' (merge_value t (hfind k d)) ∧ holds_section n X h' dst d ∧
      arrays h' !! dst = Some hd ∧ frame dst h h').
  { intros E. exists v, h. rewrite E. split_and!; try done; apply Hold. }
  destruct v as [w|src]; [destruct n; destruct Ht as [Hw ->]; apply Hsame; by destruct w|].
  destruct n as [|n]; [done|]. destruct Ht as (HXs & hs & s & Hsrc & -> & Hwfs & Hss).
  destruct (hfind k hd) as [[w|old]|]; [| |by apply Hsame; rewrite Hk].
  { destruct Hk as (u & Hu & Hw & ->). apply Hsame. rewrite Hu. by destruct w. }
  destruct Hk as (u & Hu & HXo & ho & o & Ho & -> & Hwfo & Hoo). rewrite Hu, merge_value_arr.
  clear Hsame. destruct Hold as (Hok & HX & Hlt & Hwf & _). rewrite new_array_run.
  destruct (fresh_section n X h Hok Hlt) as (Hnew & Hagree & Hinto). revert Hnew Hagree Hinto.
  set (value := next_array h). set (h1 := Heap (<[value := []]> (arrays h)) (value + 1)).
  set (X1 := λ x, X x ∨ x = value). intros Hnew Hagree Hinto.
  assert (Hold1 : arrays h1 !! old = Some ho) by (rewrite Hagree by (apply Hok; eauto); done).
  destruct (IH n eq_refl X1 h1 value old [] o ho Hnew Hold1 (Hinto _ _ _ Hoo) Hwfo)
    as (h2 & Hr2 & Hh2 & Hf2).
  rewrite merge_disjoint in Hh2 by done.
  assert (Hsrc2 : arrays h2 !! src = Some hs).
  { assert (src < next_array h)%Z by (apply Hok; eauto). rewrite (proj2 Hf2) by (cbn; lia). by rewrite Hagree. }
  assert (Hss2 : trees n X1 h2 hs s).
  { eapply frame_trees; [apply Hnew|by right|exact Hf2|]. by apply Hinto. }
  destruct (IH n eq_refl X1 h2 value src o s hs Hh2 Hsrc2 Hss2 Hwfs) as (h3 & Hr3 & Hh3 & Hf3).
  assert (Hf13 : frame value h1 h3) by (by eapply frame_trans).
  assert (Hagree3 : ∀ b, (b < next_array h)%Z → arrays h3 !! b = arrays h !! b).
  { intros b Hb. rewrite (proj2 Hf13) by (cbn; lia). by apply Hagree. }
  assert (Hn3 : (next_array h < next_array h3)%Z) by (destruct Hf13 as [Hn _]; cbn in Hn; lia).
  destruct Hh3 as (Hok3 & _ & _ & Hwf3 & hd3 & Hd3 & Ht3).
  exists (IArr value), h3. split; [|split_and!].
  - rewrite (bind_runs _ _ _ _ _ Hr2). by rewrite (bind_runs _ _ _ _ _ Hr3).
  - split; [intros Hx; apply Hlt in Hx; lia|]. exists hd3, (merge s o). split_and!; [done|done|done|].
    eapply (trees_weaken _ X1); [exact Ht3|]. intros b _ HnX. split; [|done]. intros Hx. apply HnX. by left.
  - split_and!; [done|done| |done|].
    + intros x Hx. apply Hlt in Hx. lia.
    + exists hd. split; [by rewrite Hagree3 by (apply Hok; eauto)|].
      eapply trees_weaken; [exact Hs|]. intros b Hb HnX. split; [done|]. apply Hagree3. by apply Hok.
  - by rewrite Hagree3 by (apply Hok; eauto).
  - split; [lia|]. intros b Hb _. by apply Hagree3.
Qed.

Lemma copies_ok f n : n < f → copies f n.
Proof.
  revert n. induction f as [|f IHf]; intros n Hnf; [lia|].
  intros X h dst src d s hs Hold Hsrc Hss Hwfs. cbn [yaf_deep_copy_section].
  rewrite (bind_get_array _ _ _ _ Hsrc). clear Hsrc Hwfs. revert h d Hold Hss.
  revert s. induction hs as [|[k v] hs IHs]; intros s h d Hold Hss.
  - inversion Hss; subst. exists h. cbn [copy_loop merge]. split; [done|]. split; [done|apply frame_refl].
  - inversion Hss as [|? [k' t] ? s' [E Ht] Hss']; subst. cbn in E, Ht. subst k'.
    destruct Hold as (Hok & HX & Hlt & Hwf & hd & Hd & Hs).
    assert (Hold : holds_section n X h dst d) by (split_and!; eauto).
    destruct (merged_value_ok f n X h dst d k v t hd) as (v' & h1 & Hr & Ht' & Hold1 & Hd1 & Hf1);
      [intros n' ->; apply IHf; lia|done|done|done|done|].
    assert (Hs1 : trees n X h1 hd d) by (by eapply frame_trees).
    destruct (update_holds n X h1 dst d k v' _ hd Hold1 Hd1 Hs1 Ht') as [Hold2 Hf2].
    assert (Hss2 : trees n X (h1 <| arrays := <[dst := hupdate k v' hd]> (arrays h1) |>) hs s').
    { eapply frame_trees; [apply Hold|exact HX| |exact Hss']. by eapply frame_trans. }
    destruct (IHs _ _ _ Hold2 Hss2) as (h3 & Hr3 & Hold3 & Hf3).
    exists h3. cbn [copy_loop merge]. rewrite (bind_runs _ _ _ _ _ Hr).
    rewrite (update_array_run _ _ _ _ _ _ Hd1). split; [exact Hr3|]. split; [exact Hold3|].
    eapply frame_trans; [exact Hf1|]. by eapply frame_trans.
Qed.

Lemma hfind_merge k s d :
  hwf s →
  hfind k (merge s d) = match hfind k s with
                        | Some v => Some (merge_value v (hfind k d))
                        | None => hfind k d
                        end.
Proof.
  unfold hwf, hkeys. revert d. induction s as [|[k' v] s IH]; csimpl; intros d Hwf; [done|].
  apply NoDup_cons in Hwf as [Hni Hwf]. rewrite IH, hfind_hupdate by done.
  case_bool_decide as E; [|done]. subst k'. by rewrite (proj2 (hfind_None k s) Hni).
Qed.

(** The configuration of a section from its parents, in the order of the copies. *)
Definition inherited (cfg : htab zval) (parents : list zstr) : htab zval :=
  foldl (λ d p, match hfind (symtable_key p) cfg with
                | Some (ZArr s) => merge s d
                | _ => d
                end) [] parents.

(** Copying one parent after the other. *)
Lemma inherit_ok n (X : Z → Prop) fuel arr active ht cfg : n < fuel → arr ≠ active →
  ∀ parents h d, (∀ p v, p ∈ parents → hfind (symtable_key p) cfg = Some v → is_array v = true) →
  holds_section n X h active d → arrays h !! arr = Some ht → trees (S n) X h ht cfg →
  ∃ h', inherit fuel arr active parents h = Some (tt, h') ∧
    holds_section n X h' active
      (foldl (λ d p, match hfind (symtable_key p) cfg with Some (ZArr s) => merge s d | _ => d end) d parents) ∧
    frame active h h'.
Proof.
  intros Hn Hne. induction parents as [|p ps IH]; intros h d Hpar Hold Ha Ht; [exists h; auto using frame_refl|].
  cbn [inherit foldl]. rewrite (bind_get_array _ _ _ _ Ha).
  pose proof (trees_hfind _ _ _ _ _ (symtable_key p) Ht) as Hp.
  destruct (hfind (symtable_key p) ht) as [v|] eqn:Hv.
  - destruct Hp as (t & Hft & Htree). rewrite Hft.
    assert (Hta : is_array t = true) by (eapply Hpar; [by left|exact Hft]).
    destruct v as [w|src]; [by destruct Htree as [Hw ->]; congruence|].
    destruct Htree as (HXs & hs & s & Hs & -> & Hwfs & Hss). rewrite bind_assoc, (bind_lift _ _ _ src) by done.
    destruct (copies_ok fuel n Hn X h active src d s hs Hold Hs Hss Hwfs) as (h1 & Hr & Hold1 & Hf1).
    rewrite (bind_runs _ _ _ _ _ Hr). assert (arr < next_array h)%Z by (apply (proj1 Hold); eauto).
    destruct (IH h1 (merge s d)) as (h' & Hr' & Hold' & Hf'); [set_solver|done|by rewrite (proj2 Hf1)| |].
    + eapply frame_trees; [apply (proj1 Hold)|apply Hold|exact Hf1|exact Ht].
    + exists h'. split; [done|]. split; [done|]. by eapply frame_trans.
  - rewrite Hp. apply IH; [set_solver|done..].
Qed.

(** A section that inherits begins as the merge of its parents, those copied later
    before the others, unknown ones left out: under a key that two have with arrays
    the arrays are merged, and else the later one's value stands.  The sections that
    were there are what they were. *)
Theorem inherit_spec n fuel arr active parents h ht cfg :
  n < fuel → heap_ok h → arr ≠ active → arrays h !! active = Some [] →
  arrays h !! arr = Some ht → trees (S n) (eq active) h ht cfg → hwf cfg →
  (∀ p v, p ∈ parents → hfind (symtable_key p) cfg = Some v → is_array v = true) →
  ∃ h', inherit fuel arr active parents h = Some (tt, h') ∧
    reify (S n) h' (IArr active) = Some (ZArr (inherited cfg parents)) ∧
    reify (S (S n)) h' (IArr arr) = Some (ZArr cfg).
Proof.
  intros Hn Hok Hne Hact Harr Hcfg Hwf Hpar. set (X := eq active).
  destruct (inherit_ok n X fuel arr active ht cfg Hn Hne parents h []) as (h' & Hr & Hold & Hf); [done| |done|done|].
  { split_and!; [done|done| |apply NoDup_nil_2|].
    - intros x <-. apply Hok. eauto.
    - exists []. split; [done|constructor]. }
  exists h'. split; [exact Hr|]. destruct Hold as (_ & _ & _ & Hwf' & hd & Hd & Hds). split.
  - apply (tree_reify _ (λ _, False)). split; [intros []|]. exists hd, (inherited cfg parents).
    split_and!; try done. eapply trees_weaken; [exact Hds|]. intros a _ _. split; [intros []|done].
  - apply (tree_reify _ X). split; [by intros E; apply Hne|]. exists ht, cfg. split_and!; try done.
    + rewrite (proj2 Hf); [done|apply Hok; eauto|done].
    + by eapply frame_trees.
Qed.

Lemma inherit_spec_witness :
  let cfg := [(KStr "base", ZArr [(KStr "a", ZArr []); (KStr "b", ZStr "1")])] in
  let h := Heap (<[0%Z := [(KStr "base", IArr 1)]]> (<[1%Z := [(KStr "a", IArr 2); (KStr "b", IScalar (ZStr "1"))]]>
             (<[2%Z := []]> {[ 3%Z := [] ]}))) 4 in
  ∃ h', inherit 5 0 3 ["base" : zstr; "other" : zstr] h = Some (tt, h') ∧
    reify 3 h' (IArr 3) = Some (ZArr [(KStr "a", ZArr []); (KStr "b", ZStr "1")]) ∧
    reify 4 h' (IArr 0) = Some (ZArr cfg).
Proof.
  intros cfg h.
  refine (inherit_spec 2 5 0 3 ["base" : zstr; "other" : zstr] h [(KStr "base", IArr 1)] cfg _ _ _ _ _ _ _ _).
  - lia.
  - intros a [ht Ha]. cbn in *. rewrite !lookup_insert_Some, lookup_singleton_Some in Ha.
    destruct Ha as [[<- _]|[_ [[<- _]|[_ [[<- _]|[_ [<- _]]]]]]]; lia.
  - done.
  - reflexivity.
  - reflexivity.
  - repeat constructor; cbn.
    + done.
    + eexists _, _. split; [reflexivity|]. split; [reflexivity|]. split; [decided|].
      repeat constructor; cbn; [done|]. eexists _, _. split; [reflexivity|]. split; [reflexivity|].
      split; [decided|constructor].
  - decided.
  - intros p v Hp Hv. apply elem_of_cons in Hp as [->|Hp]; [by injection Hv as <-|].
    apply list_elem_of_singleton in Hp as ->. by vm_compute in Hv.
Defined.
