(* ===== verification/IniFile.v ===== *)
(** * What an ini file becomes

    The parser's callbacks work on a heap of shared arrays ([Ini]); here is what they
    compute, as a function on values, and the proof that reading the events of a file gives
    exactly that - with [IniText], from the text of the file to the configuration. *)

From S2P Require Import Prelude Zend Engine IniScanner IniParser IniText Store Config Ini.

Open Scope zs_scope.

(** ** The configuration of a list of events *)

(** [a.b.c = value]: arrays are made where they are missing and a value that is no array
    is replaced; an array is not overwritten. *)
Fixpoint enter (names : list zstr) (value : zval) (ht : htab zval) : htab zval :=
  match names with
  | [] => ht
  | n :: names' =>
      let k := symtable_key n in
      match hfind k ht, names' with
      | Some (ZArr _), [] => ht
      | Some (ZArr sub), _ => hupdate k (ZArr (enter names' value sub)) ht
      | _, [] => hupdate k value ht
      | _, _ => hupdate k (ZArr (enter names' value [])) ht
      end
  end.

Definition section_of (cfg : htab zval) (k : hkey) : htab zval :=
  match hfind k cfg with Some (ZArr s) => s | _ => [] end.

Record config_state := ConfigState {
  cs_flag : parsing_flag;
  cs_active : option hkey;        (** the section that entries go to *)
  cs_config : htab zval;
}.

Definition parents_ok (cfg : htab zval) (parents : list zstr) : bool :=
  forallb (λ p, match hfind (symtable_key p) cfg with Some v => is_array v | None => true end) parents.

(** An event, of the two kinds that share no list between sections; undefined where a
    name of a section is. *)
Definition config_event (wanted : option zstr) (ev : ini_event) (s : config_state) : option config_state :=
  match cs_flag s, ev with
  | YAF_CONFIG_INI_PARSING_END, _ => Some s
  | YAF_CONFIG_INI_PARSING_PROCESS, ZEND_INI_PARSER_SECTION _ =>
      Some (ConfigState YAF_CONFIG_INI_PARSING_END (cs_active s) (cs_config s))
  | YAF_CONFIG_INI_PARSING_START, ZEND_INI_PARSER_SECTION key =>
      text ← section_text (cstr key);
      let '(skey, parents) := section_names text in
      if parents_ok (cs_config s) parents then
        Some (ConfigState
          (match wanted with
           | Some w => if bool_decide (length w = length skey) && strncasecmp0 w skey (length skey)
                       then YAF_CONFIG_INI_PARSING_PROCESS else YAF_CONFIG_INI_PARSING_START
           | None => YAF_CONFIG_INI_PARSING_START
           end)
          (Some (symtable_key skey))
          (hupdate (symtable_key skey) (ZArr (inherited (cs_config s) parents)) (cs_config s)))
      else None
  | _, ZEND_INI_PARSER_ENTRY key (Some value) =>
      let names := tokens DOT (cstr key) in
      Some (ConfigState (cs_flag s) (cs_active s)
        (match cs_active s with
         | None => enter names value (cs_config s)
         | Some k => hupdate k (ZArr (enter names value (section_of (cs_config s) k))) (cs_config s)
         end))
  | _, ZEND_INI_PARSER_ENTRY _ None => Some s
  | _, ZEND_INI_PARSER_POP_ENTRY _ _ _ => None
  end.

Definition config_of (wanted : option zstr) (evs : list ini_event) : option (htab zval) :=
  cs_config <$> foldM (λ s ev, config_event wanted ev s) (ConfigState YAF_CONFIG_INI_PARSING_START None []) evs.

(** The depth that the names of an event lead to. *)
Definition event_ok (depth : nat) (ev : ini_event) : Prop :=
  match ev with
  | ZEND_INI_PARSER_ENTRY key (Some v) => is_array v = false ∧ length (tokens DOT (cstr key)) ≤ S depth
  | _ => True
  end.

(** ** Entries *)

Lemma hupdate_same (k : hkey) (v : zval) ht : hfind k ht = Some v → hupdate k v ht = ht.
Proof.
  induction ht as [|[k' v'] ht IH]; [done|]. cbn. case_bool_decide as E; [by intros [= ->]; subst|]. intros Hf. by rewrite IH.
Qed.

Lemma tree_scalar n X h w t : tree n X h (IScalar w) t ↔ is_array w = false ∧ t = w.
Proof. by destruct n. Qed.

(** Going down to a new array, which is filled there. *)
Lemma descend n (X : Z → Prop) h dst d hd k ht sub :
  holds_section (S n) X h dst d → arrays h !! dst = Some hd → trees (S n) X h hd d → trees n X h ht sub → hwf sub →
  let a := next_array h in
  let h1 := linked h dst hd ht k in
  let X1 := λ x, X x ∨ x = a in
  holds_section n X1 h1 a sub ∧ arrays h1 !! dst = Some (hupdate k (IArr a) hd) ∧
  ∀ h2 sub', holds_section n X1 h2 a sub' → frame a h1 h2 →
    holds_section (S n) X h2 dst (hupdate k (ZArr sub') d) ∧ frame dst h h2.
Proof.
  intros (Hok & HX & Hlt & Hwf & _) Hd Hs Hsub Hwfs a h1 X1.
  destruct (linked_ok h dst hd ht k Hok Hd) as (Hok1 & Hf1 & Hdlt & Ha). fold a h1 in Hok1, Hf1, Ha.
  assert (Hagree : ∀ b, (b < a)%Z → b ≠ dst → arrays h1 !! b = arrays h !! b) by apply Hf1.
  assert (Hdst : arrays h1 !! dst = Some (hupdate k (IArr a) hd)) by (unfold h1, linked; cbn; by rewrite lookup_insert_eq).
  split; [|split; [exact Hdst|]].
  - split_and!; [done|by right| |done|].
    + intros x [Hx%Hlt| ->]; unfold h1, linked; cbn; subst a; lia.
    + exists ht. split; [done|]. eapply trees_weaken; [exact Hsub|]. intros b Hb HnX. assert (Hba := Hok _ Hb).
      split; [intros [?| ->]; [done|subst a; lia]|]. apply Hagree; [subst a; lia|congruence].
  - intros h2 sub' (Hok2 & _ & Hlt2 & Hwf2 & ht2 & Hht2 & Hts2) Hf2.
    assert (Hf : frame dst h h2).
    { destruct Hf1 as [Hn1 Hf1], Hf2 as [Hn2 Hf2]. split; [lia|]. intros b Hb Hne. rewrite Hf2; [|lia|subst a; lia]. by apply Hf1. }
    split; [|exact Hf]. split_and!; [done|done| |by apply hwf_hupdate|].
    + intros x Hx. apply Hlt2. by left.
    + exists (hupdate k (IArr a) hd). split.
      { rewrite (proj2 Hf2); [done|unfold linked in *; destruct Hf1; lia|subst a; lia]. }
      apply trees_hupdate; [exact (frame_trees _ _ dst h h2 _ _ Hok HX Hf Hs)|]. split; [intros Hx%Hlt; subst a; lia|].
      exists ht2, sub'. split_and!; try done. eapply trees_weaken; [exact Hts2|]. intros b _ HnX. split; [|done].
      intros Hx. apply HnX. by left.
Qed.

Lemma entry_loop_run fuel value : is_array value = false → ∀ o n X h dst d,
  olen o < fuel → holds_section n X h dst d → length (otokens DOT o) ≤ S n →
  ∃ h', entry_loop fuel (php_strtok_r o DOT) dst value h = Some (tt, h') ∧
    holds_section n X h' dst (enter (otokens DOT o) value d) ∧ frame dst h h'.
Proof.
  intros Hv. induction fuel as [|fuel IH]; intros o n X h dst d Hf Hold Hlen; [lia|].
  pose proof (strtok_spec DOT o) as Hs. destruct (otokens DOT o) as [|nm names] eqn:E.
  { rewrite Hs. exists h. split; [done|]. split; [done|apply frame_refl]. }
  destruct Hs as (o' & Hs & Ho' & Hl). rewrite Hs. cbn [entry_loop enter]. clear Hs.
  assert (Hold0 := Hold). destruct Hold as (Hok & HX & Hlt & Hwf & hd & Hd & Hts).
  assert (Hdlt : (dst < next_array h)%Z) by (apply Hok; eauto).
  rewrite (bind_get_array _ _ _ _ Hd). pose proof (trees_hfind _ _ _ _ _ (symtable_key nm) Hts) as Hfind.
  pose proof (strtok_spec DOT o') as Hs'. rewrite Ho' in Hs'.
  assert (Hscalar : names = [] → ∃ h', update_array dst (symtable_key nm) (IScalar value) h = Some (tt, h') ∧
    holds_section n X h' dst (hupdate (symtable_key nm) value d) ∧ frame dst h h').
  { intros ->. destruct (update_holds n X h dst d (symtable_key nm) (IScalar value) value hd) as [H1 H2]; [done..| |].
    - by destruct n.
    - eexists. split; [|split; [exact H1|exact H2]].
      pose proof (update_array_run mret dst (symtable_key nm) (IScalar value) hd h Hd) as Hu.
      unfold mbind, St_bind in Hu. destruct (update_array _ _ _ h) as [[[] ?]|]; [by injection Hu as ->|done]. }
  assert (Hdown : ∀ m ht sub, names ≠ [] → n = S m → trees m X h ht sub → hwf sub →
    ∃ h', (a' ← new_array ht; update_array dst (symtable_key nm) (IArr a');; entry_loop fuel (php_strtok_r o' DOT) a' value) h =
        Some (tt, h') ∧
      holds_section n X h' dst (hupdate (symtable_key nm) (ZArr (enter names value sub)) d) ∧ frame dst h h').
  { intros m ht sub Hne -> Hsub Hwfs. cbn [length] in Hlen.
    destruct (descend m X h dst d hd (symtable_key nm) ht sub Hold0 Hd Hts Hsub Hwfs) as (Hnew & _ & Hback).
    destruct (IH o' m _ _ _ _ ltac:(lia) Hnew ltac:(rewrite Ho'; lia)) as (h2 & Hr & Hold2 & Hf2). rewrite Ho' in Hold2.
    destruct (Hback h2 _ Hold2 Hf2) as [Hres Hfr]. exists h2. split; [|by split]. rewrite new_array_run.
    rewrite (update_array_run _ _ _ _ hd) by (cbn; rewrite lookup_insert_ne by lia; done). exact Hr. }
  destruct names as [|t ts].
  - rewrite Hs'. cbn [fst]. destruct (hfind (symtable_key nm) hd) as [[w|a]|].
    + destruct Hfind as (u & -> & [Hw ->]%tree_scalar). destruct w; try done; by apply Hscalar.
    + destruct Hfind as (u & Hu & Htree). destruct n as [|n]; [done|].
      destruct Htree as (_ & ht & sub & Ha & -> & Hwfs & Hsub). rewrite Hu.
      destruct (descend n X h dst d hd (symtable_key nm) ht sub Hold0 Hd Hts Hsub Hwfs) as (Hnew & Hd1 & Hback).
      destruct (Hback _ sub Hnew (frame_refl _ _)) as [Hres Hfr]. rewrite (hupdate_same _ _ _ Hu) in Hres.
      eexists. split; [|by split]. rewrite (bind_get_array _ _ _ _ Ha), new_array_run.
      rewrite (update_array_run _ _ _ _ hd) by (cbn; rewrite lookup_insert_ne by lia; done). done.
    + rewrite Hfind. by apply Hscalar.
  - destruct n as [|n]; [cbn in Hlen; lia|]. destruct Hs' as (l & Hs' & _ & _). rewrite Hs'. cbn [fst]. rewrite <-Hs'.
    destruct (hfind (symtable_key nm) hd) as [[w|a]|].
    + destruct Hfind as (u & -> & [Hw ->]%tree_scalar). destruct w; try done; apply (Hdown n []); try done; try constructor; apply NoDup_nil_2.
    + destruct Hfind as (u & -> & _ & ht & sub & Ha & -> & Hwfs & Hsub). rewrite (bind_get_array _ _ _ _ Ha). by apply (Hdown n).
    + rewrite Hfind. apply (Hdown n []); try done; try constructor; apply NoDup_nil_2.
Qed.

Lemma ini_entry_run key value n X h dst d :
  is_array value = false → holds_section n X h dst d → length (tokens DOT (cstr key)) ≤ S n →
  ∃ h', ini_entry key value dst h = Some (tt, h') ∧
    holds_section n X h' dst (enter (tokens DOT (cstr key)) value d) ∧ frame dst h h'.
Proof.
  intros Hv Hold Hlen. apply (entry_loop_run _ value Hv (Some (cstr key))); [|done|done].
  pose proof (cstr_length key). cbn. lia.
Qed.

(** ** The file while it is read *)

(** The arrays that only the reading itself changes: that of the file and that of the
    section that entries go to. *)
Definition in_use (arr a : Z) (x : Z) : Prop := arr = x ∨ x = a.

(** Under the key of the active section is its array, which holds [sec]. *)
Definition slots (n : nat) (arr : Z) (k : hkey) (a : Z) (sec : htab zval) (h : heap) (ht : htab ival) (cfg : htab zval) : Prop :=
  Forall2 (λ x y, x.1 = y.1 ∧
    if bool_decide (x.1 = k) then x.2 = IArr a ∧ y.2 = ZArr sec else tree (S n) (in_use arr a) h x.2 y.2) ht cfg.

Definition file_ok (n : nat) (h : heap) (arr : Z) (act : option (hkey * Z)) (cfg : htab zval) : Prop :=
  match act with
  | None => holds_section (S n) (eq arr) h arr cfg
  | Some (k, a) =>
      a ≠ arr ∧ hwf cfg ∧ ∃ ht sec, arrays h !! arr = Some ht ∧ hfind k cfg = Some (ZArr sec) ∧
        holds_section n (in_use arr a) h a sec ∧ slots n arr k a sec h ht cfg
  end.

Definition file_rel (n : nat) (h : heap) (arr : Z) (ps : parsing) (s : config_state) : Prop :=
  ∃ act, ps = Parsing (cs_flag s) (snd <$> act) ∧ cs_active s = fst <$> act ∧ file_ok n h arr act (cs_config s).

Lemma slots_other n arr k a sec sec' h ht cfg : k ∉ hkeys cfg → slots n arr k a sec h ht cfg → slots n arr k a sec' h ht cfg.
Proof.
  intros Hk Hs. induction Hs as [|x y ht cfg [E Hxy] Hs IH]; [constructor|]. unfold hkeys in Hk. csimpl in Hk.
  apply not_elem_of_cons in Hk as [Hne Hk]. constructor; [|by apply IH]. split; [done|].
  rewrite bool_decide_false in Hxy by congruence. by rewrite bool_decide_false by congruence.
Qed.

Lemma slots_update n arr k a sec sec' h ht cfg :
  hwf cfg → slots n arr k a sec h ht cfg → hfind k cfg = Some (ZArr sec) →
  slots n arr k a sec' h ht (hupdate k (ZArr sec') cfg).
Proof.
  intros Hwf Hs. induction Hs as [|[k1 v] [k2 t] ht cfg [E Hxy] Hs IH]; [done|]. cbn in E. subst k2.
  unfold hwf, hkeys in Hwf. csimpl in Hwf. apply NoDup_cons in Hwf as [Hni Hwf]. cbn [hfind hupdate]. cbn in Hxy.
  destruct (decide (k1 = k)) as [->|E].
  - rewrite !bool_decide_true in * by done. intros _. constructor.
    + split; [done|]. cbn. rewrite bool_decide_true by done. by destruct Hxy as [-> _].
    + by eapply slots_other.
  - rewrite !(bool_decide_false (k = k1)) by congruence. rewrite bool_decide_false in Hxy by done.
    intros Hf. constructor; [|by apply IH]. split; [done|]. cbn. by rewrite bool_decide_false.
Qed.

Lemma slots_weaken n arr k a sec h h' ht cfg : slots n arr k a sec h ht cfg →
  (∀ b, is_Some (arrays h !! b) → ¬ in_use arr a b → arrays h' !! b = arrays h !! b) → slots n arr k a sec h' ht cfg.
Proof.
  intros Hs Hb. eapply Forall2_impl; [exact Hs|]. intros x y [E Hxy]. split; [done|].
  destruct (bool_decide (x.1 = k)); [done|]. eapply tree_weaken; [exact Hxy|]. auto.
Qed.

(** A new section under its key. *)
Lemma slots_new n arr k a sec h ht cfg : hwf cfg → trees (S n) (in_use arr a) h ht cfg →
  slots n arr k a sec h (hupdate k (IArr a) ht) (hupdate k (ZArr sec) cfg).
Proof.
  intros Hwf Hs. induction Hs as [|[k1 v] [k2 t] ht cfg [E Hxy] Hs IH].
  { constructor; [|constructor]. cbn. by rewrite bool_decide_true. }
  cbn in E, Hxy. subst k2. unfold hwf, hkeys in Hwf. csimpl in Hwf. apply NoDup_cons in Hwf as [Hni Hwf].
  cbn [hupdate]. destruct (decide (k1 = k)) as [->|E].
  - rewrite !bool_decide_true by done. constructor; [cbn; by rewrite bool_decide_true|]. clear -Hni Hs.
    induction Hs as [|[k1 v1] [k2 t1] ht cfg [E Hxy] Hs IH]; [constructor|]. cbn in E. subst k2.
    csimpl in Hni. apply not_elem_of_cons in Hni as [Hne Hni]. constructor; [|by apply IH]. cbn.
    by rewrite bool_decide_false by congruence.
  - rewrite !(bool_decide_false (k = k1)) by congruence. constructor; [|by apply IH]. cbn. by rewrite bool_decide_false.
Qed.

(** The file as a table, whatever section is active. *)
Lemma file_trees n h arr act cfg : file_ok n h arr act cfg →
  heap_ok h ∧ hwf cfg ∧ ∃ ht, arrays h !! arr = Some ht ∧ trees (S n) (eq arr) h ht cfg.
Proof.
  destruct act as [[k a]|].
  - intros (Hne & Hwf & ht & sec & Ha & _ & (Hok & _ & _ & Hwfs & hd & Hd & Hds) & Hs). split_and!; try done.
    exists ht. split; [done|]. eapply Forall2_impl; [exact Hs|]. intros x y [E Hxy]. split; [done|].
    destruct (bool_decide (x.1 = k)).
    + destruct Hxy as [-> ->]. split; [congruence|]. exists hd, sec. split_and!; try done.
      eapply trees_weaken; [exact Hds|]. intros b _ HX. split; [|done]. intros ->. apply HX. by left.
    + eapply tree_weaken; [exact Hxy|]. intros b _ HX. split; [|done]. intros ->. apply HX. by left.
  - intros (Hok & _ & _ & Hwf & ht & Ha & Hs). eauto.
Qed.

Lemma file_entry n h arr act cfg key v : file_ok n h arr act cfg → is_array v = false → length (tokens DOT (cstr key)) ≤ S n →
  ∃ h', ini_entry key v (default arr (snd <$> act)) h = Some (tt, h') ∧
    file_ok n h' arr act
      (match fst <$> act with
       | None => enter (tokens DOT (cstr key)) v cfg
       | Some k => hupdate k (ZArr (enter (tokens DOT (cstr key)) v (section_of cfg k))) cfg
       end).
Proof.
  intros Hfile Hv Hlen. destruct act as [[k a]|].
  - destruct Hfile as (Hne & Hwf & ht & sec & Ha & Hk & Hsec & Hs).
    destruct (ini_entry_run key v n _ _ _ _ Hv Hsec Hlen) as (h' & Hr & Hsec' & Hf).
    exists h'. split; [exact Hr|]. assert (Hok := proj1 Hsec). cbn [fst fmap option_fmap option_map]. unfold section_of. rewrite Hk.
    split; [done|]. split; [by apply hwf_hupdate|]. eexists ht, _.
    split; [rewrite (proj2 Hf); [done|apply Hok; eauto|done]|]. split; [apply hfind_hupdate_eq|]. split; [exact Hsec'|].
    eapply slots_update; [done| |exact Hk]. eapply slots_weaken; [exact Hs|]. intros b Hb HX. apply Hf; [by apply Hok|].
    intros ->. apply HX. by right.
  - destruct (ini_entry_run key v (S n) _ _ _ _ Hv Hfile) as (h' & Hr & Hsec' & Hf); [lia|]. eauto.
Qed.

Lemma file_section n fuel h arr act cfg skey parents : n < fuel → file_ok n h arr act cfg → parents_ok cfg parents = true →
  ∃ h' a, (∀ B (k : Z → H B),
      (active ← new_array []; inherit fuel arr active parents;; update_array arr (symtable_key skey) (IArr active);; k active) h = k a h') ∧
    file_ok n h' arr (Some (symtable_key skey, a)) (hupdate (symtable_key skey) (ZArr (inherited cfg parents)) cfg).
Proof.
  intros Hn Hfile Hpar. destruct (file_trees _ _ _ _ _ Hfile) as (Hok & Hwf & ht & Ha & Ht).
  assert (Hlt : (arr < next_array h)%Z) by (apply Hok; eauto).
  destruct (fresh_section n (eq arr) h Hok) as (Hnew & Hagree & Hinto); [by intros x <-|].
  revert Hnew Hagree Hinto. set (a := next_array h). set (h1 := Heap (<[a := []]> (arrays h)) (a + 1)).
  change (λ x, arr = x ∨ x = a) with (in_use arr a). intros Hnew Hagree Hinto.
  destruct (inherit_ok n (in_use arr a) fuel arr a ht cfg Hn ltac:(subst a; lia) parents h1 []) as (h2 & Hr & Hsec & Hf).
  - intros p v Hp Hv. unfold parents_ok in Hpar. rewrite forallb_forall in Hpar.
    apply list_elem_of_In, Hpar in Hp. by rewrite Hv in Hp.
  - exact Hnew.
  - by rewrite Hagree.
  - by apply Hinto.
  - assert (Ha2 : arrays h2 !! arr = Some ht).
    { rewrite (proj2 Hf); [by rewrite Hagree|subst h1; cbn; lia|subst a; lia]. }
    eexists _, a. split.
    { intros B k. rewrite new_array_run. fold a h1. rewrite (bind_runs _ _ _ _ _ Hr), (update_array_run _ _ _ _ _ _ Ha2). done. }
    split; [subst a; lia|]. split; [by apply hwf_hupdate|]. eexists _, _.
    split; [cbn [arrays]; apply lookup_insert_eq|]. split; [apply hfind_hupdate_eq|]. split.
    + destruct Hsec as (Hok2 & HX & Hlt2 & Hwf2 & hd & Hd & Hds). split_and!; [|done|done|done|].
      * intros b. cbn. destruct (decide (b = arr)) as [->|]; [intros _; apply Hlt2; by left|].
        rewrite lookup_insert_ne by done. apply Hok2.
      * exists hd. split; [cbn; rewrite lookup_insert_ne; [done|subst a; lia]|].
        eapply trees_weaken; [exact Hds|]. intros b _ HnX. split; [done|]. cbn. rewrite lookup_insert_ne; [done|].
        intros ->. apply HnX. by left.
    + eapply slots_weaken; [apply slots_new; [done|]|].
      * eapply frame_trees; [apply Hnew|by right|exact Hf|]. by apply Hinto.
      * intros b _ HX. cbn. rewrite lookup_insert_ne; [done|]. intros ->. apply HX. by left.
Qed.

Lemma file_step n fuel wanted arr ev h ps s s' : n < fuel → event_ok n ev → file_rel n h arr ps s →
  config_event wanted ev s = Some s' →
  ∃ ps' h', yaf_config_ini_parser_cb fuel wanted arr ev ps h = Some (ps', h') ∧ file_rel n h' arr ps' s'.
Proof.
  intros Hn Hev (act & -> & Hact & Hfile) Hstep. destruct s as [flag active cfg]. cbn [cs_flag cs_active cs_config] in *. subst active.
  assert (Hsame : ∀ flag', file_rel n h arr (Parsing flag' (snd <$> act)) (ConfigState flag' (fst <$> act) cfg)).
  { intros flag'. exists act. auto. }
  assert (Hentry : ∀ key v, ev = ZEND_INI_PARSER_ENTRY key (Some v) → flag ≠ YAF_CONFIG_INI_PARSING_END →
    ∃ ps' h', yaf_config_ini_parser_cb fuel wanted arr ev (Parsing flag (snd <$> act)) h = Some (ps', h') ∧ file_rel n h' arr ps' s').
  { intros key v -> Hflag. destruct Hev as [Hv Hlen]. destruct (file_entry _ _ _ _ _ _ _ Hfile Hv Hlen) as (h' & Hr & Hfile').
    exists (Parsing flag (snd <$> act)), h'. split.
    - unfold yaf_config_ini_parser_cb. destruct flag; [| |done]; cbn [ps_flag ps_active]; by rewrite (bind_runs _ _ _ _ _ Hr).
    - exists act. unfold config_event in Hstep. destruct flag; [| |done]; injection Hstep as <-; auto. }
  destruct flag; [destruct ev as [key [v|]|key v i|key]..|].
  - by eapply Hentry.
  - injection Hstep as <-. by eexists _, _.
  - done.
  - cbn [config_event cs_flag cs_active cs_config] in Hstep. unfold yaf_config_ini_parser_cb. cbn [ps_flag ps_active].
    destruct (section_text (cstr key)) as [text|]; [|done]. cbn [mbind option_bind] in Hstep.
    rewrite (bind_lift _ _ _ text) by done. destruct (section_names text) as [skey parents].
    destruct (parents_ok cfg parents) eqn:Hpar; [|done]. injection Hstep as <-.
    destruct (file_section n fuel h arr act cfg skey parents Hn Hfile Hpar) as (h' & a & Hr & Hfile').
    eexists _, h'. split; [|exists (Some (symtable_key skey, a)); split; [|split; [done|exact Hfile']]].
    + etransitivity; [apply (Hr parsing (λ a, mret (Parsing _ (Some a))))|reflexivity].
    + done.
  - by eapply Hentry.
  - injection Hstep as <-. by eexists _, _.
  - done.
  - injection Hstep as <-. by eexists _, _.
  - injection Hstep as <-. by eexists _, _.
Qed.

Lemma file_events n fuel wanted arr evs : n < fuel → Forall (event_ok n) evs → ∀ h ps s s', file_rel n h arr ps s →
  foldM (λ s ev, config_event wanted ev s) s evs = Some s' →
  ∃ ps' h', parse_events fuel wanted arr evs ps h = Some (ps', h') ∧ file_rel n h' arr ps' s'.
Proof.
  intros Hn. induction 1 as [|ev evs Hev _ IH]; intros h ps s s' Hrel Hrun; cbn [parse_events].
  - injection Hrun as <-. eauto.
  - cbn [foldM] in Hrun. destruct (config_event wanted ev s) as [s1|] eqn:Hstep; [|done].
    destruct (file_step n fuel wanted arr ev h ps s s1 Hn Hev Hrel Hstep) as (ps1 & h1 & Hr & Hrel1).
    rewrite (bind_runs _ _ _ _ _ Hr). by eapply IH.
Qed.

Lemma tree_mono n m X h v t : n ≤ m → tree n X h v t → tree m X h v t.
Proof.
  revert m v t. induction n as [|n IH]; intros m [w|a] t Hm; destruct m as [|m]; try done; try lia.
  intros (HX & ht & kvs & Ha & -> & Hwf & Hs). split; [done|]. exists ht, kvs. split_and!; try done.
  eapply Forall2_impl; [exact Hs|]. intros x y [E Hxy]. split; [done|]. apply IH; [lia|done].
Qed.

Lemma events_config depth fuel wanted evs cfg :
  Forall (event_ok depth) evs → depth + 2 ≤ fuel → config_of wanted evs = Some cfg →
  ini_parse fuel wanted evs = Some (ZArr cfg).
Proof.
  intros Hevs Hfuel. unfold config_of. intros (s & Hrun & ->)%fmap_Some.
  set (h := Heap (<[0%Z := []]> ∅) 1).
  destruct (file_events depth fuel wanted 0 evs ltac:(lia) Hevs h (Parsing YAF_CONFIG_INI_PARSING_START None)
      (ConfigState YAF_CONFIG_INI_PARSING_START None []) s)
    as (ps & h' & Hr & act & _ & _ & Hfile); [|exact Hrun|].
  { exists None. split_and!; try done. split; [|split; [done|split; [by intros x <-|split; [apply NoDup_nil_2|exists []; split; [done|constructor]]]]].
    intros a. cbn. destruct (decide (a = 0%Z)) as [->|]; [lia|]. rewrite lookup_insert_ne, lookup_empty by done. by intros []. }
  destruct (file_trees _ _ _ _ _ Hfile) as (_ & Hwf & ht & Ha & Ht).
  unfold ini_parse. change (new_array [] (Heap ∅ 0)) with (Some (0%Z, h)). cbn [mbind option_bind]. rewrite Hr. cbn [mbind option_bind].
  apply (tree_reify _ (λ _, False)), (tree_mono (S (S depth))); [lia|]. split; [intros []|]. exists ht, (cs_config s).
  split_and!; try done. eapply trees_weaken; [exact Ht|]. intros b _ _. split; [intros []|done].
Qed.

(** C18: The callbacks refine the configuration as a value: for any events without list
    elements whose names lead no deeper than the fuel, the heap of shared arrays that the
    callbacks fill - new sections, inheritance by sharing and merging, entries that
    separate what they change, the section wanted ending the reading - reads back as
    what [config_of] computes. *)
Theorem ini_file_refines depth fuel wanted evs cfg :
  Forall (event_ok depth) evs → depth + 2 ≤ fuel → config_of wanted evs = Some cfg →
  ini_parse fuel wanted evs = Some (ZArr cfg).
Proof. apply events_config. Qed.

Definition demo_doc : list item :=
  [ ISection "base"; IEntry "db.host" "a"; IEntry "db.port" "1";
    ISection "prod : base"; IEntry "db.host" "b" ].
Definition demo_config : htab zval :=
  [ (KStr "base", ZArr [(KStr "db", ZArr [(KStr "host", ZStr "a"); (KStr "port", ZStr "1")])]);
    (KStr "prod", ZArr [(KStr "db", ZArr [(KStr "host", ZStr "b"); (KStr "port", ZStr "1")])]) ].

Lemma ini_file_refines_witness : ini_parse 4 None (map item_event demo_doc) = Some (ZArr demo_config).
Proof.
  apply (ini_file_refines 2); [|lia|by vm_compute]. repeat constructor; vm_compute; lia.
Defined.

Definition item_depth (i : item) : nat := match i with IEntry key _ => length (tokens DOT (cstr key)) | ISection _ => 0 end.

Lemma doc_events depth doc : Forall (λ i, item_depth i ≤ S depth) doc → Forall (event_ok depth) (map item_event doc).
Proof. induction 1 as [|[name|key v] doc Hi _ IH]; cbn [map]; constructor; done. Qed.

(** C17: From the text of a file to the configuration of the object: a regular file in the plain
    form gives the whole configuration of its sections and entries, with inheritance, or
    the table of the section wanted; where the section is missing the error that names it
    and the file, and no configuration. *)
Theorem ini_text_config (ini_file_of : zstr → ini_file) tables depth fuel path section doc cfg st :
  ini_file_of (cstr path) = IniText (print_ini doc) → forallb plain_item doc = true →
  Forall (λ i, item_depth i ≤ S depth) doc → depth + 2 ≤ fuel →
  config_of (wanted_section section) (map item_event doc) = Some cfg →
  yaf_config_ini_instance ini_file_of tables fuel (ZStr path) section st =
    match wanted_section section with
    | None => Some (Some (ZArr cfg), st)
    | Some s =>
        match hfind (symtable_key s) cfg with
        | Some (ZArr sec) => Some (Some (ZArr sec), st)
        | Some _ => None
        | None =>
            (yaf_trigger_error E_ERROR_CODE ("There is no section '" ++ cstr s ++ "' in '" ++ cstr path ++ "'");; mret None) st
        end
    end.
Proof.
  intros Hfile Hdoc Hdepth Hfuel Hcfg. unfold yaf_config_ini_instance. rewrite Hfile, (doc_parsed tables _ Hdoc), bind_lift_Some.
  rewrite (bind_lift _ _ _ _ (events_config depth fuel _ _ cfg (doc_events _ _ Hdepth) Hfuel Hcfg)).
  destruct (wanted_section section) as [s|]; [|done]. cbn [Z_ARR]. rewrite bind_lift_Some.
  destruct (hfind (symtable_key s) cfg) as [v|]; [|done]. by destruct v.
Qed.

Lemma ini_text_config_witness :
  let st := start_engine [] [] [] in
  yaf_config_ini_instance (λ _, IniText (print_ini demo_doc)) (IniTables (λ _, None) (λ _, None) (λ _, None)) 4
      (ZStr "app.ini") (Some (ZStr "prod")) st =
    Some (Some (ZArr [(KStr "db", ZArr [(KStr "host", ZStr "b"); (KStr "port", ZStr "1")])]), st).
Proof.
  intros st. rewrite (ini_text_config _ _ 2 4 "app.ini" (Some (ZStr "prod")) demo_doc demo_config st); try reflexivity.
  repeat constructor; vm_compute; lia.
Defined.
