(* ===== verification/Superglobals.v ===== *)
(** * The superglobals

    [main/php_variables.c], the second half: how the arrays [_GET], [_POST], [_COOKIE],
    [_SERVER], [_ENV], [_REQUEST] and [_FILES] are built from what the server knows of a
    request, and when ([zend_activate_auto_globals], [zend_is_auto_global] of
    [Zend/zend_compile.c]).  The request object of Yaf reads them through [Engine], where an
    array that has not been built yet is the one that would be; the end of the file shows
    that this is so. *)

From S2P Require Import Prelude Zend Numeric UrlCode Query Engine Request Store Config Ini.

Open Scope zs_scope.

(** ** What the server knows *)

(** [SG(request_info)], the method without its case; the body, in reads, where the content
    is a form; the variables that the server's own callback registers. *)
Record request_info := RequestInfo {
  ri_query_string : option zstr;
  ri_cookie_data : option zstr;
  ri_request_method : option zstr;
  ri_post : option (list zstr);
  ri_auth_user : option zstr;
  ri_auth_password : option zstr;
  ri_auth_digest : option zstr;
  ri_argv : list zstr;
  ri_headers_sent : bool;
  ri_variables : list (zstr * zstr);
  ri_request_time : Z;             (** the bits of the double *)
}.

(** The settings of [PG], and the environment of the process. *)
Record php_ini := PhpIni {
  pi_input : input_settings;
  pi_variables_order : option zstr;
  pi_request_order : option zstr;
  pi_register_argc_argv : bool;
  pi_auto_globals_jit : bool;
  pi_environ : list zstr;
}.

Definition SAPI_POST_HANDLER_BUFSIZ : nat := 8 * 1024.

(** [getenv] *)
Fixpoint getenv_of (environ : list zstr) (name : zstr) : option zstr :=
  match environ with
  | [] => None
  | e :: es =>
      match break (ceq EQUALS) e with
      | (n, _ :: v) => if bool_decide (n = name) then Some v else getenv_of es name
      | _ => getenv_of es name
      end
  end.

(** [zend_dval_to_lval] of an IEEE double: toward zero, modulo 2^64, and 0 of an infinity
    or a NaN. *)
Definition double_trunc (bits : Z) : Z :=
  let e := (Z.shiftr bits 52 mod 2 ^ 11)%Z in
  let m := (bits mod 2 ^ 52 + (if (e =? 0)%Z then 0 else 2 ^ 52))%Z in
  let n := Z.shiftl m ((if (e =? 0)%Z then 1 else e) - 1075) in
  if Z.testbit bits 63 then (- n)%Z else n.
Definition zend_dval_to_lval (bits : Z) : Z :=
  if (Z.shiftr bits 52 mod 2 ^ 11 =? 2047)%Z then 0%Z
  else ((double_trunc bits + 2 ^ 63) mod 2 ^ 64 - 2 ^ 63)%Z.


(** ** Building the arrays *)

Section build.
Context (info : request_info) (ini : php_ini).

Abbreviation settings := (pi_input ini).

Definition ordered (order : option zstr) (c : ascii) : bool :=
  match order with Some s => existsb (λ d, ceq (toupper d) c) (cstr s) | None => false end.
Abbreviation ordered_str order s := (ordered order s%char).

(** A string that is registered where there is one. *)
Definition register_opt (name : zstr) (o : option zstr) (x : htab zval * list notice) : htab zval * list notice :=
  match o with
  | Some v => let '(ht, ns) := php_register_variable settings plain_track name v x.1 in (ht, x.2 ++ ns)
  | None => x
  end.

Definition get_table : htab zval * list notice :=
  if ordered_str (pi_variables_order ini) "G" then
    match ri_query_string info with
    | Some ((_ :: _) as s) => php_default_treat_data settings PARSE_GET plain_track s []
    | _ => ([], [])
    end
  else ([], []).

Definition cookie_table : htab zval * list notice :=
  if ordered_str (pi_variables_order ini) "C" then
    match ri_cookie_data info with
    | Some ((_ :: _) as s) => php_default_treat_data settings PARSE_COOKIE plain_track s []
    | _ => ([], [])
    end
  else ([], []).

(** [sapi_handle_post] *)
Definition post_table : htab zval * list notice :=
  if ordered_str (pi_variables_order ini) "P" && negb (ri_headers_sent info) &&
     match ri_request_method info with Some m => bool_decide (zend_str_tolower m = "post") | None => false end
  then match ri_post info with
       | Some reads => php_std_post_handler settings SAPI_POST_HANDLER_BUFSIZ reads []
       | None => ([], [])
       end
  else ([], []).

(** [_php_import_environment_variables] *)
Fixpoint import_environment (environ : list zstr) (x : htab zval * list notice) : htab zval * list notice :=
  match environ with
  | [] => x
  | e :: es =>
      match break (ceq EQUALS) (cstr e) with
      | (name, _ :: v) => import_environment es (register_opt name (Some v) x)
      | _ => import_environment es x
      end
  end.

(** [check_http_proxy]: the name that a header of the client would have is only that of a
    variable of the process. *)
Definition check_http_proxy (var_table : htab zval) : htab zval :=
  match hfind (KStr "HTTP_PROXY") var_table with
  | None => var_table
  | Some _ =>
      match getenv_of (pi_environ ini) "HTTP_PROXY" with
      | None => hdel (KStr "HTTP_PROXY") var_table
      | Some local_proxy => hupdate (KStr "HTTP_PROXY") (ZStr local_proxy) var_table
      end
  end.

(** What [_php_import_environment_variables] gives; in FastCGI mode [sapi/cgi] puts a
    function of its own in its place, which is not modelled. *)
Definition env_table : htab zval * list notice :=
  let '(ht, ns) := if ordered_str (pi_variables_order ini) "E" then import_environment (pi_environ ini) ([], []) else ([], []) in
  (check_http_proxy ht, ns).

(** The arrays of [php_build_argv]: the words of the command line, or else the query string
    between its plus signs. *)
Definition argv_array (ws : list zstr) : htab zval := imap (λ i w, (KIdx (Z.of_nat i), ZStr w)) ws.
Definition argv_words (s : option zstr) : list zstr :=
  match ri_argv info with
  | [] => match s with Some s => match cstr s with [] => [] | s => split_on "+"%char s end | None => [] end
  | ws => ws
  end.

(** [php_register_server_variables] *)
Definition server_variables : htab zval * list notice :=
  let x := foldl (λ x kv, register_opt kv.1 (Some kv.2) x) ([], []) (ri_variables info) in
  let x := register_opt "PHP_AUTH_USER" (ri_auth_user info) x in
  let x := register_opt "PHP_AUTH_PW" (ri_auth_password info) x in
  let '(ht, ns) := register_opt "PHP_AUTH_DIGEST" (ri_auth_digest info) x in
  let '(ht, ns1) := php_register_variable_ex settings plain_track "REQUEST_TIME_FLOAT" (ZDouble (ri_request_time info)) ht in
  let '(ht, ns2) := php_register_variable_ex settings plain_track "REQUEST_TIME" (ZLong (zend_dval_to_lval (ri_request_time info))) ht in
  (ht, ns ++ ns1 ++ ns2).

(** The table of [_SERVER]; on a command line [argv] and [argc] are those of the symbol table. *)
Definition server_table (symbols : htab zval) : htab zval * list notice :=
  let '(ht, ns) :=
    if ordered_str (pi_variables_order ini) "S" then
      let '(ht, ns) := server_variables in
      (if pi_register_argc_argv ini then
         match ri_argv info with
         | _ :: _ =>
             match hfind_str "argc" symbols, hfind_str "argv" symbols with
             | Some argc, Some argv => hupdate (KStr "argc") argc (hupdate (KStr "argv") argv ht)
             | _, _ => ht
             end
         | [] =>
             let ws := argv_words (ri_query_string info) in
             hupdate (KStr "argc") (ZLong (Z.of_nat (length ws))) (hupdate (KStr "argv") (ZArr (argv_array ws)) ht)
         end
       else ht, ns)
    else ([], []) in
  (check_http_proxy ht, ns).

(** [php_autoglobal_merge] into a table that is not that of the globals: arrays under the
    same key are merged, and else the entry of the source stands. *)
Fixpoint merge_entry (src_entry : zval) (dest_entry : option zval) : zval :=
  match src_entry, dest_entry with
  | ZArr src, Some (ZArr dest) =>
      ZArr ((fix go (src dest : htab zval) : htab zval :=
               match src with
               | [] => dest
               | (k, v) :: src' => go src' (hupdate k (merge_entry v (hfind k dest)) dest)
               end) src dest)
  | _, _ => src_entry
  end.
Fixpoint php_autoglobal_merge (dest src : htab zval) : htab zval :=
  match src with
  | [] => dest
  | (k, v) :: src' => php_autoglobal_merge (hupdate k (merge_entry v (hfind k dest)) dest) src'
  end.

(** The loop of [php_auto_globals_create_request]: every letter counts once. *)
Fixpoint request_loop (order : zstr) (g p c : option (htab zval)) (form_variables : htab zval) : htab zval :=
  match order with
  | [] => form_variables
  | l :: order' =>
      let add (o : option (htab zval)) := default form_variables (php_autoglobal_merge form_variables <$> o) in
      if ceq (toupper l) "G"%char then request_loop order' None p c (add g)
      else if ceq (toupper l) "P"%char then request_loop order' g None c (add p)
      else if ceq (toupper l) "C"%char then request_loop order' g p None (add c)
      else request_loop order' g p c form_variables
  end.
Definition request_table (g p c : htab zval) : htab zval :=
  let order := match pi_request_order ini with Some s => Some s | None => pi_variables_order ini end in
  match order with Some s => request_loop (cstr s) (Some g) (Some p) (Some c) [] | None => [] end.
End build.

Example doubles_truncated :
  map zend_dval_to_lval [4744044884046905344; 13839539136911397356; 9218868437227405312; 4599075939470750515; 14114281232179134466]%Z =
    [1492041600; -3; 0; 0; 9223372036854771712]%Z.
Proof. by vm_compute. Qed.

(** ** When they are built *)

Inductive auto_global := AG_GET | AG_POST | AG_COOKIE | AG_SERVER | AG_ENV | AG_REQUEST | AG_FILES.
#[export] Instance auto_global_eq_dec : EqDecision auto_global.
Proof. solve_decision. Defined.

(** [CG(auto_globals)] in the order of [php_startup_auto_globals] *)
Definition auto_globals : list auto_global := [AG_GET; AG_POST; AG_COOKIE; AG_SERVER; AG_ENV; AG_REQUEST; AG_FILES].
Definition ag_name (a : auto_global) : zstr :=
  match a with
  | AG_GET => "_GET" | AG_POST => "_POST" | AG_COOKIE => "_COOKIE" | AG_SERVER => "_SERVER"
  | AG_ENV => "_ENV" | AG_REQUEST => "_REQUEST" | AG_FILES => "_FILES"
  end.

(** [PG(http_globals)], nothing where it is not built; [EG(symbol_table)]; which of the
    globals are armed; what was reported. *)
Record superglobals := Superglobals {
  sg_get : option (htab zval);
  sg_post : option (htab zval);
  sg_cookie : option (htab zval);
  sg_server : option (htab zval);
  sg_env : option (htab zval);
  sg_files : option (htab zval);
  sg_symbols : htab zval;
  sg_armed : list auto_global;
  sg_notices : list notice;
}.
#[export] Instance superglobals_rebuild : Rebuild superglobals := λ s,
  Superglobals (sg_get s) (sg_post s) (sg_cookie s) (sg_server s) (sg_env s) (sg_files s) (sg_symbols s) (sg_armed s) (sg_notices s).

Section activate.
Context (info : request_info) (ini : php_ini).

Definition ag_jit (a : auto_global) : bool :=
  match a with AG_SERVER | AG_ENV | AG_REQUEST => pi_auto_globals_jit ini | _ => false end.

(** The table is in [http_globals] and under its name among the symbols. *)
Definition publish (a : auto_global) (x : htab zval * list notice) (s : superglobals) : superglobals :=
  let s := match a with
           | AG_GET => s <| sg_get := Some x.1 |>
           | AG_POST => s <| sg_post := Some x.1 |>
           | AG_COOKIE => s <| sg_cookie := Some x.1 |>
           | AG_SERVER => s <| sg_server := Some x.1 |>
           | AG_ENV => s <| sg_env := Some x.1 |>
           | AG_FILES => s <| sg_files := Some x.1 |>
           | AG_REQUEST => s
           end in
  s <| sg_symbols := hupdate (KStr (ag_name a)) (ZArr x.1) (sg_symbols s) |> <| sg_notices := sg_notices s ++ x.2 |>.

(** What the callback of a global builds: [php_auto_globals_create_get] and the others. *)
Definition built (a : auto_global) (s : superglobals) : htab zval * list notice :=
  match a with
  | AG_GET => get_table info ini
  | AG_POST => post_table info ini
  | AG_COOKIE => cookie_table info ini
  | AG_SERVER => server_table info ini (sg_symbols s)
  | AG_ENV => env_table ini
  | AG_REQUEST => (request_table ini (default [] (sg_get s)) (default [] (sg_post s)) (default [] (sg_cookie s)), [])
  | AG_FILES => (default [] (sg_files s), [])
  end.
Definition auto_globals_create (a : auto_global) (s : superglobals) : superglobals := publish a (built a s) s.

(** [zend_is_auto_global] of a name that is one; no callback arms its global again. *)
Definition is_auto_global (a : auto_global) (s : superglobals) : superglobals :=
  if bool_decide (a ∈ sg_armed s)
  then let s := auto_globals_create a s in s <| sg_armed := filter (λ b, b ≠ a) (sg_armed s) |>
  else s.

(** [zend_activate_auto_globals] *)
Definition activate_one (s : superglobals) (a : auto_global) : superglobals :=
  if ag_jit a then s <| sg_armed := a :: filter (λ b, b ≠ a) (sg_armed s) |>
  else let s := auto_globals_create a s in s <| sg_armed := filter (λ b, b ≠ a) (sg_armed s) |>.
Definition zend_activate_auto_globals (s : superglobals) : superglobals := foldl activate_one s auto_globals.

(** [php_build_argv], with the array of [_SERVER] as [PG(http_globals)] holds it. *)
Definition php_build_argv (q : option zstr) (s : superglobals) : superglobals :=
  let ws := argv_words info q in
  let arr := ZArr (argv_array ws) in
  let argc := ZLong (Z.of_nat (length ws)) in
  let s := match ri_argv info with
           | [] => s
           | _ =>
               let symbols := hupdate (KStr "argv") arr (sg_symbols s) in
               s <| sg_symbols := match hfind_str "argc" symbols with Some _ => symbols | None => hupdate (KStr "argc") argc symbols end |>
           end in
  match sg_server s with
  | Some ht => s <| sg_server := Some (hupdate (KStr "argc") argc (hupdate (KStr "argv") arr ht)) |>
  | None => s
  end.

(** [php_hash_environment]: [http_globals] starts empty. *)
Definition php_hash_environment (s : superglobals) : superglobals :=
  let s := zend_activate_auto_globals (Superglobals None None None None None None (sg_symbols s) (sg_armed s) (sg_notices s)) in
  if pi_register_argc_argv ini then php_build_argv (ri_query_string info) s else s.

(** ** As the request sees them *)

Definition shown (o : option (htab zval)) : zval := match o with Some ht => ZArr ht | None => ZNull end.
Definition later (a : auto_global) (cur : zval) (s : superglobals) : autoglobal :=
  AutoGlobal cur (if bool_decide (a ∈ sg_armed s) then Some (built a s).1 else None).
Definition http_of (s : superglobals) : http_globals := HttpGlobals
  (shown (sg_post s)) (shown (sg_get s)) (shown (sg_cookie s)) (shown (sg_files s))
  (later AG_SERVER (shown (sg_server s)) s) (later AG_ENV (shown (sg_env s)) s)
  (later AG_REQUEST (default ZNull (hfind_str "_REQUEST" (sg_symbols s))) s)
  (pi_auto_globals_jit ini).
End activate.

(** ** Tables without repeated keys *)

Lemma plain_var_wf t top index val ht : hwf ht → hwf (plain_var t top index val ht).
Proof.
  intros Hht. unfold plain_var, next_insert. destruct index as [i|].
  - destruct (is_cookie t && top && _); [done|by apply hwf_hupdate].
  - destruct (hfind _ ht); cbn; [done|by apply hwf_hupdate].
Qed.

Lemma enter_index_wf index f ht ht' : hwf ht → enter_index index f ht = Some ht' → hwf ht'.
Proof.
  intros Hht. unfold enter_index, next_insert. destruct index as [i|].
  - destruct (f _) as [sub|]; [|done]. intros [= <-]. by apply hwf_hupdate.
  - destruct (hfind _ ht); [by intros [= <-]|]. destruct (f []) as [sub|]; [|done]. intros [= <-]. by apply hwf_hupdate.
Qed.

Lemma place_wf settings fuel t lvl top index s val ht ht' : hwf ht → place settings fuel t lvl top index s val ht = Some ht' → hwf ht'.
Proof.
  intros Hht. destruct fuel as [|fuel]; [done|]. cbn [place]. destruct (_ <? _)%Z; [done|].
  destruct (next_bracket s) as [[index' after]|]; [by apply enter_index_wf|]. intros [= <-]. by apply plain_var_wf.
Qed.

Lemma register_wf settings t name val ht : hwf ht → hwf (php_register_variable_ex settings t name val ht).1.
Proof.
  intros Hht. unfold php_register_variable_ex. destruct (break _ _) as [nm brackets]. set (var := map _ nm).
  destruct (bool_decide (var = [])); [done|]. destruct (is_scope t && _); [done|]. destruct (is_globals t && _); [done|].
  destruct brackets as [|c s]; [by apply plain_var_wf|].
  destruct (place _ _ _ _ _ _ _ _ _) as [ht1|] eqn:E; [by apply place_wf in E|by apply hwf_hdel].
Qed.

Lemma register_opt_wf ini name o x : hwf x.1 → hwf (register_opt ini name o x).1.
Proof.
  intros Hx. destruct o as [v|]; [|done]. unfold register_opt.
  pose proof (register_wf (pi_input ini) plain_track name (ZStr (cstr v)) x.1 Hx) as Hr.
  unfold php_register_variable, php_register_variable_safe. by destruct (php_register_variable_ex _ _ _ _ _).
Qed.

Lemma server_variables_wf info ini : hwf (server_variables info ini).1.
Proof.
  unfold server_variables. set (x0 := foldl _ _ _).
  assert (Hx0 : hwf x0.1).
  { subst x0. assert (Hnil : hwf (([] : htab zval), [] : list notice).1) by apply NoDup_nil_2. revert Hnil. generalize (([] : htab zval), [] : list notice).
    induction (ri_variables info) as [|kv l IH]; intros x Hx; [done|]. cbn [foldl]. by apply IH, register_opt_wf. }
  pose proof (register_opt_wf ini "PHP_AUTH_DIGEST" (ri_auth_digest info) _ (register_opt_wf ini "PHP_AUTH_PW" (ri_auth_password info) _
    (register_opt_wf ini "PHP_AUTH_USER" (ri_auth_user info) _ Hx0))) as Hx3.
  destruct (register_opt ini "PHP_AUTH_DIGEST" _ _) as [ht ns]. cbn [fst] in Hx3.
  pose proof (register_wf (pi_input ini) plain_track "REQUEST_TIME_FLOAT" (ZDouble (ri_request_time info)) ht Hx3) as H1.
  destruct (php_register_variable_ex _ _ "REQUEST_TIME_FLOAT" _ ht) as [ht1 ns1]. cbn [fst] in H1.
  pose proof (register_wf (pi_input ini) plain_track "REQUEST_TIME" (ZLong (zend_dval_to_lval (ri_request_time info))) ht1 H1) as H2.
  by destruct (php_register_variable_ex _ _ "REQUEST_TIME" _ ht1).
Qed.

Lemma import_environment_wf ini environ x : hwf x.1 → hwf (import_environment ini environ x).1.
Proof.
  revert x. induction environ as [|e es IH]; intros x Hx; [done|]. cbn [import_environment].
  destruct (break _ _) as [name [|c v]]; [by apply IH|]. by apply IH, register_opt_wf.
Qed.

(** ** The proxy of the process *)

Definition proxy_ok (ini : php_ini) (ht : htab zval) : Prop :=
  ∀ v, hfind (KStr "HTTP_PROXY") ht = Some v → ∃ p, getenv_of (pi_environ ini) "HTTP_PROXY" = Some p ∧ v = ZStr p.

Lemma check_http_proxy_ok ini ht : hwf ht → proxy_ok ini (check_http_proxy ini ht).
Proof.
  intros Hwf v. unfold check_http_proxy. destruct (hfind (KStr "HTTP_PROXY") ht) eqn:E; [|by rewrite E].
  destruct (getenv_of _ _) as [p|].
  - rewrite hfind_hupdate_eq. intros [= <-]. eauto.
  - rewrite hfind_hdel by done. by rewrite bool_decide_true.
Qed.

Lemma server_table_proxy info ini symbols : proxy_ok ini (server_table info ini symbols).1.
Proof.
  unfold server_table. set (x := if ordered _ _ then _ else _). assert (Hx : hwf x.1).
  { subst x. destruct (ordered _ _); [|apply NoDup_nil_2]. pose proof (server_variables_wf info ini) as Hs.
    destruct (server_variables info ini) as [ht ns]. cbn [fst] in *. destruct (pi_register_argc_argv ini); [|done].
    destruct (ri_argv info); [by repeat apply hwf_hupdate|]. destruct (hfind_str "argc" symbols), (hfind_str "argv" symbols); try done.
    by repeat apply hwf_hupdate. }
  destruct x as [ht ns]. by apply check_http_proxy_ok.
Qed.

Lemma env_table_proxy ini : proxy_ok ini (env_table ini).1.
Proof.
  unfold env_table. set (x := if ordered _ _ then _ else _). assert (Hx : hwf x.1).
  { subst x. destruct (ordered _ _); [apply import_environment_wf|]; apply NoDup_nil_2. }
  destruct x as [ht ns]. by apply check_http_proxy_ok.
Qed.

Section claims.
Context (info : request_info) (ini : php_ini).

(** The arrays that are built hold no foreign proxy. *)
Definition proxies_ok (s : superglobals) : Prop :=
  ∀ ht, sg_server s = Some ht ∨ sg_env s = Some ht → proxy_ok ini ht.

Lemma built_proxy a s : a = AG_SERVER ∨ a = AG_ENV → proxy_ok ini (built info ini a s).1.
Proof. intros [-> | ->]; [apply server_table_proxy|apply env_table_proxy]. Qed.

Lemma create_proxies a s : proxies_ok s → proxies_ok (auto_globals_create info ini a s).
Proof.
  intros Hs ht. unfold auto_globals_create, publish.
  destruct a; cbn; try apply Hs; intros [Heq|Heq];
    first [injection Heq as <-; first [apply server_table_proxy|apply env_table_proxy] | apply Hs; by left | apply Hs; by right].
Qed.

Lemma activate_proxies s : proxies_ok s → proxies_ok (zend_activate_auto_globals info ini s).
Proof.
  unfold zend_activate_auto_globals. revert s. induction auto_globals as [|a l IH]; intros s Hs; [done|]. cbn [foldl]. apply IH.
  unfold activate_one. destruct (ag_jit ini a); [exact Hs|]. exact (create_proxies a s Hs).
Qed.

Lemma environment_proxies s : proxies_ok (php_hash_environment info ini s).
Proof.
  unfold php_hash_environment. set (s1 := zend_activate_auto_globals _ _ _).
  assert (Hs1 : proxies_ok s1) by (apply activate_proxies; by intros ht [?|?]).
  destruct (pi_register_argc_argv ini); [|done]. unfold php_build_argv. set (s2 := match ri_argv info with [] => s1 | _ => _ end).
  assert (Hs2 : sg_server s2 = sg_server s1 ∧ sg_env s2 = sg_env s1) by (subst s2; by destruct (ri_argv info)). destruct Hs2 as [E1 E2].
  destruct (sg_server s2) as [ht|] eqn:E; [|intros ht Hht; apply Hs1; rewrite E, E2 in Hht; congruence].
  intros ht' [Hht|Hht]; cbn in Hht; [|apply Hs1; right; congruence]. injection Hht as <-. intros v.
  rewrite !hfind_hupdate_ne by done. apply Hs1. left. congruence.
Qed.

(** What a name of [_SERVER] or [_ENV] is looked up in. *)
Lemma query_later type get (e e' : engine) (name : zstr) v :
  (type = YAF_GLOBAL_VARS_SERVER ∧ get = g_server) ∨ (type = YAF_GLOBAL_VARS_ENV ∧ get = g_env) →
  yaf_request_query_ex type (Some name) e = Some (Some v, e') →
  ∃ ht, hfind (KStr name) ht = Some v ∧ (ag_cur (get (http e)) = ZArr ht ∨ Engine.ag_jit (get (http e)) = Some ht).
Proof.
  unfold yaf_request_query_ex, carrier_of.
  intros [[-> ->]|[-> ->]]; st_run; destruct (auto_globals_jit (http e)); st_run; cbn;
    unfold Engine.zend_is_auto_global; destruct (Engine.ag_jit _) as [ht|] eqn:E; cbn;
    try (intros [= Hv _]; exists ht; auto; fail);
    destruct (ag_cur _) eqn:Ec; try done; cbn; intros [= Hv _]; eauto.
Qed.

(** C29: A client cannot name the proxy of the application: whatever the server registers from the
    headers of the request, what the request object then finds under HTTP_PROXY, in the
    server's array or in that of the environment, built at once or when it is asked for, is
    a variable of the process's own environment, or nothing. *)
Theorem http_proxy_safe type s e v e' :
  type = YAF_GLOBAL_VARS_SERVER ∨ type = YAF_GLOBAL_VARS_ENV →
  http e = http_of info ini (php_hash_environment info ini s) →
  yaf_request_query_ex type (Some ("HTTP_PROXY" : zstr)) e = Some (v, e') →
  v = None ∨ ∃ p, getenv_of (pi_environ ini) "HTTP_PROXY" = Some p ∧ v = Some (ZStr p).
Proof.
  intros Htype He Hq. destruct v as [v|]; [|by left]. right.
  pose proof (environment_proxies s) as Hs. set (s1 := php_hash_environment info ini s) in *.
  assert (Hok : ∃ ht, hfind (KStr "HTTP_PROXY") ht = Some v ∧ proxy_ok ini ht).
  { destruct Htype as [-> | ->]; eapply query_later in Hq; [|by left| |by right]; destruct Hq as (ht & Hv & Hht);
      exists ht; (split; [exact Hv|]); rewrite He in Hht; cbn in Hht.
    - destruct Hht as [Hcur|Hjit].
      + apply Hs. left. destruct (sg_server s1); [by injection Hcur as ->|done].
      + destruct (bool_decide _); [|done]. injection Hjit as <-. by apply (built_proxy AG_SERVER); left.
    - destruct Hht as [Hcur|Hjit].
      + apply Hs. right. destruct (sg_env s1); [by injection Hcur as ->|done].
      + destruct (bool_decide _); [|done]. injection Hjit as <-. by apply (built_proxy AG_ENV s1); right. }
  destruct Hok as (ht & Hv & Hp). destruct (Hp v Hv) as (p & Hg & ->). eauto.
Qed.
End claims.

Definition demo_info : request_info := RequestInfo (Some "a=1&b=g&l[]=1&l[x]=g") (Some "b=c; l[y]=c") (Some "POST")
  (Some [("b=p&l[x]=p" : zstr)]) None None None [] false
  [("SERVER_NAME" : zstr, "x.org" : zstr); ("HTTP_PROXY" : zstr, "evil.org" : zstr)] 4744044884046905344.
Definition demo_ini (environ : list zstr) (jit : bool) : php_ini :=
  PhpIni default_input (Some "EGPCS") (Some "GP") false jit environ.
Definition no_globals : superglobals := Superglobals None None None None None None [] [] [].

Example server_built :
  sg_server (php_hash_environment demo_info (demo_ini [] false) no_globals) =
    Some [ (KStr "SERVER_NAME", ZStr "x.org"); (KStr "REQUEST_TIME_FLOAT", ZDouble 4744044884046905344);
           (KStr "REQUEST_TIME", ZLong 1492041600) ].
Proof. by vm_compute. Qed.

Lemma http_proxy_safe_witness :
  let ini := demo_ini [("HTTP_PROXY=proxy:3128" : zstr)] true in
  let e := (start_engine [] [] []) <| http := http_of demo_info ini (php_hash_environment demo_info ini no_globals) |> in
  ∃ v e', yaf_request_query_ex YAF_GLOBAL_VARS_SERVER (Some ("HTTP_PROXY" : zstr)) e = Some (v, e') ∧
    v = Some (ZStr "proxy:3128") ∧ (v = None ∨ ∃ p, getenv_of (pi_environ ini) "HTTP_PROXY" = Some p ∧ v = Some (ZStr p)).
Proof.
  intros ini e. eexists _, _. split; [vm_compute; reflexivity|]. split; [reflexivity|].
  eapply (http_proxy_safe demo_info ini YAF_GLOBAL_VARS_SERVER no_globals e); [by left|reflexivity|vm_compute; reflexivity].
Defined.

(** ** When they are built does not matter *)

Definition on_global (a : auto_global) (f : autoglobal → autoglobal) (h : http_globals) : http_globals :=
  match a with
  | AG_SERVER => h <| g_server := f (g_server h) |>
  | AG_ENV => h <| g_env := f (g_env h) |>
  | AG_REQUEST => h <| g_request := f (g_request h) |>
  | _ => h
  end.

Lemma armed_filter (a : auto_global) (l : list auto_global) : a ∉ filter (λ b, b ≠ a) l.
Proof. rewrite list_elem_of_filter. by intros [? _]. Qed.
Lemma armed_other (a b : auto_global) (l : list auto_global) : b ≠ a → (b ∈ filter (λ b, b ≠ a) l ↔ b ∈ l).
Proof. rewrite list_elem_of_filter. tauto. Qed.

Lemma server_table_symbols info ini n v symbols : n ≠ "argc" → n ≠ "argv" →
  server_table info ini (hupdate (KStr n) v symbols) = server_table info ini symbols.
Proof.
  intros H1 H2. unfold server_table. rewrite !hfind_hupdate_ne by (intros [=]; congruence). done.
Qed.

(** The arrays that are built when they are asked for: to ask for one does to the request's
    view of them exactly what the view says - the array becomes the one that was to be
    built, the others stay, built or not - and to ask again changes nothing. *)
Theorem auto_globals_refine info ini a s : a ∈ [AG_SERVER; AG_ENV; AG_REQUEST] →
  http_of info ini (is_auto_global info ini a s) = on_global a zend_is_auto_global (http_of info ini s) ∧
  is_auto_global info ini a (is_auto_global info ini a s) = is_auto_global info ini a s.
Proof.
  intros Ha. unfold is_auto_global at 1 3 4. destruct (bool_decide (a ∈ sg_armed s)) eqn:Earm.
  - split.
    + assert (Hlater : ∀ b, b ≠ a → ∀ l : list auto_global, bool_decide (b ∈ filter (λ b, b ≠ a) l) = bool_decide (b ∈ l)).
      { intros b Hb l. apply bool_decide_ext. by apply armed_other. }
      assert (Hnow : ∀ l : list auto_global, bool_decide (a ∈ filter (λ b, b ≠ a) l) = false) by (intros l; apply bool_decide_eq_false, armed_filter).
      unfold http_of, later, on_global.
      repeat (apply elem_of_cons in Ha as [->|Ha]); [..|by apply elem_of_nil in Ha];
        cbn; rewrite Hnow, !Hlater by done; rewrite ?Earm; cbn;
        rewrite ?server_table_symbols by done; rewrite ?hfind_hupdate_eq; rewrite ?hfind_hupdate_ne by done; reflexivity.
    + unfold is_auto_global. cbn. by rewrite (bool_decide_false (a ∈ _)) by apply armed_filter.
  - split; [|unfold is_auto_global; by rewrite Earm].
    unfold http_of, later, on_global.
    repeat (apply elem_of_cons in Ha as [->|Ha]); [..|by apply elem_of_nil in Ha]; rewrite ?Earm; done.
Qed.

Lemma auto_globals_refine_witness :
  let s := php_hash_environment demo_info (demo_ini [] true) no_globals in
  sg_server s = None ∧
  http_of demo_info (demo_ini [] true) (is_auto_global demo_info (demo_ini [] true) AG_SERVER s) =
    on_global AG_SERVER zend_is_auto_global (http_of demo_info (demo_ini [] true) s).
Proof.
  intros s. split; [by vm_compute|]. apply (auto_globals_refine demo_info (demo_ini [] true) AG_SERVER s). by left.
Defined.

(** ** What [_REQUEST] holds *)

Lemma autoglobal_merge d s : php_autoglobal_merge d s = merge s d.
Proof. revert d. induction s as [|[k v] s IH]; intros d; [done|]. cbn [php_autoglobal_merge merge]. by rewrite IH. Qed.

Lemma hfind_autoglobal_merge k d s : hwf s →
  hfind k (php_autoglobal_merge d s) = match hfind k s with Some v => Some (merge_entry v (hfind k d)) | None => hfind k d end.
Proof. intros Hs. rewrite autoglobal_merge. by apply hfind_merge. Qed.

(** The tables in the order in which their letters come first. *)
Fixpoint sources (order : zstr) (g p c : option (htab zval)) : list (htab zval) :=
  match order with
  | [] => []
  | l :: order' =>
      if ceq (toupper l) "G"%char then option_list g ++ sources order' None p c
      else if ceq (toupper l) "P"%char then option_list p ++ sources order' g None c
      else if ceq (toupper l) "C"%char then option_list c ++ sources order' g p None
      else sources order' g p c
  end.

Lemma request_loop_sources order : ∀ g p c ht,
  request_loop order g p c ht = foldl php_autoglobal_merge ht (sources order g p c).
Proof.
  induction order as [|l order IH]; intros g p c ht; [done|]. cbn [request_loop sources].
  destruct (ceq (toupper l) "G"); [|destruct (ceq (toupper l) "P"); [|destruct (ceq (toupper l) "C")]]; rewrite IH, ?foldl_app; try done.
  - by destruct g.
  - by destruct p.
  - by destruct c.
Qed.

Lemma sources_wf order : ∀ g p c, (∀ ht, g = Some ht ∨ p = Some ht ∨ c = Some ht → hwf ht) → Forall hwf (sources order g p c).
Proof.
  induction order as [|l order IH]; intros g p c Hwf; [constructor|]. cbn [sources].
  destruct (ceq (toupper l) "G"); [|destruct (ceq (toupper l) "P"); [|destruct (ceq (toupper l) "C")]];
    repeat (apply Forall_app; split); try (apply IH; naive_solver).
  - destruct g; constructor; [auto|constructor].
  - destruct p; constructor; [auto|constructor].
  - destruct c; constructor; [auto|constructor].
Qed.

(** What [_REQUEST] holds under a key: the value of the last of the sources that has the key,
    in the order of the setting, each letter counting where it comes first and other letters
    not at all - but where this and what came before are arrays, their merge.  A source whose
    letter is not in the order, such as the cookies, adds nothing. *)
Theorem request_table_spec ini order g p c k :
  hwf g → hwf p → hwf c → pi_request_order ini = Some order →
  hfind k (request_table ini g p c) =
    foldl (λ found src, match hfind k src with Some v => Some (merge_entry v found) | None => found end) None
      (sources (cstr order) (Some g) (Some p) (Some c)).
Proof.
  intros Hg Hp Hc Horder. unfold request_table. rewrite Horder, request_loop_sources.
  assert (Hwf := sources_wf (cstr order) (Some g) (Some p) (Some c) ltac:(naive_solver)). revert Hwf.
  generalize (sources (cstr order) (Some g) (Some p) (Some c)). intros l. change (@None zval) with (hfind k (@nil (hkey * zval))).
  generalize (@nil (hkey * zval)). induction l as [|src l IH]; intros d; [done|]. intros [Hsrc Hl]%Forall_cons. cbn [foldl].
  rewrite IH, hfind_autoglobal_merge by done. done.
Qed.

Lemma request_table_spec_witness :
  let g := (get_table demo_info (demo_ini [] true)).1 in
  let p := (post_table demo_info (demo_ini [] true)).1 in
  let c := (cookie_table demo_info (demo_ini [] true)).1 in
  let r := request_table (demo_ini [] true) g p c in
  hfind_str "a" r = Some (ZStr "1") ∧ hfind_str "b" r = Some (ZStr "p") ∧
  hfind_str "l" r = Some (ZArr [(KIdx 0, ZStr "1"); (KStr "x", ZStr "p")]).
Proof.
  intros g p c r. unfold r. split_and!; rewrite (request_table_spec (demo_ini [] true) "GP" g p c); try decided; reflexivity.
Defined.
