(* ===== verification/World.v ===== *)
(** * The world: objects, classes and the application's code

    The objects that the components share and pass around by reference, the class
    table, and the application's PHP code, which Yaf calls and which may change
    anything.  A component that only reads and writes an object is a computation
    over the engine that takes and returns the object; [on_request] and its like
    run it on the shared one. *)

From S2P Require Import Prelude Zend Engine Request Response View Router.

Open Scope zs_scope.

(** ** Classes *)

(** An entry of a function table: a function of the application, with the names of
    its arguments, or a method that a Yaf class provides. *)
Inductive function := UserFunction (args : list zstr) | BuiltinFunction (args : list zstr).
Definition num_args (f : function) : list zstr :=
  match f with UserFunction args | BuiltinFunction args => args end.

Record class_entry := ClassEntry {
  ce_name : zstr;
  ce_supers : list zstr;                      (** itself and all it extends or implements *)
  ce_functions : list (zstr * function);      (** by lower-case name, in order of declaration *)
  ce_actions : zval;                          (** the default of [$actions] *)
  ce_auto_render : option zval;               (** the default of [$yafAutoRender], when declared *)
}.

Definition instanceof_function (ce : class_entry) (super : zstr) : bool :=
  bool_decide (super ∈ ce_supers ce).
Definition find_function (ce : class_entry) (name : zstr) : option function :=
  snd <$> (snd <$> list_find (λ kv, kv.1 = name) (ce_functions ce)).

(** ** Objects *)

(** A controller or an action; an action has [_controller] as well. *)
Record controller := Controller {
  ct_class : class_entry;
  ct_actions : zval;
  ct_module : zval;
  ct_name : zval;
  ct_request : zval;
  ct_response : zval;
  ct_args : zval;
  ct_view : zval;
  ct_controller : zval;
  ct_auto_render : option zval;
}.
#[export] Instance controller_rebuild : Rebuild controller := λ c,
  Controller (ct_class c) (ct_actions c) (ct_module c) (ct_name c) (ct_request c) (ct_response c)
    (ct_args c) (ct_view c) (ct_controller c) (ct_auto_render c).

(** [object_init_ex] of a controller or action class *)
Definition new_controller (ce : class_entry) : controller :=
  Controller ce (ce_actions ce) ZNull ZNull ZNull ZNull ZNull ZNull ZNull (ce_auto_render ce).

Record loader := Loader { ld_library : zval; ld_global_library : zval }.
#[export] Instance loader_rebuild : Rebuild loader := λ l, Loader (ld_library l) (ld_global_library l).

(** A new object *)
Definition loader_init : loader := Loader ZNull ZNull.

(** The [_router] property. *)
Inductive router_obj := BuiltinRouter (r : router) | UserRouter (obj : zval) | NoRouter.

Record dispatcher := Dispatcher {
  dp_router : router_obj;
  dp_view : zval;
  dp_request : zval;
  dp_plugins : zval;
  dp_auto_render : zval;
  dp_return_response : zval;
  dp_instantly_flush : zval;
  dp_default_module : zval;
  dp_default_controller : zval;
  dp_default_action : zval;
}.
#[export] Instance dispatcher_rebuild : Rebuild dispatcher := λ d,
  Dispatcher (dp_router d) (dp_view d) (dp_request d) (dp_plugins d) (dp_auto_render d)
    (dp_return_response d) (dp_instantly_flush d) (dp_default_module d) (dp_default_controller d)
    (dp_default_action d).

(** A new object *)
Definition dispatcher_init : dispatcher :=
  Dispatcher NoRouter ZNull ZNull ZNull (ZBool true) (ZBool false) (ZBool false) ZNull ZNull ZNull.

(** ** The world *)

(** Objects are shared by handle.  [w_dispatcher] is the object that
    [Yaf_Dispatcher::$_instance] holds; the class has no other. *)
Record world := World {
  w_engine : engine;
  w_classes : gmap zstr class_entry;      (** [EG(class_table)] *)
  w_included : list zstr;                 (** [EG(included_files)] *)
  w_loader : option loader;               (** [Yaf_Loader::$_instance] *)
  w_dispatcher : option dispatcher;
  w_requests : gmap Z request;
  w_responses : gmap Z response;
  w_views : gmap Z view;
  w_controllers : gmap Z controller;
  w_exns : gmap Z (list exn);             (** caught exceptions, with their [previous] ones *)
  w_next : Z;                             (** the next handle *)
}.
#[export] Instance world_rebuild : Rebuild world := λ w,
  World (w_engine w) (w_classes w) (w_included w) (w_loader w) (w_dispatcher w) (w_requests w)
    (w_responses w) (w_views w) (w_controllers w) (w_exns w) (w_next w).

Abbreviation W A := (St world A).

(** Run a computation over the engine. *)
Definition eng {A} (m : M A) : W A := λ w,
  match m (w_engine w) with
  | Some (a, e) => Some (a, w <| w_engine := e |>)
  | None => None
  end.

Definition new_handle : W Z :=
  h ← gets w_next;
  modify (λ w, w <| w_next := (w_next w + 1)%Z |>);;
  mret h.

Definition get_request (h : Z) : W request := r ← gets (λ w, w_requests w !! h); lift r.
Definition put_request (h : Z) (r : request) : W unit :=
  modify (λ w, w <| w_requests := <[h := r]> (w_requests w) |>).
Definition on_request {A} (h : Z) (f : request → M (A * request)) : W A :=
  r ← get_request h;
  res ← eng (f r);
  put_request h res.2;;
  mret res.1.
Definition upd_request (h : Z) (f : request → request) : W unit :=
  r ← get_request h; put_request h (f r).

Definition get_response (h : Z) : W response := r ← gets (λ w, w_responses w !! h); lift r.
Definition put_response (h : Z) (r : response) : W unit :=
  modify (λ w, w <| w_responses := <[h := r]> (w_responses w) |>).

Definition get_controller (h : Z) : W controller := c ← gets (λ w, w_controllers w !! h); lift c.
Definition put_controller (h : Z) (c : controller) : W unit :=
  modify (λ w, w <| w_controllers := <[h := c]> (w_controllers w) |>).
Definition upd_controller (h : Z) (f : controller → controller) : W unit :=
  c ← get_controller h; put_controller h (f c).

Definition get_dispatcher : W dispatcher := d ← gets w_dispatcher; lift d.
Definition upd_dispatcher (f : dispatcher → dispatcher) : W unit :=
  d ← get_dispatcher; modify (λ w, w <| w_dispatcher := Some (f d) |>).

(** The object of a value. *)
Definition Z_OBJ (v : zval) : option Z := match v with ZObj _ h => Some h | _ => None end.

(** ** The application's code *)

(** What [VCWD_REALPATH] and [zend_compile_file] make of a path. *)
Inductive script := NoFile | NoCompile | Script (opened_path : zstr).

(** Everything Yaf runs that is not Yaf: methods of the application's objects
    ([None] is an undefined result, which a method leaves that raised), callables,
    which the engine may refuse to call, files that are included, templates, with the
    text they print, code in strings, which may not compile, and the texts of
    [strerror(errno)].  All may change the whole world. *)
Inductive called := CallFailed | Called (ret : option zval).

Class UserCode := {
  user_method : zval → zstr → list zval → W (option zval);
  call_function : zval → list zval → W called;
  script_of : zstr → script;
  run_script : zstr → W unit;
  run_template : zval → zstr → list (zstr * zval) → W zstr;
  compile_string : zstr → W bool;
  run_code : zval → zstr → list (zstr * zval) → W zstr;
  strerror : world → zstr;
  set_header : zstr → M bool;
}.

Definition exception_pending : W bool :=
  gets (λ w, match eg_exception (w_engine w) with [] => false | _ => true end).

Section with_user.
Context `{UserCode}.

(** [zend_call_method], [call_user_function_ex]: with an exception pending
    [zend_call_function] returns at once. *)
Definition zend_call_method (obj : zval) (name : zstr) (args : list zval) : W (option zval) :=
  pending ← exception_pending;
  if pending : bool then mret None else user_method obj name args.

(** [zend_call_function], [call_user_function]: the call fails with an exception
    pending. *)
Definition zend_call_function (f : zval) (args : list zval) : W called :=
  pending ← exception_pending;
  if pending : bool then mret CallFailed else call_function f args.

End with_user.

(** ** Running computations of components *)

Lemma eng_run {A} (m : M A) w a e :
  m (w_engine w) = Some (a, e) → eng m w = Some (a, w <| w_engine := e |>).
Proof. intros Hm. unfold eng. by rewrite Hm. Qed.

Lemma bind_eng {A B} (m : M A) (k : A → W B) w a e :
  m (w_engine w) = Some (a, e) → (eng m ≫= k) w = k a (w <| w_engine := e |>).
Proof. intros Hm. by rewrite (bind_runs _ _ _ _ _ (eng_run m w a e Hm)). Qed.

Lemma bind_eng_gets {A B} (f : engine → A) (k : A → W B) w :
  (eng (gets f) ≫= k) w = k (f (w_engine w)) w.
Proof. by destruct w. Qed.
Lemma bind_eng_is_module {B} name (k : bool → W B) w :
  (eng (yaf_application_is_module_name name) ≫= k) w = k (is_module (w_engine w) name) w.
Proof. by destruct w. Qed.
#[export] Hint Rewrite @bind_eng_gets @bind_eng_is_module : st.

Lemma bind_get_request {B} (k : request → W B) h r w :
  w_requests w !! h = Some r → (get_request h ≫= k) w = k r w.
Proof. intros Hr. unfold get_request. by st_run. Qed.

Lemma bind_get_dispatcher {B} (k : dispatcher → W B) d w :
  w_dispatcher w = Some d → (get_dispatcher ≫= k) w = k d w.
Proof. intros Hd. unfold get_dispatcher. by st_run. Qed.

Ltac st_conditional ::=
  first [ erewrite bind_lift by eassumption
        | erewrite bind_query_get by eassumption
        | erewrite bind_get_request by eassumption
        | erewrite bind_get_dispatcher by eassumption ].
