(* ===== verification/Loader.v ===== *)
(** * The loader

    [yaf_loader.c]: the singleton with its two library directories, the local
    namespaces, the mapping from class names to files, and [autoload]. *)

From S2P Require Import Prelude Zend Engine Request Response View Router World.

Open Scope zs_scope.

Definition YAF_LOADER_CONTROLLER : zstr := "Controller".
Definition YAF_LOADER_MODEL : zstr := "Model".
Definition YAF_LOADER_PLUGIN : zstr := "Plugin".
Definition YAF_LOADER_RESERVERD : zstr := "Yaf_".
Definition YAF_LOADER_LEN_RESERVERD : nat := 3.
Definition YAF_LOADER_DAO : zstr := "Dao_".
Definition YAF_LOADER_SERVICE : zstr := "Service_".
Definition YAF_CONTROLLER_DIRECTORY_NAME : zstr := "controllers".
Definition YAF_PLUGIN_DIRECTORY_NAME : zstr := "plugins".
Definition YAF_MODULE_DIRECTORY_NAME : zstr := "modules".
Definition YAF_MODEL_DIRECTORY_NAME : zstr := "models".
Definition DEFAULT_DIR_SEPARATOR : ascii := ":"%char.
Definition UNDERSCORE : ascii := "_"%char.
Definition BACKSLASH : ascii := "\"%char.

(** ** Names *)

(** [yaf_loader_is_category]; the class is read up to its length from the end in
    suffix mode, where a separator longer than the rest of the name is read before
    the start of the buffer. *)
Definition yaf_loader_is_category (g : yaf_globals) (cls category : zstr) : option bool :=
  let sep := name_separator g in
  let clen := length category in
  if name_suffix g then
    if bool_decide (clen < length cls) &&
       strncmp0 (drop (length cls - clen) cls) category clen then
      match sep with
      | [] => Some true
      | _ =>
          if bool_decide (length cls < clen + length sep) then None
          else Some (strncmp0 (drop (length cls - clen - length sep) cls) sep (length sep))
      end
    else Some false
  else
    if strncmp0 cls category clen then
      match sep with
      | [] => Some true
      | _ => Some (strncmp0 (drop clen cls) sep (length sep))
      end
    else Some false.

(** A class of the category [category]: the part of the name that names the file. *)
Definition category_file (g : yaf_globals) (cls category : zstr) : zstr :=
  if name_suffix g then
    cstr (take (length cls - length (name_separator g) - length category) cls)
  else cstr (drop (length category + length (name_separator g)) cls).

(** ** Local namespaces *)

(** The part of a class name before the first underscore, or the first backslash;
    the length of a name with neither is the length of the counted string. *)
Definition class_prefix (cls : zstr) : zstr * nat :=
  match strstr cls "_" with
  | Some i => (take i cls, i)
  | None =>
      match strstr cls "\" with
      | Some i => (take i cls, i)
      | None => (cstr cls, length cls)
      end
  end.

(** The byte after a match, or the terminator. *)
Definition byte_at (s : zstr) (i : nat) : option ascii := (s ++ [NUL]) !! i.
Definition ends_name (c : ascii) : bool := ceq c DEFAULT_DIR_SEPARATOR || ceq c NUL.

(** The loop over the occurrences of the prefix in the list of namespaces.
    [before] is the byte before [ns]; before the first byte of a [zend_string]
    stands the most significant byte of its length, which is zero.  A match at
    [ns] itself is taken for the start of a name. *)
Fixpoint ns_search (fuel : nat) (before : ascii) (ns prefix : zstr) (plen : nat) : option bool :=
  match fuel with
  | 0 => None
  | S fuel' =>
      match find_sub prefix ns with
      | None => Some false
      | Some i =>
          next ← byte_at ns (i + plen);
          let prev := match i with 0 => before | S j => default NUL (ns !! j) end in
          if (bool_decide (i = 0) && ends_name next) ||
             (ceq prev DEFAULT_DIR_SEPARATOR && ends_name next)
          then Some true
          else
            let rest := drop (i + plen) ns in
            let before := match i + plen with 0 => before | S j => default NUL (ns !! j) end in
            ns_search fuel' before rest prefix plen
      end
  end.

(** With a prefix that is not empty every round shortens the rest of the list, so
    that its length bounds the number of rounds; the empty prefix is found in place
    for ever ([local_namespace_diverges]). *)
Definition yaf_loader_is_local_namespace (g : yaf_globals) (cls : zstr) : option bool :=
  match local_namespaces g with
  | None => Some false
  | Some nss =>
      let '(prefix, plen) := class_prefix cls in
      ns_search (S (length nss)) NUL (cstr nss) prefix plen
  end.

Definition yaf_loader_register_namespace_single (prefix : zstr) (g : yaf_globals) : yaf_globals :=
  g <| local_namespaces := Some (match local_namespaces g with
                                 | Some nss => nss ++ DEFAULT_DIR_SEPARATOR :: prefix
                                 | None => prefix
                                 end) |>.

Definition yaf_loader_register_namespace_multi (prefixes : htab zval) (g : yaf_globals) : yaf_globals :=
  foldl (λ g kv, match kv.2 with
                 | ZStr s => yaf_loader_register_namespace_single s g
                 | _ => g
                 end) g prefixes.

Definition registerLocalNamespace (namespaces : zval) : M bool :=
  match namespaces with
  | ZStr s => modify (λ e, e <| yaf := yaf_loader_register_namespace_single s (yaf e) |>);; mret true
  | ZArr ht => modify (λ e, e <| yaf := yaf_loader_register_namespace_multi ht (yaf e) |>);; mret true
  | _ => php_error E_WARNING "Invalid parameters provided, must be a string, or an array";; mret false
  end.

Definition getLocalNamespace : M zval :=
  nss ← YAF_G local_namespaces;
  mret (match nss with Some s => ZStr s | None => ZNull end).

(** Releasing the NULL string when nothing is registered. *)
Definition clearLocalNamespace : M bool :=
  nss ← YAF_G local_namespaces;
  match nss with
  | Some _ => modify (λ e, e <| yaf := (yaf e) <| local_namespaces := None |> |>);; mret true
  | None => undefined
  end.

(** ** Files *)

(** The directories of a class name: the pieces between underscores, except that
    the first byte of the name, and the byte at which the scan stopped, are not
    looked at.  [skip_one] is the increment at the start of the inner loop; beyond
    the terminator it reads out of bounds. *)
Fixpoint scan_word (s : zstr) : zstr * zstr :=
  match s with
  | [] => ([], [])
  | c :: s' => if ceq c UNDERSCORE then ([], s)
               else let '(w, rest) := scan_word s' in (c :: w, rest)
  end.

(** [p] is the rest of the name from the pointer [p]; [q] stands one byte before it
    ([at_start = false]) or on it. *)
Fixpoint dir_loop (fuel : nat) (at_start : bool) (p buf : zstr) : option (zstr * zstr) :=
  match fuel with
  | 0 => None
  | S fuel' =>
      let first := if at_start then take 1 p else [] in
      if bool_decide (at_start ∧ p = []) then None
      else
        let '(w, rest) := scan_word (drop (length first) p) in
        match rest with
        | [] => Some (p, buf)
        | _ :: p' => dir_loop fuel' false p' (buf ++ first ++ w ++ [SLASH])
        end
  end.

(** The path of a file name below a directory. *)
Definition autoload_path (g : yaf_globals) (directory file_name : zstr) : option zstr :=
  st ← dir_loop (S (length file_name)) true (cstr file_name) [SLASH];
  let '(p, dirs) := st in
  Some (directory ++ (if lowcase_path g then zend_str_tolower dirs else dirs) ++
        p ++ "." ++ ext g).

Section with_user.
Context `{Runtime, UserCode}.

(** [yaf_loader_import] *)
Definition yaf_loader_import (path : zstr) : W bool :=
  match script_of path with
  | NoFile | NoCompile => mret false
  | Script opened =>
      modify (λ w, w <| w_included := if decide (opened ∈ w_included w) then w_included w
                                      else w_included w ++ [opened] |>);;
      run_script path;;
      mret true
  end.

Definition YAF_LOADER_CLASS : zstr := "Yaf_Loader".
Definition YAF_AUTOLOAD_FUNC_NAME : zstr := "autoload".
Definition YAF_SPL_AUTOLOAD_REGISTER_NAME : zstr := "spl_autoload_register".

(** [yaf_loader_register] calls [spl_autoload_register] with the loader's method. *)
Definition yaf_loader_register (loader_obj : zval) : W bool :=
  ret ← zend_call_function (ZStr YAF_SPL_AUTOLOAD_REGISTER_NAME)
          [ZArr [(KIdx 0, loader_obj); (KIdx 1, ZStr YAF_AUTOLOAD_FUNC_NAME)]];
  match ret with
  | CallFailed => eng (php_error E_WARNING "Unable to register autoload function autoload");; mret false
  | Called _ => mret true
  end.

(** The loader is the one object of its class; it is stored once it is registered. *)
Definition yaf_loader_instance (library_path global_path : option zstr) : W (option loader) :=
  instance ← gets w_loader;
  match instance with
  | Some l =>
      let l := match library_path with Some p => l <| ld_library := ZStr p |> | None => l end in
      let l := match global_path with Some p => l <| ld_global_library := ZStr p |> | None => l end in
      modify (λ w, w <| w_loader := Some l |>);;
      mret (Some l)
  | None =>
      match library_path, global_path with
      | None, None => eng (php_error E_WARNING "Missed library directory arguments");; mret None
      | _, _ =>
          let lib := default [] (library_path ∪ global_path) in
          let glob := default [] (global_path ∪ library_path) in
          let l := loader_init <| ld_library := ZStr lib |> <| ld_global_library := ZStr glob |> in
          registered ← yaf_loader_register (ZObj YAF_LOADER_CLASS 0);
          (if registered : bool then mret tt else eng (php_error E_WARNING "Failed to register autoload function"));;
          modify (λ w, w <| w_loader := Some l |>);;
          mret (Some l)
      end
  end.

(** [Yaf_Loader::getInstance] *)
Definition loader_getInstance (library global : option zstr) : W (option loader) := yaf_loader_instance library global.

(** [yaf_override_spl_autoload], which replaces [spl_autoload_register] when
    [use_spl_autoload] is off. *)
Definition yaf_override_spl_autoload : M bool :=
  php_error E_WARNING "spl_autoload_register is disabled by ap.use_spl_autoload";; mret false.

(** [yaf_internal_autoload]: the status, and the path that replaces [*directory]. *)
Definition yaf_internal_autoload (file_name : zstr) (directory : option zstr)
    : W (bool * option zstr) :=
  let load (dir : zstr) : W (bool * option zstr) :=
    g ← gets (λ w, yaf (w_engine w));
    path ← lift (autoload_path g dir file_name);
    status ← yaf_loader_import path;
    mret (status, Some path) in
  match directory with
  | Some d => load (cstr d)
  | None =>
      loader ← yaf_loader_instance None None;
      match loader with
      | None =>
          eng (php_error E_WARNING "Yaf_Loader need to be initialize first");;
          mret (false, None)
      | Some l =>
          g ← gets (λ w, yaf (w_engine w));
          local ← lift (yaf_loader_is_local_namespace g file_name);
          lib ← lift (Z_STR (if local : bool then ld_library l else ld_global_library l));
          load lib
      end
  end.

Definition class_exists (name : zstr) : W (option class_entry) :=
  gets (λ w, w_classes w !! zend_str_tolower name).

(** [Yaf_Loader::isLocalName] *)
Definition isLocalName (name : zval) : W bool :=
  match name with
  | ZStr s => g ← gets (λ w, yaf (w_engine w)); lift (yaf_loader_is_local_namespace g s)
  | _ => mret false
  end.

(** [Yaf_Loader::setLibraryPath], [getLibraryPath] *)
Definition setLibraryPath (l : loader) (library : zstr) (global : bool) : loader :=
  if global then l <| ld_global_library := ZStr library |> else l <| ld_library := ZStr library |>.
Definition getLibraryPath (l : loader) (global : bool) : zval :=
  if global then ld_global_library l else ld_library l.

(** [Yaf_Loader::import] *)
Definition loader_import (file : zstr) : W bool :=
  match file with
  | [] => mret false
  | _ =>
      path ← (if is_absolute_path file then mret (Some file)
              else
                l ← yaf_loader_instance None None;
                match l with
                | None => eng (php_error E_WARNING "Yaf_Loader need to be initialize first");; mret None
                | Some l => lib ← lift (Z_STR (ld_library l));
                            mret (Some (cstr lib ++ SLASH :: cstr file))
                end : W (option zstr));
      match path with
      | None => mret false
      | Some path =>
          included ← gets w_included;
          if decide (path ∈ included) then mret true else yaf_loader_import path
      end
  end.

(** The file and the directory of a class, and whether the directory is the
    application's ([%s] of a NULL directory prints [(null)]). *)
Definition class_location (g : yaf_globals) (cls : zstr) : option (zstr * option zstr) :=
  let app_directory := match directory g with Some d => cstr d | None => "(null)" end in
  let in_dir (name : zstr) := Some (app_directory ++ SLASH :: name) in
  model ← yaf_loader_is_category g cls YAF_LOADER_MODEL;
  if model : bool then
    Some (category_file g cls YAF_LOADER_MODEL, in_dir YAF_MODEL_DIRECTORY_NAME)
  else
    plugin ← yaf_loader_is_category g cls YAF_LOADER_PLUGIN;
    if plugin : bool then
      Some (category_file g cls YAF_LOADER_PLUGIN, in_dir YAF_PLUGIN_DIRECTORY_NAME)
    else
      ctl ← yaf_loader_is_category g cls YAF_LOADER_CONTROLLER;
      if ctl : bool then
        Some (category_file g cls YAF_LOADER_CONTROLLER, in_dir YAF_CONTROLLER_DIRECTORY_NAME)
      else
        Some (cls,
              if st_compatible g &&
                 (strncmp0 cls YAF_LOADER_DAO (length YAF_LOADER_DAO) ||
                  strncmp0 cls YAF_LOADER_SERVICE (length YAF_LOADER_SERVICE))
              then in_dir YAF_MODEL_DIRECTORY_NAME else None).

(** Backslashes become underscores. *)
Definition flatten_ns (cls : zstr) : zstr :=
  map (λ c, if ceq c BACKSLASH then UNDERSCORE else c) cls.

(** [Yaf_Loader::autoload] *)
Definition autoload (origin : zstr) : W bool :=
  g ← gets (λ w, yaf (w_engine w));
  loc ← (match origin with
         | [] => mret ([], None)   (* the NULL file name *)
         | _ =>
             let cls := flatten_ns origin in
             (if strncmp0 cls YAF_LOADER_RESERVERD YAF_LOADER_LEN_RESERVERD
              then eng (php_error E_WARNING "You should not use 'Yaf_' as class name prefix")
              else mret tt);;
             lift (class_location g cls)
         end : W (zstr * option zstr));
  let '(file_name, dir) := loc in
      match directory g, dir with
      | None, Some _ =>
          eng (php_error E_WARNING "Couldn't load a MVC class unless an Yaf_Application is initialized");;
          mret false
      | _, _ =>
          res ← yaf_internal_autoload file_name dir;
          ce ← class_exists origin;
          if use_spl_autoload g then
            mret (res.1 && bool_decide (is_Some ce))
          else
            (if res.1 : bool then
               match ce with
               | Some _ => mret tt
               | None => eng (php_error E_STRICT ("Could not find class " ++ cstr (flatten_ns origin) ++
                                                  " in " ++ default "(null)" res.2))
               end
             else
               err ← gets strerror;
               eng (php_error E_WARNING ("Failed opening script " ++ default "(null)" res.2 ++ ": " ++ err)));;
            mret true
      end.
End with_user.

(** ** From class names to files *)

(** A piece of a class name. *)
Definition word (w : zstr) : Prop := Forall (λ c, c ≠ UNDERSCORE ∧ c ≠ NUL) w.

#[export] Instance word_dec w : Decision (word w).
Proof. unfold word. apply _. Defined.

Definition followed_by (c : ascii) (words : list zstr) : zstr := mjoin (map (λ w, w ++ [c]) words).

Lemma followed_by_cons c w words : followed_by c (w :: words) = w ++ c :: followed_by c words.
Proof. unfold followed_by. cbn. by rewrite <-app_assoc. Qed.

Lemma scan_word_end w : word w → scan_word w = (w, []).
Proof.
  induction 1 as [|c w [Hc _] _ IH]; [done|]. cbn. unfold ceq.
  by rewrite bool_decide_false, IH by done.
Qed.

Lemma scan_word_at w rest : word w → scan_word (w ++ UNDERSCORE :: rest) = (w, UNDERSCORE :: rest).
Proof.
  induction 1 as [|c w [Hc _] _ IH]; [done|]. cbn. unfold ceq.
  by rewrite bool_decide_false, IH by done.
Qed.

Lemma cstr_words dirs w :
  Forall word dirs → word w → cstr (followed_by UNDERSCORE dirs ++ w) = followed_by UNDERSCORE dirs ++ w.
Proof.
  intros Hd Hw. apply cstr_no_nul. apply Forall_app. split.
  - apply Forall_join, Forall_fmap. eapply Forall_impl; [exact Hd|]. intros v Hv.
    apply Forall_app. split; [|by constructor]. eapply Forall_impl; [exact Hv|]. by intros c [_ ?].
  - eapply Forall_impl; [exact Hw|]. by intros c [_ ?].
Qed.

Lemma dir_loop_words fuel dirs w buf :
  Forall word dirs → word w → length dirs < fuel →
  dir_loop fuel false (followed_by UNDERSCORE dirs ++ w) buf = Some (w, buf ++ followed_by SLASH dirs).
Proof.
  intros Hd Hw. revert buf fuel. induction Hd as [|d dirs Hd1 _ IH]; intros buf [|fuel] Hf; try lia.
  - change (followed_by UNDERSCORE [] ++ w) with w. cbn. rewrite ?drop_0, scan_word_end by done. by rewrite app_nil_r.
  - rewrite followed_by_cons, <-app_assoc. cbn [Datatypes.app dir_loop]. rewrite bool_decide_false by naive_solver.
    cbn [length drop]. rewrite ?drop_0.
    change ((UNDERSCORE :: followed_by UNDERSCORE dirs) ++ w) with
      (UNDERSCORE :: (followed_by UNDERSCORE dirs ++ w)).
    rewrite scan_word_at by done. rewrite IH by (cbn in Hf; lia).
    do 2 f_equal. rewrite followed_by_cons. cbn [Datatypes.app]. by rewrite <-!app_assoc.
Qed.

Lemma length_dirs dirs w : length dirs ≤ length (followed_by UNDERSCORE dirs ++ w).
Proof.
  induction dirs as [|d dirs IH]; [cbn; lia|]. rewrite followed_by_cons, <-app_assoc.
  rewrite length_app. cbn. rewrite length_app in *. lia.
Qed.

Lemma dir_loop_start fuel dirs w buf :
  Forall word dirs → word w → hd w dirs ≠ [] → length dirs ≤ fuel →
  dir_loop (S fuel) true (followed_by UNDERSCORE dirs ++ w) buf = Some (w, buf ++ followed_by SLASH dirs).
Proof.
  intros Hd Hw Hne Hf. destruct Hd as [|d dirs Hd1 Hds].
  - change (followed_by UNDERSCORE [] ++ w) with w. destruct Hw as [|c w Hc Hw]; [done|].
    cbn. rewrite ?drop_0, scan_word_end by done. by rewrite app_nil_r.
  - destruct Hd1 as [|c d Hc Hd1]; [done|]. destruct fuel as [|fuel]; [cbn in Hf; lia|].
    rewrite followed_by_cons, <-app_assoc.
    change ((UNDERSCORE :: followed_by UNDERSCORE dirs) ++ w) with
      (UNDERSCORE :: (followed_by UNDERSCORE dirs ++ w)).
    remember (S fuel) as fuel' eqn:Ef. cbn [Datatypes.app dir_loop take length drop].
    rewrite bool_decide_false by naive_solver.
    rewrite ?drop_0, scan_word_at by done. rewrite dir_loop_words; [|done..|cbn in Hf; lia].
    rewrite followed_by_cons. cbn. rewrite ?take_0. do 2 f_equal. rewrite <-(app_assoc buf). f_equal. cbn. f_equal. by rewrite <-app_assoc.
Qed.

(** The file of a class: the pieces of its name between underscores become
    directories below [directory], in lower case when the application asks for
    that, and the last piece becomes the file, with the script extension.  The
    empty name makes the scan leave the string. *)
Theorem autoload_path_spec g directory dirs w :
  Forall word dirs → word w → hd w dirs ≠ [] →
  autoload_path g directory (followed_by UNDERSCORE dirs ++ w) =
    Some (directory ++ SLASH ::
          (if lowcase_path g then zend_str_tolower (followed_by SLASH dirs)
           else followed_by SLASH dirs) ++ w ++ "." ++ ext g) ∧
  autoload_path g directory [] = None.
Proof.
  intros Hd Hw Hne. split; [|done]. unfold autoload_path. rewrite cstr_words by done.
  rewrite dir_loop_start by (done || apply length_dirs). cbn. by destruct (lowcase_path g).
Qed.

(** ** Local namespaces *)

(** The list that registering names one after the other makes. *)
Fixpoint joined (names : list zstr) : zstr :=
  match names with
  | [] => []
  | [n] => n
  | n :: names' => n ++ DEFAULT_DIR_SEPARATOR :: joined names'
  end.

Lemma joined_snoc names n :
  names ≠ [] → joined (names ++ [n]) = joined names ++ DEFAULT_DIR_SEPARATOR :: n.
Proof.
  induction names as [|m [|m' names] IH]; intros Hne; [done..|].
  change (joined ((m :: m' :: names) ++ [n])) with
    (m ++ DEFAULT_DIR_SEPARATOR :: joined ((m' :: names) ++ [n])).
  rewrite IH by done. cbn. by rewrite <-app_assoc.
Qed.

Lemma register_joined names g :
  local_namespaces g = None → names ≠ [] →
  local_namespaces (foldl (λ g n, yaf_loader_register_namespace_single n g) g names) =
    Some (joined names).
Proof.
  intros Hg. induction names as [|n names IH] using rev_ind; intros Hne; [done|].
  rewrite foldl_app. cbn. destruct names as [|m names]; [cbn; by rewrite Hg|].
  rewrite IH by done. by rewrite joined_snoc.
Qed.

(** A name, or a prefix of a class, that the list can hold. *)
Definition ns_name (n : zstr) : Prop := Forall (λ c, c ≠ DEFAULT_DIR_SEPARATOR ∧ c ≠ NUL) n.

#[export] Instance ns_name_dec n : Decision (ns_name n).
Proof. unfold ns_name. apply _. Defined.

(** The rest of a list after a name. *)
Definition ns_tail (b : zstr) : Prop := b = [] ∨ ∃ b', b = DEFAULT_DIR_SEPARATOR :: b'.

Lemma find_sub_split n h i :
  find_sub n h = Some i → h = take i h ++ n ++ drop (i + length n) h ∧ i + length n ≤ length h.
Proof.
  assert (Hp : ∀ n h, is_prefix n h = true → h = n ++ drop (length n) h ∧ length n ≤ length h).
  { clear. induction n as [|c n IH]; intros h H'; [cbn; rewrite ?drop_0; split; [done|lia]|].
    destruct h as [|d h]; [done|]. cbn in H'. apply andb_true_iff in H' as [Hc H'].
    apply bool_decide_eq_true in Hc as ->. apply IH in H' as [E Hl]. cbn. split; [congruence|lia]. }
  revert i. induction h as [|d h IH]; intros i; cbn [find_sub].
  - destruct (is_prefix n []) eqn:E; [|done]. intros [= <-]. apply Hp in E. cbn. rewrite ?take_0. exact E.
  - destruct (is_prefix n (d :: h)) eqn:E.
    + intros [= <-]. apply Hp in E. rewrite take_0. exact E.
    + destruct (find_sub n h) as [j|]; [|done]. cbn. intros [= <-].
      destruct (IH j eq_refl) as [E' Hl]. cbn. split; [congruence|lia].
Qed.

Lemma find_sub_least n a b : ∃ i, find_sub n (a ++ n ++ b) = Some i ∧ i ≤ length a.
Proof.
  induction a as [|c a IH].
  - exists 0. split; [|done]. change ([] ++ n ++ b) with (n ++ b).
    pose proof (is_prefix_app n b) as E. destruct (n ++ b); cbn [find_sub]; by rewrite E.
  - destruct IH as (i & Hi & Hl). change ((c :: a) ++ n ++ b) with (c :: (a ++ n ++ b)).
    cbn [find_sub]. rewrite Hi. destruct (is_prefix _ _); [exists 0|exists (S i)]; cbn; split; (done || lia).
Qed.

(** An occurrence of [p] that starts at or before a place after a separator, and is
    not there, ends before the separator. *)
Lemma occurrence_apart p a b h i :
  ns_name p → (a = [] ∨ ∃ a', a = a' ++ [DEFAULT_DIR_SEPARATOR]) →
  h = a ++ b → h = take i h ++ p ++ drop (i + length p) h → i + length p ≤ length h →
  i < length a → i + length p < length a.
Proof.
  intros Hp Ha Hh Hs Hle Hi. destruct (decide (i + length p < length a)) as [|Hn]; [done|exfalso].
  destruct Ha as [->|[a' ->]]; [cbn in Hi; lia|]. rewrite length_app in *. cbn [length] in *.
  assert (Hc : h !! length a' = Some DEFAULT_DIR_SEPARATOR).
  { rewrite Hh, <-app_assoc, lookup_app_r by lia. by rewrite Nat.sub_diag. }
  rewrite Hs in Hc. rewrite lookup_app_r in Hc by (rewrite length_take; lia).
  rewrite length_take, Nat.min_l in Hc by lia. rewrite lookup_app_l in Hc by lia.
  eapply Forall_lookup_1 in Hc; [|exact Hp]. by destruct Hc.
Qed.

Lemma byte_at_tail h i :
  no_nul h → i ≤ length h → ∃ c, byte_at h i = Some c ∧ (ends_name c = true ↔ ns_tail (drop i h)).
Proof.
  intros Hh Hi. unfold byte_at, ends_name, ns_tail, ceq. destruct (drop i h) as [|c t] eqn:E.
  - apply (f_equal length) in E. rewrite length_drop in E. cbn in E. exists NUL.
    rewrite lookup_app_r by lia. replace (i - length h) with 0 by lia. split; [done|]. cbn.
    split; [by left|done].
  - assert (Hc : h !! i = Some c) by (rewrite <-(Nat.add_0_r i), <-lookup_drop, E; done).
    exists c. split; [by apply lookup_app_l_Some|].
    assert (c ≠ NUL) by exact (Forall_lookup_1 _ _ _ _ Hh Hc).
    rewrite orb_true_iff, !bool_decide_eq_true. naive_solver.
Qed.

(** [p] occurs in [h] as a whole name, and as the end of a name. *)
Definition occurs_whole (p h : zstr) : Prop :=
  ∃ a t, h = a ++ p ++ t ∧ (a = [] ∨ ∃ a', a = a' ++ [DEFAULT_DIR_SEPARATOR]) ∧ ns_tail t.
Definition occurs_last (p h : zstr) : Prop := ∃ a t, h = a ++ p ++ t ∧ ns_tail t.

Lemma occurs_skip p h i :
  ns_name p → h = take i h ++ p ++ drop (i + length p) h → i + length p ≤ length h →
  (∃ j, find_sub p h = Some j ∧ j = i) →
  occurs_whole p h →
  (i = 0 ∨ ∃ j, i = S j ∧ h !! j = Some DEFAULT_DIR_SEPARATOR) ∧ ns_tail (drop (i + length p) h) ∨
  occurs_whole p (drop (i + length p) h).
Proof.
  intros Hp Hs Hl (j & Hj & ->) (a & t & Hh & Ha & Ht).
  destruct (find_sub_least p a t) as (j & Hj' & Hle). rewrite <-Hh, Hj in Hj'. injection Hj' as <-.
  destruct (decide (i = length a)) as [->|Hne].
  - left. split.
    + destruct Ha as [->|[a' ->]]; [by left|]. right. exists (length a'). rewrite length_app. cbn.
      split; [lia|]. rewrite Hh, <-app_assoc, lookup_app_r by lia. by rewrite Nat.sub_diag.
    + rewrite Hh. rewrite <-drop_drop, drop_app_length, drop_app_length. exact Ht.
  - right. assert (Hlt : i + length p < length a)
      by (eapply occurrence_apart; [exact Hp|exact Ha|exact Hh|exact Hs|exact Hl|lia]).
    exists (drop (i + length p) a), t. rewrite Hh at 1. rewrite drop_app_le by lia. split; [done|].
    split; [|done]. destruct Ha as [->|[a' ->]]; [cbn in Hlt; lia|]. right.
    rewrite length_app in Hlt. cbn in Hlt. exists (drop (i + length p) a').
    by rewrite drop_app_le by lia.
Qed.

Lemma ns_search_ok fuel before h p :
  ns_name p → p ≠ [] → no_nul h → length h < fuel →
  ∃ b, ns_search fuel before h p (length p) = Some b ∧
    (occurs_whole p h → b = true) ∧ (b = true → occurs_last p h).
Proof.
  intros Hp Hne. revert before h. induction fuel as [|fuel IH]; intros before h Hh Hf; [lia|].
  cbn [ns_search]. destruct (find_sub p h) as [i|] eqn:Hi.
  2: { exists false. split; [done|]. split; [|done]. intros (a & t & -> & _).
       destruct (find_sub_least p a t) as (j & Hj & _). congruence. }
  destruct (find_sub_split p h i Hi) as [Hs Hl].
  destruct (byte_at_tail h (i + length p) Hh Hl) as (c & -> & Hc). cbn [mbind option_bind].
  match goal with |- context [if ?x then _ else _] => destruct x eqn:Hif end.
  - exists true. split; [done|]. split; [done|]. intros _. exists (take i h), (drop (i + length p) h).
    split; [exact Hs|]. apply Hc. apply orb_true_iff in Hif as [Hif|Hif]; by apply andb_true_iff in Hif as [_ ?].
  - destruct (IH (match i + length p with 0 => before | S j => default NUL (h !! j) end)
                (drop (i + length p) h)) as (b & Hb & Hw & Hla).
    { by apply Forall_drop. }
    { rewrite length_drop. assert (length p ≠ 0) by (by destruct p). lia. }
    exists b. split; [exact Hb|]. split.
    + intros Ho. destruct (occurs_skip p h i Hp Hs Hl (ex_intro _ i (conj Hi eq_refl)) Ho) as [[Hstart Ht]|]; [|by apply Hw].
      apply Hc in Ht. exfalso. apply orb_false_iff in Hif as [H1 H2]. rewrite Ht, !andb_true_r in H1, H2.
      destruct Hstart as [->|(j & -> & Hj)]; [done|]. rewrite Hj in H2. by apply bool_decide_eq_false in H2.
    + intros (a & t & E & Ht)%Hla. exists (take (i + length p) h ++ a), t.
      rewrite <-app_assoc, <-E. by rewrite take_drop.
Qed.

Lemma joined_no_nul names : Forall ns_name names → no_nul (joined names).
Proof.
  assert (Hn : ∀ n, ns_name n → no_nul n).
  { intros n Hn. eapply Forall_impl; [exact Hn|]. by intros c [_ ?]. }
  induction 1 as [|n names H1 Hs IH]; [constructor|]. destruct names as [|m names]; [by apply Hn|].
  apply Forall_app. split; [by apply Hn|]. by constructor.
Qed.

Lemma joined_whole p names : p ∈ names → occurs_whole p (joined names).
Proof.
  induction names as [|n names IH]; intros Hin; [by apply not_elem_of_nil in Hin|].
  apply elem_of_cons in Hin as [->|Hin].
  - destruct names as [|m names].
    + exists [], []. cbn. rewrite app_nil_r. unfold ns_tail. auto.
    + exists [], (DEFAULT_DIR_SEPARATOR :: joined (m :: names)). unfold ns_tail. naive_solver.
  - destruct names as [|m names]; [by apply not_elem_of_nil in Hin|].
    destruct (IH Hin) as (a & t & E & Ha & Ht).
    exists (n ++ DEFAULT_DIR_SEPARATOR :: a), t.
    change (joined (n :: m :: names)) with (n ++ DEFAULT_DIR_SEPARATOR :: joined (m :: names)).
    rewrite E. split; [by rewrite <-app_assoc|]. split; [|done]. right.
    destruct Ha as [->|[a' ->]]; [by exists n|]. exists (n ++ DEFAULT_DIR_SEPARATOR :: a').
    by rewrite <-app_assoc.
Qed.

Lemma joined_last p names :
  Forall ns_name names → ns_name p → p ≠ [] → occurs_last p (joined names) →
  ∃ n u, n ∈ names ∧ n = u ++ p.
Proof.
  intros Hs Hp Hne. induction Hs as [|n names Hn Hs IH]; intros (a & t & E & Ht).
  { symmetry in E. apply app_nil in E as [_ E]. by apply app_nil in E as [-> _]. }
  assert (Hone : ∀ rest, ns_tail rest → n ++ rest = a ++ p ++ t →
            length a + length p ≤ length n → n = a ++ p).
  { intros rest Hrest E' Hl. rewrite app_assoc in E'.
    pose proof (f_equal (take (length a + length p)) E') as E1.
    rewrite <-length_app, take_app_length, take_app_le in E1 by (rewrite length_app; lia).
    pose proof (f_equal (drop (length a + length p)) E') as E2.
    rewrite <-length_app, drop_app_length, drop_app_le in E2 by (rewrite length_app; lia).
    rewrite <-E1. rewrite <-(take_drop (length (a ++ p)) n) at 1.
    destruct (drop (length (a ++ p)) n) as [|c u] eqn:Eu; [by rewrite app_nil_r|].
    cbn in E2. subst t. destruct Ht as [|[t' [= -> _]]]; [done|].
    assert (Hc : DEFAULT_DIR_SEPARATOR ∈ n).
    { rewrite <-(take_drop (length (a ++ p)) n), Eu. set_solver. }
    by destruct (proj1 (Forall_forall _ _) Hn _ Hc). }
  destruct names as [|m names].
  - exists n, a. split; [set_solver|]. apply (Hone []); [by left|by rewrite app_nil_r|].
    cbn in E. rewrite E, !length_app. lia.
  - change (joined (n :: m :: names)) with (n ++ DEFAULT_DIR_SEPARATOR :: joined (m :: names)) in E.
    destruct (decide (length a + length p ≤ length n)) as [Hl|Hl].
    + exists n, a. split; [set_solver|]. eapply Hone; [|exact E|exact Hl]. right. eauto.
    + assert (Hna : length n < length a).
      { destruct (decide (length n < length a)) as [|Hge]; [done|exfalso].
        pose proof (f_equal (λ l, l !! length n) E) as Ec. cbn in Ec.
        rewrite lookup_app_r, Nat.sub_diag in Ec by lia. cbn in Ec.
        rewrite lookup_app_r, lookup_app_l in Ec by lia. symmetry in Ec.
        by destruct (Forall_lookup_1 _ _ _ _ Hp Ec). }
      assert (Ea : a = n ++ DEFAULT_DIR_SEPARATOR :: drop (S (length n)) a).
      { pose proof (f_equal (take (S (length n))) E) as Ec.
        rewrite take_app_ge in Ec by lia. rewrite (take_app_le a) in Ec by lia.
        replace (S (length n) - length n) with 1 in Ec by lia. cbn in Ec. rewrite ?take_0 in Ec.
        rewrite <-(take_drop (S (length n)) a) at 1. rewrite <-Ec. by rewrite <-app_assoc. }
      destruct IH as (n' & u & Hin & ->); [|exists (u ++ p), u; set_solver].
      exists (drop (S (length n)) a), t. split; [|exact Ht].
      rewrite Ea, <-app_assoc in E. cbn in E. apply app_inv_head in E. by injection E.
Qed.

(** For a class whose prefix is a name, the search of the local namespaces ends;
    a registered prefix is local, and one that is taken for local ends a registered
    name, though it need not be one: [Foo] is local once [FooFoo] is registered. *)
Theorem local_namespace_spec g0 names cls p :
  local_namespaces g0 = None → names ≠ [] → Forall ns_name names →
  ns_name p → p ≠ [] → class_prefix cls = (p, length p) →
  ∃ local,
    yaf_loader_is_local_namespace
      (foldl (λ g n, yaf_loader_register_namespace_single n g) g0 names) cls = Some local ∧
    (p ∈ names → local = true) ∧ (local = true → ∃ n u, n ∈ names ∧ n = u ++ p).
Proof.
  intros Hg Hnames Hall Hp Hne Hcls. unfold yaf_loader_is_local_namespace.
  rewrite register_joined, Hcls by done. rewrite cstr_no_nul by (by apply joined_no_nul).
  destruct (ns_search_ok (S (length (joined names))) NUL (joined names) p) as (b & Hb & Hw & Hl);
    [done|done|by apply joined_no_nul|lia|].
  exists b. split; [exact Hb|]. split.
  - intros Hin. by apply Hw, joined_whole.
  - intros Htrue. apply joined_last; auto.
Qed.

Lemma local_namespace_spec_witness :
  ∃ local,
    yaf_loader_is_local_namespace
      (foldl (λ g n, yaf_loader_register_namespace_single n g) ginit_globals ["Bar" : zstr; "Foo" : zstr])
      "Foo_Thing" = Some local ∧
    (("Foo" : zstr) ∈ ["Bar" : zstr; "Foo" : zstr] → local = true) ∧
    (local = true → ∃ n u, n ∈ ["Bar" : zstr; "Foo" : zstr] ∧ n = u ++ "Foo").
Proof.
  apply (local_namespace_spec ginit_globals ["Bar" : zstr; "Foo" : zstr] "Foo_Thing" "Foo");
    by (reflexivity || decided || discriminate).
Defined.

Example local_namespace_end_of_name :
  yaf_loader_is_local_namespace (ginit_globals <| local_namespaces := Some ("FooFoo" : zstr) |>)
    "Foo_Thing" = Some true.
Proof. by vm_compute. Qed.

(** A class whose name begins with an underscore, or whose prefix is empty for
    another reason, sends the search into an endless loop unless the list of
    namespaces begins with an empty name: no number of rounds ends it. *)
Theorem local_namespace_diverges fuel before c ns :
  ends_name c = false → ns_search fuel before (c :: ns) [] 0 = None.
Proof.
  intros Hc. induction fuel as [|fuel IH]; [done|].
  cbn [ns_search find_sub is_prefix]. cbn. rewrite Hc, !andb_false_r. exact IH.
Qed.

Lemma local_namespace_diverges_witness :
  class_prefix "_Thing" = ([], 0) ∧ ns_search 1000 NUL "Foo:Bar" [] 0 = None.
Proof. split; [reflexivity|]. by apply (local_namespace_diverges 1000 NUL "F" "oo:Bar"). Defined.

Lemma autoload_path_spec_witness :
  autoload_path (rinit ginit_globals) "/app/controllers" "Admin_User_Index" =
    Some ("/app/controllers/Admin/User/Index.php" : zstr) ∧
  autoload_path (rinit ginit_globals) "/app/controllers" [] = None.
Proof.
  refine (autoload_path_spec (rinit ginit_globals) "/app/controllers" ["Admin" : zstr; "User" : zstr]
            "Index" _ _ _); [decided|decided|discriminate].
Defined.
