(* ===== verification/Controller.v ===== *)
(** * Controllers and the rendering of views

    [yaf_controller.c], [yaf_action.c] and the part of [views/yaf_view_simple.c]
    that finds and executes a template: construction, [forward], and the way from
    the name of an action to the template that is rendered for it. *)

From S2P Require Import Prelude Zend Engine Request Response View Router World.

Open Scope zs_scope.

Definition YAF_REQUEST_CLASS : zstr := "Yaf_Request_Abstract".
Definition YAF_VIEW_SIMPLE : zstr := "Yaf_View_Simple".
Definition YAF_ACTION_CLASS : zstr := "Yaf_Action_Abstract".

(** ** Names of templates *)

(** The loop that writes a slash over every underscore of a C string. *)
Definition slash_names (s : zstr) : zstr := map (λ c, if ceq c "_"%char then SLASH else c) (cstr s).

(** [name/action.ext] *)
Definition template_path (name action view_ext : zstr) : zstr :=
  slash_names (zend_str_tolower name) ++ SLASH :: slash_names action ++ "." ++ cstr view_ext.

(** ** [forward] *)

Definition merge_params (r : request) (args : htab zval) : M request :=
  ht ← lift (Z_ARR (rq_params r));
  mret (r <| rq_params := ZArr (hcopy ht args) |>).

Definition forwarded (r : request) : M (bool * request) :=
  mret (true, yaf_request_set_dispatched r false).

(** [Yaf_Controller_Abstract::forward] with one to four arguments: an action; a
    controller and an action, or an action and parameters; and so on.  The result
    is FALSE or TRUE. *)
Definition controller_forward (r : request) (argv : list zval) : M (bool * request) :=
  match argv with
  | [module] =>
      match module with
      | ZStr _ => forwarded (r <| rq_action := module |>)
      | _ => php_error E_WARNING "Expect a string action name";; mret (false, r)
      end
  | [module; controller] =>
      match controller with
      | ZStr _ => forwarded (r <| rq_controller := module |> <| rq_action := controller |>)
      | ZArr args => r ← merge_params r args; forwarded (r <| rq_action := module |>)
      | _ => mret (false, r)
      end
  | [module; controller; action] =>
      match action with
      | ZStr _ => forwarded (r <| rq_module := module |> <| rq_controller := controller |>
                               <| rq_action := action |>)
      | ZArr args => r ← merge_params r args;
                     forwarded (r <| rq_controller := module |> <| rq_action := controller |>)
      | _ => mret (false, r)
      end
  | [module; controller; action; args] =>
      match args with
      | ZArr args => r ← merge_params r args;
                     forwarded (r <| rq_module := module |> <| rq_controller := controller |>
                                  <| rq_action := action |>)
      | _ => php_error E_WARNING "Parameters must be an array";; mret (false, r)
      end
  | _ => mret (false, r)
  end.

(** [Yaf_Controller_Abstract::getInvokeArg] *)
Definition getInvokeArg (c : controller) (name : zstr) : option zval :=
  match ct_args c with
  | ZNull => Some ZNull
  | args => ht ← Z_ARR args; Some (default ZNull (hfind (KStr name) ht))
  end.

(** The getters of a controller, and [getController] of an action; [initView] only
    returns the controller. *)
Definition controller_getView (c : controller) : zval := ct_view c.
Definition controller_getRequest (c : controller) : zval := ct_request c.
Definition controller_getResponse (c : controller) : zval := ct_response c.
Definition getInvokeArgs (c : controller) : zval := ct_args c.
Definition controller_getModuleName (c : controller) : zval := ct_module c.
Definition controller_initView (c : controller) : controller := c.
Definition action_getController (c : controller) : zval := ct_controller c.

Section with_user.
Context `{Runtime, UserCode}.

(** ** Executing a template *)

Definition include_file (opened : zstr) : W unit :=
  modify (λ w, w <| w_included := if decide (opened ∈ w_included w) then w_included w
                                  else w_included w ++ [opened] |>).

(** [yaf_view_exec_tpl]: with [capture] the text is the result, without it is
    output; a template that raises gives no result.  The buffer that takes the text is
    the subject of [Capture], where the same function is over the output layer. *)
Definition yaf_view_exec_tpl (op_array : W zstr) (capture : bool) : W (option zstr) :=
  text ← op_array;
  (if capture then mret tt else eng (php_write text));;
  pending ← exception_pending;
  mret (if pending : bool then None else Some text).

Definition yaf_view_render_tpl (obj : zval) (table : list (zstr * zval)) (tpl : zstr) (capture : bool)
    : W (option zstr) :=
  match script_of tpl with
  | NoFile =>
      err ← gets strerror;
      eng (yaf_trigger_error YAF_ERR_NOTFOUND_VIEW ("Failed opening template " ++ cstr tpl ++ ": " ++ err));;
      mret None
  | NoCompile => mret None
  | Script opened => include_file opened;; yaf_view_exec_tpl (run_template obj tpl table) capture
  end.

(** The file of a template name. *)
Definition template_script (v : view) (view_directory : option zstr) (tpl : zstr) : option zstr :=
  if is_absolute_path tpl then Some tpl
  else match vw_tpl_dir v, view_directory with
       | ZStr d, _ => Some (cstr d ++ SLASH :: cstr tpl)
       | _, Some d => Some (cstr d ++ SLASH :: cstr tpl)
       | _, None => None
       end.

(** [yaf_view_simple_render]; the object is a [Yaf_View_Simple]. *)
Definition yaf_view_simple_render (h : Z) (tpl : zval) (vars : option zval) (capture : bool)
    : W (option zstr) :=
  match tpl with
  | ZStr tpl =>
      v ← gets (λ w, w_views w !! h);
      v ← lift v;
      table ← lift (yaf_view_build_symtable true (vw_tpl_vars v) vars);
      dir ← gets (λ w, view_directory (yaf (w_engine w)));
      match template_script v dir tpl with
      | Some script => yaf_view_render_tpl (ZObj YAF_VIEW_SIMPLE h) table script capture
      | None =>
          eng (yaf_trigger_error YAF_ERR_NOTFOUND_VIEW
                 "Could not determine the view script path, you should call Yaf_View_Simple::setScriptPath to specific it");;
          mret None
      end
  | _ => mret None
  end.

(** [yaf_view_simple_eval], and the method [eval], which captures: the code is a
    template too.  A text that does not compile, or raises, leaves NULL. *)
Definition yaf_view_simple_eval (h : Z) (tpl : zval) (vars : option zval) (capture : bool) : W (option (option zstr)) :=
  match tpl with
  | ZStr tpl =>
      v ← gets (λ w, w_views w !! h);
      v ← lift v;
      table ← lift (yaf_view_build_symtable true (vw_tpl_vars v) vars);
      match tpl with
      | [] => mret (Some None)
      | _ =>
          let phtml := "?>" ++ cstr tpl in
          compiled ← compile_string phtml;
          if compiled : bool then
            text ← yaf_view_exec_tpl (run_code (ZObj YAF_VIEW_SIMPLE h) phtml table) capture;
            mret (Some text)
          else mret (Some None)
      end
  | _ => mret None
  end.
Definition view_eval (h : Z) (tpl : zval) (vars : option zval) : W zval :=
  res ← yaf_view_simple_eval h tpl vars true;
  mret (match res with None => ZBool false | Some None => ZNull | Some (Some s) => ZStr s end).

(** [Yaf_View_Simple::render], [display] *)
Definition view_render (h : Z) (tpl : zval) (vars : option zval) : W zval :=
  res ← yaf_view_simple_render h tpl vars true;
  mret (match res with Some text => ZStr text | None => ZBool false end).
Definition view_display (h : Z) (tpl : zval) (vars : option zval) : W zval :=
  res ← yaf_view_simple_render h tpl vars false;
  mret (ZBool (bool_decide (is_Some res))).

(** Calling [render] or [display] of a view object.  A result is undefined when an
    exception is pending before or after the call. *)
Definition call_view (obj : zval) (display : bool) (tpl : zstr) (vars : option zval) : W (option zval) :=
  match obj with
  | ZObj cls h =>
      if bool_decide (cls = YAF_VIEW_SIMPLE) then
        pending ← exception_pending;
        if pending : bool then mret None
        else
          ret ← (if display then view_display h (ZStr tpl) vars else view_render h (ZStr tpl) vars);
          pending ← exception_pending;
          mret (if pending : bool then None else Some ret)
      else
        zend_call_method obj (if display then "display" else "render")
          (ZStr tpl :: from_option (λ v, [v]) [] vars)
  | _ => undefined
  end.

(** ** Rendering for a controller *)

Definition controller_template (c : controller) (action : zstr) : W zstr :=
  name ← lift (Z_STR (ct_name c));
  ext ← gets (λ w, view_ext (yaf (w_engine w)));
  mret (template_path name action ext).

Definition yaf_controller_render (h : Z) (action : zstr) (vars : option zval) : W (option zstr) :=
  c ← get_controller h;
  path ← controller_template c action;
  ret ← call_view (ct_view c) false path vars;
  pending ← exception_pending;
  mret (match ret with
        | Some (ZStr s) => if pending : bool then None else Some s
        | _ => None
        end).

Definition yaf_controller_display (h : Z) (action : zstr) (vars : option zval) : W bool :=
  c ← get_controller h;
  path ← controller_template c action;
  ret ← call_view (ct_view c) true path vars;
  pending ← exception_pending;
  mret (match ret with
        | None | Some (ZBool false) => false
        | Some _ => negb pending
        end).

(** [Yaf_Controller_Abstract::render], [display]; the action is a C string. *)
Definition controller_render_method (h : Z) (action : zstr) (vars : option zval) : W zval :=
  out ← yaf_controller_render h (cstr action) vars;
  mret (match out with Some s => ZStr s | None => ZBool false end).
Definition controller_display_method (h : Z) (action : zstr) (vars : option zval) : W zval :=
  ok ← yaf_controller_display h (cstr action) vars; mret (ZBool ok).

(** Calling [render] or [display] of a controller object, which its class may
    override. *)
Definition call_controller (ce : class_entry) (h : Z) (display : bool) (action : zstr)
    : W (option zval) :=
  let name := if display then "display" else "render" in
  match find_function ce name with
  | Some (UserFunction _) => zend_call_method (ZObj (ce_name ce) h) name [ZStr action]
  | Some (BuiltinFunction _) =>
      pending ← exception_pending;
      if pending : bool then mret None
      else
        ret ← (if display then ok ← yaf_controller_display h action None; mret (ZBool ok)
               else out ← yaf_controller_render h action None;
                    mret (match out with Some s => ZStr s | None => ZBool false end) : W zval);
        pending ← exception_pending;
        mret (if pending : bool then None else Some ret)
  | None => undefined
  end.

(** ** Construction *)

Definition yaf_controller_construct (ce : class_entry) (h : Z) (request_obj response_obj view_obj : zval)
    (args : option zval) : W unit :=
  rh ← lift (Z_OBJ request_obj);
  r ← get_request rh;
  upd_controller h (λ c,
    let c := match args with Some a => c <| ct_args := a |> | None => c end in
    c <| ct_request := request_obj |> <| ct_response := response_obj |>
      <| ct_module := rq_module r |> <| ct_view := view_obj |>);;
  match find_function ce "init" with
  | Some _ =>
      if instanceof_function ce YAF_ACTION_CLASS then mret tt
      else zend_call_method (ZObj (ce_name ce) h) "init" [];; mret tt
  | None => mret tt
  end.

(** [Yaf_Controller_Abstract::redirect]: TRUE whatever the server says. *)
Definition controller_redirect (location : zstr) : M bool :=
  yaf_response_set_redirect set_header location;; mret true.

(** [Yaf_Controller_Abstract::setViewpath], [getViewpath] *)
Definition controller_setViewpath (c : controller) (path : zval) : W bool :=
  match path, ct_view c with
  | ZStr p, ZObj cls h =>
      if bool_decide (cls = YAF_VIEW_SIMPLE) then
        v ← gets (λ w, w_views w !! h);
        v ← lift v;
        modify (λ w, w <| w_views := <[h := v <| vw_tpl_dir := ZStr p |>]> (w_views w) |>);;
        mret true
      else zend_call_method (ct_view c) "setscriptpath" [ZStr p];; mret true
  | ZStr _, _ => undefined
  | _, _ => mret false
  end.

Definition controller_getViewpath (c : controller) : W zval :=
  match ct_view c with
  | ZObj cls h =>
      if bool_decide (cls = YAF_VIEW_SIMPLE) then
        v ← gets (λ w, w_views w !! h);
        v ← lift v;
        eng (view_getScriptPath v)
      else ret ← zend_call_method (ct_view c) "getscriptpath" []; mret (default ZNull ret)
  | _ => undefined
  end.
End with_user.

(** ** Correctness *)

(** A forward that succeeds leaves the request undispatched and changes nothing
    but the three names and the parameters, to which the given ones are added; a
    forward that fails leaves the request as it was. *)
Theorem forward_spec r argv e ht b r' e' :
  rq_params r = ZArr ht → controller_forward r argv e = Some ((b, r'), e') →
  if b : bool then
    e' = e ∧ rq_dispatched r' = false ∧
    r' = r <| rq_module := rq_module r' |> <| rq_controller := rq_controller r' |>
           <| rq_action := rq_action r' |> <| rq_params := rq_params r' |>
           <| rq_dispatched := false |> ∧
    ∃ args, (args = [] ∨ last argv = Some (ZArr args)) ∧ rq_params r' = ZArr (hcopy ht args)
  else r' = r.
Proof.
  destruct r as [? ? ? ? rp ? ? ? ? ? ?]. cbn. intros ->.
  destruct argv as [|m [|c [|a [|p [|? ?]]]]]; cbn.
  - by intros [= <- <- <-].
  - destruct m; cbn; intros [= <- <- <-]; try done.
    repeat split; try done. exists []. auto.
  - destruct c; cbn; intros [= <- <- <-]; try done; repeat split; try done.
    + exists []. auto.
    + eexists. split; [by right|done].
  - destruct a; cbn; intros [= <- <- <-]; try done; repeat split; try done.
    + exists []. auto.
    + eexists. split; [by right|done].
  - destruct p; cbn; intros [= <- <- <-]; try done; repeat split; try done.
    eexists. split; [by right|done].
  - by intros [= <- <- <-].
Qed.

Lemma forward_spec_witness :
  start_engine [] [] [] = start_engine [] [] [] ∧ false = false ∧
  (sample_request [] []) <| rq_controller := ZStr "news" |> <| rq_action := ZStr "list" |>
     <| rq_dispatched := false |> =
  (sample_request [] []) <| rq_module := ZNull |> <| rq_controller := ZStr "news" |>
    <| rq_action := ZStr "list" |> <| rq_params := ZArr [] |> <| rq_dispatched := false |> ∧
  ∃ args : htab zval, (args = [] ∨ last [ZStr "news"; ZStr "list"] = Some (ZArr args)) ∧
    ZArr [] = ZArr (hcopy [] args).
Proof.
  exact (forward_spec (sample_request [] []) [ZStr "news"; ZStr "list"] (start_engine [] [] []) [] true
           ((sample_request [] []) <| rq_controller := ZStr "news" |> <| rq_action := ZStr "list" |>
              <| rq_dispatched := false |>) (start_engine [] [] []) eq_refl eq_refl).
Defined.
