(* ===== verification/Dispatcher.v ===== *)
(** * The dispatcher

    [yaf_dispatcher.c], the plugin hooks of [yaf_dispatcher.h] and the exception
    macros of [yaf_exception.h]: routing a request, the dispatch loop, the search
    for a controller and an action, and the error controller. *)

From S2P Require Import Prelude Zend Engine Request Response View Router World.
From S2P Require Import Route Loader Controller.

Open Scope zs_scope.

Definition YAF_DISPATCHER_CLASS : zstr := "Yaf_Dispatcher".
Definition YAF_CONTROLLER_CLASS : zstr := "Yaf_Controller_Abstract".
Definition YAF_ERROR_CONTROLLER : zstr := "Error".
Definition YAF_ERROR_ACTION : zstr := "error".
Definition YAF_VIEW_DIRECTORY_NAME : zstr := "views".
Definition YAF_ACTION_EXECUTOR_NAME : zstr := "execute".

Inductive hook :=
| YAF_PLUGIN_HOOK_ROUTESTARTUP
| YAF_PLUGIN_HOOK_ROUTESHUTDOWN
| YAF_PLUGIN_HOOK_LOOPSTARTUP
| YAF_PLUGIN_HOOK_PREDISPATCH
| YAF_PLUGIN_HOOK_POSTDISPATCH
| YAF_PLUGIN_HOOK_LOOPSHUTDOWN.
Definition hook_name (h : hook) : zstr :=
  match h with
  | YAF_PLUGIN_HOOK_ROUTESTARTUP => "routerstartup"
  | YAF_PLUGIN_HOOK_ROUTESHUTDOWN => "routershutdown"
  | YAF_PLUGIN_HOOK_LOOPSTARTUP => "dispatchloopstartup"
  | YAF_PLUGIN_HOOK_PREDISPATCH => "predispatch"
  | YAF_PLUGIN_HOOK_POSTDISPATCH => "postdispatch"
  | YAF_PLUGIN_HOOK_LOOPSHUTDOWN => "dispatchloopshutdown"
  end.

(** The method of [Yaf_Plugin_Abstract] for a hook. *)
Definition plugin_method (h : hook) : zval := ZBool true.

(** ** Names *)

(** The first byte in upper case; the terminator of the empty string stays. *)
Definition ucfirst (s : zstr) : zstr := match s with [] => [] | c :: s' => toupper c :: s' end.

(** The loop that puts the byte after an underscore or a backslash in upper case. *)
Fixpoint upper_words (s : zstr) : zstr :=
  match s with
  | c :: ((d :: s'') as s') =>
      if ceq c NUL then s
      else if ceq c UNDERSCORE || ceq c BACKSLASH then
        if ceq d NUL then c :: upper_words s' else c :: toupper d :: upper_words s''
      else c :: upper_words s'
  | _ => s
  end.

Definition standard_module (s : zstr) : zstr := ucfirst (zend_str_tolower s).
Definition standard_controller (s : zstr) : zstr := upper_words (ucfirst (zend_str_tolower s)).
Definition standard_action (s : zstr) : zstr := zend_str_tolower s.

(** A name of the request, or the default of the dispatcher. *)
Definition fix_name (standard : zstr → zstr) (def v : zval) : zval :=
  match v with
  | ZStr ((_ :: _) as s) => ZStr (standard s)
  | _ => def
  end.

Definition yaf_dispatcher_fix_default (d : dispatcher) (r : request) : request :=
  r <| rq_module := fix_name standard_module (dp_default_module d) (rq_module r) |>
    <| rq_controller := fix_name standard_controller (dp_default_controller d) (rq_controller r) |>
    <| rq_action := fix_name standard_action (dp_default_action d) (rq_action r) |>.

(** ** Arguments of an action *)

(** The buffer that [yaf_dispatcher_get_call_parameters] fills and the number of
    arguments it counts: an argument that the request has not leaves its slot
    unset and is not counted; with no parameters at all the loop stops. *)
Fixpoint call_parameters (args : list zstr) (params : htab zval) : list (option zval) * nat :=
  match args with
  | [] => ([], 0)
  | arg :: args' =>
      let '(buf, count) := call_parameters args' params in
      match hfind (KStr arg) params with
      | Some v => (Some v :: buf, S count)
      | None => match params with [] => ([], 0) | _ => (None :: buf, count) end
      end
  end.

(** The first [count] slots are passed; an unset one is read. *)
Definition yaf_dispatcher_get_call_parameters (args : list zstr) (params : htab zval)
    : option (list zval) :=
  let '(buf, count) := call_parameters args params in
  mapM id (take count buf).

(** ** Setters *)

Definition registerPlugin (is_plugin : zval → bool) (d : dispatcher) (plugin : zval)
    : M (bool * dispatcher) :=
  if is_plugin plugin then
    ht ← lift (Z_ARR (dp_plugins d));
    mret (true, d <| dp_plugins := ZArr (hpush plugin ht) |>)
  else php_error E_WARNING "Expect a Yaf_Plugin_Abstract instance";; mret (false, d).

Definition setDefaultModule (d : dispatcher) (v : zval) : M (bool * dispatcher) :=
  match v with
  | ZStr ((_ :: _) as s) =>
      is_mod ← yaf_application_is_module_name s;
      mret (if is_mod : bool
            then (true, d <| dp_default_module := ZStr (ucfirst (cstr (zend_str_tolower s))) |>)
            else (false, d))
  | _ => mret (false, d)
  end.
Definition setDefaultController (d : dispatcher) (v : zval) : bool * dispatcher :=
  match v with
  | ZStr ((_ :: _) as s) =>
      (true, d <| dp_default_controller := ZStr (ucfirst (cstr (zend_str_tolower s))) |>)
  | _ => (false, d)
  end.
Definition setDefaultAction (d : dispatcher) (v : zval) : bool * dispatcher :=
  match v with
  | ZStr ((_ :: _) as s) =>
      (true, d <| dp_default_action := ZStr (cstr (zend_str_tolower s)) |>)
  | _ => (false, d)
  end.

(** [autoRender], [returnResponse], [flushInstantly]: without an argument they give the
    property, with one they set it and return the object ([None]). *)
Definition is_true (v : zval) : bool := match v with ZBool b => b | _ => false end.
Definition autoRender (d : dispatcher) (flag : option bool) : option bool * dispatcher :=
  match flag with
  | Some flag => (None, d <| dp_auto_render := ZBool flag |>)
  | None => (Some (is_true (dp_auto_render d)), d)
  end.
Definition returnResponse (d : dispatcher) (flag : option bool) : option bool * dispatcher :=
  match flag with
  | Some flag => (None, d <| dp_return_response := ZBool flag |>)
  | None => (Some (is_true (dp_return_response d)), d)
  end.
Definition flushInstantly (d : dispatcher) (flag : option bool) : option bool * dispatcher :=
  match flag with
  | Some flag => (None, d <| dp_instantly_flush := ZBool flag |>)
  | None => (Some (is_true (dp_instantly_flush d)), d)
  end.
Definition enableView (d : dispatcher) : dispatcher := d <| dp_auto_render := ZBool true |>.
Definition disableView (d : dispatcher) : dispatcher := d <| dp_auto_render := ZBool false |>.
Definition throwException (flag : option bool) : M (option bool) :=
  match flag with
  | Some flag => modify (λ e, e <| yaf := (yaf e) <| throw_exception := flag |> |>);; mret None
  | None => flag ← YAF_G throw_exception; mret (Some flag)
  end.
Definition catchException (flag : option bool) : M (option bool) :=
  match flag with
  | Some flag => modify (λ e, e <| yaf := (yaf e) <| catch_exception := flag |> |>);; mret None
  | None => flag ← YAF_G catch_exception; mret (Some flag)
  end.

Section with_user.
Context `{Runtime, UserRoutes, UserCode}.

(** ** Construction *)

Definition yaf_dispatcher_instance : W unit :=
  d ← gets w_dispatcher;
  match d with
  | Some _ => mret tt
  | None =>
      rtr ← eng yaf_router_instance;
      g ← gets (λ w, yaf (w_engine w));
      modify (λ w, w <| w_dispatcher :=
        Some (dispatcher_init <| dp_plugins := ZArr [] |> <| dp_router := BuiltinRouter rtr |>
                <| dp_default_module := ZStr (default_module g) |>
                <| dp_default_controller := ZStr (default_controller g) |>
                <| dp_default_action := ZStr (default_action g) |>) |>)
  end.

Definition yaf_dispatcher_set_request (obj : zval) : W unit :=
  upd_dispatcher (λ d, d <| dp_request := obj |>).

Definition is_view (v : zval) : bool :=
  match v with
  | ZObj cls _ => bool_decide (cls = YAF_VIEW_SIMPLE) || rt_instanceof cls "Yaf_View_Interface"
  | _ => false
  end.

Definition yaf_dispatcher_init_view (tpl_dir options : option zval) : W (option zval) :=
  d ← get_dispatcher;
  if is_view (dp_view d) then mret (Some (dp_view d))
  else
    v ← eng (yaf_view_simple_instance tpl_dir options);
    match v with
    | None => mret None
    | Some v =>
        h ← new_handle;
        modify (λ w, w <| w_views := <[h := v]> (w_views w) |>);;
        upd_dispatcher (λ d, d <| dp_view := ZObj YAF_VIEW_SIMPLE h |>);;
        mret (Some (ZObj YAF_VIEW_SIMPLE h))
    end.

(** [Yaf_Dispatcher::initView]: the view that is returned is read even where there is
    none. *)
Definition initView (tpl_dir : zval) (options : option zval) : W zval :=
  view ← yaf_dispatcher_init_view (Some tpl_dir) options;
  lift view.

(** [Yaf_Dispatcher::setRequest] *)
Definition setRequest (request : zval) : W bool :=
  match request with
  | ZObj cls _ =>
      if rt_instanceof cls YAF_REQUEST_CLASS then yaf_dispatcher_set_request request;; mret true
      else eng (php_error E_WARNING ("Expects a " ++ YAF_REQUEST_CLASS ++ " instance"));; mret false
  | _ => eng (php_error E_WARNING ("Expects a " ++ YAF_REQUEST_CLASS ++ " instance"));; mret false
  end.

(** [Yaf_Dispatcher::setErrorHandler]: FALSE, or the dispatcher ([true]). *)
Definition setErrorHandler (callback : zval) (error_type : option zval) : W bool :=
  ret ← zend_call_function (ZStr "set_error_handler") (callback :: option_list error_type);
  match ret with
  | CallFailed => eng (php_error E_WARNING "Call to set_error_handler failed");; mret false
  | Called _ => mret true
  end.

(** [Yaf_Dispatcher::getInstance], [getRequest], [getRouter], [getApplication] *)
Definition dispatcher_getInstance : W zval := yaf_dispatcher_instance;; mret (ZObj YAF_DISPATCHER_CLASS 0).
Definition getRequest : W zval := d ← get_dispatcher; mret (dp_request d).
Definition getRouter : W router_obj := d ← get_dispatcher; mret (dp_router d).
Definition getApplication : W (option application) := gets (λ w, app (w_engine w)).

(** [Yaf_Dispatcher::setView] *)
Definition setView (v : zval) : W bool :=
  if is_view v then upd_dispatcher (λ d, d <| dp_view := v |>);; mret true else mret false.

(** ** Plugins *)

(** The methods that the class of a plugin object has. *)
Context (plugin_has : zval → zstr → bool).

Fixpoint call_plugins (plugins : htab zval) (name : zstr) (request_obj response_obj : zval) : W unit :=
  match plugins with
  | [] => mret tt
  | (_, p) :: plugins' =>
      (if plugin_has p name then zend_call_method p name [request_obj; response_obj];; mret tt
       else mret tt);;
      call_plugins plugins' name request_obj response_obj
  end.

(** [YAF_PLUGIN_HANDLE]; [plugins] is the property as it was read at the start of
    the dispatch, an array that is shared with the dispatcher.  [ZEND_HASH_FOREACH] computes
    the end of the array before the first round, so that a plugin that a hook registers is
    called from the next hook on. *)
Definition YAF_PLUGIN_HANDLE (h : hook) (request_obj response_obj : zval) : W unit :=
  d ← get_dispatcher;
  match dp_plugins d with
  | ZNull => mret tt
  | p => ht ← lift (Z_ARR p); call_plugins ht (hook_name h) request_obj response_obj
  end.

(** ** Finding the controller and the action *)

Definition class_name (g : yaf_globals) (name category : zstr) : zstr :=
  if name_suffix g then cstr name ++ name_separator g ++ category
  else category ++ name_separator g ++ cstr name.

Definition module_directory (app_dir module sub : zstr) (def_module : bool) : zstr :=
  if def_module then cstr app_dir ++ SLASH :: sub
  else cstr app_dir ++ SLASH :: YAF_MODULE_DIRECTORY_NAME ++ SLASH :: cstr module ++ SLASH :: sub.

Definition path_text (p : option zstr) : zstr := default "(null)" p.

(** A class that is known is not asked what it extends. *)
Definition yaf_dispatcher_get_controller (app_dir module controller : zstr) (def_module : bool)
    : W (option class_entry) :=
  g ← gets (λ w, yaf (w_engine w));
  let directory := module_directory app_dir module YAF_CONTROLLER_DIRECTORY_NAME def_module in
  let cls := class_name g controller "Controller" in
  ce ← class_exists cls;
  match ce with
  | Some ce => mret (Some ce)
  | None =>
      res ← yaf_internal_autoload (cstr controller) (Some directory);
      if res.1 : bool then
        ce ← class_exists cls;
        match ce with
        | None =>
            eng (yaf_trigger_error YAF_ERR_AUTOLOAD_FAILED
                   ("Could not find class " ++ cls ++ " in controller script " ++ path_text res.2));;
            mret None
        | Some ce =>
            if instanceof_function ce YAF_CONTROLLER_CLASS then mret (Some ce)
            else
              eng (yaf_trigger_error YAF_ERR_TYPE_ERROR
                     "Controller must be an instance of Yaf_Controller_Abstract");;
              mret None
        end
      else
        err ← gets strerror;
        eng (yaf_trigger_error YAF_ERR_NOTFOUND_CONTROLLER
               ("Failed opening controller script " ++ path_text res.2 ++ ": " ++ err));;
        mret None
  end.

(** The class of an action when [$actions] is an array: a known class, or the one
    that the file of the array defines. *)
Definition mapped_action (app_dir : zstr) (actions : htab zval) (controller_name action : zstr)
    : W (option class_entry) :=
  g ← gets (λ w, yaf (w_engine w));
  let cls := class_name g (ucfirst (cstr action)) "Action" in
  let checked (ce : class_entry) : W (option class_entry) :=
    if instanceof_function ce YAF_ACTION_CLASS then mret (Some ce)
    else
      eng (yaf_trigger_error YAF_ERR_TYPE_ERROR
             ("Action " ++ cls ++ " must extends from " ++ YAF_ACTION_CLASS));;
      mret None in
  ce ← class_exists cls;
  match ce with
  | Some ce => checked ce
  | None =>
      match hfind (KStr action) actions with
      | Some p =>
          p ← lift (Z_STR p);
          let path := cstr app_dir ++ SLASH :: cstr p in
          ok ← yaf_loader_import path;
          if ok : bool then
            ce ← class_exists cls;
            match ce with
            | Some ce => checked ce
            | None =>
                eng (yaf_trigger_error YAF_ERR_NOTFOUND_ACTION
                       ("Could not find action " ++ cls ++ " in " ++ path));;
                mret None
            end
          else
            err ← gets strerror;
            eng (yaf_trigger_error YAF_ERR_NOTFOUND_ACTION
                   ("Failed opening action script " ++ path ++ ": " ++ err));;
            mret None
      | None =>
          eng (yaf_trigger_error YAF_ERR_NOTFOUND_ACTION
                 ("There is no method " ++ cstr action ++ "Action in " ++ cstr controller_name ++
                  "::$actions"));;
          mret None
      end
  end.

(** The branch of [st_compatible]: the class of an action script of the module. *)
Definition compatible_action (app_dir module : zstr) (def_module : bool) (action : zstr)
    : W (option class_entry) :=
  g ← gets (λ w, yaf (w_engine w));
  let upper := upper_words (ucfirst action) in
  let directory := module_directory app_dir module "actions" def_module in
  let cls := class_name g upper "Action" in
  ce ← class_exists cls;
  match ce with
  | Some ce => mret (Some ce)
  | None =>
      res ← yaf_internal_autoload (cstr upper) (Some directory);
      if res.1 : bool then
        ce ← class_exists cls;
        match ce with
        | None =>
            eng (yaf_trigger_error YAF_ERR_AUTOLOAD_FAILED
                   ("Could find class " ++ cls ++ " in action script " ++ path_text res.2));;
            mret None
        | Some ce =>
            if instanceof_function ce YAF_ACTION_CLASS then mret (Some ce)
            else
              eng (yaf_trigger_error YAF_ERR_TYPE_ERROR
                     ("Action must be an instance of " ++ YAF_ACTION_CLASS));;
              mret None
        end
      else
        err ← gets strerror;
        eng (yaf_trigger_error YAF_ERR_NOTFOUND_ACTION
               ("Failed opening action script " ++ path_text res.2 ++ ": " ++ err));;
        mret None
  end.

Definition yaf_dispatcher_get_action (app_dir : zstr) (c : controller) (module : zstr)
    (def_module : bool) (action : zstr) : W (option class_entry) :=
  match ct_actions c with
  | ZArr actions => mapped_action app_dir actions (ce_name (ct_class c)) action
  | _ =>
      compat ← gets (λ w, st_compatible (yaf (w_engine w)));
      if compat : bool then compatible_action app_dir module def_module action
      else
        eng (yaf_trigger_error YAF_ERR_NOTFOUND_ACTION
               ("There is no method " ++ cstr action ++ "Action in " ++ cstr (ce_name (ct_class c))));;
        mret None
  end.

(** ** Handling one request *)

(** What running the action method left: failure, success without rendering, or the
    object to render for. *)
Inductive executed :=
| ExecReturn (status : bool)
| ExecRender (ce : class_entry) (h : Z).

Definition action_result (ret : option zval) (ce : class_entry) (h : Z) : executed :=
  match ret with
  | None => ExecReturn false
  | Some (ZBool false) => ExecReturn true
  | Some _ => ExecRender ce h
  end.

Definition run_action (ce : class_entry) (h : Z) (f : function) (name : zstr) (rh : Z) : W executed :=
  args ← (match num_args f with
          | [] => mret []
          | names =>
              r ← get_request rh;
              params ← lift (Z_ARR (rq_params r));
              lift (yaf_dispatcher_get_call_parameters names params)
          end : W (list zval));
  ret ← zend_call_method (ZObj (ce_name ce) h) name args;
  mret (action_result ret ce h).

(** The method of the controller, or an action class of its own. *)
Definition execute_action (ce : class_entry) (h : Z) (app_dir module : zstr) (def_module : bool)
    (controller : zval) (action : zstr) (request_obj response_obj view_obj : zval) : W executed :=
  rh ← lift (Z_OBJ request_obj);
  let func_name := zend_str_tolower (cstr action ++ "action") in
  match find_function ce func_name with
  | Some f => run_action ce h f func_name rh
  | None =>
      c ← get_controller h;
      ace ← yaf_dispatcher_get_action app_dir c module def_module action;
      match ace with
      | None => mret (ExecReturn false)
      | Some ace =>
          match find_function ace YAF_ACTION_EXECUTOR_NAME with
          | None => mret (ExecReturn false)
          | Some f =>
              ah ← new_handle;
              put_controller ah (new_controller ace);;
              yaf_controller_construct ace ah request_obj response_obj view_obj None;;
              upd_controller ah (λ a, a <| ct_name := controller |>
                                        <| ct_controller := ZObj (ce_name ce) h |>);;
              run_action ace ah f YAF_ACTION_EXECUTOR_NAME rh
          end
      end
  end.

(** The property of the executor that overrides the dispatcher's. *)
Definition auto_render (c : controller) (d : dispatcher) : bool :=
  match default (dp_auto_render d) (ct_auto_render c) with
  | ZBool b => b
  | ZLong n => negb (n =? 0)%Z
  | _ => false
  end.

(** Rendering after the action: into the response, or directly. *)
Definition render_action (ce : class_entry) (h : Z) (action : zstr) (response_obj : zval) : W bool :=
  c ← get_controller h;
  d ← get_dispatcher;
  if auto_render c d then
    match dp_instantly_flush d with
    | ZBool false =>
        ret ← call_controller ce h false action;
        match ret with
        | None | Some (ZBool false) => mret false
        | Some (ZStr ((_ :: _) as s)) =>
            ph ← lift (Z_OBJ response_obj);
            p ← get_response ph;
            p' ← eng (yaf_response_alter_body p None s YAF_RESPONSE_APPEND);
            put_response ph p';;
            mret true
        | Some _ => mret true
        end
    | _ =>
        ret ← call_controller ce h true action;
        mret (match ret with None | Some (ZBool false) => false | Some _ => true end)
    end
  else mret true.

(** What [yaf_dispatcher_handle] does once the controller is there: [module] and
    [controller] point into the request and are what [init] has left there, while the choice
    of the directory stays. *)
Definition handle_action (ce : class_entry) (h : Z) (app_dir module : zstr) (def_module : bool) (r : request)
    (request_obj response_obj view_obj : zval) : W bool :=
  module ← (if def_module then mret module else lift (Z_STR (rq_module r)));
  modify (λ w, w <| w_engine := (w_engine w) <| yaf := (yaf (w_engine w))
    <| view_directory := Some (module_directory app_dir module YAF_VIEW_DIRECTORY_NAME def_module) |> |> |>);;
  upd_controller h (λ c, c <| ct_name := rq_controller r |>);;
  action ← lift (Z_STR (rq_action r));
  ex ← execute_action ce h app_dir module def_module (rq_controller r) action
         request_obj response_obj view_obj;
  match ex with
  | ExecReturn status => mret status
  | ExecRender ce h => render_action ce h action response_obj
  end.

(** [yaf_dispatcher_handle].  A forward in the [init] of a controller restarts it;
    [fuel] bounds these restarts. *)
Fixpoint yaf_dispatcher_handle (fuel : nat) (request_obj response_obj view_obj : zval) : W bool :=
  match fuel with
  | 0 => undefined
  | S fuel' =>
      rh ← lift (Z_OBJ request_obj);
      upd_request rh (λ r, yaf_request_set_dispatched r true);;
      dir ← gets (λ w, directory (yaf (w_engine w)));
      match dir with
      | None =>
          eng (yaf_trigger_error YAF_ERR_STARTUP_FAILED
                 "Yaf_Dispatcher requires Yaf_Application(which set the application.directory) to be initialized first");;
          mret false
      | Some app_dir =>
          r ← get_request rh;
          d ← get_dispatcher;
          match rq_module r with
          | ZStr ((_ :: _) as module) =>
              known ← eng (yaf_application_is_module_name module);
              if negb known then
                eng (yaf_trigger_error YAF_ERR_NOTFOUND_MODULE ("There is no module " ++ cstr module));;
                mret false
              else
                match rq_controller r with
                | ZStr ((_ :: _) as controller) =>
                    dmodule ← lift (Z_STR (dp_default_module d));
                    let def_module := bool_decide (dmodule = module) in
                    ce ← yaf_dispatcher_get_controller app_dir module controller def_module;
                    match ce with
                    | None => mret false
                    | Some ce =>
                        h ← new_handle;
                        put_controller h (new_controller ce);;
                        yaf_controller_construct ce h request_obj response_obj view_obj None;;
                        pending ← exception_pending;
                        if pending : bool then mret false
                        else
                          r ← get_request rh;
                          if negb (yaf_request_is_dispatched r) then
                            yaf_dispatcher_handle fuel' request_obj response_obj view_obj
                          else
                            handle_action ce h app_dir module def_module r request_obj response_obj view_obj
                    end
                | _ =>
                    eng (yaf_trigger_error YAF_ERR_DISPATCH_FAILED "Unexcepted a empty controller name");;
                    mret false
                end
          | _ =>
              eng (yaf_trigger_error YAF_ERR_DISPATCH_FAILED "Unexcepted a empty module name");;
              mret false
          end
      end
  end.

(** ** Routing *)

Definition yaf_dispatcher_route (request_obj : zval) : W bool :=
  d ← get_dispatcher;
  match dp_router d with
  | BuiltinRouter rtr =>
      rh ← lift (Z_OBJ request_obj);
      r ← get_request rh;
      res ← eng (yaf_router_route rtr r);
      put_request rh res.2;;
      upd_dispatcher (λ d, d <| dp_router := BuiltinRouter res.1.2 |>);;
      mret res.1.1
  | UserRouter obj =>
      ret ← zend_call_method obj "route" [request_obj];
      match ret with
      | Some (ZBool true) => mret true
      | _ => eng (yaf_trigger_error YAF_ERR_ROUTE_FAILED "Routing request faild");; mret false
      end
  | NoRouter => mret false
  end.

(** ** Exceptions *)

Definition exn_name (c : exn_class) : zstr :=
  match c with
  | Yaf_Exception => "Yaf_Exception"
  | Yaf_Exception_StartupError => "Yaf_Exception_StartupError"
  | Yaf_Exception_RouterFailed => "Yaf_Exception_RouterFailed"
  | Yaf_Exception_DispatchFailed => "Yaf_Exception_DispatchFailed"
  | Yaf_Exception_LoadFailed => "Yaf_Exception_LoadFailed"
  | Yaf_Exception_LoadFailed_Module => "Yaf_Exception_LoadFailed_Module"
  | Yaf_Exception_LoadFailed_Controller => "Yaf_Exception_LoadFailed_Controller"
  | Yaf_Exception_LoadFailed_Action => "Yaf_Exception_LoadFailed_Action"
  | Yaf_Exception_LoadFailed_View => "Yaf_Exception_LoadFailed_View"
  | Yaf_Exception_TypeError => "Yaf_Exception_TypeError"
  | Other_Exception cls => cls
  end.

(** [instanceof_function(EG(exception)->ce, ...)] for PHP's [Exception], which all
    of Yaf's extend, and for a class of Yaf. *)
Definition is_php_exception (c : exn_class) : bool :=
  match c with Other_Exception cls => rt_instanceof cls "Exception" | _ => true end.
Definition is_yaf_exception (d c : exn_class) : bool :=
  match c with
  | Other_Exception cls => rt_instanceof cls (exn_name d)
  | _ => exn_instanceof c d
  end.

(** The request for the error controller: what [yaf_dispatcher_exception_handler]
    writes before it dispatches, given the caught exception object. *)
Definition error_request (d : dispatcher) (exception : zval) (r : request) : M request :=
  let module := match rq_module r with
                | ZStr (_ :: _) => rq_module r
                | _ => dp_default_module d
                end in
  r ← yaf_request_set_params_single
        (r <| rq_module := module |> <| rq_controller := ZStr YAF_ERROR_CONTROLLER |>
           <| rq_action := ZStr YAF_ERROR_ACTION |> <| rq_exception := exception |>)
        "exception" exception;
  mret (yaf_request_set_dispatched r false).

(** Taking [EG(exception)] into an object. *)
Definition take_exception : W zval :=
  exns ← gets (λ w, eg_exception (w_engine w));
  match exns with
  | [] => undefined
  | e :: _ =>
      h ← new_handle;
      modify (λ w, w <| w_exns := <[h := exns]> (w_exns w) |>
                     <| w_engine := (w_engine w) <| eg_exception := [] |> |>);;
      mret (ZObj (exn_name (exn_cls e)) h)
  end.

Definition send_response (response_obj : zval) : W unit :=
  ph ← lift (Z_OBJ response_obj);
  p ← get_response ph;
  eng (yaf_response_send p);;
  mret tt.

Definition yaf_dispatcher_exception_handler (fuel : nat) (request_obj response_obj : zval) : W unit :=
  g ← gets (λ w, yaf (w_engine w));
  pending ← exception_pending;
  if in_exception g || negb pending then mret tt
  else
    modify (λ w, w <| w_engine := (w_engine w) <| yaf := (yaf (w_engine w)) <| in_exception := true |> |> |>);;
    rh ← lift (Z_OBJ request_obj);
    d ← get_dispatcher;
    exception ← take_exception;
    on_request rh (λ r, r' ← error_request d exception r; mret (tt, r'));;
    view ← yaf_dispatcher_init_view None None;
    match view with
    | None => mret tt
    | Some view =>
        ok ← yaf_dispatcher_handle fuel request_obj response_obj view;
        (if ok : bool then mret tt
         else
           exns ← gets (λ w, eg_exception (w_engine w));
           match exns with
           | e :: _ =>
               if is_yaf_exception Yaf_Exception_LoadFailed_Controller (exn_cls e) then
                 d ← get_dispatcher;
                 upd_request rh (λ r, r <| rq_module := dp_default_module d |>);;
                 modify (λ w, w <| w_engine := (w_engine w) <| eg_exception := [] |> |>);;
                 yaf_dispatcher_handle fuel request_obj response_obj view;;
                 mret tt
               else mret tt
           | [] => mret tt
           end);;
        send_response response_obj
    end.

(** [YAF_EXCEPTION_HANDLE_NORET], and [YAF_EXCEPTION_HANDLE]: whether the caller
    returns NULL. *)
Definition YAF_EXCEPTION_HANDLE_NORET (fuel : nat) (request_obj response_obj : zval) : W unit :=
  exns ← gets (λ w, eg_exception (w_engine w));
  catch ← gets (λ w, catch_exception (yaf (w_engine w)));
  match exns with
  | e :: _ => if catch && is_php_exception (exn_cls e)
              then yaf_dispatcher_exception_handler fuel request_obj response_obj else mret tt
  | [] => mret tt
  end.
Definition YAF_EXCEPTION_HANDLE (fuel : nat) (request_obj response_obj : zval) : W bool :=
  pending ← exception_pending;
  if pending : bool then
    YAF_EXCEPTION_HANDLE_NORET fuel request_obj response_obj;; mret true
  else mret false.

(** ** Dispatching *)

Section dispatch.
Context (fuel : nat) (request_obj response_obj : zval).
Abbreviation EH := (YAF_EXCEPTION_HANDLE fuel request_obj response_obj).
Abbreviation HOOK h := (YAF_PLUGIN_HANDLE h request_obj response_obj).

Definition fix_default : W unit :=
  rh ← lift (Z_OBJ request_obj);
  d ← get_dispatcher;
  upd_request rh (yaf_dispatcher_fix_default d).

(** One pass of the dispatch loop; [false] is the return of NULL. *)
Definition dispatch_round (view_obj : zval) : W bool :=
  HOOK YAF_PLUGIN_HOOK_PREDISPATCH;;
  stop ← EH;
  if stop : bool then mret false
  else
    ok ← yaf_dispatcher_handle fuel request_obj response_obj view_obj;
    if negb ok then EH;; mret false
    else
      fix_default;;
      HOOK YAF_PLUGIN_HOOK_POSTDISPATCH;;
      stop ← EH;
      mret (negb stop).

(** [do ... while (--nesting > 0 && !dispatched)] on an unsigned 32-bit counter. *)
Fixpoint dispatch_loop (rounds : nat) (nesting : Z) (view_obj : zval) : W (option Z) :=
  match rounds with
  | 0 => undefined
  | S rounds' =>
      ok ← dispatch_round view_obj;
      if negb ok then mret None
      else
        rh ← lift (Z_OBJ request_obj);
        r ← get_request rh;
        let nesting := ((nesting - 1) mod 2 ^ 32)%Z in
        if (0 <? nesting)%Z && negb (yaf_request_is_dispatched r)
        then dispatch_loop rounds' nesting view_obj
        else mret (Some nesting)
  end.

(** The routing part; [false] is the return of NULL. *)
Definition dispatch_route : W bool :=
  rh ← lift (Z_OBJ request_obj);
  r ← get_request rh;
  if yaf_request_is_routed r then fix_default;; mret true
  else
    HOOK YAF_PLUGIN_HOOK_ROUTESTARTUP;;
    stop ← EH;
    if stop : bool then mret false
    else
      ok ← yaf_dispatcher_route request_obj;
      if negb ok then
        eng (yaf_trigger_error YAF_ERR_ROUTE_FAILED "Routing request failed");;
        YAF_EXCEPTION_HANDLE_NORET fuel request_obj response_obj;;
        mret false
      else
        fix_default;;
        HOOK YAF_PLUGIN_HOOK_ROUTESHUTDOWN;;
        stop ← EH;
        if stop : bool then mret false
        else upd_request rh (λ r, yaf_request_set_routed r true);; mret true.

(** After the loop: the last hook and the limit. *)
Definition dispatch_end (nesting : Z) : W bool :=
  HOOK YAF_PLUGIN_HOOK_LOOPSHUTDOWN;;
  stop ← EH;
  if stop : bool then mret false
  else
    rh ← lift (Z_OBJ request_obj);
    r ← get_request rh;
    if (nesting =? 0)%Z && negb (yaf_request_is_dispatched r) then
      limit ← gets (λ w, forward_limit (yaf (w_engine w)));
      eng (yaf_trigger_error YAF_ERR_DISPATCH_FAILED
             ("The max dispatch nesting " ++ dec_of_Z limit ++ " was reached"));;
      YAF_EXCEPTION_HANDLE_NORET fuel request_obj response_obj;;
      mret false
    else mret true.

(** Sending the response, unless the caller asks for it. *)
Definition dispatch_send : W unit :=
  d ← get_dispatcher;
  match dp_return_response d with
  | ZBool false =>
      ph ← lift (Z_OBJ response_obj);
      p ← get_response ph;
      eng (response_method set_header p);;
      p ← get_response ph;
      p' ← eng (yaf_response_clear_body p None);
      put_response ph p'
  | _ => mret tt
  end.

Definition dispatch_finish (nesting : Z) : W bool :=
  ok ← dispatch_end nesting;
  if ok : bool then dispatch_send;; mret true else mret false.
End dispatch.

(** [yaf_dispatcher_dispatch], with what it does after the loop: the response, or NULL.
    [fuel] bounds the restarts of one handling, [rounds] the passes of the loop. *)
Definition dispatch_with (finish : zval → zval → Z → W bool) (fuel rounds : nat) : W (option zval) :=
  nesting ← gets (λ w, (forward_limit (yaf (w_engine w)) mod 2 ^ 32)%Z);
  response ← eng yaf_response_instance;
  ph ← new_handle;
  put_response ph response;;
  let response_obj := ZObj (if rs_http response then "Yaf_Response_Http" else "Yaf_Response_Cli") ph in
  d ← get_dispatcher;
  match dp_request d with
  | ZObj _ _ as request_obj =>
      go ← dispatch_route fuel request_obj response_obj;
      if negb go then mret None
      else
        YAF_PLUGIN_HANDLE YAF_PLUGIN_HOOK_LOOPSTARTUP request_obj response_obj;;
        stop ← YAF_EXCEPTION_HANDLE fuel request_obj response_obj;
        if stop : bool then mret None
        else
          view ← yaf_dispatcher_init_view None None;
          match view with
          | None => mret None
          | Some view_obj =>
              res ← dispatch_loop fuel request_obj response_obj rounds nesting view_obj;
              match res with
              | None => mret None
              | Some nesting =>
                  ok ← finish request_obj response_obj nesting;
                  mret (if ok : bool then Some response_obj else None)
              end
          end
  | _ =>
      eng (yaf_trigger_error YAF_ERR_TYPE_ERROR ("Expect a " ++ YAF_REQUEST_CLASS ++ " instance"));;
      mret None
  end.
Definition yaf_dispatcher_dispatch (fuel rounds : nat) : W (option zval) :=
  dispatch_with (dispatch_finish fuel) fuel rounds.

(** [Yaf_Dispatcher::dispatch]: FALSE, or the response. *)
Definition dispatcher_dispatch (fuel rounds : nat) (request_obj : zval) : W zval :=
  upd_dispatcher (λ d, d <| dp_request := request_obj |>);;
  r ← yaf_dispatcher_dispatch fuel rounds;
  mret (default (ZBool false) r).

End with_user.

(** ** Names of a request *)

Lemma tolower_toupper c : tolower (toupper c) = tolower c.
Proof. by destruct c as [[] [] [] [] [] [] [] []]. Qed.

Lemma tolower_idem c : tolower (tolower c) = tolower c.
Proof. by destruct c as [[] [] [] [] [] [] [] []]. Qed.

Lemma lower_ucfirst s : zend_str_tolower (ucfirst s) = zend_str_tolower s.
Proof. destruct s as [|c s]; [done|]. cbn. by rewrite tolower_toupper. Qed.

Lemma lower_lower s : zend_str_tolower (zend_str_tolower s) = zend_str_tolower s.
Proof. unfold zend_str_tolower. rewrite map_map. apply map_ext, tolower_idem. Qed.

Lemma upper_words_cons c d s :
  upper_words (c :: d :: s) =
    if ceq c NUL then c :: d :: s
    else if (ceq c UNDERSCORE || ceq c BACKSLASH) && negb (ceq d NUL)
         then c :: toupper d :: upper_words s else c :: upper_words (d :: s).
Proof.
  change (upper_words (c :: d :: s)) with
    (if ceq c NUL then c :: d :: s
     else if ceq c UNDERSCORE || ceq c BACKSLASH then
       if ceq d NUL then c :: upper_words (d :: s) else c :: toupper d :: upper_words s
     else c :: upper_words (d :: s)).
  by destruct (_ || _), (ceq d NUL).
Qed.

Lemma lower_upper_words s : zend_str_tolower (upper_words s) = zend_str_tolower s.
Proof.
  induction s as [s IH] using (induction_ltof1 _ (@length ascii)). unfold ltof in IH.
  destruct s as [|c [|d s]]; [done..|]. rewrite upper_words_cons.
  destruct (ceq c NUL); [done|].
  unfold zend_str_tolower in *. destruct (_ && _); cbn [map].
  - rewrite tolower_toupper. do 2 f_equal. apply (IH s). cbn. lia.
  - f_equal. apply (IH (d :: s)). cbn. lia.
Qed.

(** A standard form keeps the letters and does not look at their case. *)
Definition standardizes (f : zstr → zstr) : Prop :=
  (∀ s, zend_str_tolower (f s) = zend_str_tolower s) ∧
  (∀ s s', zend_str_tolower s = zend_str_tolower s' → f s = f s').

Lemma standard_module_ok : standardizes standard_module.
Proof.
  unfold standard_module. split; [|by intros s s' ->].
  intros s. by rewrite lower_ucfirst, lower_lower.
Qed.
Lemma standard_controller_ok : standardizes standard_controller.
Proof.
  unfold standard_controller. split; [|by intros s s' ->].
  intros s. by rewrite lower_upper_words, lower_ucfirst, lower_lower.
Qed.
Lemma standard_action_ok : standardizes standard_action.
Proof.
  unfold standard_action. split; [|by intros s s' ->]. intros s. by rewrite lower_lower.
Qed.

Section standard_form.
Context (f : zstr → zstr) (Hf : standardizes f).

Lemma standard_idem s : f (f s) = f s.
Proof. apply (proj2 Hf), (proj1 Hf). Qed.

Lemma standard_cons c s : ∃ d s', f (c :: s) = d :: s'.
Proof.
  pose proof (f_equal length (proj1 Hf (c :: s))) as E. unfold zend_str_tolower in E.
  rewrite !length_map in E. destruct (f (c :: s)); [done|eauto].
Qed.

(** The same name up to case, or both missing. *)
Definition same_name (v v' : zval) : Prop :=
  match v, v' with
  | ZStr s, ZStr s' => zend_str_tolower s = zend_str_tolower s'
  | ZStr s, _ => s = []
  | _, ZStr s' => s' = []
  | _, _ => True
  end.

Lemma fix_name_same def v v' : same_name v v' → fix_name f def v = fix_name f def v'.
Proof.
  intros Hs. destruct v as [| | | |[|c s]| |], v' as [| | | |[|c' s']| |]; cbn in *; try done.
  f_equal. by apply (proj2 Hf).
Qed.

Lemma fix_name_idem def v :
  fix_name f def def = def → fix_name f def (fix_name f def v) = fix_name f def v.
Proof.
  intros Hd. destruct v as [| | | |[|c s]| |]; try exact Hd. cbn [fix_name].
  destruct (standard_cons c s) as (d & s' & E). rewrite E. cbn [fix_name]. f_equal.
  rewrite <-E. apply standard_idem.
Qed.
End standard_form.

(** Defaults that are in the form the dispatcher gives to names. *)
Definition standard_defaults (d : dispatcher) : Prop :=
  fix_name standard_module (dp_default_module d) (dp_default_module d) = dp_default_module d ∧
  fix_name standard_controller (dp_default_controller d) (dp_default_controller d) = dp_default_controller d ∧
  fix_name standard_action (dp_default_action d) (dp_default_action d) = dp_default_action d.

(** Names of a request that differ in the case of their letters only, or that are
    missing in one way or another, lead to the same module, controller and action;
    and once the names are fixed, which the dispatcher does again after every pass,
    fixing them changes nothing when the defaults are in the standard form. *)
Theorem fix_default_canonical d r :
  (∀ m c a, same_name (rq_module r) m → same_name (rq_controller r) c → same_name (rq_action r) a →
     yaf_dispatcher_fix_default d (r <| rq_module := m |> <| rq_controller := c |> <| rq_action := a |>) =
     yaf_dispatcher_fix_default d r) ∧
  (standard_defaults d →
     yaf_dispatcher_fix_default d (yaf_dispatcher_fix_default d r) = yaf_dispatcher_fix_default d r).
Proof.
  split.
  - intros m c a Hm Hc Ha. unfold yaf_dispatcher_fix_default. cbn.
    by rewrite (fix_name_same _ standard_module_ok _ _ _ Hm),
      (fix_name_same _ standard_controller_ok _ _ _ Hc), (fix_name_same _ standard_action_ok _ _ _ Ha).
  - intros (Hm & Hc & Ha). unfold yaf_dispatcher_fix_default. cbn.
    by rewrite !fix_name_idem by auto using standard_module_ok, standard_controller_ok, standard_action_ok.
Qed.

(** ** Arguments of an action *)

Lemma call_parameters_nil args : call_parameters args [] = ([], 0).
Proof. destruct args; [done|]. cbn. by destruct (call_parameters args []). Qed.

Lemma call_parameters_count args params buf n :
  call_parameters args params = (buf, n) → n ≤ length buf.
Proof.
  revert buf n. induction args as [|a args IH]; cbn; intros buf n H; [by injection H as <- <-|].
  destruct (call_parameters args params) as [b k]. specialize (IH b k eq_refl).
  destruct (hfind (KStr a) params); [|destruct params]; injection H as <- <-; cbn; lia.
Qed.

Lemma call_parameters_absent args params :
  Forall (λ a, hfind (KStr a) params = None) args → (call_parameters args params).2 = 0.
Proof.
  induction 1 as [|a args Ha _ IH]; [done|]. cbn.
  destruct (call_parameters args params) as [b k]. cbn in IH. subst k. rewrite Ha.
  by destruct params.
Qed.

Lemma call_parameters_full args params buf n :
  call_parameters args params = (buf, n) → is_Some (mapM id (take n buf)) → n = 0 →
  Forall (λ a, hfind (KStr a) params = None) args.
Proof.
  revert buf n. induction args as [|a args IH]; cbn; intros buf n H Hm Hn; [by constructor|].
  destruct (call_parameters args params) as [b k] eqn:E.
  destruct (hfind (KStr a) params) eqn:Ha.
  { by injection H as _ <-. }
  constructor; [done|]. destruct params as [|p params].
  { by apply Forall_forall. }
  injection H as <- <-. subst k. by eapply (IH b 0).
Qed.

(** C35: The arguments an action is called with are the request's parameters of its
    leading arguments, and calling it is defined exactly when the arguments that the
    request has are the leading ones: with an argument missing before one that is
    given, an uninitialised value is passed.  Names are compared exactly: a parameter whose
    name differs from that of an argument in the case of a letter is not its parameter.  The
    comment in the code says that the search ignores case; its second loop compares with
    [zend_string_equals], so that it finds nothing that the first lookup has missed. *)
Theorem call_parameters_spec args params vs :
  yaf_dispatcher_get_call_parameters args params = Some vs ↔
  ∃ pre post, args = pre ++ post ∧
    Forall2 (λ a v, hfind (KStr a) params = Some v) pre vs ∧
    Forall (λ a, hfind (KStr a) params = None) post.
Proof.
  unfold yaf_dispatcher_get_call_parameters. split.
  - revert vs. induction args as [|a args IH]; intros vs.
    { intros [= <-]. by exists [], []. }
    cbn [call_parameters]. destruct (call_parameters args params) as [b k] eqn:E.
    destruct (hfind (KStr a) params) as [v|] eqn:Ha.
    + cbn. destruct (mapM id (take k b)) as [vs'|] eqn:Em; cbn; [|done]. intros [= <-].
      destruct (IH vs' eq_refl) as (pre & post & -> & Hp & Hq).
      exists (a :: pre), post. repeat split; [|done]. by constructor.
    + intros Hm. assert (k = 0) as ->.
      { destruct params as [|p params]; [by rewrite call_parameters_nil in E; injection E as _ <-|].
        destruct k as [|k]; [done|]. by cbn in Hm. }
      exists [], (a :: args). split; [done|].
      assert (vs = []) as -> by (destruct params; injection Hm as <-; done).
      split; [constructor|]. constructor; [done|].
      by eapply (call_parameters_full args params b 0 E).
  - intros (pre & post & -> & Hp & Hq). induction Hp as [|a v pre vs Ha _ IH].
    + change ([] ++ post) with post. pose proof (call_parameters_absent post params Hq) as Hn.
      destruct (call_parameters post params) as [b k]. cbn in Hn. by subst k.
    + change ((a :: pre) ++ post) with (a :: (pre ++ post)). cbn [call_parameters].
      destruct (call_parameters (pre ++ post) params) as [b k].
      rewrite Ha. cbn. by rewrite IH.
Qed.

(** ** The dispatch loop *)

(** The number of passes that a value of the counter allows. *)
Definition pass_limit (nesting : Z) : Z := if (nesting =? 0)%Z then 2 ^ 32 else nesting.

Lemma pass_limit_pred nesting :
  (0 <= nesting < 2 ^ 32)%Z → ((nesting - 1) mod 2 ^ 32 = pass_limit nesting - 1)%Z.
Proof.
  intros Hn. unfold pass_limit. destruct (Z.eqb_spec nesting 0) as [->|Hz]; [done|].
  rewrite Z.mod_small; lia.
Qed.

Lemma pass_limit_pos n : (0 < n)%Z → pass_limit n = n.
Proof. intros Hn. unfold pass_limit. by rewrite (proj2 (Z.eqb_neq n 0)) by lia. Qed.

Section loop.
Context `{Runtime, UserRoutes, UserCode} (plugin_has : zval → zstr → bool).
Context (fuel : nat) (cls : zstr) (rh : Z) (response_obj view_obj : zval).
Let pass := dispatch_round plugin_has fuel (ZObj cls rh) response_obj view_obj.

(** [forwards k w w']: [k] passes that all succeed and leave the request
    undispatched. *)
Inductive forwards : nat → world → world → Prop :=
| forwards_zero w : forwards 0 w w
| forwards_step k w w1 r w2 :
    pass w = Some (true, w1) → w_requests w1 !! rh = Some r → rq_dispatched r = false →
    forwards k w1 w2 → forwards (S k) w w2.

(** How the loop ends after [k] forwards: with the counter at its value after the
    last pass, which left the request dispatched or used the counter up; at a pass
    that fails; or in a pass that is itself undefined or destroys the request. *)
Definition loop_end (limit : Z) (k : nat) (w1 : world) (res : option (option Z * world)) : Prop :=
  (Z.of_nat k < limit)%Z ∧
  match res with
  | Some (Some n, w') => ∃ r, pass w1 = Some (true, w') ∧ w_requests w' !! rh = Some r ∧
      n = (limit - Z.of_nat (S k))%Z ∧ (rq_dispatched r = true ∨ n = 0%Z)
  | Some (None, w') => pass w1 = Some (false, w')
  | None => pass w1 = None ∨ ∃ w2, pass w1 = Some (true, w2) ∧ w_requests w2 !! rh = None
  end.

(** C8: The dispatch loop makes at most as many passes as the forward limit, a limit
    of 0 counting as 2^32; it repeats a pass exactly while passes succeed and leave
    the request undispatched, and it never runs on: with that many rounds the loop
    ends unless a pass itself is undefined. *)
Theorem dispatch_loop_spec rounds nesting w :
  (0 <= nesting < 2 ^ 32)%Z → (pass_limit nesting <= Z.of_nat rounds)%Z →
  ∃ k w1, forwards k w w1 ∧ loop_end (pass_limit nesting) k w1
    (dispatch_loop plugin_has fuel (ZObj cls rh) response_obj rounds nesting view_obj w).
Proof.
  revert nesting w. induction rounds as [|rounds IH]; intros nesting w Hn Hr.
  { unfold pass_limit in Hr. destruct (Z.eqb_spec nesting 0); lia. }
  assert (Hl : (0 < pass_limit nesting <= 2 ^ 32)%Z)
    by (unfold pass_limit; destruct (Z.eqb_spec nesting 0); lia).
  cbn [dispatch_loop]. fold pass. unfold mbind at 1, St_bind at 1.
  destruct (pass w) as [[[] w1]|] eqn:Hp; cbn [negb].
  2: { exists 0, w. split; [constructor|]. split; [lia|done]. }
  2: { exists 0, w. split; [constructor|]. split; [lia|by left]. }
  rewrite (bind_lift_Some rh). rewrite pass_limit_pred by done.
  destruct (w_requests w1 !! rh) as [r|] eqn:Hq.
  2: { exists 0, w. split; [constructor|]. split; [lia|].
       assert (E : get_request rh w1 = None) by (unfold get_request; st_run; by rewrite Hq).
       unfold mbind, St_bind. rewrite E. right. eauto. }
  rewrite (bind_get_request _ _ _ _ Hq). cbv zeta.
  destruct ((0 <? pass_limit nesting - 1)%Z && negb (yaf_request_is_dispatched r)) eqn:Hc.
  - apply andb_true_iff in Hc as [Hpos Hd]. apply Z.ltb_lt in Hpos. apply negb_true_iff in Hd.
    destruct (IH (pass_limit nesting - 1)%Z w1) as (k & w2 & Hf & Hk & He); [lia| |].
    { rewrite (pass_limit_pos (pass_limit nesting - 1)) by lia. lia. }
    rewrite (pass_limit_pos (pass_limit nesting - 1)) in Hk, He by lia. exists (S k), w2. split; [by econstructor|].
    split; [lia|]. destruct dispatch_loop as [[[n|] w']|]; [|done..].
    destruct He as (r' & ? & ? & -> & ?). exists r'. repeat split; [done..|lia|done].
  - exists 0, w. split; [constructor|]. split; [lia|]. exists r.
    repeat split; [done..|].
    apply andb_false_iff in Hc as [Hc|Hc].
    + apply Z.ltb_ge in Hc. right. lia.
    + apply negb_false_iff in Hc. by left.
Qed.

(** ** The error controller *)

(** What the handler does to the request and the engine before it dispatches. *)
Definition error_world (d : dispatcher) (r : request) (ht : htab zval) (w : world) : world :=
  let e := w_engine w in
  let name := match eg_exception e with x :: _ => exn_name (exn_cls x) | [] => "" end in
  let exception := ZObj name (w_next w) in
  w <| w_engine := e <| yaf := (yaf e) <| in_exception := true |> |> <| eg_exception := [] |> |>
    <| w_next := (w_next w + 1)%Z |>
    <| w_exns := <[w_next w := eg_exception e]> (w_exns w) |>
    <| w_requests := <[rh := r <| rq_module := match rq_module r with
                                               | ZStr (_ :: _) => rq_module r
                                               | _ => dp_default_module d
                                               end |>
                               <| rq_controller := ZStr "Error" |> <| rq_action := ZStr "error" |>
                               <| rq_exception := exception |>
                               <| rq_params := ZArr (hupdate (KStr "exception") exception ht) |>
                               <| rq_dispatched := false |>]> (w_requests w) |>.

(** The dispatch of the error request. *)
Definition run_error_controller : W unit :=
  view ← yaf_dispatcher_init_view None None;
  match view with
  | None => mret tt
  | Some view =>
      ok ← yaf_dispatcher_handle fuel (ZObj cls rh) response_obj view;
      (if ok : bool then mret tt
       else
         exns ← gets (λ w, eg_exception (w_engine w));
         match exns with
         | e :: _ =>
             if is_yaf_exception Yaf_Exception_LoadFailed_Controller (exn_cls e) then
               d ← get_dispatcher;
               upd_request rh (λ r, r <| rq_module := dp_default_module d |>);;
               modify (λ w, w <| w_engine := (w_engine w) <| eg_exception := [] |> |>);;
               yaf_dispatcher_handle fuel (ZObj cls rh) response_obj view;;
               mret tt
             else mret tt
         | [] => mret tt
         end);;
      send_response response_obj
  end.

Lemma error_request_run d exception r ht e :
  rq_params r = ZArr ht →
  error_request d exception r e =
    Some (r <| rq_module := match rq_module r with
                            | ZStr (_ :: _) => rq_module r
                            | _ => dp_default_module d
                            end |>
            <| rq_controller := ZStr "Error" |> <| rq_action := ZStr "error" |>
            <| rq_exception := exception |>
            <| rq_params := ZArr (hupdate (KStr "exception") exception ht) |>
            <| rq_dispatched := false |>, e).
Proof. destruct r. cbn. by intros ->. Qed.

Lemma bind_take_exception {B} (k : zval → W B) w x xs :
  eg_exception (w_engine w) = x :: xs →
  (take_exception ≫= k) w =
    k (ZObj (exn_name (exn_cls x)) (w_next w))
      (w <| w_next := (w_next w + 1)%Z |> <| w_exns := <[w_next w := x :: xs]> (w_exns w) |>
         <| w_engine := (w_engine w) <| eg_exception := [] |> |>).
Proof. intros Hx. unfold take_exception. st_run. rewrite Hx. done. Qed.

(** C10: Where an exception is pending the dispatcher returns NULL.  If exceptions are to
    be caught, the exception is a PHP [Exception] and none was caught before, the
    error action of the request's module, or else of the default one, is dispatched
    first, for an undispatched request that carries the exception, with no exception
    pending; a second exception finds no handler.  Where none is pending nothing
    happens. *)
Theorem exception_handle_spec w d r ht :
  w_dispatcher w = Some d → w_requests w !! rh = Some r → rq_params r = ZArr ht →
  YAF_EXCEPTION_HANDLE fuel (ZObj cls rh) response_obj w =
    match eg_exception (w_engine w) with
    | [] => Some (false, w)
    | x :: _ =>
        if catch_exception (yaf (w_engine w)) && is_php_exception (exn_cls x) &&
           negb (in_exception (yaf (w_engine w)))
        then (run_error_controller;; mret true) (error_world d r ht w)
        else Some (true, w)
    end.
Proof.
  intros Hd Hr Hp. unfold YAF_EXCEPTION_HANDLE, YAF_EXCEPTION_HANDLE_NORET.
  unfold exception_pending. st_run.
  destruct (eg_exception (w_engine w)) as [|x xs] eqn:Hx; [done|]. st_run. rewrite Hx.
  destruct (catch_exception (yaf (w_engine w)) && is_php_exception (exn_cls x)); cbn [andb]; [|done].
  unfold yaf_dispatcher_exception_handler, exception_pending. st_run. rewrite Hx. cbn [negb].
  rewrite orb_false_r. destruct (in_exception (yaf (w_engine w))) eqn:Hin; [done|]. cbn [negb].
  st_run. cbn [Z_OBJ]. st_run.
  erewrite bind_take_exception by exact Hx. unfold on_request. st_run.
  erewrite bind_eng; [|by rewrite (bind_runs _ _ _ _ _ (error_request_run _ _ _ _ _ Hp))].
  unfold put_request. st_run. unfold error_world, run_error_controller. rewrite Hx.
  rewrite ?bind_assoc. cbn. f_equal.
Qed.
End loop.

(** ** Requests that cannot be dispatched *)

Section handle.
Context `{Runtime, UserRoutes, UserCode} (plugin_has : zval → zstr → bool).

(** The error for a request that no controller is looked up for. *)
Definition rejected (e : engine) (r : request) : option (Z * zstr) :=
  match directory (yaf e) with
  | None => Some (YAF_ERR_STARTUP_FAILED, "Yaf_Dispatcher requires Yaf_Application(which set the application.directory) to be initialized first" : zstr)
  | Some _ =>
      match rq_module r with
      | ZStr ((_ :: _) as m) =>
          if is_module e m then
            match rq_controller r with
            | ZStr (_ :: _) => None
            | _ => Some (YAF_ERR_DISPATCH_FAILED, "Unexcepted a empty controller name" : zstr)
            end
          else Some (YAF_ERR_NOTFOUND_MODULE, "There is no module " ++ cstr m)
      | _ => Some (YAF_ERR_DISPATCH_FAILED, "Unexcepted a empty module name" : zstr)
      end
  end.

Lemma bind_trigger {B} code msg (k : unit → W B) w :
  yaf_code code → throw_exception (yaf (w_engine w)) = true →
  (eng (yaf_trigger_error code msg) ≫= k) w =
    k tt (w <| w_engine := (w_engine w)
                 <| eg_exception := Exn (exn_of_code code) code msg :: eg_exception (w_engine w) |> |>).
Proof. intros Hc Ht. apply bind_eng. by apply trigger_error_throws. Qed.

(** A request is refused with the exception of its defect, and without any code of
    the application being run: no application directory, a module that is no name or
    not one of the application's, or a controller that is no name. *)
Theorem handle_rejects fuel cls rh response_obj view_obj w d r code msg :
  w_dispatcher w = Some d → w_requests w !! rh = Some r →
  throw_exception (yaf (w_engine w)) = true → rejected (w_engine w) r = Some (code, msg) →
  yaf_dispatcher_handle (S fuel) (ZObj cls rh) response_obj view_obj w =
    Some (false, w <| w_requests := <[rh := r <| rq_dispatched := true |>]> (w_requests w) |>
                   <| w_engine := (w_engine w) <| eg_exception :=
                        Exn (exn_of_code code) code msg :: eg_exception (w_engine w) |> |>).
Proof.
  intros Hd Hr Ht Hj. cbn [yaf_dispatcher_handle Z_OBJ]. rewrite bind_lift_Some.
  unfold upd_request, put_request. st_run.
  assert (Hr' : w_requests (w <| w_requests := <[rh := yaf_request_set_dispatched r true]> (w_requests w) |>)
                  !! rh = Some (yaf_request_set_dispatched r true)) by apply lookup_insert_eq.
  unfold rejected in Hj. cbn.
  destruct (directory (yaf (w_engine w))) as [dir|] eqn:Hdir.
  2: { injection Hj as <- <-. rewrite bind_trigger by done. by destruct w. }
  erewrite bind_get_request by exact Hr'.
  erewrite bind_get_dispatcher by exact Hd.
  change (rq_module (yaf_request_set_dispatched r true)) with (rq_module r).
  change (rq_controller (yaf_request_set_dispatched r true)) with (rq_controller r).
  destruct (rq_module r) as [| | | |[|c s]| |];
    try (injection Hj as <- <-; rewrite bind_trigger by done; by destruct w).
  rewrite bind_eng_is_module. cbn [w_engine].
  match goal with |- context [is_module (w_engine ?v) _] => change (w_engine v) with (w_engine w) end.
  destruct (is_module (w_engine w) (c :: s)); cbn [negb].
  - destruct (rq_controller r) as [| | | |[|c' s']| |]; try done;
      (injection Hj as <- <-; rewrite bind_trigger by done; by destruct w).
  - injection Hj as <- <-. rewrite bind_trigger by done. by destruct w.
Qed.

(** ** What a returned response promises *)














End handle.

(** ** Examples *)

(** An application of two controllers: [forward] forwards to itself for ever,
    [index] is rendered, [fail] raises. *)
Definition demo_code : UserCode := {|
  call_function := λ _ _, mret (Called (Some (ZBool true)));
  compile_string := λ _, mret true;
  run_code := λ _ code _, mret code;
  user_method := λ _ name _,
    if bool_decide (name = ("forwardaction" : zstr)) then
      upd_request 1 (λ r, yaf_request_set_dispatched r false);; mret (Some (ZBool false))
    else if bool_decide (name = ("failaction" : zstr)) then
      eng (zend_throw_exception (Other_Exception "Exception") "failed" 0);; mret None
    else if bool_decide (name = ("erroraction" : zstr)) then
      eng (php_write "error page");; mret (Some (ZBool false))
    else mret (Some ZNull);
  script_of := λ path, Script path;
  run_script := λ _, mret tt;
  run_template := λ _ script _, mret ("template " ++ script);
  strerror := λ _, "No such file or directory";
  set_header := λ _, mret true |}.

Definition demo_class (name : zstr) (methods : list zstr) : class_entry :=
  ClassEntry name [name; YAF_CONTROLLER_CLASS]
    (map (λ m, (m, UserFunction [])) methods ++
     [("render" : zstr, BuiltinFunction ["tpl"]); ("display" : zstr, BuiltinFunction ["tpl"])])
    ZNull None.

Definition demo_request (action : zstr) : request :=
  (sample_request [] []) <| rq_module := ZStr "index" |> <| rq_controller := ZStr "index" |>
    <| rq_action := ZStr action |> <| rq_routed := true |>.

Definition demo_world (limit : Z) (catch : bool) (action : zstr) : world :=
  let e := start_engine ["Index"] [] [] in
  World (e <| yaf := (yaf e) <| directory := Some ("/app" : zstr) |> <| forward_limit := limit |>
              <| catch_exception := catch |> |>)
    (<[("indexcontroller" : zstr) := demo_class "IndexController" ["indexaction"; "forwardaction"; "failaction"]]>
      (<[("errorcontroller" : zstr) := demo_class "ErrorController" ["erroraction"]]> ∅))
    [] None
    (Some (Dispatcher (BuiltinRouter (Router [] ZNull)) ZNull (ZObj "Yaf_Request_Http" 1) (ZArr [])
             (ZBool true) (ZBool false) (ZBool false) (ZStr "Index") (ZStr "Index") (ZStr "index")))
    {[ 1%Z := demo_request action ]} ∅ ∅ ∅ ∅ 2.

Definition demo_dispatch (limit : Z) (catch : bool) (action : zstr) : option (option zval * world) :=
  @yaf_dispatcher_dispatch plain_runtime no_user_routes demo_code (λ _ _, false) 3 10
    (demo_world limit catch action).

(** The response, the output and the pending exceptions. *)
Definition observe (res : option (option zval * world)) : option (bool * zstr * list zstr) :=
  (λ res, (bool_decide (is_Some res.1), output (w_engine res.2),
           map exn_msg (eg_exception (w_engine res.2)))) <$> res.

Example dispatch_index :
  observe (demo_dispatch 5 false "index") =
    Some (true, "template /app/views/index/index.phtml" : zstr, []).
Proof. by vm_compute. Qed.

Example dispatch_forward :
  observe (demo_dispatch 5 false "forward") =
    Some (false, "" : zstr, ["The max dispatch nesting 5 was reached" : zstr]).
Proof. by vm_compute. Qed.

Example dispatch_fail :
  observe (demo_dispatch 5 false "fail") = Some (false, "" : zstr, ["failed" : zstr]).
Proof. by vm_compute. Qed.

Example dispatch_error :
  observe (demo_dispatch 5 true "missing") = Some (false, "error page" : zstr, []).
Proof. by vm_compute. Qed.

Lemma fix_default_canonical_witness :
  ∃ d, w_dispatcher (demo_world 5 false "x") = Some d ∧
  yaf_dispatcher_fix_default d (((demo_request "INDEX") <| rq_module := ZStr "" |>)
      <| rq_module := ZNull |> <| rq_controller := ZStr "iNDEX" |> <| rq_action := ZStr "Index" |>) =
    yaf_dispatcher_fix_default d ((demo_request "INDEX") <| rq_module := ZStr "" |>) ∧
  yaf_dispatcher_fix_default d (yaf_dispatcher_fix_default d (demo_request "INDEX")) =
    yaf_dispatcher_fix_default d (demo_request "INDEX").
Proof.
  eexists. split; [reflexivity|]. split.
  - apply (proj1 (fix_default_canonical _ ((demo_request "INDEX") <| rq_module := ZStr "" |>))
             ZNull (ZStr "iNDEX") (ZStr "Index")); by vm_compute.
  - apply (proj2 (fix_default_canonical _ (demo_request "INDEX"))). by vm_compute.
Defined.

Lemma dispatch_loop_spec_witness :
  ∃ k w1, @forwards plain_runtime demo_code (λ _ _, false) 3 "Yaf_Request_Http" 1
      (ZObj "Yaf_Response_Cli" 2) ZNull k (demo_world 2 false "forward") w1 ∧
    @loop_end plain_runtime demo_code (λ _ _, false) 3 "Yaf_Request_Http" 1
      (ZObj "Yaf_Response_Cli" 2) ZNull 2 k w1
      (@dispatch_loop plain_runtime demo_code (λ _ _, false) 3
         (ZObj "Yaf_Request_Http" 1) (ZObj "Yaf_Response_Cli" 2) 4 2 ZNull (demo_world 2 false "forward")).
Proof.
  apply (@dispatch_loop_spec plain_runtime demo_code (λ _ _, false) 3
           "Yaf_Request_Http" 1 (ZObj "Yaf_Response_Cli" 2) ZNull 4 2); [lia|by vm_compute].
Defined.

Definition pending_world : world :=
  (demo_world 5 true "index") <| w_engine := (w_engine (demo_world 5 true "index"))
     <| eg_exception := [Exn Yaf_Exception_DispatchFailed 514 "no"] |> |>.

Lemma exception_handle_spec_witness :
  ∃ d, w_dispatcher pending_world = Some d ∧
  @YAF_EXCEPTION_HANDLE plain_runtime demo_code 2 (ZObj "Yaf_Request_Http" 1)
      (ZObj "Yaf_Response_Cli" 2) pending_world =
    (@run_error_controller plain_runtime demo_code 2 "Yaf_Request_Http" 1
       (ZObj "Yaf_Response_Cli" 2);; mret true)
      (error_world 1 d (demo_request "index") [] pending_world).
Proof.
  eexists. split; [reflexivity|].
  erewrite (@exception_handle_spec plain_runtime demo_code 2 "Yaf_Request_Http" 1
             (ZObj "Yaf_Response_Cli" 2) pending_world _ (demo_request "index") []) by (by vm_compute).
  cbn [eg_exception w_engine pending_world]. by vm_compute.
Defined.

Lemma handle_rejects_witness :
  @yaf_dispatcher_handle demo_code 1 (ZObj "Yaf_Request_Http" 7) ZNull ZNull
    ((demo_world 5 false "index") <| w_requests := {[ 7%Z := sample_request [] [] ]} |>) =
  Some (false,
    (demo_world 5 false "index")
      <| w_requests := <[7%Z := (sample_request [] []) <| rq_dispatched := true |>]>
                         {[ 7%Z := sample_request [] [] ]} |>
      <| w_engine := (w_engine (demo_world 5 false "index"))
           <| eg_exception := [Exn Yaf_Exception_DispatchFailed YAF_ERR_DISPATCH_FAILED
                                "Unexcepted a empty module name"] |> |>).
Proof.
  exact (@handle_rejects demo_code 0 "Yaf_Request_Http" 7 ZNull ZNull
           ((demo_world 5 false "index") <| w_requests := {[ 7%Z := sample_request [] [] ]} |>)
           _ (sample_request [] []) YAF_ERR_DISPATCH_FAILED "Unexcepted a empty module name"
           eq_refl eq_refl eq_refl eq_refl).
Defined.

