(* ===== verification/Application.v ===== *)
(** * The application

    [yaf_application.c] and the bootstrap convention of [yaf_bootstrap.h]: reading
    the configuration into the module globals, putting the request, the dispatcher
    and the loader together, running once, and the bootstrap methods. *)

From S2P Require Import Prelude Zend Engine Request Response View Router World.
From S2P Require Import IniScanner IniParser Config Ini Loader Controller Dispatcher.

Open Scope zs_scope.

Definition YAF_LIBRARY_DIRECTORY_NAME : zstr := "library".
Definition YAF_DEFAULT_BOOTSTRAP : zstr := "Bootstrap".
Definition YAF_DEFAULT_BOOTSTRAP_LOWER : zstr := "bootstrap".
Definition YAF_BOOTSTRAP_INITFUNC_PREFIX : zstr := "_init".
Definition YAF_BOOTSTRAP_CLASS : zstr := "Yaf_Bootstrap_Abstract".

(** ** The configuration of an application *)

(** An entry that is a string, and one that is an array. *)
Definition str_entry (name : zstr) (ht : htab zval) : option zstr := hfind (KStr name) ht ≫= Z_STR.
Definition arr_entry (name : zstr) (ht : htab zval) : option (htab zval) := hfind (KStr name) ht ≫= Z_ARR.

Definition set_if {A} (o : option A) (put : A → yaf_globals → yaf_globals) (g : yaf_globals)
    : yaf_globals :=
  match o with Some v => put v g | None => g end.

(** The application directory, without one slash at its end. *)
Definition app_directory (dir : zstr) : zstr :=
  match last dir with
  | Some c => if ceq c SLASH then take (length dir - 1) dir else dir
  | None => dir
  end.

(** The list of namespaces: commas become colons, blanks go away. *)
Definition namespace_list (s : zstr) : zstr :=
  omap (λ c, if ceq c COMMA then Some DEFAULT_DIR_SEPARATOR
             else if ceq c SPACE then None else Some c) s.

(** [application.library]: the test for a slash at the end looks at the terminator
    and never succeeds. *)
Definition parse_library (app : htab zval) (g : yaf_globals) : yaf_globals :=
  match hfind (KStr "library") app with
  | Some (ZStr s) => g <| local_library := Some s |>
  | Some (ZArr lib) =>
      let g := set_if (str_entry "directory" lib) (λ s g, g <| local_library := Some s |>) g in
      match str_entry "namespace" lib with
      | Some ((_ :: _) as s) => yaf_loader_register_namespace_single (namespace_list s) g
      | _ => g
      end
  | _ => g
  end.

Definition capitalised (s : zstr) : zstr := ucfirst (zend_str_tolower s).

Definition parse_dispatcher (app : htab zval) (g : yaf_globals) : yaf_globals :=
  match arr_entry "dispatcher" app with
  | None => g
  | Some d =>
      let g := set_if (str_entry "defaultModule" d) (λ s g, g <| default_module := capitalised s |>) g in
      let g := set_if (str_entry "defaultController" d) (λ s g, g <| default_controller := capitalised s |>) g in
      let g := set_if (str_entry "defaultAction" d) (λ s g, g <| default_action := zend_str_tolower s |>) g in
      let g := set_if (hfind (KStr "throwException") d) (λ v g, g <| throw_exception := zend_is_true v |>) g in
      let g := set_if (hfind (KStr "catchException") d) (λ v g, g <| catch_exception := zend_is_true v |>) g in
      set_if (arr_entry "defaultRoute" d) (λ ht g, g <| default_route := Some (ZArr ht) |>) g
  end.

(** The pieces of [application.modules] between commas, as they are but for a
    capital at the start; without that entry the default module. *)
Fixpoint module_loop (fuel : nat) (cur : option zstr * option zstr) (acc : htab zval) : htab zval :=
  match fuel, cur with
  | S fuel', (Some seg, rest) =>
      module_loop fuel' (php_strtok_r rest COMMA)
        (match seg with [] => acc | _ => hpush (ZStr (ucfirst seg)) acc end)
  | _, _ => acc
  end.

Definition parse_modules (app : htab zval) (g : yaf_globals) : yaf_globals :=
  g <| modules := Some (match str_entry "modules" app with
                        | Some ((_ :: _) as s) =>
                            module_loop (S (S (length s))) (php_strtok_r (Some (cstr s)) COMMA) []
                        | _ => hpush (ZStr (default_module g)) []
                        end) |>.

(** The globals that the entries of [application] set. *)
Definition parse_globals (dir : zstr) (app : htab zval) (g : yaf_globals) : yaf_globals :=
  let g := g <| directory := Some (app_directory dir) |> in
  let g := set_if (str_entry "ext" app) (λ s g, g <| ext := s |>) g in
  let g := set_if (str_entry "bootstrap" app) (λ s g, g <| bootstrap := Some s |>) g in
  let g := parse_library app g in
  let g := set_if (arr_entry "view" app ≫= str_entry "ext") (λ s g, g <| view_ext := s |>) g in
  let g := set_if (str_entry "baseUri" app) (λ s g, g <| base_uri := Some s |>) g in
  parse_modules app (parse_dispatcher app g).

Section with_user.
Context `{Runtime, UserRoutes, UserCode}.

(** [zend_alter_ini_entry] belongs to the engine; it may run the handlers of the
    INI entries, which change the globals. *)
Context (zend_alter_ini_entry : zstr → zstr → M unit).

(** [application.system]: [yaf.name] in a buffer of 128 bytes.  An entry without a
    name prints a NULL string. *)
Fixpoint system_loop (entries : htab zval) : M unit :=
  match entries with
  | [] => mret tt
  | (KIdx _, _) :: _ => undefined
  | (KStr key, v) :: entries' =>
      zend_alter_ini_entry (take 127 ("yaf." ++ cstr key)) (zval_get_string v);;
      system_loop entries'
  end.

(** [yaf_application_parse_option]: whether it succeeds. *)
Definition yaf_application_parse_option (conf : htab zval) : M bool :=
  match hfind (KStr "application") conf ∪ hfind (KStr "yaf") conf with
  | Some (ZArr app) =>
      match str_entry "directory" app with
      | Some ((_ :: _) as dir) =>
          modify (λ e, e <| yaf := parse_globals dir app (yaf e) |>);;
          (match arr_entry "system" app with Some sys => system_loop sys | None => mret tt end);;
          mret true
      | _ =>
          yaf_trigger_error YAF_ERR_STARTUP_FAILED "Expected a directory entry in application configures";;
          mret false
      end
  | _ =>
      yaf_trigger_error YAF_ERR_TYPE_ERROR "Expected an array of application configure";;
      mret false
  end.

(** ** Construction *)

(** [strlen(s) ? s : NULL] *)
Definition nonempty_path (s : zstr) : option zstr := match cstr s with [] => None | s => Some s end.

(** The section: the given one, or the name of the environment. *)
Definition config_section (g : yaf_globals) (section : option zval) : zval :=
  match section with
  | Some (ZStr ((_ :: _) as s)) => ZStr s
  | _ => ZStr (cstr (environ_name g))
  end.

(** [Yaf_Application::__construct]; the result FALSE or NULL, as it returns it.  [ini_file_of],
    [tables] and [depth] are those of [yaf_config_instance]. *)
Definition application_construct (ini_file_of : zstr → ini_file) (tables : ini_tables) (depth : nat)
    (config_arg : zval) (section : option zval) : W zval :=
  existing ← gets (λ w, app (w_engine w));
  match existing with
  | Some _ =>
      eng (yaf_trigger_error YAF_ERR_STARTUP_FAILED "Only one application can be initialized");;
      mret (ZBool false)
  | None =>
      g ← gets (λ w, yaf (w_engine w));
      config ← eng (yaf_config_instance ini_file_of tables depth config_arg (Some (config_section g section)));
      ch ← new_handle;
      parsed ← (match config with
                | None => mret false
                | Some (_, conf) => ht ← lift (Z_ARR conf); eng (yaf_application_parse_option ht)
                end : W bool);
      match config, parsed with
      | Some (config_class, _), true =>
          g ← gets (λ w, yaf (w_engine w));
          request ← eng (yaf_request_instance request_init (base_uri g));
          rh ← new_handle;
          put_request rh request;;
          yaf_dispatcher_instance;;
          yaf_dispatcher_set_request (ZObj "Yaf_Request_Http" rh);;
          g ← gets (λ w, yaf (w_engine w));
          local ← lift (match local_library g with
                        | Some l => Some l
                        | None => dir ← directory g;
                                  Some (cstr dir ++ SLASH :: YAF_LIBRARY_DIRECTORY_NAME)
                        end);
          yaf_loader_instance (Some local) (nonempty_path (global_library g));;
          g ← gets (λ w, yaf (w_engine w));
          modify (λ w, w <| w_engine := (w_engine w) <| app := Some
            ((application_init (environ_name g))
               <| app_dispatcher := ZObj YAF_DISPATCHER_CLASS 0 |> <| app_config := ZObj config_class ch |>
               <| app_running := false |> <| app_environ := cstr (environ_name g) |>
               <| app_modules := match modules g with Some ms => ZArr ms | None => ZNull end |>) |> |>);;
          mret ZNull
      | _, _ =>
          eng (yaf_trigger_error YAF_ERR_STARTUP_FAILED "Initialization of application config failed");;
          mret (ZBool false)
      end
  end.

(** ** Running *)

(** [Yaf_Application::run] of the application object. *)
Definition application_run (plugin_has : zval → zstr → bool) (fuel rounds : nat) : W zval :=
  a ← gets (λ w, app (w_engine w));
  a ← lift a;
  if app_running a then
    eng (yaf_trigger_error YAF_ERR_STARTUP_FAILED "An application instance already run");;
    mret (ZBool true)
  else
    modify (λ w, w <| w_engine := (w_engine w) <| app := Some (a <| app_running := true |>) |> |>);;
    response ← yaf_dispatcher_dispatch plugin_has fuel rounds;
    mret (default (ZBool false) response).

(** [Yaf_Application::execute] with a function and its arguments *)
Definition application_execute (func : zval) (args : list zval) : W zval :=
  ret ← zend_call_function func args;
  mret (match ret with Called (Some v) => v | _ => ZBool false end).

(** [Yaf_Application::__destruct]: the static property is cleared whichever object of
    the class is destroyed. *)
Definition application_destruct : W unit :=
  modify (λ w, w <| w_engine := (w_engine w) <| app := None |> |>).

(** The class of the bootstrap file. *)
Definition bootstrap_class : W (option class_entry) :=
  ce ← gets (λ w, w_classes w !! YAF_DEFAULT_BOOTSTRAP_LOWER);
  match ce with
  | Some ce => mret (Some ce)
  | None =>
      g ← gets (λ w, yaf (w_engine w));
      path ← lift (match bootstrap g with
                   | Some p => Some p
                   | None => dir ← directory g;
                             Some (cstr dir ++ SLASH :: YAF_DEFAULT_BOOTSTRAP ++ "." ++ cstr (ext g))
                   end);
      ok ← yaf_loader_import path;
      if negb ok then
        eng (php_error E_WARNING ("Couldn't find bootstrap file " ++ cstr path));; mret None
      else
        ce ← gets (λ w, w_classes w !! YAF_DEFAULT_BOOTSTRAP_LOWER);
        match ce with
        | None =>
            eng (php_error E_WARNING ("Couldn't find class " ++ YAF_DEFAULT_BOOTSTRAP ++ " in " ++ cstr path));;
            mret None
        | Some ce =>
            if instanceof_function ce YAF_BOOTSTRAP_CLASS then mret (Some ce)
            else
              eng (php_error E_WARNING ("Expect a " ++ YAF_BOOTSTRAP_CLASS ++ " instance, " ++
                                        cstr (ce_name ce) ++ " give"));;
              mret None
        end
  end.

Fixpoint init_loop (bootstrap_obj dispatcher_obj : zval) (funcs : list zstr) : W bool :=
  match funcs with
  | [] => mret true
  | func :: funcs' =>
      if strncasecmp0 func YAF_BOOTSTRAP_INITFUNC_PREFIX (length YAF_BOOTSTRAP_INITFUNC_PREFIX) then
        zend_call_method bootstrap_obj func [dispatcher_obj];;
        pending ← exception_pending;
        if pending : bool then mret false else init_loop bootstrap_obj dispatcher_obj funcs'
      else init_loop bootstrap_obj dispatcher_obj funcs'
  end.

(** [Yaf_Application::bootstrap]: FALSE, or the application ([true]). *)
Definition application_bootstrap : W bool :=
  ce ← bootstrap_class;
  match ce with
  | None => mret false
  | Some ce =>
      h ← new_handle;
      a ← gets (λ w, app (w_engine w));
      a ← lift a;
      init_loop (ZObj (ce_name ce) h) (app_dispatcher a) (map fst (ce_functions ce))
  end.
End with_user.

(** ** Accessors *)

Definition clearLastError (a : application) : application := a <| app_err_no := 0%Z |> <| app_err_msg := "" |>.
Definition getLastErrorNo (a : application) : Z := app_err_no a.
Definition getLastErrorMsg (a : application) : zstr := app_err_msg a.
Definition application_app : M (option application) := gets app.
Definition getConfig (a : application) : zval := app_config a.
Definition getDispatcher (a : application) : zval := app_dispatcher a.
Definition getModules (a : application) : zval := app_modules a.
Definition app_environment (a : application) : zstr := app_environ a.

(** [setAppDirectory]: FALSE unless the path is absolute; releasing the NULL
    directory of an application that was never configured. *)
Definition setAppDirectory (dir : zstr) : M bool :=
  if bool_decide (dir = []) || negb (is_absolute_path dir) then mret false
  else
    old ← YAF_G directory;
    match old with
    | None => undefined
    | Some _ => modify (λ e, e <| yaf := (yaf e) <| directory := Some dir |> |>);; mret true
    end.
Definition getAppDirectory : M zstr := dir ← YAF_G directory; lift dir.

(** ** The modules of an application *)

Lemma next_index_fresh {A} (ht : htab A) : KIdx (next_index ht) ∉ hkeys ht.
Proof.
  assert (Hle : ∀ h, KIdx h ∈ hkeys ht → (h < next_index ht)%Z).
  { unfold hkeys. induction ht as [|[[s|i] v] ht IH]; csimpl; intros h; [set_solver|..].
    - intros [?|?]%elem_of_cons; [done|by apply IH].
    - intros [[= ->]|Hin]%elem_of_cons; [lia|]. specialize (IH h Hin). lia. }
  intros Hin%Hle. lia.
Qed.

Lemma hpush_values (v : zval) ht : (hpush v ht).*2 = ht.*2 ++ [v].
Proof. unfold hpush. rewrite hupdate_new by apply next_index_fresh. by rewrite fmap_app. Qed.

Lemma module_loop_values fuel o acc :
  olen o < fuel →
  (module_loop fuel (php_strtok_r o COMMA) acc).*2 =
    acc.*2 ++ map (λ w, ZStr (ucfirst w)) (otokens COMMA o).
Proof.
  revert o acc. induction fuel as [|fuel IH]; intros o acc Hf; [lia|].
  pose proof (strtok_spec COMMA o) as Hs. pose proof (otokens_forall COMMA o) as Hne.
  destruct (otokens COMMA o) as [|t ts] eqn:E.
  - rewrite Hs. cbn. by rewrite app_nil_r.
  - destruct Hs as (o' & -> & Ho' & Hl). cbn [module_loop]. rewrite IH by lia.
    inversion Hne as [|? ? [Ht _] _]; subst. destruct t as [|c t]; [done|].
    by rewrite hpush_values, <-app_assoc.
Qed.

(** A name is a module of a list when it is one of its values, whatever the case. *)
Lemma names_module e a ms name :
  app_modules a = ZArr ms →
  is_module (e <| app := Some a |>) name =
    existsb (λ v, match v with ZStr m => zend_string_equals_ci m name | _ => false end) ms.*2.
Proof.
  intros Ha. unfold is_module. cbn. rewrite Ha. clear Ha.
  induction ms as [|[k v] ms IH]; [done|]. cbn. by rewrite IH.
Qed.

Lemma existsb_modules name ws :
  existsb (λ v, match v with ZStr m => zend_string_equals_ci m name | _ => false end)
    (map (λ w, ZStr (ucfirst w)) ws) = true ↔
  ∃ w, w ∈ ws ∧ zend_str_tolower w = zend_str_tolower name.
Proof.
  rewrite existsb_exists. split.
  - intros (v & (w & <- & Hin)%in_map_iff & Hv). apply bool_decide_eq_true in Hv.
    rewrite lower_ucfirst in Hv. exists w. by rewrite list_elem_of_In.
  - intros (w & Hin & Hw). exists (ZStr (ucfirst w)). split.
    + apply in_map_iff. exists w. by rewrite <-list_elem_of_In.
    + apply bool_decide_eq_true. by rewrite lower_ucfirst.
Qed.

(** The entries after the directory leave it alone. *)
Lemma set_if_directory {A} (o : option A) put g :
  (∀ v g, directory (put v g) = directory g) → directory (set_if o put g) = directory g.
Proof. intros Hput. destruct o; [apply Hput|done]. Qed.

Lemma parse_library_directory app_ht g : directory (parse_library app_ht g) = directory g.
Proof.
  unfold parse_library. destruct (hfind (KStr "library") app_ht) as [v|]; [|done].
  destruct v as [| | | | |lib|]; try done.
  destruct (str_entry "namespace" lib) as [[|c s]|]; cbn; rewrite ?set_if_directory by done; done.
Qed.

Lemma parse_dispatcher_directory app_ht g : directory (parse_dispatcher app_ht g) = directory g.
Proof. unfold parse_dispatcher. destruct (arr_entry _ _); [by rewrite !set_if_directory|done]. Qed.

Lemma parse_globals_modules dir app_ht g :
  ∃ g0, parse_globals dir app_ht g = parse_modules app_ht g0 ∧ directory g0 = Some (app_directory dir).
Proof.
  eexists. split; [reflexivity|]. rewrite parse_dispatcher_directory, !set_if_directory by done.
  by rewrite parse_library_directory, !set_if_directory.
Qed.

Section parse.
Context `{Runtime} (zend_alter_ini_entry : zstr → zstr → M unit).

(** What the directory, the modules and the default module are. *)
Definition same_site (e e' : engine) : Prop :=
  directory (yaf e') = directory (yaf e) ∧ modules (yaf e') = modules (yaf e) ∧
  default_module (yaf e') = default_module (yaf e).

(** Setting an option of PHP leaves these: they are no options. *)
Definition alters_options : Prop :=
  ∀ name v e, ∃ e', zend_alter_ini_entry name v e = Some (tt, e') ∧ same_site e e'.

Lemma system_loop_run entries e :
  alters_options → Forall (λ kv, ∃ k, kv.1 = KStr k) entries →
  ∃ e', system_loop zend_alter_ini_entry entries e = Some (tt, e') ∧ same_site e e'.
Proof.
  intros Halt Hk. revert e. induction Hk as [|[k v] entries [s Hs] _ IH]; intros e; [by exists e|].
  cbn in Hs. subst k. destruct (Halt (take 127 ("yaf." ++ cstr s)) (zval_get_string v) e) as (e1 & E1 & H1).
  destruct (IH e1) as (e2 & E2 & H2). exists e2. cbn [system_loop]. rewrite (bind_runs _ _ _ _ _ E1).
  split; [done|]. destruct H1 as (? & ? & ?), H2 as (? & ? & ?). split_and!; congruence.
Qed.

(** C37: A configuration with a directory is accepted, if all entries of its [system]
    section, where it has one, have names - an entry without a name is printed from a null
    pointer -; the application directory is the given one without a slash at its end; and
    the modules that requests may then name are the ones listed between commas, in any case
    of letters, or the default module where none is listed, which a list need not contain.
    The entries of [system] become options of PHP, which may be anything but these. *)
Theorem parse_option_modules conf app_ht dir e :
  hfind (KStr "application") conf = Some (ZArr app_ht) → str_entry "directory" app_ht = Some dir →
  dir ≠ [] → alters_options → Forall (λ kv, ∃ k, kv.1 = KStr k) (default [] (arr_entry "system" app_ht)) →
  ∃ e' ms, yaf_application_parse_option zend_alter_ini_entry conf e = Some (true, e') ∧
    directory (yaf e') = Some (app_directory dir) ∧ modules (yaf e') = Some ms ∧
    ∀ a name, app_modules a = ZArr ms →
      is_module (e' <| app := Some a |>) name = true ↔
      match str_entry "modules" app_ht with
      | Some ((_ :: _) as s) =>
          ∃ w, w ∈ tokens COMMA (cstr s) ∧ zend_str_tolower w = zend_str_tolower name
      | _ => zend_str_tolower (default_module (yaf e')) = zend_str_tolower name
      end.
Proof.
  intros Happ Hdir Hne Halt Hsys. unfold yaf_application_parse_option. rewrite Happ.
  assert (Hu : ∀ o : option zval, Some (ZArr app_ht) ∪ o = Some (ZArr app_ht)) by (by intros []).
  rewrite Hu. destruct dir as [|c dir]; [done|]. rewrite Hdir. st_run.
  set (g := parse_globals (c :: dir) app_ht (yaf e)).
  destruct (parse_globals_modules (c :: dir) app_ht (yaf e)) as (g0 & Hg & Hd0). fold g in Hg.
  clearbody g. subst g. set (e1 := e <| yaf := parse_modules app_ht g0 |>).
  assert (∃ e', (match arr_entry "system" app_ht with
                 | Some sys => system_loop zend_alter_ini_entry sys | None => mret tt end) e1 = Some (tt, e') ∧
                same_site e1 e') as (e' & Esys & Hdir' & Hmod' & Hdef').
  { destruct (arr_entry "system" app_ht) as [sys|]; [by apply system_loop_run|by exists e1]. }
  rewrite (bind_runs _ _ _ _ _ Esys). eexists _, _. split; [done|].
  split; [rewrite Hdir'; exact Hd0|]. split; [rewrite Hmod'; reflexivity|].
  intros a name Ha. rewrite (names_module _ _ _ _ Ha).
  rewrite Hdef'. change (default_module (yaf e1)) with (default_module g0).
  destruct (str_entry "modules" app_ht) as [[|c' s]|].
  - cbn. rewrite orb_false_r. apply bool_decide_eq_true.
  - rewrite module_loop_values by (pose proof (cstr_length (c' :: s)); cbn in *; lia).
    apply existsb_modules.
  - cbn. rewrite orb_false_r. apply bool_decide_eq_true.
Qed.
End parse.

(** ** The bootstrap methods *)

Section bootstrap.
Context `{UserCode} (bootstrap_obj dispatcher_obj : zval).

Definition is_init (func : zstr) : bool :=
  strncasecmp0 func YAF_BOOTSTRAP_INITFUNC_PREFIX (length YAF_BOOTSTRAP_INITFUNC_PREFIX).

(** The methods of a list are called one after the other, none raising. *)
Inductive called : list zstr → world → world → Prop :=
| called_nil w : called [] w w
| called_cons f fs w r w1 w2 :
    zend_call_method bootstrap_obj f [dispatcher_obj] w = Some (r, w1) →
    eg_exception (w_engine w1) = [] → called fs w1 w2 → called (f :: fs) w w2.

(** The bootstrap calls the methods whose name begins with [_init], in any case of
    letters, in the order of their declaration, each with the dispatcher, and no
    other method; it succeeds when all were called without an exception, and fails at
    the first that leaves one pending, calling no more. *)
Theorem init_loop_spec funcs w res w' :
  init_loop bootstrap_obj dispatcher_obj funcs w = Some (res, w') →
  if res : bool then called (filter is_init funcs) w w'
  else ∃ pre f post w1 r, filter is_init funcs = pre ++ f :: post ∧ called pre w w1 ∧
    zend_call_method bootstrap_obj f [dispatcher_obj] w1 = Some (r, w') ∧
    eg_exception (w_engine w') ≠ [].
Proof.
  revert w. induction funcs as [|f funcs IH]; intros w Hl; cbn [init_loop] in Hl.
  - injection Hl as <- <-. constructor.
  - fold (is_init f) in Hl. rewrite filter_cons. destruct (is_init f) eqn:Hf.
    + rewrite decide_True by done. apply bind_inv in Hl as (r & w1 & Hc & Hl).
      apply bind_inv in Hl as (p & w2 & Hp & Hl). injection Hp as <- <-.
      destruct (eg_exception (w_engine w1)) as [|x xs] eqn:Hx.
      * apply IH in Hl. destruct res; [by econstructor|].
        destruct Hl as (pre & g & post & w2 & r' & -> & Hpre & Hg & He).
        exists (f :: pre), g, post, w2, r'. split; [done|]. split; [by econstructor|]. done.
      * injection Hl as <- <-. exists [], f, (filter is_init funcs), w, r. split; [done|].
        split; [constructor|]. split; [done|]. by rewrite Hx.
    + rewrite decide_False by (by intros []). by apply IH.
Qed.
End bootstrap.

Lemma init_loop_spec_witness :
  ∃ w', @called demo_code ZNull ZNull ["_initview" : zstr] (demo_world 5 false "index") w'.
Proof.
  eexists.
  exact (@init_loop_spec demo_code ZNull ZNull ["helper" : zstr; "_initview" : zstr]
           (demo_world 5 false "index") true _ eq_refl).
Defined.

Lemma parse_option_modules_witness :
  let conf := [(KStr "application", ZArr [(KStr "directory", ZStr "/app/");
                                          (KStr "modules", ZStr "Index,admin");
                                          (KStr "system", ZArr [(KStr "forward_limit", ZStr "9")])])] in
  ∃ e' ms,
    @yaf_application_parse_option plain_runtime (λ _ _, mret tt) conf (start_engine [] [] []) =
      Some (true, e') ∧
    directory (yaf e') = Some ("/app" : zstr) ∧ modules (yaf e') = Some ms ∧
    ∀ a name, app_modules a = ZArr ms →
      is_module (e' <| app := Some a |>) name = true ↔
      ∃ w, w ∈ tokens COMMA "Index,admin" ∧ zend_str_tolower w = zend_str_tolower name.
Proof.
  intros conf.
  exact (@parse_option_modules plain_runtime (λ _ _, mret tt) conf
           [(KStr "directory", ZStr "/app/"); (KStr "modules", ZStr "Index,admin");
            (KStr "system", ZArr [(KStr "forward_limit", ZStr "9")])] "/app/"
           (start_engine [] [] []) eq_refl eq_refl ltac:(discriminate) ltac:(by intros name v e; exists e)
           ltac:(repeat constructor; by eexists)).
Defined.

(** ** A whole request *)

(** An application that is configured by an ini file with an inheriting section, and
    the request for [/index/forward] or another action. *)
Definition demo_file (path : zstr) : ini_file :=
  if bool_decide (path = ("/conf/app.ini" : zstr)) then
    IniText (lines
      [ "[common]";
        in_quotes "application.directory = APP_PATH ~/~ ; where it is";
        "[product : common]";
        "application.dispatcher.catchException = yes";
        "[test : common]" ])
  else IniMissing.
Definition demo_tables : ini_tables :=
  IniTables (λ n, if bool_decide (n = ("APP_PATH" : zstr)) then Some ("/app" : zstr) else None) (λ _, None) (λ _, None).

Definition fresh_world (uri : zstr) : world :=
  let w := demo_world 5 false "" in
  w <| w_engine := (start_engine [] [] [(KStr "REQUEST_URI", ZStr uri)]) <| app := None |> |>
    <| w_dispatcher := None |> <| w_requests := ∅ |>.

Definition demo_request_run (section uri : zstr) : option (zval * world) :=
  '(_, w) ← @application_construct plain_runtime demo_code (λ _ _, mret tt) demo_file demo_tables 9 (ZStr "/conf/app.ini")
              (Some (ZStr section)) (fresh_world uri);
  @application_run plain_runtime no_user_routes demo_code (λ _ _, false) 3 10 w.

Definition seen (res : option (zval * world)) : option (zstr * list zstr) :=
  (λ res, (output (w_engine res.2), map exn_msg (eg_exception (w_engine res.2)))) <$> res.

Example run_index :
  seen (demo_request_run "product" "/index/index") =
    Some ("template /app/views/index/index.phtml" : zstr, []).
Proof. by vm_compute. Qed.

Example run_missing_caught :
  seen (demo_request_run "product" "/index/missing") = Some ("error page" : zstr, []).
Proof. by vm_compute. Qed.

Example run_missing :
  seen (demo_request_run "test" "/index/missing") =
    Some ("" : zstr, ["There is no method missingAction in IndexController" : zstr]).
Proof. by vm_compute. Qed.
