(* ===== verification/Serve.v ===== *)
(** * A request from its address to its page

    The components together: the router with its default route, the dispatcher, a
    controller of an application and a template.  For an application that is described by
    what its actions do - each of a chain forwards to the next one, the last one is
    rendered - the dispatch of a request is followed from the address on: it is served
    when the chain is shorter than the forward limit, and refused when it is not. *)

From S2P Require Import Prelude Zend Engine Request Response View Router World.
From S2P Require Import Route RouteStatic Loader Controller Dispatcher.

Open Scope zs_scope.

Section serve.
Context `{Runtime, UserRoutes, UserCode} (plugin_has : zval → zstr → bool).

(** The engine, the dispatcher and the class of a controller of the default module, and
    the handles of the request, the response and the view. *)
Context (e : engine) (d : dispatcher) (ce : class_entry) (app_dir module controller : zstr).
Context (cls pcls : zstr) (rh ph vh : Z).

(** The plugins, and what the method of each for a hook prints. *)
Context (plugins : htab zval) (says : zval → hook → zstr).
Abbreviation request_obj := (ZObj cls rh).
Abbreviation response_obj := (ZObj pcls ph).
Abbreviation view_obj := (ZObj YAF_VIEW_SIMPLE vh).

(** ** The application *)

(** What the plugins print at a hook: in the order of their registration, those whose class
    has a method for it. *)
Definition hook_text (h : hook) : zstr :=
  mjoin (map (λ kv, if plugin_has kv.2 (hook_name h) then says kv.2 h else []) plugins).

(** Plugins whose methods print, a controller without [init] that renders as Yaf does, and
    names in the form that the dispatcher gives them. *)
Record site_ok : Prop := {
  so_dir : directory (yaf e) = Some app_dir;
  so_quiet : eg_exception e = [];
  so_errors : throw_exception (yaf e) = true ∧ catch_exception (yaf e) = false;
  so_module : is_module e module = true;
  so_names : module ≠ [] ∧ standard_module module = module ∧
             controller ≠ [] ∧ standard_controller controller = controller ∧ no_nul controller;
  so_plugins : dp_plugins d = ZArr plugins;
  so_announce : ∀ k p h args w, (k, p) ∈ plugins → plugin_has p (hook_name h) = true →
    user_method p (hook_name h) args w = (eng (php_write (says p h));; mret (Some ZNull)) w;
  so_default : dp_default_module d = ZStr module;
  so_render : dp_auto_render d = ZBool true ∧ dp_instantly_flush d = ZBool false ∧
              dp_return_response d = ZBool false;
  so_class : find_function ce "init" = None ∧ ce_auto_render ce = None ∧
             ∃ args, find_function ce "render" = Some (BuiltinFunction args);
}.

(** The method of an action, which takes no arguments. *)
Definition action_method (a : zstr) : zstr := zend_str_tolower (cstr a ++ "action").
Definition has_action (a : zstr) : Prop :=
  a ≠ [] ∧ standard_action a = a ∧ find_function ce (action_method a) = Some (UserFunction []).

(** [$this->forward("b"); return false;] and an action that does nothing. *)
Definition forwards_to (a b : zstr) : Prop := ∀ h w,
  user_method (ZObj (ce_name ce) h) (action_method a) [] w =
  (on_request rh (λ r, controller_forward r [ZStr b]);; mret (Some (ZBool false))) w.
Definition does_nothing (a : zstr) : Prop := ∀ h w,
  user_method (ZObj (ce_name ce) h) (action_method a) [] w = Some (Some ZNull, w).

(** The template of an action, its file and what it prints. *)
Definition page_path (a : zstr) : zstr := template_path controller a (view_ext (yaf e)).
Definition views_dir : zstr := module_directory app_dir module YAF_VIEW_DIRECTORY_NAME true.
Definition page_file (a : zstr) : zstr := views_dir ++ SLASH :: page_path a.
Definition prints (a text : zstr) : Prop :=
  is_absolute_path (page_path a) = false ∧ no_nul (page_file a) ∧
  (∃ opened, script_of (page_file a) = Script opened) ∧
  ∀ w, run_template view_obj (page_file a) [] w = Some (text, w).

(** From [a] each action forwards to the next one, to the last one, whose page is shown. *)
Fixpoint chain (text a : zstr) (rest : list zstr) : Prop :=
  has_action a ∧
  match rest with
  | [] => does_nothing a ∧ prints a text
  | b :: rest' => forwards_to a b ∧ chain text b rest'
  end.

(** ** The world between two passes *)

(** Only the directory of the views and the output change in the engine. *)
Definition engine_at (out : zstr) (vd : option zstr) : engine :=
  e <| yaf := (yaf e) <| view_directory := vd |> |> <| output := out |>.

Record ready (out : zstr) (p : response) (w : world) (r : request) : Prop := {
  rd_engine : ∃ vd, w_engine w = engine_at out vd;
  rd_dispatcher : w_dispatcher w = Some d;
  rd_request : w_requests w !! rh = Some r;
  rd_response : w_responses w !! ph = Some p;
  rd_view : w_views w !! vh = Some (View (ZArr []) ZNull ZNull);
  rd_class : w_classes w !! zend_str_tolower (class_name (yaf e) controller "Controller") = Some ce;
}.

(** The request on the way to an action. *)
Definition asks_for (r : request) (a : zstr) : Prop :=
  rq_module r = ZStr module ∧ rq_controller r = ZStr controller ∧ rq_action r = ZStr a.

Hypothesis Hsite : site_ok.

(** The world after a hook. *)
Definition announced (h : hook) (w : world) : world :=
  w <| w_engine := (w_engine w) <| output := output (w_engine w) ++ hook_text h |> |>.

Lemma hooks_run w d' h : w_dispatcher w = Some d' → dp_plugins d' = ZArr plugins → eg_exception (w_engine w) = [] →
  YAF_PLUGIN_HANDLE plugin_has h request_obj response_obj w = Some (tt, announced h w).
Proof.
  intros Hd Hp Hq. unfold YAF_PLUGIN_HANDLE. rewrite (bind_get_dispatcher _ _ _ Hd), Hp. cbn [Z_ARR]. rewrite bind_lift_Some.
  unfold announced, hook_text. pose proof (so_announce Hsite) as Hsays. clear Hsite Hd Hp.
  induction plugins as [|[k p] ps IH] in w, Hq, Hsays |- *; cbn [call_plugins map].
  { change (mjoin []) with ([] : zstr). rewrite app_nil_r. by destruct w as [[]]. }
  assert (Hps : ∀ k' p' h' args w', (k', p') ∈ ps → plugin_has p' (hook_name h') = true →
    user_method p' (hook_name h') args w' = (eng (php_write (says p' h'));; mret (Some ZNull)) w')
    by (intros; eapply Hsays; [by right|done]).
  cbn [snd]. change (mjoin (?x :: ?l)) with (x ++ mjoin l). destruct (plugin_has p (hook_name h)) eqn:Hhas.
  - unfold zend_call_method, exception_pending. st_run. rewrite Hq.
    erewrite bind_runs by (rewrite (Hsays k p h) by (by left || done); reflexivity). rewrite bind_ret.
    rewrite IH by done. cbn. by rewrite <-(assoc_L (++)).
  - st_run. by rewrite IH.
Qed.

Lemma no_exception w fuel : eg_exception (w_engine w) = [] →
  YAF_EXCEPTION_HANDLE fuel request_obj response_obj w = Some (false, w).
Proof. intros Hq. unfold YAF_EXCEPTION_HANDLE, exception_pending. st_run. by rewrite Hq. Qed.

Lemma ready_quiet out p w r : ready out p w r → eg_exception (w_engine w) = [].
Proof. intros Hw. destruct (rd_engine _ _ _ _ Hw) as [vd ->]. apply (so_quiet Hsite). Qed.

Lemma ready_hook out p w r h : ready out p w r →
  YAF_PLUGIN_HANDLE plugin_has h request_obj response_obj w = Some (tt, announced h w).
Proof. intros Hw. eapply hooks_run; [apply Hw|apply (so_plugins Hsite)|by eapply ready_quiet]. Qed.

Lemma ready_announced out p w r h : ready out p w r → ready (out ++ hook_text h) p (announced h w) r.
Proof.
  intros []. split; cbn; try done. destruct rd_engine0 as [vd ->]. by exists vd.
Qed.

Lemma hook_ready out p w r h : ready out p w r →
  ∃ w', YAF_PLUGIN_HANDLE plugin_has h request_obj response_obj w = Some (tt, w') ∧ ready (out ++ hook_text h) p w' r.
Proof. eauto using ready_hook, ready_announced. Qed.

(** ** Handling *)

Lemma get_controller_known w sub b :
  w_classes w !! zend_str_tolower (class_name (yaf (w_engine w)) controller "Controller") = Some ce →
  yaf_dispatcher_get_controller sub module controller b w = Some (Some ce, w).
Proof.
  intros Hce. unfold yaf_dispatcher_get_controller, class_exists. st_run. by rewrite Hce.
Qed.

Lemma construct_plain w c h r :
  w_requests w !! rh = Some r → w_controllers w !! h = Some c →
  yaf_controller_construct ce h request_obj response_obj view_obj None w =
    Some (tt, w <| w_controllers := <[h := c <| ct_request := request_obj |> <| ct_response := response_obj |>
                                             <| ct_module := rq_module r |> <| ct_view := view_obj |>]> (w_controllers w) |>).
Proof.
  intros Hr Hc. unfold yaf_controller_construct. cbn [Z_OBJ]. rewrite bind_lift_Some.
  rewrite (bind_get_request _ _ _ _ Hr). unfold upd_controller, get_controller, put_controller. st_run.
  by rewrite (proj1 (so_class Hsite)).
Qed.

(** Handling comes to the call of the action's method, with the request dispatched, the
    directory of the views set and a new controller. *)
Lemma handle_reaches_action out p w r a fuel : ready out p w r → asks_for r a → has_action a →
  ∃ h w1 c, ready out p w1 (r <| rq_dispatched := true |>) ∧
    view_directory (yaf (w_engine w1)) = Some (views_dir) ∧
    w_controllers w1 !! h = Some c ∧ ct_name c = ZStr controller ∧ ct_view c = view_obj ∧ ct_auto_render c = None ∧
    yaf_dispatcher_handle (S fuel) request_obj response_obj view_obj w =
      (ret ← user_method (ZObj (ce_name ce) h) (action_method a) [];
       match action_result ret ce h with
       | ExecReturn status => mret status
       | ExecRender ce h => render_action ce h a response_obj
       end) w1.
Proof.
  intros Hw (Hm & Hc & Ha) (Hne & Hstd & Hfun). destruct (rd_engine _ _ _ _ Hw) as [vd Hvd].
  destruct (so_names Hsite) as (Hmne & _ & Hcne & _).
  set (r1 := r <| rq_dispatched := true |>).
  set (w0 := w <| w_requests := <[rh := r1]> (w_requests w) |>).
  assert (Hr1 : w_requests w0 !! rh = Some r1) by apply lookup_insert_eq.
  cbn [yaf_dispatcher_handle Z_OBJ]. rewrite bind_lift_Some. unfold upd_request. st_run.
  rewrite (bind_get_request _ _ _ _ (rd_request _ _ _ _ Hw)). unfold put_request. st_run.
  change (w <| w_requests := <[rh := yaf_request_set_dispatched r true]> (w_requests w) |>) with w0.
  assert (Hdir : directory (yaf (w_engine w0)) = Some app_dir) by (cbn; rewrite Hvd; apply (so_dir Hsite)).
  rewrite Hdir. rewrite (bind_get_request _ _ _ _ Hr1). 
  rewrite (bind_get_dispatcher _ d w0) by apply (rd_dispatcher _ _ _ _ Hw).
  change (rq_module r1) with (rq_module r). change (rq_controller r1) with (rq_controller r).
  rewrite Hm, Hc. destruct module as [|mc ms] eqn:Emod; [done|]. destruct controller as [|cc cs] eqn:Econ; [done|].
  rewrite <-Emod, <-Econ in *. st_run.
  assert (Hmod : is_module (w_engine w0) module = true) by (cbn; rewrite Hvd; apply (so_module Hsite)).
  rewrite Hmod. cbn [negb]. rewrite (so_default Hsite). cbn [Z_STR]. rewrite bind_lift_Some, bool_decide_true by done.
  rewrite (bind_runs _ _ _ _ _ (get_controller_known w0 app_dir true ltac:(cbn; rewrite Hvd; apply (rd_class _ _ _ _ Hw)))).
  unfold new_handle, put_controller at 1. st_run.
  set (h := w_next w0). set (w2 := w0 <| w_next := _ |> <| w_controllers := _ |>).
  erewrite (bind_runs _ _ w2) by (apply construct_plain; [exact Hr1|apply lookup_insert_eq]).
  set (c1 := (new_controller ce) <| ct_request := _ |> <| ct_response := _ |> <| ct_module := _ |> <| ct_view := _ |>).
  set (w3 := w2 <| w_controllers := _ |>).
  assert (Hq : eg_exception (w_engine w3) = []) by apply (ready_quiet _ _ _ _ Hw).
  unfold exception_pending. st_run. rewrite Hq.
  rewrite (bind_get_request _ rh r1 w3) by exact Hr1.
  change (yaf_request_is_dispatched r1) with true. cbn [negb]. unfold handle_action. st_run.
  change (rq_controller r1) with (rq_controller r). rewrite Hc.
  set (w4 := w3 <| w_engine := _ |>). unfold upd_controller, get_controller, put_controller. st_run.
  assert (Hc4 : w_controllers w4 !! h = Some c1) by apply lookup_insert_eq.
  rewrite Hc4. st_run. set (w5 := w4 <| w_controllers := _ |>).
  change (rq_action r1) with (rq_action r). rewrite Ha. cbn [Z_STR]. rewrite bind_lift_Some.
  exists h, w5, (c1 <| ct_name := ZStr controller |>).
  split.
  { destruct Hw. split; cbn; try done.
    exists (Some (views_dir)). by rewrite Hvd. }
  split; [done|]. split; [apply lookup_insert_eq|]. split; [done|]. split; [done|].
  split; [apply (proj1 (proj2 (so_class Hsite)))|].
  unfold execute_action. cbn [Z_OBJ]. st_run. 
  change (zend_str_tolower (cstr a ++ "action")) with (action_method a). rewrite Hfun.
  unfold run_action. cbn [num_args]. st_run. unfold zend_call_method, exception_pending. st_run.
  assert (Hq5 : eg_exception (w_engine w5) = []) by exact Hq. rewrite Hq5.
  done.
Qed.

(** The request after a forward. *)
Definition forwarded_to (r : request) (b : zstr) : request :=
  r <| rq_dispatched := true |> <| rq_action := ZStr b |> <| rq_dispatched := false |>.

Lemma handle_forward out p w r a b fuel : ready out p w r → asks_for r a → has_action a → forwards_to a b →
  ∃ w', yaf_dispatcher_handle (S fuel) request_obj response_obj view_obj w = Some (true, w') ∧
    ready out p w' (forwarded_to r b).
Proof.
  intros Hw Ha Hact Hf. destruct (handle_reaches_action out p w r a fuel Hw Ha Hact) as (h & w1 & c & Hw1 & _ & _ & _ & _ & _ & Hrun).
  exists (w1 <| w_requests := <[rh := forwarded_to r b]> (w_requests w1) |>). split.
  - rewrite Hrun. erewrite bind_runs.
    2: { rewrite Hf. unfold on_request, put_request. st_run. rewrite (bind_get_request _ _ _ _ (rd_request _ _ _ _ Hw1)).
         rewrite bind_assoc; erewrite bind_eng by reflexivity. st_run. reflexivity. }
    by destruct w1.
  - destruct Hw1. split; cbn; try done. apply lookup_insert_eq.
Qed.

(** The response with the page. *)
Definition with_page (p : response) (text : zstr) : response :=
  match text with
  | [] => p
  | _ => p <| rs_body := ZArr [(KStr YAF_RESPONSE_PROPERTY_NAME_DEFAULTBODY, ZStr text)] |>
  end.

Lemma view_prints out p w r a text :
  ready out p w r → view_directory (yaf (w_engine w)) = Some (views_dir) →
  prints a text →
  ∃ inc, yaf_view_simple_render vh (ZStr (page_path a)) None true w = Some (Some text, w <| w_included := inc |>).
Proof.
  intros Hw Hvd (Habs & [Hnd [_ Hnp]%Forall_cons]%no_nul_app & (opened & Hopen) & Hprint). eexists.
  unfold yaf_view_simple_render. st_run. rewrite (rd_view _ _ _ _ Hw). st_run. cbn [vw_tpl_vars].
  rewrite (bind_lift _ _ _ []) by done. st_run. unfold template_script. rewrite Habs, Hvd. cbn [vw_tpl_dir].
  rewrite !cstr_no_nul by done. fold (page_file a). unfold yaf_view_render_tpl. rewrite Hopen. unfold include_file. st_run.
  unfold yaf_view_exec_tpl, exception_pending. erewrite bind_runs by apply Hprint. st_run.
  match goal with |- context [w_engine (w <| w_included := ?i |>)] => change (w_engine (w <| w_included := i |>)) with (w_engine w) end.
  by rewrite (ready_quiet _ _ _ _ Hw).
Qed.

Lemma render_page out p w r c h a text :
  ready out p w r → view_directory (yaf (w_engine w)) = Some (views_dir) →
  w_controllers w !! h = Some c → ct_name c = ZStr controller → ct_view c = view_obj → prints a text →
  ∃ inc, call_controller ce h false a w = Some (Some (ZStr text), w <| w_included := inc |>).
Proof.
  intros Hw Hvd Hc Hn Hv Hp. destruct (view_prints out p w r a text Hw Hvd Hp) as [inc Hrender]. exists inc.
  destruct (rd_engine _ _ _ _ Hw) as [vd Hengine]. pose proof (ready_quiet _ _ _ _ Hw) as Hq.
  assert (Hext : view_ext (yaf (w_engine w)) = view_ext (yaf e)) by (by rewrite Hengine).
  assert (Hq' : eg_exception (w_engine (w <| w_included := inc |>)) = []) by done.
  unfold call_controller. destruct (proj2 (proj2 (so_class Hsite))) as [args ->].
  unfold exception_pending, yaf_controller_render, get_controller, controller_template. st_run. rewrite Hq. st_run.
  rewrite Hn, Hv. cbn [Z_STR]. st_run. rewrite Hext. fold (page_path a).
  unfold call_view. rewrite bool_decide_true by done. unfold exception_pending, view_render. st_run.
  rewrite Hq. st_run. rewrite (bind_runs _ _ _ _ _ Hrender). st_run. rewrite Hq'. by st_run.
Qed.

Lemma handle_render out p w r a text fuel :
  ready out p w r → rs_body p = ZArr [] → asks_for r a → has_action a → does_nothing a → prints a text →
  ∃ w', yaf_dispatcher_handle (S fuel) request_obj response_obj view_obj w = Some (true, w') ∧
    ready out (with_page p text) w' (r <| rq_dispatched := true |>).
Proof.
  intros Hw Hbody Ha Hact Hnothing Hp.
  destruct (handle_reaches_action out p w r a fuel Hw Ha Hact) as (h & w1 & c & Hw1 & Hvd & Hc & Hn & Hv & Hauto & Hrun).
  destruct (render_page out p w1 _ c h a text Hw1 Hvd Hc Hn Hv Hp) as [inc Hcall].
  set (w2 := w1 <| w_included := inc |>) in Hcall.
  assert (Hr2 : w_responses w2 !! ph = Some p) by apply (rd_response _ _ _ _ Hw1).
  exists (w2 <| w_responses := match text with [] => w_responses w2 | _ => <[ph := with_page p text]> (w_responses w2) end |>).
  split.
  - rewrite Hrun. rewrite (bind_runs _ _ _ _ _ (Hnothing h w1)). cbn [action_result].
    unfold render_action, get_controller. st_run. rewrite (bind_get_dispatcher _ _ _ (rd_dispatcher _ _ _ _ Hw1)).
    destruct (so_render Hsite) as (Hren & Hflush & _). unfold auto_render. rewrite Hauto. cbn [default]. rewrite Hren, Hflush.
    rewrite (bind_runs _ _ _ _ _ Hcall). destruct text as [|x text]; [by destruct w2|].
    cbn [Z_OBJ]. rewrite bind_lift_Some. unfold get_response, put_response, yaf_response_alter_body. st_run.
    erewrite bind_eng; [|rewrite Hbody; reflexivity]. st_run. by destruct w2.
  - destruct Hw1. split; cbn; try done. destruct text; [done|]. apply lookup_insert_eq.
Qed.

(** ** The loop *)

Lemma fix_name_given std def s : s ≠ [] → fix_name std def (ZStr s) = ZStr (std s).
Proof. by destruct s. Qed.

Lemma fix_ready out p w r a : ready out p w r → asks_for r a → standard_action a = a → a ≠ [] →
  fix_default request_obj w = Some (tt, w <| w_requests := <[rh := r]> (w_requests w) |>).
Proof.
  intros Hw (Hm & Hc & Ha) Hstd Hne. destruct (so_names Hsite) as (Hmne & Hms & Hcne & Hcs & _).
  unfold fix_default, upd_request, put_request. cbn [Z_OBJ]. rewrite bind_lift_Some.
  rewrite (bind_get_dispatcher _ _ _ (rd_dispatcher _ _ _ _ Hw)), (bind_get_request _ _ _ _ (rd_request _ _ _ _ Hw)).
  unfold modify. do 3 f_equal. f_equal. destruct r as [rm rc ra]. cbn in Hm, Hc, Ha |- *. subst rm rc ra.
  unfold yaf_dispatcher_fix_default. cbn -[fix_name]. by rewrite !fix_name_given, Hms, Hcs, Hstd by done.
Qed.

(** What the plugins print in a pass, and in [n] of them. *)
Definition pass_text : zstr := hook_text YAF_PLUGIN_HOOK_PREDISPATCH ++ hook_text YAF_PLUGIN_HOOK_POSTDISPATCH.
Definition passes_text (n : nat) : zstr := mjoin (repeat pass_text n).

(** A pass that handles the request. *)
Lemma round_after_handle out p p' w w' r r' a fuel :
  let w1 := announced YAF_PLUGIN_HOOK_PREDISPATCH w in
  let out1 := out ++ hook_text YAF_PLUGIN_HOOK_PREDISPATCH in
  ready out p w r → yaf_dispatcher_handle fuel request_obj response_obj view_obj w1 = Some (true, w') →
  ready out1 p' w' r' → asks_for r' a → standard_action a = a → a ≠ [] →
  ∃ w2, dispatch_round plugin_has fuel request_obj response_obj view_obj w = Some (true, w2) ∧
    ready (out ++ pass_text) p' w2 r'.
Proof.
  intros w1 out1 Hw Hh Hw' Ha Hstd Hne.
  set (w2 := w' <| w_requests := <[rh := r']> (w_requests w') |>).
  assert (Hw2 : ready out1 p' w2 r').
  { destruct Hw'. split; cbn; try done. apply lookup_insert_eq. }
  exists (announced YAF_PLUGIN_HOOK_POSTDISPATCH w2).
  pose proof (ready_announced _ _ _ _ YAF_PLUGIN_HOOK_PREDISPATCH Hw) as Hw1.
  pose proof (ready_announced _ _ _ _ YAF_PLUGIN_HOOK_POSTDISPATCH Hw2) as Hw3.
  split; [|unfold pass_text; by rewrite (assoc_L (++))]. unfold dispatch_round.
  rewrite (bind_runs _ _ _ _ _ (ready_hook _ _ _ _ YAF_PLUGIN_HOOK_PREDISPATCH Hw)).
  rewrite (bind_runs _ _ _ _ _ (no_exception _ fuel (ready_quiet _ _ _ _ Hw1))), (bind_runs _ _ _ _ _ Hh). cbn [negb].
  rewrite (bind_runs _ _ _ _ _ (fix_ready _ _ _ _ _ Hw' Ha Hstd Hne)).
  rewrite (bind_runs _ _ _ _ _ (ready_hook _ _ _ _ YAF_PLUGIN_HOOK_POSTDISPATCH Hw2)).
  by rewrite (bind_runs _ _ _ _ _ (no_exception _ fuel (ready_quiet _ _ _ _ Hw3))).
Qed.

Lemma chain_head text a rest : chain text a rest → has_action a.
Proof. by destruct rest; intros [? _]. Qed.

Lemma asks_forwarded r a b : asks_for r a → asks_for (forwarded_to r b) b.
Proof. intros (? & ? & ?). by split_and!. Qed.

(** One pass of the loop on a chain. *)
Lemma chain_round out text a rest p w r fuel :
  ready out p w r → rs_body p = ZArr [] → asks_for r a → chain text a rest →
  match rest with
  | [] => ∃ w', dispatch_round plugin_has (S fuel) request_obj response_obj view_obj w = Some (true, w') ∧
            ready (out ++ pass_text) (with_page p text) w' (r <| rq_dispatched := true |>)
  | b :: _ => ∃ w', dispatch_round plugin_has (S fuel) request_obj response_obj view_obj w = Some (true, w') ∧
            ready (out ++ pass_text) p w' (forwarded_to r b)
  end.
Proof.
  intros Hw Hbody Ha Hchain. pose proof (chain_head _ _ _ Hchain) as (Hne & Hstd & Hfun). destruct rest as [|b rest].
  - destruct Hchain as (Hact & Hnothing & Hp).
    destruct (handle_render _ p _ r a text fuel (ready_announced _ _ _ _ YAF_PLUGIN_HOOK_PREDISPATCH Hw))
      as (w1 & Hh & Hw1); [done..|].
    by eapply (round_after_handle _ p _ w w1 r _ a).
  - destruct Hchain as (Hact & Hf & Hchain). pose proof (chain_head _ _ _ Hchain) as (Hneb & Hstdb & _).
    destruct (handle_forward _ p _ r a b fuel (ready_announced _ _ _ _ YAF_PLUGIN_HOOK_PREDISPATCH Hw))
      as (w1 & Hh & Hw1); [done..|].
    eapply (round_after_handle _ p _ w w1 r _ b); eauto using asks_forwarded.
Qed.

Lemma passes_more n : passes_text (S n) = pass_text ++ passes_text n.
Proof. done. Qed.
Lemma passes_one : passes_text 1 = pass_text.
Proof. by rewrite passes_more, app_nil_r. Qed.

(** The loop serves a chain that is shorter than the counter, and stops at 0 on a longer
    one. *)
Lemma chain_loop text fuel rounds : ∀ rest a out p w r nesting,
  ready out p w r → rs_body p = ZArr [] → asks_for r a → chain text a rest →
  (0 < nesting < 2 ^ 32)%Z → (nesting ≤ Z.of_nat rounds)%Z →
  ∃ w' r', ready (out ++ passes_text (S (length rest) `min` Z.to_nat nesting))
      (if bool_decide (Z.of_nat (length rest) < nesting)%Z then with_page p text else p) w' r' ∧
    rq_dispatched r' = bool_decide (Z.of_nat (length rest) < nesting)%Z ∧
    dispatch_loop plugin_has (S fuel) request_obj response_obj rounds nesting view_obj w =
      Some (Some (Z.max 0 (nesting - Z.of_nat (S (length rest)))), w').
Proof.
  induction rounds as [|rounds IH]; intros rest a out p w r nesting Hw Hbody Ha Hchain Hn Hr; [lia|].
  pose proof (chain_round out text a rest p w r fuel Hw Hbody Ha Hchain) as Hround. cbn [dispatch_loop].
  assert (Hpred : ((nesting - 1) mod 2 ^ 32 = nesting - 1)%Z) by (apply Z.mod_small; lia).
  destruct rest as [|b rest]; destruct Hround as (w1 & Hround & Hw1).
  - rewrite (bind_runs _ _ _ _ _ Hround). cbn [negb Z_OBJ]. rewrite bind_lift_Some, (bind_get_request _ _ _ _ (rd_request _ _ _ _ Hw1)).
    cbv zeta. rewrite Hpred. rewrite bool_decide_true by (cbn; lia).
    exists w1, (r <| rq_dispatched := true |>).
    replace (_ `min` _) with 1 by (cbn [length]; lia). rewrite passes_one. split; [done|]. split; [done|].
    change (yaf_request_is_dispatched (r <| rq_dispatched := true |>)) with true. rewrite andb_false_r.
    unfold mret, St_ret. do 3 f_equal. cbn. lia.
  - rewrite (bind_runs _ _ _ _ _ Hround). cbn [negb Z_OBJ]. rewrite bind_lift_Some, (bind_get_request _ _ _ _ (rd_request _ _ _ _ Hw1)).
    cbv zeta. rewrite Hpred. change (yaf_request_is_dispatched (forwarded_to r b)) with false. rewrite andb_true_r.
    destruct (Z.ltb_spec 0 (nesting - 1)) as [Hlt|Hge].
    + destruct (IH rest b (out ++ pass_text) p w1 (forwarded_to r b) (nesting - 1)%Z) as (w' & r' & Hw' & Hd & Hloop);
        [done|done|by eapply asks_forwarded|apply Hchain|lia|lia|].
      exists w', r'. rewrite Hloop.
      replace (bool_decide (Z.of_nat (length (b :: rest)) < nesting)%Z) with (bool_decide (Z.of_nat (length rest) < nesting - 1)%Z)
        by (apply bool_decide_ext; cbn [length]; lia).
      replace (S (length (b :: rest)) `min` Z.to_nat nesting) with (S (S (length rest) `min` Z.to_nat (nesting - 1)))
        by (cbn [length]; lia).
      rewrite passes_more, (assoc_L (++)).
      split; [done|]. split; [done|]. do 3 f_equal. cbn [length]. lia.
    + exists w1, (forwarded_to r b). rewrite bool_decide_false by (cbn [length]; lia).
      replace (_ `min` _) with 1 by (cbn [length]; lia). rewrite passes_one.
      split; [done|]. split; [done|]. unfold mret, St_ret. do 3 f_equal. cbn [length]. lia.
Qed.

(** ** The end *)

(** A new response: no header, no code, no text. *)
Definition blank_response (http : bool) : response :=
  (response_init http) <| rs_header := ZArr [] |> <| rs_body := ZArr [] |>.

Lemma send_page http text e' :
  response_method set_header (with_page (blank_response http) text) e' = Some (true, e' <| output := output e' ++ text |>).
Proof.
  assert (Hmethod : response_method set_header (with_page (blank_response http) text) e' =
            Some (true, e' <| output := output e' ++ mjoin (match text with [] => [] | _ => [text] end) |>))
    by (by destruct http, text).
  rewrite Hmethod. destruct text; cbn; by rewrite ?app_nil_r.
Qed.

(** After a chain that was served the page is sent. *)
Lemma finish_served out http text fuel n w r :
  ready out (with_page (blank_response http) text) w r → rq_dispatched r = true →
  ∃ w', dispatch_finish plugin_has fuel request_obj response_obj n w = Some (true, w') ∧
    output (w_engine w') = out ++ hook_text YAF_PLUGIN_HOOK_LOOPSHUTDOWN ++ text ∧ eg_exception (w_engine w') = [].
Proof.
  intros Hw0 Hd. destruct (hook_ready _ _ _ _ YAF_PLUGIN_HOOK_LOOPSHUTDOWN Hw0) as (w0 & Hhook & Hw).
  destruct (rd_engine _ _ _ _ Hw) as [vd Hvd]. destruct (so_render Hsite) as (_ & _ & Hret).
  eexists. split; [|split].
  - assert (Hend : dispatch_end plugin_has fuel request_obj response_obj n w = Some (true, w0)).
    { unfold dispatch_end. rewrite (bind_runs _ _ _ _ _ Hhook).
      rewrite (bind_runs _ _ _ _ _ (no_exception _ fuel (ready_quiet _ _ _ _ Hw))). cbn [Z_OBJ]. rewrite bind_lift_Some.
      rewrite (bind_get_request _ _ _ _ (rd_request _ _ _ _ Hw)). unfold yaf_request_is_dispatched. by rewrite Hd, andb_false_r. }
    unfold dispatch_finish. rewrite (bind_runs _ _ _ _ _ Hend). erewrite bind_runs; [reflexivity|].
    unfold dispatch_send.
    rewrite (bind_get_dispatcher _ _ _ (rd_dispatcher _ _ _ _ Hw)), Hret. cbn [Z_OBJ]. rewrite bind_lift_Some.
    unfold get_response, put_response. st_run. rewrite (rd_response _ _ _ _ Hw). st_run.
    erewrite bind_eng by apply send_page. set (w1 := w0 <| w_engine := _ |>).
    assert (Hp1 : w_responses w1 !! ph = Some (with_page (blank_response http) text)) by apply (rd_response _ _ _ _ Hw).
    st_run. erewrite bind_eng; [|by destruct http, text]. st_run. reflexivity.
  - cbn. rewrite Hvd. cbn. by rewrite ?(assoc_L (++)), ?(app_nil_r).
  - cbn. apply (ready_quiet _ _ _ _ Hw).
Qed.

(** After one that was not the limit is reported. *)
Lemma finish_refused out p fuel w r :
  ready out p w r → rq_dispatched r = false →
  ∃ w', dispatch_finish plugin_has fuel request_obj response_obj 0 w = Some (false, w') ∧
    output (w_engine w') = out ++ hook_text YAF_PLUGIN_HOOK_LOOPSHUTDOWN ∧
    eg_exception (w_engine w') = [Exn Yaf_Exception_DispatchFailed YAF_ERR_DISPATCH_FAILED
      ("The max dispatch nesting " ++ dec_of_Z (forward_limit (yaf e)) ++ " was reached")].
Proof.
  intros Hw0 Hd. destruct (hook_ready _ _ _ _ YAF_PLUGIN_HOOK_LOOPSHUTDOWN Hw0) as (w0 & Hhook & Hw).
  destruct (rd_engine _ _ _ _ Hw) as [vd Hvd]. pose proof (ready_quiet _ _ _ _ Hw) as Hq.
  destruct (so_errors Hsite) as [Hthrow Hcatch].
  eexists. split; [|split].
  - unfold dispatch_finish. erewrite (bind_runs _ _ _ false); [reflexivity|]. unfold dispatch_end. rewrite (bind_runs _ _ _ _ _ Hhook).
    rewrite (bind_runs _ _ _ _ _ (no_exception _ fuel Hq)). cbn [Z_OBJ]. rewrite bind_lift_Some.
    rewrite (bind_get_request _ _ _ _ (rd_request _ _ _ _ Hw)). unfold yaf_request_is_dispatched. rewrite Hd. cbn [negb andb Z.eqb].
    st_run. erewrite bind_eng by (apply trigger_error_throws; [done|by rewrite Hvd]).
    unfold YAF_EXCEPTION_HANDLE_NORET. st_run. cbn [w_engine eg_exception].
    match goal with |- context [catch_exception ?g] => replace (catch_exception g) with false by (by cbn; rewrite Hvd) end.
    reflexivity.
  - cbn. rewrite Hvd. cbn. by rewrite ?(assoc_L (++)), ?(app_nil_r).
  - cbn. by rewrite Hq, Hvd.
Qed.
End serve.

(** ** From the address to the page *)

Section dispatch.
Context `{Runtime, UserRoutes, UserCode} (plugin_has : zval → zstr → bool).
Context (ce : class_entry) (app_dir module controller cls : zstr) (rh : Z).
Context (plugins : htab zval) (says : zval → hook → zstr).
Abbreviation site := (λ e d, site_ok plugin_has e d ce app_dir module controller plugins says).
Abbreviation hook_text := (hook_text plugin_has plugins says).
Abbreviation announced := (announced plugin_has plugins says).

(** The world when a request for [c]/[a] below the base address [b] arrives: nothing is
    routed and there is no view; the router has its default route. *)
Record arrives (w : world) (d : dispatcher) (r : request) (b c a : zstr) : Prop := {
  ar_dispatcher : w_dispatcher w = Some d;
  ar_router : ∃ cur, dp_router d = BuiltinRouter (Router [(KStr "_default", RouteStatic)] cur);
  ar_request_obj : dp_request d = ZObj cls rh;
  ar_view : dp_view d = ZNull;
  ar_request : w_requests w !! rh = Some r;
  ar_names : rq_module r = ZNull ∧ rq_routed r = false ∧ ∃ ht, rq_params r = ZArr ht;
  ar_uri : no_nul b ∧ rq_base_uri r = ZStr b ∧ rq_uri r = ZStr (b ++ path_of [c; a]) ∧ segment c ∧ segment a;
  ar_class : w_classes w !! zend_str_tolower (class_name (yaf (w_engine w)) controller "Controller") = Some ce;
}.

(** The request with its names and the dispatcher with the route in force. *)
Definition routed_request (r : request) (a : zstr) : request :=
  r <| rq_module := ZStr module |> <| rq_controller := ZStr controller |> <| rq_action := ZStr a |> <| rq_routed := true |>.
Definition routed_dispatcher (d : dispatcher) : dispatcher :=
  d <| dp_router := BuiltinRouter (Router [(KStr "_default", RouteStatic)] (ZStr "_default")) |>.

Lemma router_default r b c a ht cur e' :
  no_nul b → rq_base_uri r = ZStr b → rq_uri r = ZStr (b ++ path_of [c; a]) → segment c → segment a → rq_params r = ZArr ht →
  eg_exception e' = [] →
  yaf_router_route (Router [(KStr "_default", RouteStatic)] cur) r e' =
    Some ((true, Router [(KStr "_default", RouteStatic)] (ZStr "_default"),
           r <| rq_controller := ZStr c |> <| rq_action := ZStr a |> <| rq_routed := true |>), e').
Proof.
  intros Hb Hbase Huri Hc Ha Hp Hq. rewrite path_of_join in Huri. destruct (tokens_path [c; a]) as [Ht Hpl]; [by constructor; [|constructor; [|constructor]]|].
  assert (Hroute : yaf_route_static_route r e' = Some ((true, r <| rq_controller := ZStr c |> <| rq_action := ZStr a |>), e')).
  { unfold yaf_route_static_route. erewrite bind_lift by (by eapply strip_base_app).
    rewrite (pathinfo_route_run _ _ ht) by done. rewrite Ht. destruct r. cbn in Hp. by subst. }
  unfold yaf_router_route. cbn [routes reverse rev_append route_scan]. unfold call_route, engine_raised. cbn [route_method].
  unfold static_route_method. rewrite bind_assoc, bind_gets, Hq, !bind_assoc, (bind_runs _ _ _ _ _ Hroute).
  rewrite bind_ret, bind_assoc, bind_gets, Hq. done.
Qed.

(** Routing leaves everything but the request and the route in force. *)
Lemma route_default e w d r b c a a0 fuel pcls ph :
  arrives w d r b c a → eg_exception (w_engine w) = [] → site e d →
  standard_controller c = controller → standard_action a = a0 →
  ∃ w', dispatch_route plugin_has fuel (ZObj cls rh) (ZObj pcls ph) w = Some (true, w') ∧
    w_dispatcher w' = Some (routed_dispatcher d) ∧ w_requests w' !! rh = Some (routed_request r a0) ∧
    w_engine w' = (w_engine w) <| output := output (w_engine w) ++
      hook_text YAF_PLUGIN_HOOK_ROUTESTARTUP ++ hook_text YAF_PLUGIN_HOOK_ROUTESHUTDOWN |> ∧
    w_responses w' = w_responses w ∧ w_views w' = w_views w ∧ w_classes w' = w_classes w ∧
    w_next w' = w_next w.
Proof.
  intros [Hd [cur Hrtr] _ _ Hr (Hm & Hrouted & [ht Hp]) (Hb & Hbase & Huri & Hc & Ha) _] Hq Hsite Hsc Hsa.
  pose proof (so_plugins _ _ _ _ _ _ _ _ _ Hsite) as Hplug. pose proof (so_default _ _ _ _ _ _ _ _ _ Hsite) as Hdef.
  pose proof (λ w d h, hooks_run plugin_has _ _ _ _ _ _ cls pcls rh ph _ _ Hsite w d h) as Hhook.
  set (w0 := announced YAF_PLUGIN_HOOK_ROUTESTARTUP w).
  set (r1 := r <| rq_controller := ZStr c |> <| rq_action := ZStr a |> <| rq_routed := true |>).
  set (w1 := w0 <| w_requests := <[rh := r1]> (w_requests w0) |> <| w_dispatcher := Some (routed_dispatcher d) |>).
  set (w2 := w1 <| w_requests := <[rh := yaf_dispatcher_fix_default (routed_dispatcher d) r1]> (w_requests w1) |>).
  set (w3 := announced YAF_PLUGIN_HOOK_ROUTESHUTDOWN w2).
  assert (Hd0 : w_dispatcher w0 = Some d) by done. assert (Hr0 : w_requests w0 !! rh = Some r) by done.
  assert (Hroute : yaf_dispatcher_route (ZObj cls rh) w0 = Some (true, w1)).
  { unfold yaf_dispatcher_route. rewrite (bind_get_dispatcher _ _ _ Hd0), Hrtr. cbn [Z_OBJ].
    rewrite bind_lift_Some, (bind_get_request _ _ _ _ Hr0).
    erewrite bind_eng by (by eapply router_default). unfold put_request, upd_dispatcher. st_run.
    by destruct w0. }
  assert (Hfix : fix_default (ZObj cls rh) w1 = Some (tt, w2)).
  { unfold fix_default, upd_request, put_request. cbn [Z_OBJ]. rewrite bind_lift_Some.
    rewrite (bind_get_dispatcher _ (routed_dispatcher d)) by done.
    by rewrite (bind_get_request _ _ r1) by apply lookup_insert_eq. }
  exists (w3 <| w_requests := <[rh := routed_request r a0]> (w_requests w3) |>).
  split; [|split_and!; try done; [apply lookup_insert_eq|cbn; by rewrite (assoc_L (++))]].
  unfold dispatch_route. cbn [Z_OBJ]. rewrite bind_lift_Some, (bind_get_request _ _ _ _ Hr).
  unfold yaf_request_is_routed. rewrite Hrouted.
  rewrite (bind_runs _ _ _ _ _ (Hhook w d _ Hd Hplug Hq)). fold w0.
  rewrite (bind_runs _ _ _ _ _ (no_exception cls pcls rh ph w0 fuel Hq)), (bind_runs _ _ _ _ _ Hroute). cbn [negb].
  rewrite (bind_runs _ _ _ _ _ Hfix).
  rewrite (bind_runs _ _ _ _ _ (Hhook w2 _ _ eq_refl Hplug Hq)). fold w3.
  rewrite (bind_runs _ _ _ _ _ (no_exception cls pcls rh ph w3 fuel Hq)).
  unfold upd_request, put_request. st_run.
  assert (Hr3 : w_requests w3 !! rh = Some (yaf_dispatcher_fix_default (routed_dispatcher d) r1)) by apply lookup_insert_eq.
  rewrite (bind_get_request _ _ _ _ Hr3). st_run.
  unfold mret, St_ret. do 3 f_equal.
  assert (Hnames : yaf_dispatcher_fix_default (routed_dispatcher d) r1 = routed_request r a0).
  { destruct r. cbn in Hm. subst. unfold yaf_dispatcher_fix_default, r1. cbn -[fix_name].
    rewrite (fix_name_given _ _ c (proj1 Hc)), (fix_name_given _ _ a (proj1 Ha)). cbn. by rewrite Hdef, Hsc. }
  by rewrite Hnames.
Qed.

(** The start of a dispatch: the response and, after routing, the view are made. *)
Definition site_dispatcher (d : dispatcher) (vh : Z) : dispatcher :=
  (routed_dispatcher d) <| dp_view := ZObj YAF_VIEW_SIMPLE vh |>.

Lemma same_site e d vh : site e d → site e (site_dispatcher d vh).
Proof. intros []. by split. Qed.

(** What the plugins print in a dispatch of [n] passes: each hook in its place. *)
Definition hooks_text (n : nat) : zstr :=
  hook_text YAF_PLUGIN_HOOK_ROUTESTARTUP ++ hook_text YAF_PLUGIN_HOOK_ROUTESHUTDOWN ++
  hook_text YAF_PLUGIN_HOOK_LOOPSTARTUP ++ passes_text plugin_has plugins says n ++
  hook_text YAF_PLUGIN_HOOK_LOOPSHUTDOWN.

(** The dispatch up to the end of its loop: what is left is its last hook and the page. *)
Lemma dispatch_loops w d r b c a a0 rest text fuel rounds :
  let e := w_engine w in
  let ph := w_next w in
  let limit := forward_limit (yaf e) in
  arrives w d r b c a → site e d →
  standard_controller c = controller → standard_action a = a0 →
  chain e ce app_dir module controller rh (ph + 1) text a0 rest →
  (0 < limit < 2 ^ 32)%Z → (limit ≤ Z.of_nat rounds)%Z →
  let http := negb (strncasecmp0 (sapi_name e) "cli" 4) in
  let pcls := if http then "Yaf_Response_Http" : zstr else "Yaf_Response_Cli" : zstr in
  let p := blank_response http in
  let out := output e ++ hook_text YAF_PLUGIN_HOOK_ROUTESTARTUP ++ hook_text YAF_PLUGIN_HOOK_ROUTESHUTDOWN ++
             hook_text YAF_PLUGIN_HOOK_LOOPSTARTUP in
  ∃ w4 r4,
    ready e (site_dispatcher d (ph + 1)) ce controller rh ph (ph + 1)
      (out ++ passes_text plugin_has plugins says (S (length rest) `min` Z.to_nat limit))
      (if bool_decide (Z.of_nat (length rest) < limit)%Z then with_page p text else p) w4 r4 ∧
    rq_dispatched r4 = bool_decide (Z.of_nat (length rest) < limit)%Z ∧
    yaf_dispatcher_dispatch plugin_has (S fuel) rounds w =
      (ok ← dispatch_finish plugin_has (S fuel) (ZObj cls rh) (ZObj pcls ph) (Z.max 0 (limit - Z.of_nat (S (length rest))));
       mret (if ok : bool then Some (ZObj pcls ph) else None)) w4.
Proof.
  intros e ph limit Har Hsite Hsc Hsa Hchain Hlimit Hrounds http pcls p out.
  set (w1 := w <| w_next := (ph + 1)%Z |> <| w_responses := <[ph := p]> (w_responses w) |>).
  assert (Har1 : arrives w1 d r b c a).
  { by destruct Har. }
  pose proof (so_quiet _ _ _ _ _ _ _ _ _ Hsite) as Hq.
  destruct (route_default e w1 d r b c a a0 (S fuel) pcls ph Har1 Hq Hsite Hsc Hsa)
    as (w2 & Hroute & Hd2 & Hr2 & He2 & Hp2 & Hv2 & Hc2 & Hn2).
  set (d' := site_dispatcher d (ph + 1)).
  set (w2' := announced YAF_PLUGIN_HOOK_LOOPSTARTUP w2).
  set (w3 := w2' <| w_next := (ph + 1 + 1)%Z |> <| w_views := <[(ph + 1)%Z := View (ZArr []) ZNull ZNull]> (w_views w2') |>
                 <| w_dispatcher := Some d' |>).
  assert (Hd2' : w_dispatcher w2' = Some (routed_dispatcher d)) by done.
  assert (Hview : yaf_dispatcher_init_view None None w2' = Some (Some (ZObj YAF_VIEW_SIMPLE (ph + 1)), w3)).
  { unfold yaf_dispatcher_init_view. rewrite (bind_get_dispatcher _ _ _ Hd2').
    replace (is_view (dp_view (routed_dispatcher d))) with false by (cbn; by rewrite (ar_view _ _ _ _ _ _ Har)).
    erewrite bind_eng by reflexivity. unfold new_handle, upd_dispatcher. st_run. cbn [fst snd]. st_run.
    change (w_next (w2' <| w_engine := w_engine w2' |>)) with (w_next w2). rewrite Hn2.
    by destruct w2'. }
  assert (Hw3 : ready e d' ce controller rh ph (ph + 1) out p w3 (routed_request r a0)).
  { split; cbn; try done.
    - exists (view_directory (yaf e)). rewrite He2. unfold out, e. cbn. rewrite <-!(assoc_L (++)).
      destruct (w_engine w) as [g]. by destruct g.
    - rewrite Hp2. apply lookup_insert_eq.
    - apply lookup_insert_eq.
    - rewrite Hc2. apply (ar_class _ _ _ _ _ _ Har). }
  assert (Hsite' : site e d') by (by apply same_site).
  destruct (chain_loop plugin_has e d' ce app_dir module controller cls pcls rh ph (ph + 1) plugins says Hsite' text fuel rounds rest a0 out p w3
              (routed_request r a0) limit Hw3) as (w4 & r4 & Hw4 & Hd4 & Hloop); [by unfold p; destruct http|done..|].
  exists w4, r4. split; [exact Hw4|]. split; [exact Hd4|].
  unfold yaf_dispatcher_dispatch, dispatch_with. st_run. erewrite bind_eng by reflexivity. unfold new_handle, put_response. st_run.
  match goal with |- _ ?w0 = _ => replace w0 with w1 by (by destruct w) end.
  rewrite (bind_get_dispatcher _ _ _ (ar_dispatcher _ _ _ _ _ _ Har1)), (ar_request_obj _ _ _ _ _ _ Har1).
  match goal with |- context [dispatch_route _ _ _ ?o] => change o with (ZObj pcls ph) end.
  rewrite (bind_runs _ _ _ _ _ Hroute). cbn [negb].
  assert (Hq2 : eg_exception (w_engine w2) = []) by (by rewrite He2).
  rewrite (bind_runs _ _ _ _ _ (hooks_run plugin_has _ _ _ _ _ _ cls pcls rh ph _ _ Hsite w2 _ _ Hd2 (so_plugins _ _ _ _ _ _ _ _ _ Hsite) Hq2)).
  fold w2'. rewrite (bind_runs _ _ _ _ _ (no_exception cls pcls rh ph w2' (S fuel) Hq2)), (bind_runs _ _ _ _ _ Hview).
  fold e limit. rewrite (Z.mod_small limit) by lia. by rewrite (bind_runs _ _ _ _ _ Hloop).
Qed.

(** C1: End to end: a request for an address below the base address is routed by the
    default route, its controller is found, its actions run and forward as far as they
    do, and the page of the last one is sent - if there are fewer forwards than the
    forward limit.  Otherwise no page is sent and the limit is reported by an exception.
    The hooks of the plugins run in their order around it: those of the routing, the start
    of the loop, those of each pass, as many as there are actions or as the limit allows,
    and the end of the loop, all before the page. *)
Theorem request_served w d r b c a a0 rest text fuel rounds :
  let e := w_engine w in
  let ph := w_next w in
  let limit := forward_limit (yaf e) in
  arrives w d r b c a → site e d →
  standard_controller c = controller → standard_action a = a0 →
  chain e ce app_dir module controller rh (ph + 1) text a0 rest →
  (0 < limit < 2 ^ 32)%Z → (limit ≤ Z.of_nat rounds)%Z →
  if bool_decide (Z.of_nat (length rest) < limit)%Z then
    ∃ pcls w', yaf_dispatcher_dispatch plugin_has (S fuel) rounds w = Some (Some (ZObj pcls ph), w') ∧
      output (w_engine w') = output e ++ hooks_text (S (length rest)) ++ text ∧ eg_exception (w_engine w') = []
  else
    ∃ w', yaf_dispatcher_dispatch plugin_has (S fuel) rounds w = Some (None, w') ∧
      output (w_engine w') = output e ++ hooks_text (Z.to_nat limit) ∧
      eg_exception (w_engine w') = [Exn Yaf_Exception_DispatchFailed YAF_ERR_DISPATCH_FAILED
        ("The max dispatch nesting " ++ dec_of_Z limit ++ " was reached")].
Proof.
  intros e ph limit Har Hsite Hsc Hsa Hchain Hlimit Hrounds.
  destruct (dispatch_loops w d r b c a a0 rest text fuel rounds Har Hsite Hsc Hsa Hchain Hlimit Hrounds)
    as (w4 & r4 & Hw4 & Hd4 & Hdispatch).
  fold e ph in Hw4, Hd4, Hdispatch. fold limit in Hw4, Hd4, Hdispatch.
  set (http := negb (strncasecmp0 (sapi_name e) "cli" 4)).
  set (pcls := if http then "Yaf_Response_Http" : zstr else "Yaf_Response_Cli" : zstr).
  set (d' := site_dispatcher d (ph + 1)).
  assert (Hsite' : site e d') by (by apply same_site).
  case_bool_decide as Hlen.
  - destruct (finish_served plugin_has e d' ce app_dir module controller cls pcls rh ph (ph + 1) plugins says Hsite' _ http text (S fuel)
                (Z.max 0 (limit - Z.of_nat (S (length rest)))) w4 r4 Hw4 Hd4) as (w' & Hfin & Hout & Hexn).
    exists pcls, w'. rewrite Hdispatch, (bind_runs _ _ _ _ _ Hfin), Hout. split; [done|]. split; [|done].
    replace (_ `min` _) with (S (length rest)) by lia. unfold hooks_text. by rewrite !(assoc_L (++)).
  - replace (Z.max 0 _) with 0%Z in Hdispatch by lia.
    destruct (finish_refused plugin_has e d' ce app_dir module controller cls pcls rh ph (ph + 1) plugins says Hsite' _ (blank_response http) (S fuel) w4 r4 Hw4 Hd4)
      as (w' & Hfin & Hout & Hexn).
    exists w'. rewrite Hdispatch, (bind_runs _ _ _ _ _ Hfin), Hout. split; [done|]. split; [|done].
    replace (_ `min` _) with (Z.to_nat limit) by lia. unfold hooks_text. by rewrite !(assoc_L (++)).
Qed.
End dispatch.

(** ** Forwards in [init] *)

Section init_forward.
Context `{Runtime, UserRoutes, UserCode}.
Context (d : dispatcher) (ce : class_entry) (app_dir module controller cls : zstr) (rh : Z).
Context (response_obj view_obj : zval).
Abbreviation request_obj := (ZObj cls rh).



Context (Hinit : is_Some (find_function ce "init")) (Hcls : instanceof_function ce YAF_ACTION_CLASS = false).
Context (dm : zstr) (Hdef : dp_default_module d = ZStr dm) (Hnames : module ≠ [] ∧ controller ≠ []).



(** The method of the action ends without a page. *)
Context (a : zstr) (Hact : find_function ce (action_method a) = Some (UserFunction []))
  (Hends : ∀ h w, user_method (ZObj (ce_name ce) h) (action_method a) [] w = Some (Some (ZBool false), w)).




Context (plugin_has : zval → zstr → bool) (Hplugins : dp_plugins d = ZArr []).


End init_forward.

(** ** An application of two actions *)

(** [list] forwards to [show], which is rendered.  One plugin has all the hooks, another
    one only that of the end of the loop; each prints the name of the hook. *)
Definition news_plugin (p : zval) : bool :=
  match p with ZObj cls _ => bool_decide (cls = ("TracePlugin" : zstr) ∨ cls = ("LastPlugin" : zstr)) | _ => false end.
Definition news_plugin_has (p : zval) (name : zstr) : bool :=
  match p with
  | ZObj cls _ => bool_decide (cls = ("TracePlugin" : zstr)) || bool_decide (name = hook_name YAF_PLUGIN_HOOK_LOOPSHUTDOWN)
  | _ => false
  end.
Definition news_says (p : zval) (h : hook) : zstr := "<" ++ hook_name h ++ ">".
Definition news_plugins : htab zval := [(KIdx 0, ZObj "TracePlugin" 7); (KIdx 1, ZObj "LastPlugin" 8)].

Definition news_code : UserCode := {|
  call_function := λ _ _, mret (Called None);
  compile_string := λ _, mret true;
  run_code := λ _ code _, mret code;
  user_method := λ obj name _,
    if news_plugin obj then eng (php_write ("<" ++ name ++ ">"));; mret (Some ZNull)
    else if bool_decide (name = ("listaction" : zstr)) then
      on_request 1 (λ r, controller_forward r [ZStr "show"]);; mret (Some (ZBool false))
    else mret (Some ZNull);
  script_of := λ path, Script path;
  run_script := λ _, mret tt;
  run_template := λ _ tpl _, mret ("page of " ++ tpl);
  strerror := λ _, "No such file or directory";
  set_header := λ _, mret true |}.

Definition news_class : class_entry :=
  ClassEntry "NewsController" ["NewsController" : zstr; YAF_CONTROLLER_CLASS]
    [("listaction" : zstr, UserFunction []); ("showaction" : zstr, UserFunction []);
     ("render" : zstr, BuiltinFunction ["tpl"])] ZNull None.

Definition news_request : request := sample_request "/shop" "/shop/news/LIST".
Definition news_dispatcher : dispatcher :=
  dispatcher_init <| dp_router := BuiltinRouter (Router [(KStr "_default", RouteStatic)] ZNull) |>
    <| dp_request := ZObj "Yaf_Request_Http" 1 |> <| dp_plugins := ZArr news_plugins |>
    <| dp_default_module := ZStr "Index" |> <| dp_default_controller := ZStr "Index" |> <| dp_default_action := ZStr "index" |>.

(** Where the forward limit is [limit]. *)
Definition news_world (limit : Z) : world :=
  let e := start_engine ["Index"] [] [] in
  World (e <| yaf := (yaf e) <| directory := Some ("/app" : zstr) |> <| forward_limit := limit |> |>)
    {[ ("newscontroller" : zstr) := news_class ]} [] None (Some news_dispatcher) {[ 1%Z := news_request ]} ∅ ∅ ∅ ∅ 2.

Lemma request_served_witness :
  (∃ pcls w', @yaf_dispatcher_dispatch plain_runtime no_user_routes news_code news_plugin_has 1 2 (news_world 2) =
       Some (Some (ZObj pcls 2), w') ∧
     output (w_engine w') = "<routerstartup><routershutdown><dispatchloopstartup><predispatch><postdispatch><predispatch><postdispatch><dispatchloopshutdown><dispatchloopshutdown>page of /app/views/news/show.phtml" ∧
     eg_exception (w_engine w') = []) ∧
  ∃ w', @yaf_dispatcher_dispatch plain_runtime no_user_routes news_code news_plugin_has 1 1 (news_world 1) = Some (None, w') ∧
    output (w_engine w') = "<routerstartup><routershutdown><dispatchloopstartup><predispatch><postdispatch><dispatchloopshutdown><dispatchloopshutdown>" ∧
    eg_exception (w_engine w') = [Exn Yaf_Exception_DispatchFailed YAF_ERR_DISPATCH_FAILED
      "The max dispatch nesting 1 was reached"].
Proof.
  assert (Hall : ∀ limit, limit = 1%Z ∨ limit = 2%Z →
    arrives news_class "News" "Yaf_Request_Http" 1 (news_world limit) news_dispatcher news_request "/shop" "news" "LIST" ∧
    @site_ok news_code news_plugin_has (w_engine (news_world limit)) news_dispatcher news_class "/app" "Index" "News"
      news_plugins news_says ∧
    @chain news_code (w_engine (news_world limit)) news_class "/app" "Index" "News" 1 3
      "page of /app/views/news/show.phtml" "list" ["show" : zstr]).
  { intros limit Hl. split; [|split].
    - split; try done; [by eexists| |]; [split_and!; [done|done|by eexists]|].
      split_and!; try done; decided.
    - split; try done; [split_and!; by decided| |split_and!; [done|done|by eexists]].
      intros k p h args w [[=-> ->]|[[=-> ->]|[]%not_elem_of_nil]%elem_of_cons]%elem_of_cons _; by destruct h.
    - refine (conj _ (conj _ (conj _ (conj _ _)))); try done.
      refine (conj _ (conj _ (conj _ _))); [done|decided|by eexists|done]. }
  split.
  - destruct (Hall 2%Z) as (Har & Hsite & Hchain); [by right|].
    exact (@request_served plain_runtime no_user_routes news_code news_plugin_has news_class "/app" "Index" "News"
             "Yaf_Request_Http" 1 news_plugins news_says (news_world 2) news_dispatcher news_request "/shop" "news" "LIST" "list" ["show" : zstr]
             "page of /app/views/news/show.phtml" 0 2 Har Hsite eq_refl eq_refl Hchain ltac:(done) ltac:(done)).
  - destruct (Hall 1%Z) as (Har & Hsite & Hchain); [by left|].
    exact (@request_served plain_runtime no_user_routes news_code news_plugin_has news_class "/app" "Index" "News"
             "Yaf_Request_Http" 1 news_plugins news_says (news_world 1) news_dispatcher news_request "/shop" "news" "LIST" "list" ["show" : zstr]
             "page of /app/views/news/show.phtml" 0 1 Har Hsite eq_refl eq_refl Hchain ltac:(done) ltac:(done)).
Defined.




