(* ===== verification/Classes.v ===== *)
(** * The classes that the module registers

    [PHP_MINIT_FUNCTION(yaf)] of [yaf.c] and the [YAF_STARTUP_FUNCTION]s of the other
    files: each registers a class, its parent, interfaces, flags and the defaults of its
    properties.  The steps are data, and [run_step] is what the engine does for each
    ([zend_register_internal_class_ex], [zend_do_inheritance],
    [zend_declare_property_ex], [zend_class_implements]); the order matters, since a
    class copies the defaults of its parent when it is registered, and a class entry
    that is not there yet is a null pointer.  The theorems compare the result with what
    the other files take for granted: the initial values of their records, and the
    relation [instanceof]. *)

From S2P Require Import Prelude Zend Engine Request Route Router Response View Store Registry.
From S2P Require Import Config World Controller Dispatcher Application ZendClass.

Open Scope zs_scope.

(** ** Steps *)

(** The statements of the startup functions.  [name_ns] is the name with namespaces. *)
Inductive step :=
| RegisterClass (ce name_ns : zstr) (parent : option zstr)
| RegisterInterface (ce name_ns : zstr)
| Implements (ce : zstr) (interfaces : list zstr)
| OrFlag (ce : zstr) (f : class_flag)
| SetFlag (ce : zstr) (f : class_flag)
| DeclareProperty (ce name : zstr) (def : zval) (acc : access)
| DeclareStatic (ce name : zstr) (acc : access)
| DeclareConstant (ce name : zstr) (v : zval).

(** Something is done to a class entry, which is dereferenced. *)
Definition on_class (ce : zstr) (f : class → option class) (t : class_table) : option class_table :=
  c ← lookup_class t ce; c' ← f c;
  Some (map (λ d, if bool_decide (cl_ce d = ce) then c' else d) t).

(** [ce->parent], which has interfaces of its own. *)
Definition parent_ifaces (t : class_table) (c : class) : nat :=
  length (default [] (cl_interfaces <$> (cl_parent c ≫= lookup_class t))).

(** What the engine does: [zend_register_internal_class_ex], where a null [parent_ce] is
    no parent, [zend_register_internal_interface], [zend_class_implements], where a null
    interface is dereferenced, the flags that the code sets itself, and the
    declarations. *)
Definition run_step (use_namespace : bool) (t : class_table) (s : step) : option class_table :=
  match s with
  | RegisterClass ce name_ns parent =>
      let c := new_class ce (if use_namespace then name_ns else ce) [] in
      c ← match parent ≫= lookup_class t with
          | Some parent => zend_do_inheritance c parent
          | None => Some c
          end;
      Some (t ++ [c])
  | RegisterInterface ce name_ns =>
      Some (t ++ [new_class ce (if use_namespace then name_ns else ce) [ZEND_ACC_INTERFACE]])
  | Implements ce interfaces =>
      foldM (λ t i, iface ← lookup_class t i;
                    on_class ce (λ c, zend_do_implement_interface (parent_ifaces t c) iface c) t) t interfaces
  | OrFlag ce f => on_class ce (λ c, Some (c <| cl_flags := f :: cl_flags c |>)) t
  | SetFlag ce f => on_class ce (λ c, Some (c <| cl_flags := [f] |>)) t
  | DeclareProperty ce name def acc => on_class ce (zend_declare_property_ex name def false acc) t
  | DeclareStatic ce name acc => on_class ce (zend_declare_property_ex name ZNull true acc) t
  | DeclareConstant ce name v => on_class ce (zend_declare_class_constant_ex name v) t
  end.

Definition run_steps (use_namespace : bool) (steps : list step) (t : class_table) : option class_table :=
  foldM (run_step use_namespace) t steps.

(** ** The startup functions *)

Definition null_properties (ce : zstr) (acc : access) (names : list zstr) : list step :=
  map (λ name, DeclareProperty ce name ZNull acc) names.

Definition startup_application (environ_name : zstr) : list step :=
  [RegisterClass "Yaf_Application" "Yaf\Application" None; OrFlag "Yaf_Application" ZEND_ACC_FINAL;
   DeclareProperty "Yaf_Application" "config" ZNull ZEND_ACC_PROTECTED;
   DeclareProperty "Yaf_Application" "dispatcher" ZNull ZEND_ACC_PROTECTED;
   DeclareStatic "Yaf_Application" "_app" ZEND_ACC_PROTECTED;
   DeclareProperty "Yaf_Application" "_modules" ZNull ZEND_ACC_PROTECTED;
   DeclareProperty "Yaf_Application" "_running" (ZBool false) ZEND_ACC_PROTECTED;
   DeclareProperty "Yaf_Application" "_environ" (ZStr (cstr environ_name)) ZEND_ACC_PROTECTED;
   DeclareProperty "Yaf_Application" "_err_no" (ZLong 0) ZEND_ACC_PROTECTED;
   DeclareProperty "Yaf_Application" "_err_msg" (ZStr "") ZEND_ACC_PROTECTED].

Definition startup_bootstrap : list step :=
  [RegisterClass "Yaf_Bootstrap_Abstract" "Yaf\Bootstrap_Abstract" None;
   OrFlag "Yaf_Bootstrap_Abstract" ZEND_ACC_EXPLICIT_ABSTRACT_CLASS].

Definition startup_dispatcher : list step :=
  [RegisterClass "Yaf_Dispatcher" "Yaf\Dispatcher" None; OrFlag "Yaf_Dispatcher" ZEND_ACC_FINAL] ++
  null_properties "Yaf_Dispatcher" ZEND_ACC_PROTECTED ["_router"; "_view"; "_request"; "_plugins"] ++
  [DeclareStatic "Yaf_Dispatcher" "_instance" ZEND_ACC_PROTECTED;
   DeclareProperty "Yaf_Dispatcher" "_auto_render" (ZBool true) ZEND_ACC_PROTECTED;
   DeclareProperty "Yaf_Dispatcher" "_return_response" (ZBool false) ZEND_ACC_PROTECTED;
   DeclareProperty "Yaf_Dispatcher" "_instantly_flush" (ZBool false) ZEND_ACC_PROTECTED] ++
  null_properties "Yaf_Dispatcher" ZEND_ACC_PROTECTED ["_default_module"; "_default_controller"; "_default_action"].

Definition startup_loader : list step :=
  [RegisterClass "Yaf_Loader" "Yaf\Loader" None; OrFlag "Yaf_Loader" ZEND_ACC_FINAL] ++
  null_properties "Yaf_Loader" ZEND_ACC_PROTECTED ["_library"; "_global_library"] ++
  [DeclareStatic "Yaf_Loader" "_instance" ZEND_ACC_PROTECTED].

Definition startup_request_http : list step :=
  [RegisterClass "Yaf_Request_Http" "Yaf\Request\Http" (Some ("Yaf_Request_Abstract" : zstr));
   DeclareConstant "Yaf_Request_Abstract" "SCHEME_HTTP" (ZStr "http");
   DeclareConstant "Yaf_Request_Abstract" "SCHEME_HTTPS" (ZStr "https")].
Definition startup_request_simple : list step :=
  [RegisterClass "Yaf_Request_Simple" "Yaf\Request\Simple" (Some ("Yaf_Request_Abstract" : zstr));
   OrFlag "Yaf_Request_Simple" ZEND_ACC_FINAL].
Definition startup_request : list step :=
  [RegisterClass "Yaf_Request_Abstract" "Yaf\Request_Abstract" None;
   SetFlag "Yaf_Request_Abstract" ZEND_ACC_EXPLICIT_ABSTRACT_CLASS] ++
  null_properties "Yaf_Request_Abstract" ZEND_ACC_PUBLIC ["module"; "controller"; "action"; "method"] ++
  null_properties "Yaf_Request_Abstract" ZEND_ACC_PROTECTED ["params"; "language"; "_exception"] ++
  [DeclareProperty "Yaf_Request_Abstract" "_base_uri" (ZStr "") ZEND_ACC_PROTECTED;
   DeclareProperty "Yaf_Request_Abstract" "uri" (ZStr "") ZEND_ACC_PROTECTED;
   DeclareProperty "Yaf_Request_Abstract" "dispatched" (ZBool false) ZEND_ACC_PROTECTED;
   DeclareProperty "Yaf_Request_Abstract" "routed" (ZBool false) ZEND_ACC_PROTECTED] ++
  startup_request_http ++ startup_request_simple.

Definition startup_response_http : list step :=
  [RegisterClass "Yaf_Response_Http" "Yaf\Response\Http" (Some ("Yaf_Response_Abstract" : zstr));
   DeclareProperty "Yaf_Response_Http" "_sendheader" (ZBool true) ZEND_ACC_PROTECTED;
   DeclareProperty "Yaf_Response_Http" "_response_code" (ZLong 0) ZEND_ACC_PROTECTED].
Definition startup_response_cli : list step :=
  [RegisterClass "Yaf_Response_Cli" "Yaf\Response\Cli" (Some ("Yaf_Response_Abstract" : zstr))].
Definition startup_response : list step :=
  [RegisterClass "Yaf_Response_Abstract" "Yaf\Response_Abstract" None;
   OrFlag "Yaf_Response_Abstract" ZEND_ACC_EXPLICIT_ABSTRACT_CLASS] ++
  null_properties "Yaf_Response_Abstract" ZEND_ACC_PROTECTED ["_header"; "_body"] ++
  [DeclareProperty "Yaf_Response_Abstract" "_sendheader" (ZBool false) ZEND_ACC_PROTECTED;
   DeclareConstant "Yaf_Response_Abstract" "DEFAULT_BODY" (ZStr YAF_RESPONSE_PROPERTY_NAME_DEFAULTBODY)] ++
  startup_response_http ++ startup_response_cli.

Definition startup_controller : list step :=
  [RegisterClass "Yaf_Controller_Abstract" "Yaf\Controller_Abstract" None;
   OrFlag "Yaf_Controller_Abstract" ZEND_ACC_EXPLICIT_ABSTRACT_CLASS;
   DeclareProperty "Yaf_Controller_Abstract" "actions" ZNull ZEND_ACC_PUBLIC] ++
  null_properties "Yaf_Controller_Abstract" ZEND_ACC_PROTECTED
    ["_module"; "_name"; "_request"; "_response"; "_invoke_args"; "_view"].
Definition startup_action : list step :=
  [RegisterClass "Yaf_Action_Abstract" "Yaf\Action_Abstract" (Some ("Yaf_Controller_Abstract" : zstr));
   OrFlag "Yaf_Action_Abstract" ZEND_ACC_IMPLICIT_ABSTRACT_CLASS;
   DeclareProperty "Yaf_Action_Abstract" "_controller" ZNull ZEND_ACC_PROTECTED].

(** With the SPL extension, which provides [Countable]. *)
Definition collection_interfaces : list zstr := ["Iterator"; "ArrayAccess"; "Countable"].
Definition startup_config_ini : list step :=
  [RegisterClass "Yaf_Config_Ini" "Yaf\Config\Ini" (Some ("Yaf_Config_Abstract" : zstr));
   Implements "Yaf_Config_Ini" collection_interfaces; OrFlag "Yaf_Config_Ini" ZEND_ACC_FINAL].
Definition startup_config_simple : list step :=
  [RegisterClass "Yaf_Config_Simple" "Yaf\Config\Simple" (Some ("Yaf_Config_Abstract" : zstr));
   Implements "Yaf_Config_Simple" collection_interfaces;
   DeclareProperty "Yaf_Config_Simple" "_readonly" (ZBool false) ZEND_ACC_PROTECTED; OrFlag "Yaf_Config_Simple" ZEND_ACC_FINAL].
Definition startup_config : list step :=
  [RegisterClass "Yaf_Config_Abstract" "Yaf\Config_Abstract" None;
   OrFlag "Yaf_Config_Abstract" ZEND_ACC_EXPLICIT_ABSTRACT_CLASS;
   DeclareProperty "Yaf_Config_Abstract" "_config" ZNull ZEND_ACC_PROTECTED;
   DeclareProperty "Yaf_Config_Abstract" "_readonly" (ZBool true) ZEND_ACC_PROTECTED] ++
  startup_config_ini ++ startup_config_simple.

Definition startup_view_interface : list step := [RegisterInterface "Yaf_View_Interface" "Yaf\View_Interface"].
Definition startup_view_simple : list step :=
  [RegisterClass "Yaf_View_Simple" "Yaf\View\Simple" None] ++
  null_properties "Yaf_View_Simple" ZEND_ACC_PROTECTED ["_tpl_vars"; "_tpl_dir"; "_options"] ++
  [Implements "Yaf_View_Simple" ["Yaf_View_Interface" : zstr]].
Definition startup_view : list step := startup_view_interface ++ startup_view_simple.

(** The routes; only [Yaf_Route_Static] is named without a separator in its namespaced
    form. *)
Definition startup_route_interface : list step := [RegisterInterface "Yaf_Route_Interface" "Yaf\Route_Interface"].
Definition implements_route (ce : zstr) : step := Implements ce ["Yaf_Route_Interface" : zstr].
Definition startup_route_static : list step :=
  [RegisterClass "Yaf_Route_Static" "Yaf\Route_Static" None; implements_route "Yaf_Route_Static"].
Definition startup_route_simple : list step :=
  [RegisterClass "Yaf_Route_Simple" "Yaf\Route\Simple" None; implements_route "Yaf_Route_Simple";
   OrFlag "Yaf_Route_Simple" ZEND_ACC_FINAL] ++
  null_properties "Yaf_Route_Simple" ZEND_ACC_PROTECTED ["controller"; "module"; "action"].
Definition startup_route_supervar : list step :=
  [RegisterClass "Yaf_Route_Supervar" "Yaf\Route\Supervar" None; implements_route "Yaf_Route_Supervar";
   OrFlag "Yaf_Route_Supervar" ZEND_ACC_FINAL; DeclareProperty "Yaf_Route_Supervar" "_var_name" ZNull ZEND_ACC_PROTECTED].
Definition startup_route_rewrite : list step :=
  [RegisterClass "Yaf_Route_Rewrite" "Yaf\Route\Rewrite" None; implements_route "Yaf_Route_Rewrite";
   OrFlag "Yaf_Route_Rewrite" ZEND_ACC_FINAL] ++
  null_properties "Yaf_Route_Rewrite" ZEND_ACC_PROTECTED ["_route"; "_default"; "_verify"].
Definition startup_route_regex : list step :=
  [RegisterClass "Yaf_Route_Regex" "Yaf\Route\Regex" None; implements_route "Yaf_Route_Regex";
   OrFlag "Yaf_Route_Regex" ZEND_ACC_FINAL] ++
  null_properties "Yaf_Route_Regex" ZEND_ACC_PROTECTED ["_route"; "_default"; "_maps"; "_verify"; "_reverse"].
Definition startup_route_map : list step :=
  [RegisterClass "Yaf_Route_Map" "Yaf\Route\Map" None; implements_route "Yaf_Route_Map";
   OrFlag "Yaf_Route_Map" ZEND_ACC_FINAL; DeclareProperty "Yaf_Route_Map" "_ctl_router" (ZBool false) ZEND_ACC_PROTECTED;
   DeclareProperty "Yaf_Route_Map" "_delimiter" ZNull ZEND_ACC_PROTECTED].
Definition startup_router : list step :=
  [RegisterClass "Yaf_Router" "Yaf\Router" None; OrFlag "Yaf_Router" ZEND_ACC_FINAL] ++
  null_properties "Yaf_Router" ZEND_ACC_PROTECTED ["_routes"; "_current"] ++
  startup_route_interface ++ startup_route_static ++ startup_route_simple ++ startup_route_supervar ++
  startup_route_rewrite ++ startup_route_regex ++ startup_route_map.

Definition startup_plugin : list step :=
  [RegisterClass "Yaf_Plugin_Abstract" "Yaf\Plugin_Abstract" None;
   OrFlag "Yaf_Plugin_Abstract" ZEND_ACC_EXPLICIT_ABSTRACT_CLASS].
Definition startup_registry : list step :=
  [RegisterClass "Yaf_Registry" "Yaf\Registry" None; OrFlag "Yaf_Registry" ZEND_ACC_FINAL;
   DeclareStatic "Yaf_Registry" "_instance" ZEND_ACC_PROTECTED; DeclareProperty "Yaf_Registry" "_entries" ZNull ZEND_ACC_PROTECTED].
Definition startup_session : list step :=
  [RegisterClass "Yaf_Session" "Yaf\Session" None; OrFlag "Yaf_Session" ZEND_ACC_FINAL;
   Implements "Yaf_Session" collection_interfaces; DeclareStatic "Yaf_Session" "_instance" ZEND_ACC_PROTECTED;
   DeclareProperty "Yaf_Session" "_session" ZNull ZEND_ACC_PROTECTED; DeclareProperty "Yaf_Session" "_started" (ZBool false) ZEND_ACC_PROTECTED].

(** [yaf_get_exception_base] is [Exception]: the dependency on SPL is not compiled in. *)
Definition startup_exception : list step :=
  [RegisterClass "Yaf_Exception" "Yaf\Exception" (Some ("Exception" : zstr));
   DeclareProperty "Yaf_Exception" "message" ZNull ZEND_ACC_PROTECTED; DeclareProperty "Yaf_Exception" "code" (ZLong 0) ZEND_ACC_PROTECTED;
   DeclareProperty "Yaf_Exception" "previous" ZNull ZEND_ACC_PROTECTED;
   RegisterClass "Yaf_Exception_StartupError" "Yaf\Exception\StartupError" (Some ("Yaf_Exception" : zstr));
   RegisterClass "Yaf_Exception_RouterFailed" "Yaf\Exception\RouterFailed" (Some ("Yaf_Exception" : zstr));
   RegisterClass "Yaf_Exception_DispatchFailed" "Yaf\Exception\DispatchFailed" (Some ("Yaf_Exception" : zstr));
   RegisterClass "Yaf_Exception_LoadFailed" "Yaf\Exception\LoadFailed" (Some ("Yaf_Exception" : zstr));
   RegisterClass "Yaf_Exception_LoadFailed_Module" "Yaf\Exception\LoadFailed\Module" (Some ("Yaf_Exception_LoadFailed" : zstr));
   RegisterClass "Yaf_Exception_LoadFailed_Controller" "Yaf\Exception\LoadFailed\Controller" (Some ("Yaf_Exception_LoadFailed" : zstr));
   RegisterClass "Yaf_Exception_LoadFailed_Action" "Yaf\Exception\LoadFailed\Action" (Some ("Yaf_Exception_LoadFailed" : zstr));
   RegisterClass "Yaf_Exception_LoadFailed_View" "Yaf\Exception\LoadFailed\View" (Some ("Yaf_Exception_LoadFailed" : zstr));
   RegisterClass "Yaf_Exception_TypeError" "Yaf\Exception\TypeError" (Some ("Yaf_Exception" : zstr))].

(** The classes of PHP that the module refers to, without the private properties of
    [Exception]. *)
Definition php_steps : list step :=
  [RegisterInterface "Traversable" "Traversable"; RegisterInterface "Iterator" "Iterator";
   Implements "Iterator" ["Traversable" : zstr]; RegisterInterface "ArrayAccess" "ArrayAccess";
   RegisterInterface "Countable" "Countable"; RegisterInterface "Throwable" "Throwable";
   RegisterClass "Exception" "Exception" None; Implements "Exception" ["Throwable" : zstr];
   DeclareProperty "Exception" "message" (ZStr "") ZEND_ACC_PROTECTED; DeclareProperty "Exception" "code" (ZLong 0) ZEND_ACC_PROTECTED;
   DeclareProperty "Exception" "file" ZNull ZEND_ACC_PROTECTED; DeclareProperty "Exception" "line" ZNull ZEND_ACC_PROTECTED].

(** [PHP_MINIT_FUNCTION(yaf)]: the startup functions in its order. *)
Definition minit (environ_name : zstr) : list step :=
  startup_application environ_name ++ startup_bootstrap ++ startup_dispatcher ++ startup_loader ++ startup_request ++
  startup_response ++ startup_controller ++ startup_action ++ startup_config ++ startup_view ++ startup_router ++
  startup_plugin ++ startup_registry ++ startup_session ++ startup_exception.

Definition started (use_namespace : bool) (environ_name : zstr) : option class_table :=
  run_steps use_namespace (php_steps ++ minit environ_name) [].

(** ** What the startup leaves *)












(** The exception classes of the framework. *)
Definition yaf_exceptions : list exn_class := Yaf_Exception :: omap id yaf_buildin_exceptions.
(** What the code asks [instanceof] of Yaf's own classes. *)
Definition expected_instances : list (zstr * zstr) :=
  [("Yaf_Action_Abstract" : zstr, YAF_CONTROLLER_CLASS); ("Yaf_Request_Http" : zstr, YAF_REQUEST_CLASS);
   ("Yaf_Request_Simple" : zstr, YAF_REQUEST_CLASS); (YAF_VIEW_SIMPLE, "Yaf_View_Interface" : zstr);
   ("Yaf_Config_Ini" : zstr, "Yaf_Config_Abstract" : zstr); ("Yaf_Config_Simple" : zstr, "Yaf_Config_Abstract" : zstr);
   ("Yaf_Config_Simple" : zstr, "Iterator" : zstr); ("Yaf_Session" : zstr, "Countable" : zstr);
   ("Yaf_Response_Cli" : zstr, "Yaf_Response_Abstract" : zstr)] ++
  map (λ rt : zstr, (rt, "Yaf_Route_Interface" : zstr))
    ["Yaf_Route_Static"; "Yaf_Route_Simple"; "Yaf_Route_Supervar"; "Yaf_Route_Map"; "Yaf_Route_Rewrite"; "Yaf_Route_Regex"].

Definition hierarchy_ok (t : class_table) : bool :=
  let super_of := instanceof_function t in
  forallb (λ c, forallb (λ d, Bool.eqb (super_of (exn_name c) (exn_name d)) (exn_instanceof c d)) yaf_exceptions &&
                super_of (exn_name c) "Throwable") yaf_exceptions &&
  forallb (λ p, super_of p.1 p.2) expected_instances.

Lemma started_hierarchy use_namespace environ_name :
  ∃ t, started use_namespace environ_name = Some t ∧ hierarchy_ok t = true.
Proof.
  unfold started, minit, startup_application. generalize (cstr environ_name) as env. intros env.
  by destruct use_namespace; eexists; (split; [vm_compute; reflexivity|vm_compute; reflexivity]).
Qed.

(** The classes that the startup registers are related as the other files have it:
    the exception classes of the framework by the table that the dispatcher consults,
    all of them below [Exception], and the classes whose instances the code asks for. *)
Theorem startup_hierarchy use_namespace environ_name :
  ∃ t, started use_namespace environ_name = Some t ∧
    (∀ c d, c ∈ yaf_exceptions → d ∈ yaf_exceptions →
       instanceof_function t (exn_name c) (exn_name d) = exn_instanceof c d ∧
       instanceof_function t (exn_name c) "Throwable" = true) ∧
    ∀ ce super, (ce, super) ∈ expected_instances → instanceof_function t ce super = true.
Proof.
  destruct (started_hierarchy use_namespace environ_name) as (t & Ht & Hok). exists t. split; [done|].
  unfold hierarchy_ok in Hok. apply andb_true_iff in Hok as [He Hi]. rewrite forallb_forall in He, Hi. split.
  - intros c d Hc Hd. specialize (He c (proj1 (list_elem_of_In _ _) Hc)). apply andb_true_iff in He as [He ?].
    rewrite forallb_forall in He. specialize (He d (proj1 (list_elem_of_In _ _) Hd)). cbv beta in He.
    apply Bool.eqb_prop in He. split; assumption.
  - intros ce super Hin. by apply (Hi (ce, super)), list_elem_of_In.
Qed.
